(* ===== verification/_CoqProject ===== *)
-Q . S2P
Prelude.v
CLib.v
Layout.v
StructsX86.v
StructsArm.v
Versions.v
Context.v
OptionFields.v
Zval.v
ZvalSpec.v
ZvalTheorems.v
Trace.v
TraceSafe.v
Fout.v
FoutSpec.v
FoutWrite.v
FoutHandler.v
FoutTheorems.v
FoutThreads.v
FoutStream.v
FoutInterleave.v
FoutSerial.v
TraceStable.v
TraceTheorems.v
AddrObjdump.v
Clock.v
Session.v
SessionTheorems.v
Usage.v
Options.v
OptionsTheorems.v
UsageTheorems.v
Uthash.v
Callgrind.v
CallgrindSpec.v
CallgrindTheorems.v
Top.v
TopTheorems.v
TopScreen.v
Pgrep.v
PgrepTheorems.v
PgrepFair.v
PgrepLimit.v
Memory.v
HeapLogic.v
UthashHeap.v
TableHeap.v
SortHeap.v
PeekTables.v
CallgrindHeap.v
CallgrindDump.v
Runs.v
Main.v
Process.v
