(* ===== verification/Prelude.v ===== *)
(** * phpspy: a verified model of a sampling profiler for PHP

    phpspy reads the memory of a running PHP process several times a second and
    writes the call stacks it finds.  This library models the C program function
    by function and proves what makes it a correct profiler.

    ** The program and the files

    - The Zend structures ([src/structs/]).  [StructsX86] and [StructsArm] hold
      the headers of the twelve PHP versions as data; [Layout] computes
      [sizeof] and [offsetof] from them; [Versions] models the template
      instances, the detection table and the dispatch chain ([phpspy.c],
      [phpspy_trace_tpl.c]).
    - The target and the events ([src/phpspy.h], [copy_proc_mem]).  [Context]:
      the structures, the option globals, reads of the target's memory, and the
      callback interface through which the tracer talks to an output handler.
    - The value printers and the hash lookup ([src/phpspy_trace.c],
      [phpspy_zend_inline_hash_func]).  [Zval], with [ZvalSpec] and
      [ZvalTheorems].
    - The tracer ([src/phpspy_trace.c]).  [Trace]: [do_trace] and all it calls;
      [TraceSafe], [TraceStable] and [TraceTheorems].
    - The trace writer ([src/event_fout.c]).  [Fout], with [FoutSpec],
      [FoutWrite], [FoutHandler] and [FoutTheorems]; as a program of atomic
      actions that many threads run at once in [FoutThreads]; [FoutStream] has
      the bytes of such a run and their reader, [FoutInterleave] and [FoutSerial]
      the theorems.
    - The profile writer ([src/event_callgrind.c]).  [Callgrind], with
      [CallgrindSpec] and [CallgrindTheorems]; [Uthash] has its hash tables as
      lists of entries.
    - The hash tables as pointers ([src/vendor/uthash.h]).  [Memory]: a heap of
      blocks and the uthash macros on it; [HeapLogic]: a separation logic for
      it; [UthashHeap], [TableHeap] and [SortHeap] verify the macros;
      [PeekTables] ([varpeek_add], [glopeek_add], [cleanup]) and
      [CallgrindHeap], [CallgrindDump] (the callers and callees of a profile,
      [callgrind_free]) use them.
    - Symbol addresses ([src/addr_objdump.c]).  [AddrObjdump].
    - The command line ([parse_opts] and helpers).  [OptionFields], [Options],
      [OptionsTheorems]; the help text in [Usage], [UsageTheorems].
    - Sampling one process ([main_pid], [find_addresses], [get_php_version],
      clocks, pausing).  [Clock], [Session], [SessionTheorems]; [Runs] puts it
      together with the two handlers.
    - Many processes ([src/pgrep.c]).  [Pgrep], [PgrepTheorems], [PgrepFair];
      the trace limit that the workers share ([main_pid]) in [PgrepLimit].
    - The interactive view ([src/top.c]).  [Top], [TopTheorems], [TopScreen].
    - [main], [main_fork], [redirect_child_stdio].  [Main]; descriptors, pipes
      and children, with the child side of [fork], in [Process].
    - [Prelude] (this file) has the state monad, machine integers, buffers and
      shared lemmas; [CLib] what is used of the C library.

    ** How the code is modelled

    A C function is a computation in the monad [M] over an explicit state: it
    returns ([Done]), runs into undefined behaviour or an abort ([Fault]), or
    does not return within its fuel ([Diverge]).  Stores outside an object,
    reads past its end, divisions by zero, uses after free and self-deadlock are
    faults, so a theorem that says [Done] says they do not happen.  Integers are
    [Z] with the wrap-around of their C type written out ([u32], [u64], [s32],
    [s64]); objects are lists of bytes of their size.  [parse_opts] has its own
    monad, in which [usage] ends the program.  The operating system appears as
    parameters: reads of the target (an oracle indexed by the number of reads,
    since the target runs meanwhile), [writev], [open], the shell, clocks,
    [ptrace], [select], [qsort].  The threads of pgrep mode are program counters
    over the shared statics with a step relation, as each of their interleavings
    matters.  For the writer the steps are the lock, the unlock, the atomic
    increment and those of each [writev]: up to [PIPE_BUF] bytes ([os_pipe_buf])
    are written in one step, of a longer one any part may come out while other
    threads act, and the result may be short or an error; between the steps a
    thread touches only its own buffer, and run alone the program is the function
    of [Fout].  Floating-point numbers are pairs [(m, ex)] for [m * 2^ex], rounded half to even after each
    operation.

    Components meet at interfaces: the class [EventHandler] is the callback,
    [HandlerSafe] what the tracer needs of a handler, [HandlerLife] what
    [main_pid] needs; both handlers have instances, and the theorems of the
    tracer and of the sampling loop are proved against the classes.  A hash table
    is a list of entries where the order of insertion is all that matters; that
    the pointer code behaves like these lists is proved separately, in Iris.

    ** What is proved

    - The headers ([Versions]): computed offsets agree with the comments, fields
      lie inside their structures and apart, and the slot of the first local
      variable is PHP's, for every version and architecture.
    - The trace ([TraceTheorems]): a sample of a stable stack is written
      exactly, in order, with the configured elision (end to end, through the
      writer); for any memory [do_trace] keeps its protocol with the handler and
      never faults; it returns within stated fuel.
    - The writer ([FoutTheorems]): what reaches the file is the records of the
      sample, whole or in chunks that a reader can put together again; writes
      are bounded; nothing is lost unless it is marked as truncated.
    - Parallel writers ([FoutInterleave], [FoutSerial]): in every interleaving of
      any number of workers the writes are those each trace makes alone; if none
      is above [PIPE_BUF], a reader of the bytes finds the messages of the writes,
      and the chunks of a trace by its id, in order ([large_writes_mix] shows that
      larger writes can be torn); with the mutex the traces follow each other
      whole, at any size; there is no deadlock and no endless run.
    - Values ([ZvalTheorems]): the printers render PHP values and stay inside
      their buffer; the hash lookup finds the bucket of a key; the hash function
      is PHP's.
    - The profile ([CallgrindTheorems]): the callgrind file counts, per function
      and per call, the samples that were sent, sorted.
    - Options ([OptionsTheorems]): what the other parts assume of the options
      holds after parsing; parsing ends; line ranges of [-e] are what the tracer
      looks up; the help text ([UsageTheorems]) and the parser agree.
    - Memory ([PeekTables], [CallgrindDump]): for any hash function the pointer
      code of the tables never follows a null or freed pointer, holds and prints
      what the lists have, and frees every block.
    - Runs ([Runs], [SessionTheorems], [Clock], [Main]): what a whole run of
      [main_pid] writes or counts, from its options and what the target's memory
      shows at each sample; one [INIT] and one [DEINIT]
      around the samples, the trace limit, balanced pausing, sleep times, version
      detection.
    - Many processes ([PgrepTheorems]): an invariant of all reachable states
      (mutual exclusion, no process traced twice, bounds), termination without
      deadlock once [done] is set, and ([PgrepFair]) that under a fair scheduler
      a signal or the alarm of [-i] ends the program; ([PgrepLimit]) how far the
      workers can exceed the trace limit, and that reaching it is announced.
    - The view ([TopTheorems], [TopScreen], [Process]): the totals are those of the
      child's lines however they arrive; the trace writer's frames are read back;
      the most active functions are shown, with a percentage that is right to
      0.00503; the child writes into the pipes that the parent reads,
      and no descriptor or child is left behind.
    - A traced command ([Main], [Process]): the descriptors it runs with, and the
      exit status.
    - Symbol addresses ([AddrObjdump]): shell quoting round trip, the value
      computed.

    Some theorems show behaviour that differs from what the code or its comments
    intend: [strip_one_line], [copy_zarray_bucket_int_key],
    [copy_zarray_bucket_zero_mask], [sprint_zval_unbounded],
    [trace_pdo_query_slot], [request_uri_overread], [varpeek_add_endless],
    [glopeek_add_prefix], [callgrind_push_recounts], [filter_child_args_gaps],
    [late_calls], [lost_message], [open_bad_format].

    ** Fuel and bounds

    The recursion between the value printers and the walk along a hash chain
    follow the target's memory and may not end; they take fuel, and the theorems
    that they return state how much is enough (the depth of the value, the
    length of the chain).  The buffer of the writer doubles at most 22 times
    ([DOUBLE_FUEL]); the chunk loop, the line loops of top mode and the option
    loop take the length of their input, which each turn shortens.  The sampling
    loop takes a number of turns: it runs until [done], a limit or the death of
    the target, so the theorems assume that [done] is set within them.  The
    loops over chains and lists of a hash table take the number of allocated
    blocks, none of which they visit twice, and it is proved to be enough.  The
    number of buckets of a table is not wrapped at 32 bits.

    ** Not modelled

    Builds with [USE_ZEND]; failure of [malloc] other than the writer's
    [realloc]; messages on stderr ([log_error], [log_perror]), on which nothing
    depends; signal masks, as a signal may come at any step of the model anyway.
    Of the vendored libraries only the uthash macros that the program uses are
    modelled, with any function as the hash function; what termbox does with the
    texts that [display] prints is not.  The descriptors of parallel writers are
    taken to be duplicates of one another, as [event_handler_fout_open] makes them
    without [%d] in the path, so that their bytes form one output.  Signed
    overflow, which C leaves undefined, has its two's complement result
    ([elision], [copy_zarray_bucket]).  The Perl and shell scripts and the tests
    are not part of the program's own C code. *)
From stdpp Require Export base list option strings gmap.
From Stdlib Require Export ZArith Lia Ascii Sorted.
Open Scope Z_scope.

(** ** Outcomes and the state monad of the C functions

    A C function is a computation over a state [W].  It either returns
    ([Done]), runs into undefined behaviour or an abort ([Fault]), or does not
    return within the fuel it was given ([Diverge]). *)

Inductive fault := DivByZero | OutOfBounds | OverRead | AssertFailed | UseAfterFree | Deadlock.

Inductive outcome (A : Type) : Type :=
| Done (a : A)
| Fault (f : fault)
| Diverge.
Arguments Done {A} _.
Arguments Fault {A} _.
Arguments Diverge {A}.

Definition M (W A : Type) : Type := W -> outcome (A * W).

#[export] Instance M_ret {W} : MRet (M W) := fun A a w => Done (a, w).
#[export] Instance M_bind {W} : MBind (M W) := fun A B k m w =>
  match m w with
  | Done (a, w') => k a w'
  | Fault f => Fault f
  | Diverge => Diverge
  end.

Definition raise {W A} (f : fault) : M W A := fun _ => Fault f.
Definition diverge {W A} : M W A := fun _ => Diverge.
Definition get {W} : M W W := fun w => Done (w, w).
Definition put {W} (w : W) : M W unit := fun _ => Done (tt, w).
Definition modify {W} (f : W -> W) : M W unit := fun w => Done (tt, f w).

(** [wpx d m Q w]: started in [w], [m] does not fault, and if it returns, the
    result satisfies [Q]; [d] says what holds when it runs out of fuel, so
    [wp] is partial and [twp] total correctness. *)
Definition wpx {W A} (d : Prop) (m : M W A) (Q : A -> W -> Prop) (w : W) : Prop :=
  match m w with
  | Done (a, w') => Q a w'
  | Fault _ => False
  | Diverge => d
  end.

Abbreviation wp := (wpx True).
Abbreviation twp := (wpx False).

(** ** Machine integers *)

Definition wrap (bits : Z) (z : Z) : Z := z mod 2 ^ bits.
Definition swrap (bits : Z) (z : Z) : Z :=
  (z + 2 ^ (bits - 1)) mod 2 ^ bits - 2 ^ (bits - 1).
Abbreviation u8 := (wrap 8).
Abbreviation u32 := (wrap 32).
Abbreviation u64 := (wrap 64).
Abbreviation s8 := (swrap 8).
Abbreviation s32 := (swrap 32).
Abbreviation s64 := (swrap 64).

Definition INT_MAX : Z := 2 ^ 31 - 1.
Definition LONG_MAX : Z := 2 ^ 63 - 1.

(** ** Byte buffers

    A C character is an [ascii]; an object of [n] bytes is a list of length
    [n].  [poke m off bs] overwrites the bytes from [off] on. *)

Abbreviation bytes := (list ascii).

Definition cs (s : string) : bytes := String.list_ascii_of_string s.
Definition NUL : ascii := "000"%char.
Definition NL : ascii := "010"%char.
Definition TAB : ascii := "009"%char.

Definition poke {A} (m : list A) (off : nat) (bs : list A) : list A :=
  take off m ++ bs ++ drop (off + length bs) m.

Definition peek {A} (m : list A) (off n : nat) : list A := take n (drop off m).

(** A store into a fixed-size object faults when it leaves the object. *)
Definition store {W} (m : bytes) (off : nat) (bs : bytes) : M W bytes :=
  if bool_decide (off + length bs <= length m)%nat
  then mret (poke m off bs) else raise OutOfBounds.

(** ** Tactics and hints *)

Create HintDb phpspy.
Create Rewrite HintDb phpspy.

Ltac bdestruct_goal :=
  match goal with
  | |- context [bool_decide ?P] => case_bool_decide
  | |- context [if ?b then _ else _] => destruct b eqn:?
  end.

(** Evaluates one bind of a monadic hypothesis. *)
Ltac munfold H :=
  unfold mbind, M_bind, mret, M_ret, get, put, modify, raise, diverge in H.

(** ** Rules for [wpx] *)

Lemma wpx_ret {W A} d (a : A) (Q : A -> W -> Prop) w :
  Q a w -> wpx d (mret a) Q w.
Proof. done. Qed.

Lemma wpx_bind {W A B} d (m : M W A) (k : A -> M W B) (Q : B -> W -> Prop) w :
  wpx d m (fun a w' => wpx d (k a) Q w') w -> wpx d (m ≫= k) Q w.
Proof.
  unfold wpx, mbind, M_bind. destruct (m w) as [[a w']| |]; done.
Qed.

Lemma wpx_mono {W A} d (m : M W A) (P Q : A -> W -> Prop) w :
  wpx d m P w -> (forall a w', P a w' -> Q a w') -> wpx d m Q w.
Proof.
  unfold wpx. destruct (m w) as [[a w']| |]; auto.
Qed.

Lemma wpx_bind_mono {W A B} d (m : M W A) (k : A -> M W B) P (Q : B -> W -> Prop) w :
  wpx d m P w -> (forall a w', P a w' -> wpx d (k a) Q w') -> wpx d (m ≫= k) Q w.
Proof. intros Hm Hk. apply wpx_bind. eapply wpx_mono; eauto. Qed.

Lemma wpx_get {W} d (Q : W -> W -> Prop) w : Q w w -> wpx d get Q w.
Proof. done. Qed.

Lemma wpx_put {W} d w0 (Q : unit -> W -> Prop) w : Q tt w0 -> wpx d (put w0) Q w.
Proof. done. Qed.

Lemma wpx_modify {W} d f (Q : unit -> W -> Prop) w : Q tt (f w) -> wpx d (modify f) Q w.
Proof. done. Qed.

Lemma wpx_diverge {W A} (d : Prop) (Q : A -> W -> Prop) w : d -> wpx d diverge Q w.
Proof. done. Qed.

Lemma wpx_done {W A} d (m : M W A) Q w a w' :
  m w = Done (a, w') -> wpx d m Q w -> Q a w'.
Proof. unfold wpx. by intros ->. Qed.

Lemma wpx_intro_done {W A} d (m : M W A) (Q : A -> W -> Prop) w a w' :
  m w = Done (a, w') -> Q a w' -> wpx d m Q w.
Proof. unfold wpx. by intros ->. Qed.

Lemma twp_done {W A} (m : M W A) Q w :
  twp m Q w -> exists a w', m w = Done (a, w') /\ Q a w'.
Proof.
  unfold wpx. destruct (m w) as [[a w']| |]; [|done..]. eauto.
Qed.

Lemma bind_done {W A B} (m : M W A) (k : A -> M W B) w a w' :
  m w = Done (a, w') -> (m ≫= k) w = k a w'.
Proof. intros H. unfold mbind, M_bind. by rewrite H. Qed.

Lemma bind_fault {W A B} (m : M W A) (k : A -> M W B) w f : m w = Fault f -> (m ≫= k) w = Fault f.
Proof. intros H. unfold mbind, M_bind. by rewrite H. Qed.

Lemma bind_diverge {W A B} (m : M W A) (k : A -> M W B) w : m w = Diverge -> (m ≫= k) w = Diverge.
Proof. intros H. unfold mbind, M_bind. by rewrite H. Qed.

Lemma twp_wp {W A} (m : M W A) Q w : twp m Q w -> wp m Q w.
Proof. unfold wpx. destruct (m w) as [[a w']| |]; done. Qed.

#[export] Hint Resolve wpx_ret wpx_get wpx_put wpx_modify : phpspy.

(** ** Machine-integer lemmas *)

Lemma wrap_range b z : 0 <= b -> 0 <= wrap b z < 2 ^ b.
Proof. intros. apply Z.mod_pos_bound. lia. Qed.

Lemma wrap_small b z : 0 <= z < 2 ^ b -> wrap b z = z.
Proof. apply Z.mod_small. Qed.

Lemma swrap_small b z :
  0 < b -> - 2 ^ (b - 1) <= z < 2 ^ (b - 1) -> swrap b z = z.
Proof.
  intros Hb Hz. unfold swrap.
  assert (2 ^ b = 2 * 2 ^ (b - 1)) as E.
  { rewrite <-Z.pow_succ_r by lia. f_equal. lia. }
  rewrite Z.mod_small; lia.
Qed.

Lemma swrap_range b z : 0 < b -> - 2 ^ (b - 1) <= swrap b z < 2 ^ (b - 1).
Proof.
  intros Hb. unfold swrap.
  assert (2 ^ b = 2 * 2 ^ (b - 1)) as E.
  { rewrite <-Z.pow_succ_r by lia. f_equal. lia. }
  pose proof (Z.mod_pos_bound (z + 2 ^ (b - 1)) (2 ^ b)). lia.
Qed.

Lemma wrap_add_idemp b x y : wrap b (wrap b x + y) = wrap b (x + y).
Proof. unfold wrap. apply Zplus_mod_idemp_l. Qed.

Lemma wrap_mul_idemp b x y : wrap b (wrap b x * y) = wrap b (x * y).
Proof. unfold wrap. apply Zmult_mod_idemp_l. Qed.

(** ** List lemmas *)

Lemma filter_none {A} (P : A -> Prop) `{!forall x, Decision (P x)} l : (forall x, x ∈ l -> ~ P x) -> length (filter P l) = 0%nat.
Proof.
  induction l as [|x l IH]; intros Hno; [done|]. rewrite filter_cons_False by (apply Hno; left). apply IH. intros y Hy. apply Hno. by right.
Qed.

Lemma sorted_map {A B} (R : A -> A -> Prop) (S : B -> B -> Prop) (f : A -> B) l :
  (forall a b, R a b -> S (f a) (f b)) -> StronglySorted R l -> StronglySorted S (map f l).
Proof.
  intros Hf. induction 1 as [|x l Hs IH Hx]; cbn; constructor; [done|]. apply Forall_fmap. eapply Forall_impl; [exact Hx|]. intros y. apply Hf.
Qed.

(** ** Buffer lemmas *)

Section buffers.
Context {A : Type}.
Implicit Types m bs : list A.

Lemma length_poke m off bs :
  (off + length bs <= length m)%nat -> length (poke m off bs) = length m.
Proof.
  intros. unfold poke. rewrite !length_app, length_take, length_drop. lia.
Qed.

Lemma lookup_poke_out m off bs i :
  (off + length bs <= length m)%nat ->
  (i < off \/ off + length bs <= i)%nat -> poke m off bs !! i = m !! i.
Proof.
  intros Hb [Hi|Hi]; unfold poke.
  - rewrite lookup_app_l by (rewrite length_take; lia). by apply lookup_take_lt.
  - rewrite lookup_app_r by (rewrite length_take; lia).
    rewrite length_take, Nat.min_l by lia.
    rewrite lookup_app_r by lia. rewrite lookup_drop. f_equal. lia.
Qed.

Lemma peek_poke m off bs :
  (off + length bs <= length m)%nat -> peek (poke m off bs) off (length bs) = bs.
Proof.
  intros. unfold peek, poke.
  rewrite drop_app_length' by (rewrite length_take; lia).
  by rewrite take_app_length.
Qed.

Lemma take_poke m off bs :
  (off <= length m)%nat -> take off (poke m off bs) = take off m.
Proof.
  intros. unfold poke. rewrite take_app_le by (rewrite length_take; lia).
  by rewrite take_take, Nat.min_id.
Qed.

Lemma poke_nil m off : (off <= length m)%nat -> poke m off [] = m.
Proof. intros. unfold poke. simpl. rewrite Nat.add_0_r. apply take_drop. Qed.

Lemma length_peek m off n :
  (off + n <= length m)%nat -> length (peek m off n) = n.
Proof. intros. unfold peek. rewrite length_take, length_drop. lia. Qed.

(** Writes that may extend the object. *)
Lemma length_poke_max m off bs :
  (off <= length m)%nat -> length (poke m off bs) = Nat.max (length m) (off + length bs).
Proof. intros. unfold poke. rewrite !length_app, length_take, length_drop. lia. Qed.

Lemma take_poke_end m off bs :
  (off <= length m)%nat -> take (off + length bs) (poke m off bs) = take off m ++ bs.
Proof.
  intros. unfold poke. rewrite app_assoc.
  rewrite take_app_length'; [done|]. rewrite length_app, length_take. lia.
Qed.

Lemma lookup_poke_in m off bs i :
  (off <= length m)%nat -> (i < length bs)%nat -> poke m off bs !! (off + i)%nat = bs !! i.
Proof.
  intros. unfold poke. rewrite lookup_app_r by (rewrite length_take; lia).
  rewrite length_take, Nat.min_l by lia. rewrite lookup_app_l by lia. f_equal. lia.
Qed.

Lemma lookup_poke_head m off x bs : (off <= length m)%nat -> poke m off (x :: bs) !! off = Some x.
Proof.
  intros. pose proof (lookup_poke_in m off (x :: bs) 0) as Hp. rewrite Nat.add_0_r in Hp.
  apply Hp; simpl; lia.
Qed.

Lemma lookup_poke_after m off bs i :
  (off <= length m)%nat -> (off + length bs <= i)%nat -> poke m off bs !! i = m !! i.
Proof.
  intros. unfold poke. rewrite lookup_app_r by (rewrite length_take; lia).
  rewrite length_take, Nat.min_l by lia. rewrite lookup_app_r by lia.
  rewrite lookup_drop. f_equal. lia.
Qed.

Lemma take_poke_le m off bs n :
  (n <= off)%nat -> (off <= length m)%nat -> take n (poke m off bs) = take n m.
Proof.
  intros. unfold poke. rewrite take_app_le by (rewrite length_take; lia).
  rewrite take_take. f_equal. lia.
Qed.

End buffers.

Lemma store_ok {W} d m off bs (Q : bytes -> W -> Prop) w :
  (off + length bs <= length m)%nat ->
  Q (poke m off bs) w -> wpx d (store m off bs) Q w.
Proof. intros. unfold store. by rewrite bool_decide_true by done. Qed.

#[export] Hint Rewrite @length_poke @peek_poke @take_poke using lia : phpspy.
