(* ===== verification/CLib.v ===== *)
(** * CLib: the part of the C library that phpspy calls

    Executable models of the string, memory, conversion and formatting
    functions the sources use: [memchr], [memrchr], [strlen], [strcmp],
    [strchr], [strrchr], [strstr], [strncmp], [strtol], [strtoul(l)], and the
    conversions [%d %lu %s %.*s %c %f] of the [printf] family. *)
From S2P Require Import Prelude.

(** ** Searching *)

Fixpoint memchr (c : ascii) (m : bytes) : option nat :=
  match m with
  | [] => None
  | x :: r => if decide (x = c) then Some 0%nat else S <$> memchr c r
  end.

Fixpoint memrchr (c : ascii) (m : bytes) : option nat :=
  match m with
  | [] => None
  | x :: r =>
    match memrchr c r with
    | Some i => Some (S i)
    | None => if decide (x = c) then Some 0%nat else None
    end
  end.

(** The C string that starts at the first byte of [m]: what precedes the NUL. *)
Fixpoint cstr (m : bytes) : bytes :=
  match m with
  | [] => []
  | x :: r => if decide (x = NUL) then [] else x :: cstr r
  end.

Definition terminated (m : bytes) : bool := bool_decide (NUL ∈ m).

(** [%s] and [strlen] read past an object that holds no NUL. *)
Definition c_str {W} (m : bytes) : M W bytes :=
  if terminated m then mret (cstr m) else raise OverRead.

Definition strlen_at (m : bytes) (off : nat) : nat := length (cstr (drop off m)).

Definition strcmp_eq (a b : bytes) : bool := bool_decide (cstr a = cstr b).

Definition strchr (s : bytes) (c : ascii) : option nat := memchr c (cstr s).
Definition strrchr (s : bytes) (c : ascii) : option nat := memrchr c (cstr s).

(** [strncmp(a, b, n) == 0] on C strings: equal up to [n] bytes or the NUL. *)
Definition strncmp_eq (a b : bytes) (n : nat) : bool :=
  bool_decide (take n (cstr a) = take n (cstr b)).

Fixpoint prefix_of (p s : bytes) : bool :=
  match p, s with
  | [], _ => true
  | _ :: _, [] => false
  | x :: p', y :: s' => bool_decide (x = y) && prefix_of p' s'
  end.

Fixpoint strstr (s p : bytes) : option nat :=
  if prefix_of p s then Some 0%nat else
  match s with
  | [] => None
  | _ :: s' => S <$> strstr s' p
  end.

(** ** Formatting *)

Definition digit (d : Z) : ascii := ascii_of_N (Z.to_N (48 + d mod 10)).

Fixpoint dec_go (fuel : nat) (n : Z) (acc : bytes) : bytes :=
  match fuel with
  | O => acc
  | S f => if n <? 10 then digit n :: acc
           else dec_go f (n / 10) (digit (n mod 10) :: acc)
  end.

(** [%lu], [%llu] and friends: an unsigned number in decimal. *)
Definition fmt_u (n : Z) : bytes := dec_go (S (Z.to_nat (Z.log2 n))) n [].

(** [%d], [%ld]: a signed number in decimal. *)
Definition fmt_d (n : Z) : bytes :=
  if n <? 0 then "-"%char :: fmt_u (- n) else fmt_u n.

(** [%.*s] with precision [n]; a negative precision counts as none. *)
Definition fmt_prec (n : Z) (m : bytes) : bytes :=
  if n <? 0 then cstr m else cstr (take (Z.to_nat n) m).

(** [%f] of the double with the bit pattern [b], rounded half to even. *)
Definition round_half_even (num den : Z) : Z :=
  let q := num / den in
  let r := num mod den in
  if 2 * r <? den then q
  else if den <? 2 * r then q + 1
  else if Z.even q then q else q + 1.

(** A number with [k] digits or more. *)
Definition pad0 (k : nat) (n : Z) : bytes :=
  let s := fmt_u n in repeat "0"%char (k - length s) ++ s.

(** [m * 2^ex] in units of [10 ^ -k]. *)
Definition scaled (k : nat) (m ex : Z) : Z :=
  let unit := 10 ^ Z.of_nat k in
  if 0 <=? ex then m * unit * 2 ^ ex else round_half_even (m * unit) (2 ^ (- ex)).

(** [%.kf] of the non-negative value [m * 2^ex]. *)
Definition fmt_fixed (k : nat) (m ex : Z) : bytes :=
  let unit := 10 ^ Z.of_nat k in
  fmt_u (scaled k m ex / unit) ++ "."%char :: pad0 k (scaled k m ex mod unit).

(** [%f] *)
Definition fmt_f_abs (m ex : Z) : bytes := fmt_fixed 6 m ex.

(** [%-ws]: the text with blanks after it, [w] columns or more. *)
Definition fmt_left (w : nat) (s : bytes) : bytes := s ++ repeat " "%char (w - length s).

Definition fmt_f (b : Z) : bytes :=
  let sign := if Z.testbit b 63 then ["-"%char] else [] in
  let e := Z.land (Z.shiftr b 52) 2047 in
  let frac := Z.land b (2 ^ 52 - 1) in
  if e =? 2047 then sign ++ (if frac =? 0 then cs "inf" else cs "nan")
  else sign ++ fmt_f_abs (if e =? 0 then frac else frac + 2 ^ 52) (Z.max e 1 - 1075).

(** The floating-point number of [p] significant bits nearest to [num / den]
    (not negative, in the normal range), as [(m, ex)] for [m * 2^ex]. *)
Definition round_bits (p num den : Z) : Z * Z :=
  if num =? 0 then (0, 0) else
  let e0 := Z.log2 num - Z.log2 den in
  let e := if num * 2 ^ (Z.max 0 (- e0)) <? den * 2 ^ (Z.max 0 e0) then e0 - 1 else e0 in
  let sh := p - 1 - e in
  (round_half_even (num * 2 ^ Z.max 0 sh) (den * 2 ^ Z.max 0 (- sh)), - sh).

(** [double] and [float]. *)
Definition round_double : Z -> Z -> Z * Z := round_bits 53.
Definition round_float : Z -> Z -> Z * Z := round_bits 24.

(** [(double)(tv.tv_sec + tv.tv_usec / 1000000.0)], printed with [%f]. *)
Definition fmt_timeval (sec usec : Z) : bytes :=
  let '(m1, e1) := round_double usec 1000000 in
  let d := 2 ^ Z.max 0 (- e1) in
  let '(m, ex) := round_double (sec * d + m1 * 2 ^ Z.max 0 e1) d in
  fmt_f_abs m ex.

(** [asprintf(&s, path, n)] for a path from the command line: the path is the
    format.  [%%] prints a percent sign and the first [%d] the number; any other
    conversion counts as a fault, since it has no argument, or not the one it
    needs. *)
Fixpoint fmt_path (arg : option Z) (path : bytes) : outcome bytes :=
  match path with
  | [] => Done []
  | ["%"%char] => Fault OverRead
  | "%"%char :: c :: path' =>
    if bool_decide (c = "%"%char) then
      match fmt_path arg path' with Done s => Done ("%"%char :: s) | Fault f => Fault f | Diverge => Diverge end
    else match arg with
         | Some n =>
           if bool_decide (c = "d"%char) then
             match fmt_path None path' with Done s => Done (fmt_d n ++ s) | Fault f => Fault f | Diverge => Diverge end
           else Fault OverRead
         | None => Fault OverRead
         end
  | c :: path' => match fmt_path arg path' with Done s => Done (c :: s) | Fault f => Fault f | Diverge => Diverge end
  end.

(** [snprintf(m + off, size, ...)] with the formatted text [s] into an object
    [m]; its result is [length s]. *)
Definition snprintf {W} (m : bytes) (off size : nat) (s : bytes) : M W bytes :=
  match size with
  | O => mret m
  | S n => store m off (take n s ++ [NUL])
  end.

(** [snprintf] into a whole zero-initialised array of [size] bytes, read back
    as a C string: the text cut to [size - 1] bytes. *)
Definition snprintf_cstr (size : nat) (s : bytes) : bytes := cstr (take (size - 1) s).

(** ** Numeric conversions *)

Definition code (c : ascii) : Z := Z.of_N (N_of_ascii c).

Definition isspace (c : ascii) : bool :=
  (code c =? 32) || ((9 <=? code c) && (code c <=? 13)).

Definition digit_val (c : ascii) : Z :=
  let n := code c in
  if (48 <=? n) && (n <=? 57) then n - 48
  else if (97 <=? n) && (n <=? 122) then n - 87
  else if (65 <=? n) && (n <=? 90) then n - 55
  else 99.

Fixpoint scan_digits (base : Z) (s : bytes) (acc : Z) (n : nat) : Z * nat :=
  match s with
  | c :: r => if digit_val c <? base then scan_digits base r (acc * base + digit_val c) (S n)
              else (acc, n)
  | [] => (acc, n)
  end.

Fixpoint skip_spaces (s : bytes) (n : nat) : bytes * nat :=
  match s with
  | c :: r => if isspace c then skip_spaces r (S n) else (s, n)
  | [] => (s, n)
  end.

Definition scan_sign (s : bytes) : bool * bytes * nat :=
  match s with
  | "-"%char :: r => (true, r, 1%nat)
  | "+"%char :: r => (false, r, 1%nat)
  | _ => (false, s, 0%nat)
  end.

Definition scan_prefix (base : Z) (s : bytes) : bytes * nat :=
  match s with
  | "0"%char :: ("x"%char | "X"%char) :: c :: _ =>
    if (base =? 16) && (digit_val c <? 16) then (drop 2 s, 2%nat) else (s, 0%nat)
  | _ => (s, 0%nat)
  end.

(** The common part of [strtol] and [strtoull]: sign, magnitude, and how many
    bytes were consumed (0 when there is no number). *)
Definition scan_number (base : Z) (s : bytes) : bool * Z * nat :=
  let '(s1, n1) := skip_spaces s 0 in
  let '(neg, s2, n2) := scan_sign s1 in
  let '(s3, n3) := scan_prefix base s2 in
  let '(v, n) := scan_digits base s3 0 0 in
  if (n =? 0)%nat then (false, 0, 0%nat) else (neg, v, (n1 + n2 + n3 + n)%nat).

Definition strtol (s : bytes) (base : Z) : Z * nat :=
  let '(neg, v, n) := scan_number base s in
  (Z.max (- 2 ^ 63) (Z.min LONG_MAX (if neg : bool then - v else v)), n).

Definition strtoull (s : bytes) (base : Z) : Z * nat :=
  let '(neg, v, n) := scan_number base s in
  (if v <? 2 ^ 64 then u64 (if neg : bool then - v else v) else 2 ^ 64 - 1, n).

Definition atoi (s : bytes) : Z := s32 (fst (strtol s 10)).

(** ** Lemmas on searching *)

Lemma memchr_Some c m i :
  memchr c m = Some i -> m !! i = Some c /\ c ∉ take i m.
Proof.
  revert i; induction m as [|x m IH]; intros i; simpl; [done|].
  case_decide as Hx.
  - intros [= <-]. subst. split; [done|]. set_solver.
  - destruct (memchr c m) as [j|]; [|done]. intros [= <-].
    destruct (IH j eq_refl). split; [done|]. simpl. set_solver.
Qed.

Lemma memchr_None c m : memchr c m = None <-> c ∉ m.
Proof.
  induction m as [|x m IH]; simpl; [set_solver|].
  case_decide; [set_solver|]. rewrite not_elem_of_cons, <-IH.
  destruct (memchr c m); simpl; naive_solver.
Qed.

Lemma memrchr_Some c m i :
  memrchr c m = Some i -> m !! i = Some c /\ c ∉ drop (S i) m.
Proof.
  revert i; induction m as [|x m IH]; intros i; simpl; [done|].
  destruct (memrchr c m) as [j|] eqn:Hj.
  - intros [= <-]. by destruct (IH j eq_refl).
  - case_decide; [|done]. intros [= <-]. subst. split; [done|]. rewrite drop_0.
    clear IH. induction m as [|y m IHm]; [set_solver|]. simpl in Hj.
    destruct (memrchr c m); [done|]. case_decide; [done|]. set_solver.
Qed.

Lemma memrchr_None c m : memrchr c m = None <-> c ∉ m.
Proof.
  induction m as [|x m IH]; simpl; [set_solver|].
  rewrite not_elem_of_cons, <-IH.
  destruct (memrchr c m); [naive_solver|]. case_decide; naive_solver.
Qed.

Lemma memrchr_last c m : memrchr c (m ++ [c]) = Some (length m).
Proof.
  induction m as [|x m IH]; simpl; [by try rewrite decide_True by done|]. by rewrite IH.
Qed.

Lemma memrchr_lt c m i : memrchr c m = Some i -> (i < length m)%nat.
Proof. intros H. eapply lookup_lt_Some, memrchr_Some, H. Qed.

Lemma memchr_lt c m i : memchr c m = Some i -> (i < length m)%nat.
Proof. intros H. eapply lookup_lt_Some, memchr_Some, H. Qed.

(** ** Lemmas on C strings *)

Lemma cstr_no_nul m : NUL ∉ cstr m.
Proof. induction m as [|x m IH]; simpl; [set_solver|]. case_decide; set_solver. Qed.

Lemma cstr_id m : NUL ∉ m -> cstr m = m.
Proof.
  induction m as [|x m IH]; [done|]. intros H. simpl.
  rewrite decide_False by set_solver. rewrite IH; set_solver.
Qed.

Lemma cstr_idemp m : cstr (cstr m) = cstr m.
Proof. apply cstr_id, cstr_no_nul. Qed.

Lemma cstr_app_nul s r : NUL ∉ s -> cstr (s ++ NUL :: r) = s.
Proof.
  induction s as [|x s IH]; simpl; intros H; [by try rewrite decide_True by done|].
  rewrite decide_False by set_solver. rewrite IH; set_solver.
Qed.

Lemma cstr_app_nul' s r : cstr (s ++ NUL :: r) = cstr s.
Proof.
  induction s as [|x s IH]; simpl; [by try rewrite decide_True by done|].
  case_decide; congruence.
Qed.

Lemma length_cstr m : (length (cstr m) <= length m)%nat.
Proof. induction m as [|x m IH]; simpl; [lia|]. case_decide; simpl; lia. Qed.

Lemma cstr_lt m : NUL ∈ m -> (length (cstr m) < length m)%nat.
Proof.
  induction m as [|x m IH]; simpl; intros H; [set_solver|].
  case_decide; simpl; [lia|]. apply elem_of_cons in H as [H|H]; [done|].
  specialize (IH H). lia.
Qed.

Lemma elem_of_cstr x m : x ∈ cstr m -> x ∈ m.
Proof. induction m as [|y m IH]; simpl; [done|]. case_decide; set_solver. Qed.

Lemma terminated_app_nul s r : terminated (s ++ NUL :: r) = true.
Proof. apply bool_decide_true. set_solver. Qed.

Lemma strlen_at_snprintf m off s :
  (off + length s < length m)%nat ->
  strlen_at (poke m off (s ++ [NUL])) off = length (cstr s).
Proof.
  intros H. unfold strlen_at, poke.
  rewrite drop_app_length' by (rewrite length_take; lia).
  rewrite <-app_assoc. simpl. by rewrite cstr_app_nul'.
Qed.

(** ** Lemmas on decimal output *)

Definition is_digit (c : ascii) : Prop := 48 <= code c <= 57.

Lemma code_digit d : 0 <= d < 10 -> code (digit d) = 48 + d.
Proof.
  intros. unfold code, digit. rewrite Z.mod_small, N_ascii_embedding; lia.
Qed.

Lemma digit_is_digit d : is_digit (digit d).
Proof.
  unfold is_digit, code, digit. pose proof (Z.mod_pos_bound d 10). rewrite N_ascii_embedding; lia.
Qed.

Lemma dec_go_digits f n acc : Forall is_digit acc -> Forall is_digit (dec_go f n acc).
Proof.
  revert n acc; induction f as [|f IH]; intros n acc Hacc; simpl; [done|].
  destruct (n <? 10); [|apply IH]; constructor; auto using digit_is_digit.
Qed.

Lemma length_dec_go f n acc d :
  0 <= n < 10 ^ Z.of_nat d -> (0 < d)%nat ->
  (length (dec_go f n acc) <= length acc + d)%nat.
Proof.
  revert n acc d; induction f as [|f IH]; intros n acc d Hn Hd; simpl; [lia|].
  destruct (Z.ltb_spec n 10); simpl; [lia|].
  destruct d as [|[|d]]; [lia|change (10 ^ Z.of_nat 1) with 10 in Hn; lia|].
  specialize (IH (n / 10) (digit (n mod 10) :: acc) (S d)). simpl in IH.
  assert (10 ^ Z.of_nat (S (S d)) = 10 * 10 ^ Z.of_nat (S d)) as E.
  { rewrite <-Z.pow_succ_r by lia. f_equal. lia. }
  assert (0 <= n / 10 < 10 ^ Z.of_nat (S d)).
  { split; [apply Z.div_pos; lia|]. apply Z.div_lt_upper_bound; lia. }
  lia.
Qed.

Lemma fmt_u_digits n : Forall is_digit (fmt_u n).
Proof. by apply dec_go_digits. Qed.

Lemma length_fmt_u_le n d :
  0 <= n < 10 ^ Z.of_nat d -> (0 < d)%nat -> (length (fmt_u n) <= d)%nat.
Proof. intros. pose proof (length_dec_go (S (Z.to_nat (Z.log2 n))) n [] d). simpl in *. auto with lia. Qed.

Lemma length_fmt_u64 n : 0 <= n < 2 ^ 64 -> (length (fmt_u n) <= 20)%nat.
Proof. intros. apply length_fmt_u_le; [|lia]. split; [lia|]. apply Z.lt_trans with (2 ^ 64); [lia|done]. Qed.

Lemma length_fmt_u_pos n : (0 < length (fmt_u n))%nat.
Proof.
  unfold fmt_u. simpl. destruct (n <? 10); simpl; [lia|].
  assert (forall f k acc, length acc <= length (dec_go f k acc))%nat as H.
  { induction f as [|f IH]; intros k acc; simpl; [lia|].
    destruct (k <? 10); simpl; [lia|]. specialize (IH (k / 10) (digit (k mod 10) :: acc)). simpl in IH. lia. }
  specialize (H (Z.to_nat (Z.log2 n)) (n / 10) [digit (n mod 10)]). simpl in H. lia.
Qed.

Lemma digit_not c s : Forall is_digit s -> ~ is_digit c -> c ∉ s.
Proof. rewrite Forall_forall. intros H Hc Hin. by apply Hc, H. Qed.

Lemma fmt_u_not n c : ~ is_digit c -> c ∉ fmt_u n.
Proof. apply digit_not, fmt_u_digits. Qed.

Lemma fmt_d_chars n c : c ∈ fmt_d n -> is_digit c \/ c = "-"%char.
Proof.
  unfold fmt_d.
  pose proof (fmt_u_digits n) as H1. pose proof (fmt_u_digits (- n)) as H2.
  rewrite Forall_forall in H1, H2. destruct (n <? 0); [rewrite elem_of_cons|]; naive_solver.
Qed.

(** ** Lemmas: formatted text holds no NUL *)

Lemma NUL_not_digit : ~ is_digit NUL.
Proof. unfold is_digit. change (code NUL) with 0. lia. Qed.

Lemma fmt_u_nn n : NUL ∉ fmt_u n.
Proof. apply fmt_u_not, NUL_not_digit. Qed.

Lemma fmt_d_nn n : NUL ∉ fmt_d n.
Proof. intros [H|H]%fmt_d_chars; [by apply NUL_not_digit|done]. Qed.

Lemma fmt_prec_nn n m : NUL ∉ fmt_prec n m.
Proof. unfold fmt_prec. case_match; apply cstr_no_nul. Qed.

Lemma cs_nn_app a b : NUL ∉ a -> NUL ∉ b -> NUL ∉ a ++ b.
Proof. set_solver. Qed.

Lemma cs_nn_cons c b : c <> NUL -> NUL ∉ b -> NUL ∉ c :: b.
Proof. set_solver. Qed.

Lemma nn_nil : NUL ∉ ([] : bytes).
Proof. set_solver. Qed.

Lemma repeat_nn c n : c <> NUL -> NUL ∉ repeat c n.
Proof. intros Hc. induction n; simpl; set_solver. Qed.

#[export] Hint Resolve fmt_u_nn fmt_d_nn fmt_prec_nn cstr_no_nul cs_nn_app cs_nn_cons nn_nil repeat_nn : phpspy.

(** Closes [NUL ∉ text] for concatenations of literals and conversions. *)
Ltac solve_nn :=
  repeat first
    [ assumption | apply cs_nn_app | apply cs_nn_cons; [discriminate|] | apply nn_nil
    | apply fmt_u_nn | apply fmt_d_nn | apply fmt_prec_nn | apply cstr_no_nul
    | match goal with |- NUL ∉ cs _ => unfold cs; cbn [String.list_ascii_of_string] end
    | apply repeat_nn; discriminate ].

Lemma fmt_f_abs_nn m ex : NUL ∉ fmt_f_abs m ex.
Proof. unfold fmt_f_abs, fmt_fixed, pad0. solve_nn. Qed.

Lemma if_nn (b : bool) (x y : bytes) : NUL ∉ x -> NUL ∉ y -> NUL ∉ if b then x else y.
Proof. by destruct b. Qed.

Lemma fmt_f_nn b : NUL ∉ fmt_f b.
Proof.
  unfold fmt_f. cbv zeta.
  repeat first [apply if_nn | apply fmt_f_abs_nn | progress solve_nn].
Qed.

Lemma fmt_timeval_nn sec usec : NUL ∉ fmt_timeval sec usec.
Proof. unfold fmt_timeval. repeat case_match; apply fmt_f_abs_nn. Qed.

(** ** Lemmas: reading back decimal output *)

Lemma digit_cases c : is_digit c -> exists d, 0 <= d < 10 /\ c = digit d.
Proof.
  intros H. exists (code c - 48). unfold is_digit in H. split; [lia|].
  unfold digit. rewrite Z.mod_small by lia. replace (48 + (code c - 48)) with (code c) by lia.
  unfold code. by rewrite N2Z.id, ascii_N_embedding.
Qed.

Lemma digit_val_digit d : 0 <= d < 10 -> digit_val (digit d) = d.
Proof.
  intros. unfold digit_val. rewrite code_digit by done.
  replace ((48 <=? 48 + d) && (48 + d <=? 57)) with true by lia. lia.
Qed.

(** Where a decimal number ends. *)
Definition ends_number (s : bytes) : Prop := match s with c :: _ => 10 <= digit_val c | [] => True end.

Lemma scan_digits_end s v k : ends_number s -> scan_digits 10 s v k = (v, k).
Proof. destruct s as [|c s]; [done|]. cbn. intros H. by rewrite (proj2 (Z.ltb_ge _ _)). Qed.

Lemma scan_dec_go f n :
  0 <= n < 10 ^ Z.of_nat (S f) -> exists d, forall acc k,
    scan_digits 10 (dec_go (S f) n acc) 0 k = scan_digits 10 acc n (d + k)
    /\ length (dec_go (S f) n acc) = (d + length acc)%nat.
Proof.
  assert (forall g m, 0 <= m < 10 -> exists d, forall acc k,
    scan_digits 10 (dec_go (S g) m acc) 0 k = scan_digits 10 acc m (d + k)
    /\ length (dec_go (S g) m acc) = (d + length acc)%nat) as Hbase.
  { intros g m Hm. exists 1%nat. intros acc k. cbn [dec_go]. rewrite (proj2 (Z.ltb_lt m 10)) by lia. cbn [scan_digits length].
    split; [|done]. rewrite digit_val_digit by lia. rewrite (proj2 (Z.ltb_lt m 10)) by lia. f_equal; lia. }
  revert n. induction f as [|f IH]; intros n Hn; [by apply Hbase|].
  destruct (Z.ltb_spec n 10) as [Hlt|Hge]; [apply Hbase; lia|].
  pose proof (Z.div_mod n 10) as Hdm. pose proof (Z.mod_pos_bound n 10) as Hm.
  destruct (IH (n / 10)) as (d & Hd).
  { split; [apply Z.div_pos; lia|]. apply Z.div_lt_upper_bound; [lia|].
    rewrite <-Z.pow_succ_r by lia. rewrite Nat2Z.inj_succ in Hn. lia. }
  exists (S d). intros acc k. destruct (Hd (digit (n mod 10) :: acc) k) as [Hs Hl].
  cbn [dec_go] in Hs, Hl |- *. rewrite (proj2 (Z.ltb_ge n 10)) by lia. rewrite Hs, Hl. cbn [scan_digits length].
  rewrite digit_val_digit, (proj2 (Z.ltb_lt (n mod 10) 10)) by lia. split; [f_equal; lia|lia].
Qed.

Lemma dec_go_app f n acc r : dec_go f n acc ++ r = dec_go f n (acc ++ r).
Proof. revert n acc. induction f as [|f IH]; intros n acc; cbn [dec_go]; [done|]. case_match; [done|]. apply IH. Qed.

Lemma fmt_u_fuel n : 0 <= n -> n < 10 ^ Z.of_nat (S (Z.to_nat (Z.log2 n))).
Proof.
  intros Hn. rewrite Nat2Z.inj_succ, Z2Nat.id by apply Z.log2_nonneg.
  destruct (Z.eq_dec n 0) as [->|]; [done|]. pose proof (Z.log2_spec n ltac:(lia)) as [_ H]. pose proof (Z.log2_nonneg n).
  eapply Z.lt_le_trans; [exact H|]. apply Z.pow_le_mono_l. lia.
Qed.

Lemma scan_fmt_u n r : 0 <= n -> ends_number r -> scan_digits 10 (fmt_u n ++ r) 0 0 = (n, length (fmt_u n)).
Proof.
  intros Hn Hr. unfold fmt_u. rewrite dec_go_app. cbn [app].
  destruct (scan_dec_go (Z.to_nat (Z.log2 n)) n) as (d & Hd); [split; [done|by apply fmt_u_fuel]|].
  rewrite (proj1 (Hd r 0%nat)), (proj2 (Hd [] 0%nat)), scan_digits_end by done. f_equal; cbn; lia.
Qed.

(** The scans stop at once on a digit. *)
Lemma digit_scans c (s : bytes) : is_digit c ->
  skip_spaces (c :: s) 0 = (c :: s, 0%nat) /\ scan_sign (c :: s) = (false, c :: s, 0%nat) /\ scan_prefix 10 (c :: s) = (c :: s, 0%nat).
Proof.
  intros Hc. split_and!.
  - cbn. unfold isspace, is_digit in *. by replace ((code c =? 32) || _) with false by lia.
  - apply digit_cases in Hc as (d & Hd & ->). cbn.
    assert (d = 0 \/ d = 1 \/ d = 2 \/ d = 3 \/ d = 4 \/ d = 5 \/ d = 6 \/ d = 7 \/ d = 8 \/ d = 9) as Hcase by lia.
    by repeat (destruct Hcase as [->|Hcase]; [done|]); subst d.
  - unfold scan_prefix. by repeat case_match.
Qed.

Lemma scan_number_fmt_u n r : 0 <= n -> ends_number r -> scan_number 10 (fmt_u n ++ r) = (false, n, length (fmt_u n)).
Proof.
  intros Hn Hr. pose proof (scan_fmt_u n r Hn Hr) as Hs. pose proof (length_fmt_u_pos n) as Hp.
  pose proof (fmt_u_digits n) as Hd. destruct (fmt_u n) as [|c t] eqn:He; [cbn in Hp; lia|].
  apply Forall_cons in Hd as [Hc _]. unfold scan_number. cbn [app] in *. destruct (digit_scans c (t ++ r) Hc) as (-> & -> & ->).
  rewrite Hs. by cbn.
Qed.

Lemma strtoull_fmt_u n r : 0 <= n < 2 ^ 64 -> ends_number r -> strtoull (fmt_u n ++ r) 10 = (n, length (fmt_u n)).
Proof.
  intros Hn Hr. unfold strtoull. rewrite scan_number_fmt_u by (done || lia).
  rewrite (proj2 (Z.ltb_lt n (2 ^ 64))) by lia. by rewrite wrap_small.
Qed.

(** ** Lemmas: searching in concatenations *)

Lemma memchr_app c l r : c ∉ l -> memchr c (l ++ c :: r) = Some (length l).
Proof.
  induction l as [|x l IH]; intros Hl; cbn; [by rewrite decide_True|].
  rewrite decide_False by set_solver. rewrite IH by set_solver. done.
Qed.

Lemma memrchr_app c l r : c ∉ r -> memrchr c (l ++ c :: r) = Some (length l).
Proof.
  intros Hr. induction l as [|x l IH]; cbn; [|by rewrite IH].
  apply memrchr_None in Hr. rewrite Hr. by rewrite decide_True.
Qed.
