(* ===== verification/Layout.v ===== *)
(** * Layout: packed C aggregates and the offsets the tracer reads at

    The headers [src/structs/<arch>/php_structs_<ver>.h] declare, per PHP
    version, the parts of the Zend structures that the tracer copies out of the
    target.  This file embeds such declarations, computes [sizeof] and
    [offsetof] for them, and collects the numbers the tracer uses in a record
    [zlayout].  The declarations themselves are in [StructsX86] and
    [StructsArm]. *)
From S2P Require Import Prelude.

(** ** Declarations

    A member carries its name, the offset and length its comment states (none
    for the anonymous wrappers), and its type. *)

Inductive ctype :=
| TU8 | TChar | TU32 | TInt | TI32 | TLong | TU64 | TI64 | TSize | TDouble | TPtr
| TArr (t : ctype) (n : Z)
| TNamed (tag : string)
| TStruct (ms : list (string * option (Z * Z) * ctype))
| TUnion (ms : list (string * option (Z * Z) * ctype)).

Abbreviation member := (string * option (Z * Z) * ctype)%type.
Abbreviation header := (list (string * ctype)).

(** A member with the offset and length of its comment. *)
Definition fld (name : string) (t : ctype) (off len : Z) : member := (name, Some (off, len), t).
Definition anon (name : string) (t : ctype) : member := (name, None, t).

Fixpoint lookup_tag (h : header) (tag : string) : option ctype :=
  match h with
  | [] => None
  | (n, t) :: h' => if String.eqb n tag then Some t else lookup_tag h' tag
  end.

(** ** [sizeof] and [offsetof] of packed aggregates

    The fuel bounds the nesting of type constructors; the deepest type of the
    headers, [pdo_stmt_t] with an object with an array of zvals, nests ten. *)

Definition NEST : nat := 16.

Fixpoint sizeof (h : header) (fuel : nat) (t : ctype) : option Z :=
  match fuel with
  | O => None
  | S f =>
    match t with
    | TU8 | TChar => Some 1
    | TU32 | TInt | TI32 => Some 4
    | TLong | TU64 | TI64 | TSize | TDouble | TPtr => Some 8
    | TArr t' n => if n <? 0 then None else s ← sizeof h f t'; Some (s * n)
    | TNamed tag => t' ← lookup_tag h tag; sizeof h f t'
    | TStruct ms =>
      foldr (fun m acc => s ← sizeof h f (snd m); a ← acc; Some (s + a)) (Some 0) ms
    | TUnion ms =>
      foldr (fun m acc => s ← sizeof h f (snd m); a ← acc; Some (Z.max s a)) (Some 0) ms
    end
  end.

Fixpoint members (h : header) (fuel : nat) (t : ctype) : option (bool * list member) :=
  match fuel, t with
  | O, _ => None
  | S f, TNamed tag => t' ← lookup_tag h tag; members h f t'
  | S _, TStruct ms => Some (false, ms)
  | S _, TUnion ms => Some (true, ms)
  | S _, _ => None
  end.

(** The offset and the type of a member of a struct (or, with [un], a union). *)
Fixpoint find_member (h : header) (un : bool) (ms : list member) (name : string) (off : Z)
    : option (Z * ctype) :=
  match ms with
  | [] => None
  | (n, _, t) :: ms' =>
    if String.eqb n name then Some (off, t)
    else s ← sizeof h NEST t; find_member h un ms' name (if un then off else off + s)
  end.

Fixpoint offset_path (h : header) (t : ctype) (path : list string) : option Z :=
  match path with
  | [] => Some 0
  | p :: path' =>
    '(un, ms) ← members h NEST t;
    '(o, t') ← find_member h un ms p 0;
    r ← offset_path h t' path';
    Some (o + r)
  end.

Definition offsetof (h : header) (tag : string) (path : list string) : option Z :=
  offset_path h (TNamed tag) path.

Definition sizeof_tag (h : header) (tag : string) : option Z := sizeof h NEST (TNamed tag).

(** The offset and the type of the member at a path. *)
Fixpoint field (h : header) (t : ctype) (path : list string) : option (Z * ctype) :=
  match path with
  | [] => Some (0, t)
  | p :: path' =>
    '(un, ms) ← members h NEST t;
    '(o, t') ← find_member h un ms p 0;
    '(r, t'') ← field h t' path';
    Some (o + r, t'')
  end.

(** ** Comments against computed offsets *)

Fixpoint doc_offsets_ok (h : header) (fuel : nat) (un : bool) (ms : list member) (base : Z) : bool :=
  match fuel with
  | O => false
  | S f =>
    match ms with
    | [] => true
    | (_, doc, t) :: ms' =>
      match doc with Some (o, _) => o =? base | None => true end
      && match t with
         | TStruct inner => doc_offsets_ok h f false inner base
         | TUnion inner => doc_offsets_ok h f true inner base
         | _ => true
         end
      && match sizeof h NEST t with
         | Some s => doc_offsets_ok h f un ms' (if un then base else base + s)
         | None => false
         end
    end
  end.

Definition header_offsets_documented (h : header) : bool :=
  forallb (fun d => match snd d with
    | TStruct ms => doc_offsets_ok h 32 false ms 0
    | TUnion ms => doc_offsets_ok h 32 true ms 0
    | _ => false
    end) h.

(** The members whose comment states another length than the declaration has:
    name, stated length, size. *)
Fixpoint length_gaps (h : header) (fuel : nat) (ms : list member) : list (string * Z * option Z) :=
  match fuel with
  | O => []
  | S f =>
    flat_map (fun '(n, doc, t) =>
      match doc with
      | Some (_, len) => if bool_decide (sizeof h NEST t = Some len) then [] else [(n, len, sizeof h NEST t)]
      | None => []
      end
      ++ match t with TStruct inner | TUnion inner => length_gaps h f inner | _ => [] end) ms
  end.

Definition header_gaps (h : header) : list (string * Z * option Z) :=
  flat_map (fun d => match snd d with TStruct ms | TUnion ms => length_gaps h NEST ms | _ => [] end) h.

(** ** The numbers the tracer uses *)

Record zlayout := {
  sz_array : Z; o_arr_flags : Z; o_arr_mask : Z; o_arr_data : Z; o_arr_used : Z;
  sz_eg : Z; o_eg_symtable : Z; o_eg_current : Z;
  sz_zval : Z; o_zv_value : Z; o_zv_type : Z; o_zv_next : Z;
  sz_ex : Z; o_ex_opline : Z; o_ex_func : Z; o_ex_this : Z; o_ex_prev : Z;
  sz_func : Z; o_fn_type : Z; o_fn_name : Z; o_fn_scope : Z;
  o_op_last_var : Z; o_op_vars : Z; o_op_filename : Z; o_op_line_start : Z;
  sz_ce : Z; o_ce_name : Z;
  sz_str : Z; o_str_len : Z; o_str_val : Z;
  sz_op : Z; o_op_lineno : Z;
  sz_sapi : Z; o_sapi_query : Z; o_sapi_cookie : Z; o_sapi_path : Z; o_sapi_uri : Z;
  o_sapi_time : Z;
  sz_bucket : Z; o_bk_val : Z; o_bk_key : Z;
  sz_ag : Z; o_ag_heap : Z;
  sz_heap : Z; o_heap_size : Z; o_heap_peak : Z;
  sz_obj : Z; o_obj_props : Z;
  sz_bp : Z; o_bp_param : Z; o_bp_paramno : Z; o_bp_name : Z;
  sz_stmt : Z; o_stmt_params : Z; o_stmt_std : Z;
  frame_slot : Z;
}.

(** [phpspy_frame_slot]: 6 on PHP 7.0, 5 on every later version. *)
Definition phpspy_frame_slot (phpv : Z) : Z := if phpv =? 70 then 6 else 5.

Definition mk_layout (h : header) (phpv : Z) : option zlayout :=
  let o := offsetof h in let s := sizeof_tag h in
  a0 ← s "zend_array"; a1 ← o "zend_array" ["flags"]; a2 ← o "zend_array" ["nTableMask"];
  a3 ← o "zend_array" ["arData"]; a4 ← o "zend_array" ["nNumUsed"];
  e0 ← s "zend_executor_globals"; e1 ← o "zend_executor_globals" ["symbol_table"];
  e2 ← o "zend_executor_globals" ["current_execute_data"];
  z0 ← s "zval"; z1 ← o "zval" ["value"]; z2 ← o "zval" ["u1"; "v"; "type"];
  z3 ← o "zval" ["u2"; "next"];
  x0 ← s "zend_execute_data"; x1 ← o "zend_execute_data" ["opline"];
  x2 ← o "zend_execute_data" ["func"]; x3 ← o "zend_execute_data" ["This"];
  x4 ← o "zend_execute_data" ["prev_execute_data"];
  f0 ← s "zend_function"; f1 ← o "zend_function" ["type"];
  f2 ← o "zend_function" ["common"; "function_name"]; f3 ← o "zend_function" ["common"; "scope"];
  p0 ← o "zend_function" ["op_array"; "last_var"]; p1 ← o "zend_function" ["op_array"; "vars"];
  p2 ← o "zend_function" ["op_array"; "filename"];
  p3 ← o "zend_function" ["op_array"; "line_start"];
  c0 ← s "zend_class_entry"; c1 ← o "zend_class_entry" ["name"];
  t0 ← s "zend_string"; t1 ← o "zend_string" ["len"]; t2 ← o "zend_string" ["val"];
  q0 ← s "zend_op"; q1 ← o "zend_op" ["lineno"];
  g0 ← s "sapi_globals_struct"; g1 ← o "sapi_globals_struct" ["request_info"; "query_string"];
  g2 ← o "sapi_globals_struct" ["request_info"; "cookie_data"];
  g3 ← o "sapi_globals_struct" ["request_info"; "path_translated"];
  g4 ← o "sapi_globals_struct" ["request_info"; "request_uri"];
  g5 ← o "sapi_globals_struct" ["global_request_time"];
  b0 ← s "Bucket"; b1 ← o "Bucket" ["val"]; b2 ← o "Bucket" ["key"];
  h0 ← s "zend_alloc_globals"; h1 ← o "zend_alloc_globals" ["mm_heap"];
  m0 ← s "zend_mm_heap"; m1 ← o "zend_mm_heap" ["size"]; m2 ← o "zend_mm_heap" ["peak"];
  j0 ← s "zend_object"; j1 ← o "zend_object" ["properties_table"];
  d0 ← s "pdo_bound_param_data"; d1 ← o "pdo_bound_param_data" ["parameter"];
  d2 ← o "pdo_bound_param_data" ["paramno"]; d3 ← o "pdo_bound_param_data" ["name"];
  s0 ← s "pdo_stmt_t"; s1 ← o "pdo_stmt_t" ["bound_params"]; s2 ← o "pdo_stmt_t" ["std"];
  Some {|
    sz_array := a0; o_arr_flags := a1; o_arr_mask := a2; o_arr_data := a3; o_arr_used := a4;
    sz_eg := e0; o_eg_symtable := e1; o_eg_current := e2;
    sz_zval := z0; o_zv_value := z1; o_zv_type := z2; o_zv_next := z3;
    sz_ex := x0; o_ex_opline := x1; o_ex_func := x2; o_ex_this := x3; o_ex_prev := x4;
    sz_func := f0; o_fn_type := f1; o_fn_name := f2; o_fn_scope := f3;
    o_op_last_var := p0; o_op_vars := p1; o_op_filename := p2; o_op_line_start := p3;
    sz_ce := c0; o_ce_name := c1;
    sz_str := t0; o_str_len := t1; o_str_val := t2;
    sz_op := q0; o_op_lineno := q1;
    sz_sapi := g0; o_sapi_query := g1; o_sapi_cookie := g2; o_sapi_path := g3; o_sapi_uri := g4;
    o_sapi_time := g5;
    sz_bucket := b0; o_bk_val := b1; o_bk_key := b2;
    sz_ag := h0; o_ag_heap := h1;
    sz_heap := m0; o_heap_size := m1; o_heap_peak := m2;
    sz_obj := j0; o_obj_props := j1;
    sz_bp := d0; o_bp_param := d1; o_bp_paramno := d2; o_bp_name := d3;
    sz_stmt := s0; o_stmt_params := s1; o_stmt_std := s2;
    frame_slot := phpspy_frame_slot phpv |}.

(** Every field the tracer decodes lies inside the structure it was copied
    with, and a bucket starts with its zval. *)
Definition layout_okb (L : zlayout) : bool :=
  let within o w s := (0 <=? o) && (o + w <=? s) in
  within (o_arr_flags L) 1 (sz_array L) && within (o_arr_mask L) 4 (sz_array L)
  && within (o_arr_data L) 8 (sz_array L) && within (o_arr_used L) 4 (sz_array L)
  && within (o_eg_symtable L) (sz_array L) (sz_eg L) && within (o_eg_current L) 8 (sz_eg L)
  && within (o_zv_value L) 8 (sz_zval L) && within (o_zv_type L) 1 (sz_zval L)
  && within (o_zv_next L) 4 (sz_zval L) && (sz_zval L =? 16)
  && within (o_ex_opline L) 8 (sz_ex L) && within (o_ex_func L) 8 (sz_ex L)
  && within (o_ex_this L) (sz_zval L) (sz_ex L) && within (o_ex_prev L) 8 (sz_ex L)
  && within (o_fn_type L) 1 (sz_func L) && within (o_fn_name L) 8 (sz_func L)
  && within (o_fn_scope L) 8 (sz_func L) && within (o_op_last_var L) 4 (sz_func L)
  && within (o_op_vars L) 8 (sz_func L) && within (o_op_filename L) 8 (sz_func L)
  && within (o_op_line_start L) 4 (sz_func L) && within (o_ce_name L) 8 (sz_ce L)
  && within (o_str_len L) 8 (sz_str L) && within (o_str_val L) 1 (sz_str L)
  && within (o_op_lineno L) 4 (sz_op L)
  && within (o_sapi_query L) 8 (sz_sapi L) && within (o_sapi_cookie L) 8 (sz_sapi L)
  && within (o_sapi_path L) 8 (sz_sapi L) && within (o_sapi_uri L) 8 (sz_sapi L)
  && within (o_sapi_time L) 8 (sz_sapi L)
  && within (o_bk_val L) (sz_zval L) (sz_bucket L) && within (o_bk_key L) 8 (sz_bucket L)
  && within (o_ag_heap L) 8 (sz_ag L)
  && within (o_heap_size L) 8 (sz_heap L) && within (o_heap_peak L) 8 (sz_heap L)
  && within (o_obj_props L) (sz_zval L) (sz_obj L)
  && within (o_bp_param L) (sz_zval L) (sz_bp L) && within (o_bp_paramno L) 8 (sz_bp L)
  && within (o_bp_name L) 8 (sz_bp L)
  && within (o_stmt_params L) 8 (sz_stmt L) && within (o_stmt_std L) (sz_obj L) (sz_stmt L).

Definition layout_ok (L : zlayout) : Prop := layout_okb L = true.

(** ** Members of a packed aggregate do not overlap *)

Section fields.
Context (h : header).

(** The size of the members together. *)
Definition agg (f : nat) (un : bool) (ms : list member) : option Z :=
  foldr (fun m acc => s ← sizeof h f (snd m); a ← acc; Some (if un then Z.max s a else s + a)) (Some 0) ms.

Lemma sizeof_agg f (un : bool) ms : sizeof h (S f) (if un then TUnion ms else TStruct ms) = agg f un ms.
Proof. by destruct un. Qed.

Lemma agg_cons f un m ms a : agg f un (m :: ms) = Some a ->
  exists s b, sizeof h f (snd m) = Some s /\ agg f un ms = Some b /\ a = if un then Z.max s b else s + b.
Proof.
  unfold agg. cbn [foldr]. fold (agg f un ms). destruct (sizeof h f (snd m)) as [s|]; [|done]. destruct (agg f un ms) as [b|]; [|done].
  intros [= <-]. by exists s, b.
Qed.

(** More fuel changes nothing. *)
Lemma sizeof_more f g (t : ctype) s : (f <= g)%nat -> sizeof h f t = Some s -> sizeof h g t = Some s.
Proof.
  revert g t s. induction f as [|f IH]; intros [|g] t s Hle Hs; try done; [lia|]. assert (f <= g)%nat as Hfg by lia.
  assert (forall un ms a, agg f un ms = Some a -> agg g un ms = Some a) as Hagg.
  { intros un ms. induction ms as [|m ms IHm]; intros a Ha; [done|]. apply agg_cons in Ha as (x & b & Hx & Hb & ->).
    unfold agg. cbn [foldr]. fold (agg g un ms). by rewrite (IH g _ _ Hfg Hx), (IHm _ Hb). }
  destruct t; try exact Hs.
  - cbn in Hs |- *. destruct (n <? 0); [done|]. destruct (sizeof h f t) as [x|] eqn:Hx; [|done]. by rewrite (IH g _ _ Hfg Hx).
  - cbn in Hs |- *. destruct (lookup_tag h tag); [|done]. cbn in *. by apply IH.
  - apply (Hagg false), Hs.
  - apply (Hagg true), Hs.
Qed.

Lemma sizeof_unique f g (t : ctype) a b : sizeof h f t = Some a -> sizeof h g t = Some b -> a = b.
Proof. intros Ha%(sizeof_more f (f `max` g)) Hb%(sizeof_more g (f `max` g)); [congruence|lia..]. Qed.

Lemma agg_nonneg f un (ms : list member) a : (forall (m : member) s, sizeof h f (snd m) = Some s -> 0 <= s) -> agg f un ms = Some a -> 0 <= a.
Proof.
  intros Hp. revert a. induction ms as [|m ms IH]; intros a Ha; [by injection Ha as <-|]. apply agg_cons in Ha as (s & b & Hs & Hb & ->).
  specialize (IH _ Hb). specialize (Hp _ _ Hs). destruct un; lia.
Qed.

Lemma sizeof_nonneg f (t : ctype) s : sizeof h f t = Some s -> 0 <= s.
Proof.
  revert t s. induction f as [|f IH]; intros t s Hs; [done|]. destruct t; try (injection Hs as <-; lia).
  - cbn in Hs. destruct (Z.ltb_spec n 0); [done|]. destruct (sizeof h f t) as [x|] eqn:Hx; [|done]. injection Hs as <-. specialize (IH _ _ Hx). nia.
  - cbn in Hs. destruct (lookup_tag h tag); [|done]. by eapply IH.
  - eapply (agg_nonneg f false); [|exact Hs]. intros m x. apply IH.
  - eapply (agg_nonneg f true); [|exact Hs]. intros m x. apply IH.
Qed.

Lemma members_agg f (t : ctype) un ms g s : members h f t = Some (un, ms) -> sizeof h g t = Some s -> exists k, agg k un ms = Some s.
Proof.
  revert t g. induction f as [|f IH]; intros t g Hm Hs; [done|]. destruct g as [|g]; [done|]. destruct t; try done.
  - cbn in Hm, Hs. destruct (lookup_tag h tag) as [t|]; [|done]. by eapply IH.
  - injection Hm as <- <-. by exists g.
  - injection Hm as <- <-. by exists g.
Qed.

(** A member lies inside. *)
Lemma find_member_inside k un ms name off o (t : ctype) s g s' : find_member h un ms name off = Some (o, t) ->
  agg k un ms = Some s -> sizeof h g t = Some s' -> off <= o /\ o + s' <= off + s.
Proof.
  revert off s. induction ms as [|[[n doc] t0] ms IH]; intros off s Hf Ha Hs'; [done|]. apply agg_cons in Ha as (x & b & Hx & Hb & ->). cbn [find_member] in Hf. cbn [snd] in Hx.
  pose proof (sizeof_nonneg _ _ _ Hx). assert (0 <= b) by (eapply agg_nonneg; [|exact Hb]; intros m y; apply sizeof_nonneg).
  destruct (String.eqb n name).
  - injection Hf as <- <-. rewrite (sizeof_unique _ _ _ _ _ Hs' Hx). destruct un; lia.
  - destruct (sizeof h NEST t0) as [y|] eqn:Hy; [|done]. cbn [mbind option_bind] in Hf. rewrite (sizeof_unique _ _ _ _ _ Hy Hx) in Hf.
    specialize (IH _ _ Hf Hb Hs'). destruct un; lia.
Qed.

(** Different members of a struct are apart. *)
Lemma find_member_apart k ms n1 n2 off o1 t1 o2 t2 g1 g2 s1 s2 s : n1 <> n2 -> agg k false ms = Some s ->
  find_member h false ms n1 off = Some (o1, t1) -> find_member h false ms n2 off = Some (o2, t2) ->
  sizeof h g1 t1 = Some s1 -> sizeof h g2 t2 = Some s2 -> o1 + s1 <= o2 \/ o2 + s2 <= o1.
Proof.
  intros Hne. revert off s. induction ms as [|[[n doc] t0] ms IH]; intros off s Ha H1 H2 Hs1 Hs2; [done|].
  apply agg_cons in Ha as (x & b & Hx & Hb & _). cbn [find_member] in H1, H2. cbn [snd] in Hx. assert (forall y, sizeof h NEST t0 = Some y -> y = x) as Hu
    by (intros y Hy; by eapply sizeof_unique).
  destruct (String.eqb_spec n n1) as [E1|Hn1], (String.eqb_spec n n2) as [E2|Hn2]; [congruence|..];
    (destruct (sizeof h NEST t0) as [y|]; [|done]); cbn [mbind option_bind] in H1, H2; rewrite (Hu y eq_refl) in *.
  - injection H1 as <- <-. left. rewrite (sizeof_unique _ _ _ _ _ Hs1 Hx). by eapply find_member_inside.
  - injection H2 as <- <-. right. rewrite (sizeof_unique _ _ _ _ _ Hs2 Hx). by eapply find_member_inside.
  - by eapply IH.
Qed.

Lemma field_cons (t : ctype) p path o t' : field h t (p :: path) = Some (o, t') ->
  exists un ms o1 t1 r, members h NEST t = Some (un, ms) /\ find_member h un ms p 0 = Some (o1, t1) /\ field h t1 path = Some (r, t') /\ o = o1 + r.
Proof.
  cbn [field]. destruct (members h NEST t) as [[un ms]|] eqn:Hm; [|done]. cbn [mbind option_bind]. destruct (find_member h un ms p 0) as [[o1 t1]|] eqn:Hf; [|done]. cbn [mbind option_bind].
  destruct (field h t1 path) as [[r t2]|] eqn:Hr; [|done]. intros [= <- <-]. by exists un, ms, o1, t1, r.
Qed.

Lemma find_member_sized k un ms name off o (t : ctype) s : find_member h un ms name off = Some (o, t) -> agg k un ms = Some s ->
  exists s', sizeof h k t = Some s'.
Proof.
  revert off s. induction ms as [|[[n doc] t0] ms IH]; intros off s Hf Ha; [done|]. apply agg_cons in Ha as (x & b & Hx & Hb & _). cbn [find_member] in Hf.
  destruct (String.eqb n name); [injection Hf as <- <-; by exists x|]. destruct (sizeof h NEST t0); [|done]. by eapply IH.
Qed.

(** The member at a path lies inside the object. *)
Lemma field_inside (t : ctype) path o t' g s g' s' : field h t path = Some (o, t') -> sizeof h g t = Some s -> sizeof h g' t' = Some s' ->
  0 <= o /\ o + s' <= s.
Proof.
  revert t o g s. induction path as [|p path IH]; intros t o g s Hf Hs Hs'.
  - injection Hf as <- <-. rewrite (sizeof_unique _ _ _ _ _ Hs' Hs). lia.
  - apply field_cons in Hf as (un & ms & o1 & t1 & r & Hm & Hfm & Hfr & ->). destruct (members_agg _ _ _ _ _ _ Hm Hs) as [k Hk].
    destruct (find_member_sized _ _ _ _ _ _ _ _ Hfm Hk) as [s1 Hs1]. pose proof (find_member_inside _ _ _ _ _ _ _ _ _ _ Hfm Hk Hs1).
    pose proof (IH _ _ _ _ Hfr Hs1 Hs'). lia.
Qed.

(** Paths that part at a struct lead to bytes apart. *)
Lemma fields_apart (t : ctype) c x y p q ms r tc o1 t1 o2 t2 g s g1 s1 g2 s2 :
  sizeof h g t = Some s -> field h t c = Some (r, tc) -> members h NEST tc = Some (false, ms) -> x <> y ->
  field h t (c ++ x :: p) = Some (o1, t1) -> field h t (c ++ y :: q) = Some (o2, t2) ->
  sizeof h g1 t1 = Some s1 -> sizeof h g2 t2 = Some s2 -> o1 + s1 <= o2 \/ o2 + s2 <= o1.
Proof.
  revert t r g s o1 o2. induction c as [|z c IH]; intros t r g s o1 o2 Hs Hc Hm Hne H1 H2 Hs1 Hs2.
  - injection Hc as <- <-. apply field_cons in H1 as (un & ms1 & a1 & u1 & r1 & Hm1 & Hf1 & Hr1 & ->). rewrite Hm in Hm1. injection Hm1 as <- <-.
    apply field_cons in H2 as (un & ms2 & a2 & u2 & r2 & Hm2 & Hf2 & Hr2 & ->). rewrite Hm in Hm2. injection Hm2 as <- <-.
    destruct (members_agg _ _ _ _ _ _ Hm Hs) as [k Hk]. destruct (find_member_sized _ _ _ _ _ _ _ _ Hf1 Hk) as [v1 Hv1].
    destruct (find_member_sized _ _ _ _ _ _ _ _ Hf2 Hk) as [v2 Hv2].
    pose proof (find_member_apart _ _ _ _ _ _ _ _ _ _ _ _ _ _ Hne Hk Hf1 Hf2 Hv1 Hv2).
    pose proof (field_inside _ _ _ _ _ _ _ _ Hr1 Hv1 Hs1). pose proof (field_inside _ _ _ _ _ _ _ _ Hr2 Hv2 Hs2). lia.
  - cbn [app] in H1, H2. apply field_cons in Hc as (un & ms0 & a & u & r0 & Hm0 & Hf0 & Hr0 & ->).
    apply field_cons in H1 as (un1 & ms1 & a1 & u1 & r1 & Hm1 & Hf1 & Hr1 & ->). rewrite Hm0 in Hm1. injection Hm1 as <- <-. rewrite Hf0 in Hf1. injection Hf1 as <- <-.
    apply field_cons in H2 as (un2 & ms2 & a2 & u2 & r2 & Hm2 & Hf2 & Hr2 & ->). rewrite Hm0 in Hm2. injection Hm2 as <- <-. rewrite Hf0 in Hf2. injection Hf2 as <- <-.
    destruct (members_agg _ _ _ _ _ _ Hm0 Hs) as [k Hk]. destruct (find_member_sized _ _ _ _ _ _ _ _ Hf0 Hk) as [v Hv].
    pose proof (IH _ _ _ _ _ _ Hv Hr0 Hm Hne Hr1 Hr2 Hs1 Hs2). lia.
Qed.

(** [offsetof] is the offset of the member. *)
Lemma offset_path_field (t : ctype) path o : offset_path h t path = Some o -> exists t', field h t path = Some (o, t').
Proof.
  revert t o. induction path as [|p path IH]; intros t o Ho; [injection Ho as <-; by exists t|]. cbn [offset_path field] in *.
  destruct (members h NEST t) as [[un ms]|]; [|done]. cbn [mbind option_bind] in *. destruct (find_member h un ms p 0) as [[o1 t1]|]; [|done]. cbn [mbind option_bind] in *.
  destruct (offset_path h t1 path) as [r|] eqn:Hr; [|done]. injection Ho as <-. destruct (IH _ _ Hr) as [t' ->]. by exists t'.
Qed.

End fields.
