(* ===== verification/StructsX86.v ===== *)
(** * StructsX86: the Zend structures on x86-64

    One definition per header of [src/structs/x86_64/]: its aggregates in the
    order of the file, every member with the offset and length its comment
    states. *)
From S2P Require Import Prelude Layout.
#[local] Open Scope string_scope.

(** [structs/x86_64/php_structs_70.h] *)
Definition php_structs_70_x86 : header := [
  ("zend_array", TStruct [
    fld "pad0" (TArr TU8 8) 0 8;
    fld "flags" TU8 8 1;
    fld "pad1" (TArr TU8 3) 9 3;
    fld "nTableMask" TU32 12 4;
    fld "arData" TPtr 16 8;
    fld "nNumUsed" TU32 24 4;
    fld "nNumOfElements" TU32 28 4;
    fld "nTableSize" TU32 32 4]);
  ("zend_executor_globals", TStruct [
    fld "pad0" (TArr TU8 304) 0 304;
    fld "symbol_table" (TNamed "zend_array") 304 36;
    fld "pad1" (TArr TU8 140) 340 140;
    fld "current_execute_data" TPtr 480 8]);
  ("zend_value", TUnion [
    fld "lval" TLong 0 8;
    fld "dval" TDouble 0 8;
    fld "str" TPtr 0 8;
    fld "arr" TPtr 0 8]);
  ("zval", TStruct [
    fld "value" (TNamed "zend_value") 0 8;
    anon "u1" (TUnion [
      anon "v" (TStruct [
        fld "type" TU8 8 1;
        fld "pad0" (TArr TU8 3) 9 3])]);
    anon "u2" (TUnion [
      fld "next" TU32 12 4])]);
  ("zend_execute_data", TStruct [
    fld "opline" TPtr 0 8;
    fld "pad0" (TArr TU8 16) 8 16;
    fld "func" TPtr 24 8;
    fld "This" (TNamed "zval") 32 16;
    fld "pad1" (TArr TU8 8) 48 8;
    fld "prev_execute_data" TPtr 56 8;
    fld "symbol_table" TPtr 64 8]);
  ("zend_op_array", TStruct [
    fld "pad0" (TArr TU8 72) 0 72;
    fld "last_var" TInt 72 4;
    fld "pad1" (TArr TU8 4) 76 4;
    fld "vars" TPtr 80 8;
    fld "pad2" (TArr TU8 32) 88 32;
    fld "filename" TPtr 120 8;
    fld "line_start" TU32 128 4]);
  ("zend_function", TUnion [
    fld "type" TU8 0 1;
    anon "common" (TStruct [
      fld "pad0" (TArr TU8 8) 0 8;
      fld "function_name" TPtr 8 8;
      fld "scope" TPtr 16 8]);
    fld "op_array" (TNamed "zend_op_array") 0 208]);
  ("zend_class_entry", TStruct [
    fld "pad0" (TArr TU8 8) 0 8;
    fld "name" TPtr 8 8]);
  ("zend_string", TStruct [
    fld "pad0" (TArr TU8 16) 0 16;
    fld "len" TSize 16 8;
    fld "val" (TArr TChar 1) 24 1]);
  ("zend_op", TStruct [
    fld "pad0" (TArr TU8 24) 0 24;
    fld "lineno" TU32 24 4]);
  ("sapi_request_info", TStruct [
    fld "pad0" (TArr TU8 8) 0 8;
    fld "query_string" TPtr 8 8;
    fld "cookie_data" TPtr 16 8;
    fld "pad1" (TArr TU8 8) 24 8;
    fld "path_translated" TPtr 32 8;
    fld "request_uri" TPtr 40 8]);
  ("sapi_globals_struct", TStruct [
    fld "pad0" (TArr TU8 8) 0 8;
    fld "request_info" (TNamed "sapi_request_info") 8 48;
    fld "pad1" (TArr TU8 384) 56 384;
    fld "global_request_time" TDouble 440 8]);
  ("Bucket", TStruct [
    fld "val" (TNamed "zval") 0 16;
    fld "h" TU64 16 8;
    fld "key" TPtr 24 8]);
  ("zend_alloc_globals", TStruct [
    fld "mm_heap" TPtr 0 8]);
  ("zend_mm_heap", TStruct [
    fld "pad0" (TArr TU8 16) 0 16;
    fld "size" TSize 16 8;
    fld "peak" TSize 24 8]);
  ("zend_object", TStruct [
    fld "pad0" (TArr TU8 16) 0 16;
    fld "ce" TPtr 16 8;
    fld "pad1" (TArr TU8 16) 24 16;
    fld "properties_table" (TArr (TNamed "zval") 1) 40 16]);
  ("pdo_bound_param_data", TStruct [
    fld "parameter" (TNamed "zval") 0 16;
    fld "pad0" (TArr TU8 16) 16 16;
    fld "paramno" TI64 32 8;
    fld "name" TPtr 40 8;
    fld "pad1" (TArr TU8 24) 48 24;
    fld "param_type" TI32 72 4]);
  ("pdo_stmt_t", TStruct [
    fld "pad0" (TArr TU8 56) 0 56;
    fld "bound_params" TPtr 56 8;
    fld "pad1" (TArr TU8 264) 64 264;
    fld "std" (TNamed "zend_object") 328 56])].

(** [structs/x86_64/php_structs_71.h] *)
Definition php_structs_71_x86 : header := [
  ("zend_array", TStruct [
    fld "pad0" (TArr TU8 8) 0 8;
    fld "flags" TU8 8 1;
    fld "pad1" (TArr TU8 3) 9 3;
    fld "nTableMask" TU32 12 4;
    fld "arData" TPtr 16 8;
    fld "nNumUsed" TU32 24 4;
    fld "nNumOfElements" TU32 28 4;
    fld "nTableSize" TU32 32 4]);
  ("zend_executor_globals", TStruct [
    fld "pad0" (TArr TU8 304) 0 304;
    fld "symbol_table" (TNamed "zend_array") 304 36;
    fld "pad1" (TArr TU8 140) 340 140;
    fld "current_execute_data" TPtr 480 8]);
  ("zend_value", TUnion [
    fld "lval" TLong 0 8;
    fld "dval" TDouble 0 8;
    fld "str" TPtr 0 8;
    fld "arr" TPtr 0 8]);
  ("zval", TStruct [
    fld "value" (TNamed "zend_value") 0 8;
    anon "u1" (TUnion [
      anon "v" (TStruct [
        fld "type" TU8 8 1;
        fld "pad0" (TArr TU8 3) 9 3])]);
    anon "u2" (TUnion [
      fld "next" TU32 12 4])]);
  ("zend_execute_data", TStruct [
    fld "opline" TPtr 0 8;
    fld "pad0" (TArr TU8 16) 8 16;
    fld "func" TPtr 24 8;
    fld "This" (TNamed "zval") 32 16;
    fld "prev_execute_data" TPtr 48 8;
    fld "symbol_table" TPtr 56 8]);
  ("zend_op_array", TStruct [
    fld "pad0" (TArr TU8 72) 0 72;
    fld "last_var" TInt 72 4;
    fld "pad1" (TArr TU8 4) 76 4;
    fld "vars" TPtr 80 8;
    fld "pad2" (TArr TU8 32) 88 32;
    fld "filename" TPtr 120 8;
    fld "line_start" TU32 128 4]);
  ("zend_function", TUnion [
    fld "type" TU8 0 1;
    anon "common" (TStruct [
      fld "pad0" (TArr TU8 8) 0 8;
      fld "function_name" TPtr 8 8;
      fld "scope" TPtr 16 8]);
    fld "op_array" (TNamed "zend_op_array") 0 208]);
  ("zend_class_entry", TStruct [
    fld "pad0" (TArr TU8 8) 0 8;
    fld "name" TPtr 8 8]);
  ("zend_string", TStruct [
    fld "pad0" (TArr TU8 16) 0 16;
    fld "len" TSize 16 8;
    fld "val" (TArr TChar 1) 24 1]);
  ("zend_op", TStruct [
    fld "pad0" (TArr TU8 24) 0 24;
    fld "lineno" TU32 24 4]);
  ("sapi_request_info", TStruct [
    fld "pad0" (TArr TU8 8) 0 8;
    fld "query_string" TPtr 8 8;
    fld "cookie_data" TPtr 16 8;
    fld "pad1" (TArr TU8 8) 24 8;
    fld "path_translated" TPtr 32 8;
    fld "request_uri" TPtr 40 8]);
  ("sapi_globals_struct", TStruct [
    fld "pad0" (TArr TU8 8) 0 8;
    fld "request_info" (TNamed "sapi_request_info") 8 48;
    fld "pad1" (TArr TU8 384) 56 384;
    fld "global_request_time" TDouble 440 8]);
  ("Bucket", TStruct [
    fld "val" (TNamed "zval") 0 16;
    fld "h" TU64 16 8;
    fld "key" TPtr 24 8]);
  ("zend_alloc_globals", TStruct [
    fld "mm_heap" TPtr 0 8]);
  ("zend_mm_heap", TStruct [
    fld "pad0" (TArr TU8 16) 0 16;
    fld "size" TSize 16 8;
    fld "peak" TSize 24 8]);
  ("zend_object", TStruct [
    fld "pad0" (TArr TU8 16) 0 16;
    fld "ce" TPtr 16 8;
    fld "pad1" (TArr TU8 16) 24 16;
    fld "properties_table" (TArr (TNamed "zval") 1) 40 16]);
  ("pdo_bound_param_data", TStruct [
    fld "parameter" (TNamed "zval") 0 16;
    fld "pad0" (TArr TU8 16) 16 16;
    fld "paramno" TI64 32 8;
    fld "name" TPtr 40 8;
    fld "pad1" (TArr TU8 24) 48 24;
    fld "param_type" TI32 72 4]);
  ("pdo_stmt_t", TStruct [
    fld "pad0" (TArr TU8 56) 0 56;
    fld "bound_params" TPtr 56 8;
    fld "pad1" (TArr TU8 264) 64 264;
    fld "std" (TNamed "zend_object") 328 56])].

(** [structs/x86_64/php_structs_72.h] *)
Definition php_structs_72_x86 : header := [
  ("zend_array", TStruct [
    fld "pad0" (TArr TU8 8) 0 8;
    fld "flags" TU8 8 1;
    fld "pad1" (TArr TU8 3) 9 3;
    fld "nTableMask" TU32 12 4;
    fld "arData" TPtr 16 8;
    fld "nNumUsed" TU32 24 4;
    fld "nNumOfElements" TU32 28 4;
    fld "nTableSize" TU32 32 4]);
  ("zend_executor_globals", TStruct [
    fld "pad0" (TArr TU8 304) 0 304;
    fld "symbol_table" (TNamed "zend_array") 304 36;
    fld "pad1" (TArr TU8 140) 340 140;
    fld "current_execute_data" TPtr 480 8]);
  ("zend_value", TUnion [
    fld "lval" TLong 0 8;
    fld "dval" TDouble 0 8;
    fld "str" TPtr 0 8;
    fld "arr" TPtr 0 8]);
  ("zval", TStruct [
    fld "value" (TNamed "zend_value") 0 8;
    anon "u1" (TUnion [
      anon "v" (TStruct [
        fld "type" TU8 8 1;
        fld "pad0" (TArr TU8 3) 9 3])]);
    anon "u2" (TUnion [
      fld "next" TU32 12 4])]);
  ("zend_execute_data", TStruct [
    fld "opline" TPtr 0 8;
    fld "pad0" (TArr TU8 16) 8 16;
    fld "func" TPtr 24 8;
    fld "This" (TNamed "zval") 32 16;
    fld "prev_execute_data" TPtr 48 8;
    fld "symbol_table" TPtr 56 8]);
  ("zend_op_array", TStruct [
    fld "pad0" (TArr TU8 72) 0 72;
    fld "last_var" TInt 72 4;
    fld "pad1" (TArr TU8 4) 76 4;
    fld "vars" TPtr 80 8;
    fld "pad2" (TArr TU8 32) 88 32;
    fld "filename" TPtr 120 8;
    fld "line_start" TU32 128 4]);
  ("zend_function", TUnion [
    fld "type" TU8 0 1;
    anon "common" (TStruct [
      fld "pad0" (TArr TU8 8) 0 8;
      fld "function_name" TPtr 8 8;
      fld "scope" TPtr 16 8]);
    fld "op_array" (TNamed "zend_op_array") 0 224]);
  ("zend_class_entry", TStruct [
    fld "pad0" (TArr TU8 8) 0 8;
    fld "name" TPtr 8 8]);
  ("zend_string", TStruct [
    fld "pad0" (TArr TU8 16) 0 16;
    fld "len" TSize 16 8;
    fld "val" (TArr TChar 1) 24 1]);
  ("zend_op", TStruct [
    fld "pad0" (TArr TU8 24) 0 24;
    fld "lineno" TU32 24 4]);
  ("sapi_request_info", TStruct [
    fld "pad0" (TArr TU8 8) 0 8;
    fld "query_string" TPtr 8 8;
    fld "cookie_data" TPtr 16 8;
    fld "pad1" (TArr TU8 8) 24 8;
    fld "path_translated" TPtr 32 8;
    fld "request_uri" TPtr 40 8]);
  ("sapi_globals_struct", TStruct [
    fld "pad0" (TArr TU8 8) 0 8;
    fld "request_info" (TNamed "sapi_request_info") 8 48;
    fld "pad1" (TArr TU8 384) 56 384;
    fld "global_request_time" TDouble 440 8]);
  ("Bucket", TStruct [
    fld "val" (TNamed "zval") 0 16;
    fld "h" TU64 16 8;
    fld "key" TPtr 24 8]);
  ("zend_alloc_globals", TStruct [
    fld "mm_heap" TPtr 0 8]);
  ("zend_mm_heap", TStruct [
    fld "pad0" (TArr TU8 16) 0 16;
    fld "size" TSize 16 8;
    fld "peak" TSize 24 8]);
  ("zend_object", TStruct [
    fld "pad0" (TArr TU8 16) 0 16;
    fld "ce" TPtr 16 8;
    fld "pad1" (TArr TU8 16) 24 16;
    fld "properties_table" (TArr (TNamed "zval") 1) 40 16]);
  ("pdo_bound_param_data", TStruct [
    fld "parameter" (TNamed "zval") 0 16;
    fld "pad0" (TArr TU8 16) 16 16;
    fld "paramno" TI64 32 8;
    fld "name" TPtr 40 8;
    fld "pad1" (TArr TU8 24) 48 24;
    fld "param_type" TI32 72 4]);
  ("pdo_stmt_t", TStruct [
    fld "pad0" (TArr TU8 56) 0 56;
    fld "bound_params" TPtr 56 8;
    fld "pad1" (TArr TU8 264) 64 264;
    fld "std" (TNamed "zend_object") 328 56])].

(** [structs/x86_64/php_structs_73.h] *)
Definition php_structs_73_x86 : header := [
  ("zend_array", TStruct [
    fld "pad0" (TArr TU8 8) 0 8;
    fld "flags" TU8 8 1;
    fld "pad1" (TArr TU8 3) 9 3;
    fld "nTableMask" TU32 12 4;
    fld "arData" TPtr 16 8;
    fld "nNumUsed" TU32 24 4;
    fld "nNumOfElements" TU32 28 4;
    fld "nTableSize" TU32 32 4]);
  ("zend_executor_globals", TStruct [
    fld "pad0" (TArr TU8 304) 0 304;
    fld "symbol_table" (TNamed "zend_array") 304 36;
    fld "pad1" (TArr TU8 148) 340 148;
    fld "current_execute_data" TPtr 488 8]);
  ("zend_value", TUnion [
    fld "lval" TLong 0 8;
    fld "dval" TDouble 0 8;
    fld "str" TPtr 0 8;
    fld "arr" TPtr 0 8]);
  ("zval", TStruct [
    fld "value" (TNamed "zend_value") 0 8;
    anon "u1" (TUnion [
      anon "v" (TStruct [
        fld "type" TU8 8 1;
        fld "pad0" (TArr TU8 3) 9 3])]);
    anon "u2" (TUnion [
      fld "next" TU32 12 4])]);
  ("zend_execute_data", TStruct [
    fld "opline" TPtr 0 8;
    fld "pad0" (TArr TU8 16) 8 16;
    fld "func" TPtr 24 8;
    fld "This" (TNamed "zval") 32 16;
    fld "prev_execute_data" TPtr 48 8;
    fld "symbol_table" TPtr 56 8]);
  ("zend_op_array", TStruct [
    fld "pad0" (TArr TU8 52) 0 52;
    fld "last_var" TInt 52 4;
    fld "pad1" (TArr TU8 32) 56 32;
    fld "vars" TPtr 88 8;
    fld "pad2" (TArr TU8 32) 96 32;
    fld "filename" TPtr 128 8;
    fld "line_start" TU32 136 4]);
  ("zend_function", TUnion [
    fld "type" TU8 0 1;
    anon "common" (TStruct [
      fld "pad0" (TArr TU8 8) 0 8;
      fld "function_name" TPtr 8 8;
      fld "scope" TPtr 16 8]);
    fld "op_array" (TNamed "zend_op_array") 0 216]);
  ("zend_class_entry", TStruct [
    fld "pad0" (TArr TU8 8) 0 8;
    fld "name" TPtr 8 8]);
  ("zend_string", TStruct [
    fld "pad0" (TArr TU8 16) 0 16;
    fld "len" TSize 16 8;
    fld "val" (TArr TChar 1) 24 1]);
  ("zend_op", TStruct [
    fld "pad0" (TArr TU8 24) 0 24;
    fld "lineno" TU32 24 4]);
  ("sapi_request_info", TStruct [
    fld "pad0" (TArr TU8 8) 0 8;
    fld "query_string" TPtr 8 8;
    fld "cookie_data" TPtr 16 8;
    fld "pad1" (TArr TU8 8) 24 8;
    fld "path_translated" TPtr 32 8;
    fld "request_uri" TPtr 40 8]);
  ("sapi_globals_struct", TStruct [
    fld "pad0" (TArr TU8 8) 0 8;
    fld "request_info" (TNamed "sapi_request_info") 8 48;
    fld "pad1" (TArr TU8 384) 56 384;
    fld "global_request_time" TDouble 440 8]);
  ("Bucket", TStruct [
    fld "val" (TNamed "zval") 0 16;
    fld "h" TU64 16 8;
    fld "key" TPtr 24 8]);
  ("zend_alloc_globals", TStruct [
    fld "mm_heap" TPtr 0 8]);
  ("zend_mm_heap", TStruct [
    fld "pad0" (TArr TU8 16) 0 16;
    fld "size" TSize 16 8;
    fld "peak" TSize 24 8]);
  ("zend_object", TStruct [
    fld "pad0" (TArr TU8 16) 0 16;
    fld "ce" TPtr 16 8;
    fld "pad1" (TArr TU8 16) 24 16;
    fld "properties_table" (TArr (TNamed "zval") 1) 40 16]);
  ("pdo_bound_param_data", TStruct [
    fld "parameter" (TNamed "zval") 0 16;
    fld "pad0" (TArr TU8 16) 16 16;
    fld "paramno" TI64 32 8;
    fld "name" TPtr 40 8;
    fld "pad1" (TArr TU8 24) 48 24;
    fld "param_type" TI32 72 4]);
  ("pdo_stmt_t", TStruct [
    fld "pad0" (TArr TU8 56) 0 56;
    fld "bound_params" TPtr 56 8;
    fld "pad1" (TArr TU8 264) 64 264;
    fld "std" (TNamed "zend_object") 328 56])].

(** [structs/x86_64/php_structs_74.h] *)
Definition php_structs_74_x86 : header := [
  ("zend_array", TStruct [
    fld "pad0" (TArr TU8 8) 0 8;
    fld "flags" TU8 8 1;
    fld "pad1" (TArr TU8 3) 9 3;
    fld "nTableMask" TU32 12 4;
    fld "arData" TPtr 16 8;
    fld "nNumUsed" TU32 24 4;
    fld "nNumOfElements" TU32 28 4;
    fld "nTableSize" TU32 32 4]);
  ("zend_executor_globals", TStruct [
    fld "pad0" (TArr TU8 304) 0 304;
    fld "symbol_table" (TNamed "zend_array") 304 36;
    fld "pad1" (TArr TU8 148) 340 148;
    fld "current_execute_data" TPtr 488 8]);
  ("zend_value", TUnion [
    fld "lval" TLong 0 8;
    fld "dval" TDouble 0 8;
    fld "str" TPtr 0 8;
    fld "arr" TPtr 0 8]);
  ("zval", TStruct [
    fld "value" (TNamed "zend_value") 0 8;
    anon "u1" (TUnion [
      anon "v" (TStruct [
        fld "type" TU8 8 1;
        fld "pad0" (TArr TU8 3) 9 3])]);
    anon "u2" (TUnion [
      fld "next" TU32 12 4])]);
  ("zend_execute_data", TStruct [
    fld "opline" TPtr 0 8;
    fld "pad0" (TArr TU8 16) 8 16;
    fld "func" TPtr 24 8;
    fld "This" (TNamed "zval") 32 16;
    fld "prev_execute_data" TPtr 48 8;
    fld "symbol_table" TPtr 56 8]);
  ("zend_op_array", TStruct [
    fld "pad0" (TArr TU8 52) 0 52;
    fld "last_var" TInt 52 4;
    fld "pad1" (TArr TU8 40) 56 40;
    fld "vars" TPtr 96 8;
    fld "pad2" (TArr TU8 32) 104 32;
    fld "filename" TPtr 136 8;
    fld "line_start" TU32 144 4]);
  ("zend_function", TUnion [
    fld "type" TU8 0 1;
    anon "common" (TStruct [
      fld "pad0" (TArr TU8 8) 0 8;
      fld "function_name" TPtr 8 8;
      fld "scope" TPtr 16 8]);
    fld "op_array" (TNamed "zend_op_array") 0 224]);
  ("zend_class_entry", TStruct [
    fld "pad0" (TArr TU8 8) 0 8;
    fld "name" TPtr 8 8]);
  ("zend_string", TStruct [
    fld "pad0" (TArr TU8 16) 0 16;
    fld "len" TSize 16 8;
    fld "val" (TArr TChar 1) 24 1]);
  ("zend_op", TStruct [
    fld "pad0" (TArr TU8 24) 0 24;
    fld "lineno" TU32 24 4]);
  ("sapi_request_info", TStruct [
    fld "pad0" (TArr TU8 8) 0 8;
    fld "query_string" TPtr 8 8;
    fld "cookie_data" TPtr 16 8;
    fld "pad1" (TArr TU8 8) 24 8;
    fld "path_translated" TPtr 32 8;
    fld "request_uri" TPtr 40 8]);
  ("sapi_globals_struct", TStruct [
    fld "pad0" (TArr TU8 8) 0 8;
    fld "request_info" (TNamed "sapi_request_info") 8 48;
    fld "pad1" (TArr TU8 384) 56 384;
    fld "global_request_time" TDouble 440 8]);
  ("Bucket", TStruct [
    fld "val" (TNamed "zval") 0 16;
    fld "h" TU64 16 8;
    fld "key" TPtr 24 8]);
  ("zend_alloc_globals", TStruct [
    fld "mm_heap" TPtr 0 8]);
  ("zend_mm_heap", TStruct [
    fld "pad0" (TArr TU8 16) 0 16;
    fld "size" TSize 16 8;
    fld "peak" TSize 24 8]);
  ("zend_object", TStruct [
    fld "pad0" (TArr TU8 16) 0 16;
    fld "ce" TPtr 16 8;
    fld "pad1" (TArr TU8 16) 24 16;
    fld "properties_table" (TArr (TNamed "zval") 1) 40 16]);
  ("pdo_bound_param_data", TStruct [
    fld "parameter" (TNamed "zval") 0 16;
    fld "pad0" (TArr TU8 16) 16 16;
    fld "paramno" TI64 32 8;
    fld "name" TPtr 40 8;
    fld "pad1" (TArr TU8 24) 48 24;
    fld "param_type" TI32 72 4]);
  ("pdo_stmt_t", TStruct [
    fld "pad0" (TArr TU8 56) 0 56;
    fld "bound_params" TPtr 56 8;
    fld "pad1" (TArr TU8 264) 64 264;
    fld "std" (TNamed "zend_object") 328 56])].

(** [structs/x86_64/php_structs_80.h] *)
Definition php_structs_80_x86 : header := [
  ("zend_array", TStruct [
    fld "pad0" (TArr TU8 8) 0 8;
    fld "flags" TU8 8 1;
    fld "pad1" (TArr TU8 3) 9 3;
    fld "nTableMask" TU32 12 4;
    fld "arData" TPtr 16 8;
    fld "nNumUsed" TU32 24 4;
    fld "nNumOfElements" TU32 28 4;
    fld "nTableSize" TU32 32 4]);
  ("zend_executor_globals", TStruct [
    fld "pad0" (TArr TU8 304) 0 304;
    fld "symbol_table" (TNamed "zend_array") 304 36;
    fld "pad1" (TArr TU8 148) 340 148;
    fld "current_execute_data" TPtr 488 8]);
  ("zend_value", TUnion [
    fld "lval" TLong 0 8;
    fld "dval" TDouble 0 8;
    fld "str" TPtr 0 8;
    fld "arr" TPtr 0 8]);
  ("zval", TStruct [
    fld "value" (TNamed "zend_value") 0 8;
    anon "u1" (TUnion [
      anon "v" (TStruct [
        fld "type" TU8 8 1;
        fld "pad0" (TArr TU8 3) 9 3])]);
    anon "u2" (TUnion [
      fld "next" TU32 12 4])]);
  ("zend_execute_data", TStruct [
    fld "opline" TPtr 0 8;
    fld "pad0" (TArr TU8 16) 8 16;
    fld "func" TPtr 24 8;
    fld "This" (TNamed "zval") 32 16;
    fld "prev_execute_data" TPtr 48 8;
    fld "symbol_table" TPtr 56 8]);
  ("zend_op_array", TStruct [
    fld "pad0" (TArr TU8 60) 0 60;
    fld "last_var" TInt 60 4;
    fld "pad1" (TArr TU8 40) 64 40;
    fld "vars" TPtr 104 8;
    fld "pad2" (TArr TU8 32) 112 32;
    fld "filename" TPtr 144 8;
    fld "line_start" TU32 152 4]);
  ("zend_function", TUnion [
    fld "type" TU8 0 1;
    anon "common" (TStruct [
      fld "pad0" (TArr TU8 8) 0 8;
      fld "function_name" TPtr 8 8;
      fld "scope" TPtr 16 8]);
    fld "op_array" (TNamed "zend_op_array") 0 232]);
  ("zend_class_entry", TStruct [
    fld "pad0" (TArr TU8 8) 0 8;
    fld "name" TPtr 8 8]);
  ("zend_string", TStruct [
    fld "pad0" (TArr TU8 16) 0 16;
    fld "len" TSize 16 8;
    fld "val" (TArr TChar 1) 24 1]);
  ("zend_op", TStruct [
    fld "pad0" (TArr TU8 24) 0 24;
    fld "lineno" TU32 24 4]);
  ("sapi_request_info", TStruct [
    fld "pad0" (TArr TU8 8) 0 8;
    fld "query_string" TPtr 8 8;
    fld "cookie_data" TPtr 16 8;
    fld "pad1" (TArr TU8 8) 24 8;
    fld "path_translated" TPtr 32 8;
    fld "request_uri" TPtr 40 8]);
  ("sapi_globals_struct", TStruct [
    fld "pad0" (TArr TU8 8) 0 8;
    fld "request_info" (TNamed "sapi_request_info") 8 48;
    fld "pad1" (TArr TU8 384) 56 384;
    fld "global_request_time" TDouble 440 8]);
  ("Bucket", TStruct [
    fld "val" (TNamed "zval") 0 16;
    fld "h" TU64 16 8;
    fld "key" TPtr 24 8]);
  ("zend_alloc_globals", TStruct [
    fld "mm_heap" TPtr 0 8]);
  ("zend_mm_heap", TStruct [
    fld "pad0" (TArr TU8 16) 0 16;
    fld "size" TSize 16 8;
    fld "peak" TSize 24 8]);
  ("zend_object", TStruct [
    fld "pad0" (TArr TU8 16) 0 16;
    fld "ce" TPtr 16 8;
    fld "pad1" (TArr TU8 16) 24 16;
    fld "properties_table" (TArr (TNamed "zval") 1) 40 16]);
  ("pdo_bound_param_data", TStruct [
    fld "parameter" (TNamed "zval") 0 16;
    fld "pad0" (TArr TU8 16) 16 16;
    fld "paramno" TI64 32 8;
    fld "name" TPtr 40 8;
    fld "pad1" (TArr TU8 24) 48 24;
    fld "param_type" TI32 72 4]);
  ("pdo_stmt_t", TStruct [
    fld "pad0" (TArr TU8 56) 0 56;
    fld "bound_params" TPtr 56 8;
    fld "pad1" (TArr TU8 264) 64 264;
    fld "std" (TNamed "zend_object") 328 56])].

(** [structs/x86_64/php_structs_81.h] *)
Definition php_structs_81_x86 : header := [
  ("zend_array", TStruct [
    fld "pad0" (TArr TU8 8) 0 8;
    fld "flags" TU8 8 1;
    fld "pad1" (TArr TU8 3) 9 3;
    fld "nTableMask" TU32 12 4;
    fld "arData" TPtr 16 8;
    fld "nNumUsed" TU32 24 4;
    fld "nNumOfElements" TU32 28 4;
    fld "nTableSize" TU32 32 4]);
  ("zend_executor_globals", TStruct [
    fld "pad0" (TArr TU8 304) 0 304;
    fld "symbol_table" (TNamed "zend_array") 304 36;
    fld "pad1" (TArr TU8 148) 340 148;
    fld "current_execute_data" TPtr 488 8]);
  ("zend_value", TUnion [
    fld "lval" TLong 0 8;
    fld "dval" TDouble 0 8;
    fld "str" TPtr 0 8;
    fld "arr" TPtr 0 8]);
  ("zval", TStruct [
    fld "value" (TNamed "zend_value") 0 8;
    anon "u1" (TUnion [
      anon "v" (TStruct [
        fld "type" TU8 8 1;
        fld "pad0" (TArr TU8 3) 9 3])]);
    anon "u2" (TUnion [
      fld "next" TU32 12 4])]);
  ("zend_execute_data", TStruct [
    fld "opline" TPtr 0 8;
    fld "pad0" (TArr TU8 16) 8 16;
    fld "func" TPtr 24 8;
    fld "This" (TNamed "zval") 32 16;
    fld "prev_execute_data" TPtr 48 8;
    fld "symbol_table" TPtr 56 8]);
  ("zend_op_array", TStruct [
    fld "pad0" (TArr TU8 60) 0 60;
    fld "last_var" TInt 60 4;
    fld "pad1" (TArr TU8 40) 64 40;
    fld "vars" TPtr 104 8;
    fld "pad2" (TArr TU8 32) 112 32;
    fld "filename" TPtr 144 8;
    fld "line_start" TU32 152 4]);
  ("zend_function", TUnion [
    fld "type" TU8 0 1;
    anon "common" (TStruct [
      fld "pad0" (TArr TU8 8) 0 8;
      fld "function_name" TPtr 8 8;
      fld "scope" TPtr 16 8]);
    fld "op_array" (TNamed "zend_op_array") 0 240]);
  ("zend_class_entry", TStruct [
    fld "pad0" (TArr TU8 8) 0 8;
    fld "name" TPtr 8 8]);
  ("zend_string", TStruct [
    fld "pad0" (TArr TU8 16) 0 16;
    fld "len" TSize 16 8;
    fld "val" (TArr TChar 1) 24 1]);
  ("zend_op", TStruct [
    fld "pad0" (TArr TU8 24) 0 24;
    fld "lineno" TU32 24 4]);
  ("sapi_request_info", TStruct [
    fld "pad0" (TArr TU8 8) 0 8;
    fld "query_string" TPtr 8 8;
    fld "cookie_data" TPtr 16 8;
    fld "pad1" (TArr TU8 8) 24 8;
    fld "path_translated" TPtr 32 8;
    fld "request_uri" TPtr 40 8]);
  ("sapi_globals_struct", TStruct [
    fld "pad0" (TArr TU8 8) 0 8;
    fld "request_info" (TNamed "sapi_request_info") 8 48;
    fld "pad1" (TArr TU8 384) 56 384;
    fld "global_request_time" TDouble 440 8]);
  ("Bucket", TStruct [
    fld "val" (TNamed "zval") 0 16;
    fld "h" TU64 16 8;
    fld "key" TPtr 24 8]);
  ("zend_alloc_globals", TStruct [
    fld "mm_heap" TPtr 0 8]);
  ("zend_mm_heap", TStruct [
    fld "pad0" (TArr TU8 16) 0 16;
    fld "size" TSize 16 8;
    fld "peak" TSize 24 8]);
  ("zend_object", TStruct [
    fld "pad0" (TArr TU8 16) 0 16;
    fld "ce" TPtr 16 8;
    fld "pad1" (TArr TU8 16) 24 16;
    fld "properties_table" (TArr (TNamed "zval") 1) 40 16]);
  ("pdo_bound_param_data", TStruct [
    fld "parameter" (TNamed "zval") 0 16;
    fld "pad0" (TArr TU8 16) 16 16;
    fld "paramno" TI64 32 8;
    fld "name" TPtr 40 8;
    fld "pad1" (TArr TU8 24) 48 24;
    fld "param_type" TI32 72 4]);
  ("pdo_stmt_t", TStruct [
    fld "pad0" (TArr TU8 56) 0 56;
    fld "bound_params" TPtr 56 8;
    fld "pad1" (TArr TU8 248) 64 248;
    fld "std" (TNamed "zend_object") 312 56])].

(** [structs/x86_64/php_structs_82.h] *)
Definition php_structs_82_x86 : header := [
  ("zend_array", TStruct [
    fld "pad0" (TArr TU8 8) 0 8;
    fld "flags" TU8 8 1;
    fld "pad1" (TArr TU8 3) 9 3;
    fld "nTableMask" TU32 12 4;
    fld "arData" TPtr 16 8;
    fld "nNumUsed" TU32 24 4;
    fld "nNumOfElements" TU32 28 4;
    fld "nTableSize" TU32 32 4]);
  ("zend_executor_globals", TStruct [
    fld "pad0" (TArr TU8 304) 0 304;
    fld "symbol_table" (TNamed "zend_array") 304 36;
    fld "pad1" (TArr TU8 148) 340 148;
    fld "current_execute_data" TPtr 488 8]);
  ("zend_value", TUnion [
    fld "lval" TLong 0 8;
    fld "dval" TDouble 0 8;
    fld "str" TPtr 0 8;
    fld "arr" TPtr 0 8]);
  ("zval", TStruct [
    fld "value" (TNamed "zend_value") 0 8;
    anon "u1" (TUnion [
      anon "v" (TStruct [
        fld "type" TU8 8 1;
        fld "pad0" (TArr TU8 3) 9 3])]);
    anon "u2" (TUnion [
      fld "next" TU32 12 4])]);
  ("zend_execute_data", TStruct [
    fld "opline" TPtr 0 8;
    fld "pad0" (TArr TU8 16) 8 16;
    fld "func" TPtr 24 8;
    fld "This" (TNamed "zval") 32 16;
    fld "prev_execute_data" TPtr 48 8;
    fld "symbol_table" TPtr 56 8]);
  ("zend_op_array", TStruct [
    fld "pad0" (TArr TU8 76) 0 76;
    fld "last_var" TInt 76 4;
    fld "pad1" (TArr TU8 32) 80 32;
    fld "vars" TPtr 112 8;
    fld "pad2" (TArr TU8 32) 120 32;
    fld "filename" TPtr 152 8;
    fld "line_start" TU32 160 4]);
  ("zend_function", TUnion [
    fld "type" TU8 0 1;
    anon "common" (TStruct [
      fld "pad0" (TArr TU8 8) 0 8;
      fld "function_name" TPtr 8 8;
      fld "scope" TPtr 16 8]);
    fld "op_array" (TNamed "zend_op_array") 0 248]);
  ("zend_class_entry", TStruct [
    fld "pad0" (TArr TU8 8) 0 8;
    fld "name" TPtr 8 8]);
  ("zend_string", TStruct [
    fld "pad0" (TArr TU8 16) 0 16;
    fld "len" TSize 16 8;
    fld "val" (TArr TChar 1) 24 1]);
  ("zend_op", TStruct [
    fld "pad0" (TArr TU8 24) 0 24;
    fld "lineno" TU32 24 4]);
  ("sapi_request_info", TStruct [
    fld "pad0" (TArr TU8 8) 0 8;
    fld "query_string" TPtr 8 8;
    fld "cookie_data" TPtr 16 8;
    fld "pad1" (TArr TU8 8) 24 8;
    fld "path_translated" TPtr 32 8;
    fld "request_uri" TPtr 40 8]);
  ("sapi_globals_struct", TStruct [
    fld "pad0" (TArr TU8 8) 0 8;
    fld "request_info" (TNamed "sapi_request_info") 8 48;
    fld "pad1" (TArr TU8 384) 56 384;
    fld "global_request_time" TDouble 440 8]);
  ("Bucket", TStruct [
    fld "val" (TNamed "zval") 0 16;
    fld "h" TU64 16 8;
    fld "key" TPtr 24 8]);
  ("zend_alloc_globals", TStruct [
    fld "mm_heap" TPtr 0 8]);
  ("zend_mm_heap", TStruct [
    fld "pad0" (TArr TU8 16) 0 16;
    fld "size" TSize 16 8;
    fld "peak" TSize 24 8]);
  ("zend_object", TStruct [
    fld "pad0" (TArr TU8 16) 0 16;
    fld "ce" TPtr 16 8;
    fld "pad1" (TArr TU8 16) 24 16;
    fld "properties_table" (TArr (TNamed "zval") 1) 40 16]);
  ("pdo_bound_param_data", TStruct [
    fld "parameter" (TNamed "zval") 0 16;
    fld "pad0" (TArr TU8 16) 16 16;
    fld "paramno" TI64 32 8;
    fld "name" TPtr 40 8;
    fld "pad1" (TArr TU8 24) 48 24;
    fld "param_type" TI32 72 4]);
  ("pdo_stmt_t", TStruct [
    fld "pad0" (TArr TU8 56) 0 56;
    fld "bound_params" TPtr 56 8;
    fld "pad1" (TArr TU8 248) 64 248;
    fld "std" (TNamed "zend_object") 312 56])].

(** [structs/x86_64/php_structs_83.h] *)
Definition php_structs_83_x86 : header := [
  ("zend_array", TStruct [
    fld "pad0" (TArr TU8 8) 0 8;
    fld "flags" TU8 8 1;
    fld "pad1" (TArr TU8 3) 9 3;
    fld "nTableMask" TU32 12 4;
    fld "arData" TPtr 16 8;
    fld "nNumUsed" TU32 24 4;
    fld "nNumOfElements" TU32 28 4;
    fld "nTableSize" TU32 32 4]);
  ("zend_executor_globals", TStruct [
    fld "pad0" (TArr TU8 304) 0 304;
    fld "symbol_table" (TNamed "zend_array") 304 36;
    fld "pad1" (TArr TU8 148) 340 148;
    fld "current_execute_data" TPtr 488 8]);
  ("zend_value", TUnion [
    fld "lval" TLong 0 8;
    fld "dval" TDouble 0 8;
    fld "str" TPtr 0 8;
    fld "arr" TPtr 0 8]);
  ("zval", TStruct [
    fld "value" (TNamed "zend_value") 0 8;
    anon "u1" (TUnion [
      anon "v" (TStruct [
        fld "type" TU8 8 1;
        fld "pad0" (TArr TU8 3) 9 3])]);
    anon "u2" (TUnion [
      fld "next" TU32 12 4])]);
  ("zend_execute_data", TStruct [
    fld "opline" TPtr 0 8;
    fld "pad0" (TArr TU8 16) 8 16;
    fld "func" TPtr 24 8;
    fld "This" (TNamed "zval") 32 16;
    fld "prev_execute_data" TPtr 48 8;
    fld "symbol_table" TPtr 56 8]);
  ("zend_op_array", TStruct [
    fld "pad0" (TArr TU8 72) 0 72;
    fld "last_var" TInt 72 4;
    fld "pad1" (TArr TU8 28) 76 28;
    fld "vars" TPtr 104 8;
    fld "pad2" (TArr TU8 32) 112 32;
    fld "filename" TPtr 144 8;
    fld "line_start" TU32 152 4]);
  ("zend_function", TUnion [
    fld "type" TU8 0 1;
    anon "common" (TStruct [
      fld "pad0" (TArr TU8 8) 0 8;
      fld "function_name" TPtr 8 8;
      fld "scope" TPtr 16 8]);
    fld "op_array" (TNamed "zend_op_array") 0 240]);
  ("zend_class_entry", TStruct [
    fld "pad0" (TArr TU8 8) 0 8;
    fld "name" TPtr 8 8]);
  ("zend_string", TStruct [
    fld "pad0" (TArr TU8 16) 0 16;
    fld "len" TSize 16 8;
    fld "val" (TArr TChar 1) 24 1]);
  ("zend_op", TStruct [
    fld "pad0" (TArr TU8 24) 0 24;
    fld "lineno" TU32 24 4]);
  ("sapi_request_info", TStruct [
    fld "pad0" (TArr TU8 8) 0 8;
    fld "query_string" TPtr 8 8;
    fld "cookie_data" TPtr 16 8;
    fld "pad1" (TArr TU8 8) 24 8;
    fld "path_translated" TPtr 32 8;
    fld "request_uri" TPtr 40 8]);
  ("sapi_globals_struct", TStruct [
    fld "pad0" (TArr TU8 8) 0 8;
    fld "request_info" (TNamed "sapi_request_info") 8 48;
    fld "pad1" (TArr TU8 384) 56 384;
    fld "global_request_time" TDouble 440 8]);
  ("Bucket", TStruct [
    fld "val" (TNamed "zval") 0 16;
    fld "h" TU64 16 8;
    fld "key" TPtr 24 8]);
  ("zend_alloc_globals", TStruct [
    fld "mm_heap" TPtr 0 8]);
  ("zend_mm_heap", TStruct [
    fld "pad0" (TArr TU8 16) 0 16;
    fld "size" TSize 16 8;
    fld "peak" TSize 24 8]);
  ("zend_object", TStruct [
    fld "pad0" (TArr TU8 16) 0 16;
    fld "ce" TPtr 16 8;
    fld "pad1" (TArr TU8 16) 24 16;
    fld "properties_table" (TArr (TNamed "zval") 1) 40 16]);
  ("pdo_bound_param_data", TStruct [
    fld "parameter" (TNamed "zval") 0 16;
    fld "pad0" (TArr TU8 16) 16 16;
    fld "paramno" TI64 32 8;
    fld "name" TPtr 40 8;
    fld "pad1" (TArr TU8 24) 48 24;
    fld "param_type" TI32 72 4]);
  ("pdo_stmt_t", TStruct [
    fld "pad0" (TArr TU8 56) 0 56;
    fld "bound_params" TPtr 56 8;
    fld "pad1" (TArr TU8 248) 64 248;
    fld "std" (TNamed "zend_object") 312 56])].

(** [structs/x86_64/php_structs_84.h] *)
Definition php_structs_84_x86 : header := [
  ("zend_array", TStruct [
    fld "pad0" (TArr TU8 8) 0 8;
    fld "flags" TU8 8 1;
    fld "pad1" (TArr TU8 3) 9 3;
    fld "nTableMask" TU32 12 4;
    fld "arData" TPtr 16 8;
    fld "nNumUsed" TU32 24 4;
    fld "nNumOfElements" TU32 28 4;
    fld "nTableSize" TU32 32 4]);
  ("zend_executor_globals", TStruct [
    fld "pad0" (TArr TU8 304) 0 304;
    fld "symbol_table" (TNamed "zend_array") 304 36;
    fld "pad1" (TArr TU8 148) 340 148;
    fld "current_execute_data" TPtr 488 8]);
  ("zend_value", TUnion [
    fld "lval" TLong 0 8;
    fld "dval" TDouble 0 8;
    fld "str" TPtr 0 8;
    fld "arr" TPtr 0 8]);
  ("zval", TStruct [
    fld "value" (TNamed "zend_value") 0 8;
    anon "u1" (TUnion [
      anon "v" (TStruct [
        fld "type" TU8 8 1;
        fld "pad0" (TArr TU8 3) 9 3])]);
    anon "u2" (TUnion [
      fld "next" TU32 12 4])]);
  ("zend_execute_data", TStruct [
    fld "opline" TPtr 0 8;
    fld "pad0" (TArr TU8 16) 8 16;
    fld "func" TPtr 24 8;
    fld "This" (TNamed "zval") 32 16;
    fld "prev_execute_data" TPtr 48 8;
    fld "symbol_table" TPtr 56 8]);
  ("zend_op_array", TStruct [
    fld "pad0" (TArr TU8 92) 0 92;
    fld "last_var" TInt 92 4;
    fld "pad1" (TArr TU8 32) 96 32;
    fld "vars" TPtr 128 8;
    fld "pad2" (TArr TU8 32) 136 32;
    fld "filename" TPtr 168 8;
    fld "line_start" TU32 176 4]);
  ("zend_function", TUnion [
    fld "type" TU8 0 1;
    anon "common" (TStruct [
      fld "pad0" (TArr TU8 8) 0 8;
      fld "function_name" TPtr 8 8;
      fld "scope" TPtr 16 8]);
    fld "op_array" (TNamed "zend_op_array") 0 240]);
  ("zend_class_entry", TStruct [
    fld "pad0" (TArr TU8 8) 0 8;
    fld "name" TPtr 8 8]);
  ("zend_string", TStruct [
    fld "pad0" (TArr TU8 16) 0 16;
    fld "len" TSize 16 8;
    fld "val" (TArr TChar 1) 24 1]);
  ("zend_op", TStruct [
    fld "pad0" (TArr TU8 24) 0 24;
    fld "lineno" TU32 24 4]);
  ("sapi_request_info", TStruct [
    fld "pad0" (TArr TU8 8) 0 8;
    fld "query_string" TPtr 8 8;
    fld "cookie_data" TPtr 16 8;
    fld "pad1" (TArr TU8 8) 24 8;
    fld "path_translated" TPtr 32 8;
    fld "request_uri" TPtr 40 8]);
  ("sapi_globals_struct", TStruct [
    fld "pad0" (TArr TU8 8) 0 8;
    fld "request_info" (TNamed "sapi_request_info") 8 48;
    fld "pad1" (TArr TU8 384) 56 384;
    fld "global_request_time" TDouble 440 8]);
  ("Bucket", TStruct [
    fld "val" (TNamed "zval") 0 16;
    fld "h" TU64 16 8;
    fld "key" TPtr 24 8]);
  ("zend_alloc_globals", TStruct [
    fld "mm_heap" TPtr 0 8]);
  ("zend_mm_heap", TStruct [
    fld "pad0" (TArr TU8 16) 0 16;
    fld "size" TSize 16 8;
    fld "peak" TSize 24 8]);
  ("zend_object", TStruct [
    fld "pad0" (TArr TU8 16) 0 16;
    fld "ce" TPtr 16 8;
    fld "pad1" (TArr TU8 16) 24 16;
    fld "properties_table" (TArr (TNamed "zval") 1) 40 16]);
  ("pdo_bound_param_data", TStruct [
    fld "parameter" (TNamed "zval") 0 16;
    fld "pad0" (TArr TU8 16) 16 16;
    fld "paramno" TI64 32 8;
    fld "name" TPtr 40 8;
    fld "pad1" (TArr TU8 24) 48 24;
    fld "param_type" TI32 72 4]);
  ("pdo_stmt_t", TStruct [
    fld "pad0" (TArr TU8 56) 0 56;
    fld "bound_params" TPtr 56 8;
    fld "pad1" (TArr TU8 248) 64 248;
    fld "std" (TNamed "zend_object") 312 56])].

(** [structs/x86_64/php_structs_85.h] *)
Definition php_structs_85_x86 : header := [
  ("zend_array", TStruct [
    fld "pad0" (TArr TU8 8) 0 8;
    fld "flags" TU8 8 1;
    fld "pad1" (TArr TU8 3) 9 3;
    fld "nTableMask" TU32 12 4;
    fld "arData" TPtr 16 8;
    fld "nNumUsed" TU32 24 4;
    fld "nNumOfElements" TU32 28 4;
    fld "nTableSize" TU32 32 4]);
  ("zend_executor_globals", TStruct [
    fld "pad0" (TArr TU8 304) 0 304;
    fld "symbol_table" (TNamed "zend_array") 304 36;
    fld "pad1" (TArr TU8 172) 340 172;
    fld "current_execute_data" TPtr 512 8]);
  ("zend_value", TUnion [
    fld "lval" TLong 0 8;
    fld "dval" TDouble 0 8;
    fld "str" TPtr 0 8;
    fld "arr" TPtr 0 8]);
  ("zval", TStruct [
    fld "value" (TNamed "zend_value") 0 8;
    anon "u1" (TUnion [
      anon "v" (TStruct [
        fld "type" TU8 8 1;
        fld "pad0" (TArr TU8 3) 9 3])]);
    anon "u2" (TUnion [
      fld "next" TU32 12 4])]);
  ("zend_execute_data", TStruct [
    fld "opline" TPtr 0 8;
    fld "pad0" (TArr TU8 16) 8 16;
    fld "func" TPtr 24 8;
    fld "This" (TNamed "zval") 32 16;
    fld "prev_execute_data" TPtr 48 8;
    fld "symbol_table" TPtr 56 8]);
  ("zend_op_array", TStruct [
    fld "pad0" (TArr TU8 92) 0 92;
    fld "last_var" TInt 92 4;
    fld "pad1" (TArr TU8 32) 96 32;
    fld "vars" TPtr 128 8;
    fld "pad2" (TArr TU8 32) 136 32;
    fld "filename" TPtr 168 8;
    fld "line_start" TU32 176 4]);
  ("zend_function", TUnion [
    fld "type" TU8 0 1;
    anon "common" (TStruct [
      fld "pad0" (TArr TU8 8) 0 8;
      fld "function_name" TPtr 8 8;
      fld "scope" TPtr 16 8]);
    fld "op_array" (TNamed "zend_op_array") 0 240]);
  ("zend_class_entry", TStruct [
    fld "pad0" (TArr TU8 8) 0 8;
    fld "name" TPtr 8 8]);
  ("zend_string", TStruct [
    fld "pad0" (TArr TU8 16) 0 16;
    fld "len" TSize 16 8;
    fld "val" (TArr TChar 1) 24 1]);
  ("zend_op", TStruct [
    fld "pad0" (TArr TU8 24) 0 24;
    fld "lineno" TU32 24 4]);
  ("sapi_request_info", TStruct [
    fld "pad0" (TArr TU8 8) 0 8;
    fld "query_string" TPtr 8 8;
    fld "cookie_data" TPtr 16 8;
    fld "pad1" (TArr TU8 8) 24 8;
    fld "path_translated" TPtr 32 8;
    fld "request_uri" TPtr 40 8]);
  ("sapi_globals_struct", TStruct [
    fld "pad0" (TArr TU8 8) 0 8;
    fld "request_info" (TNamed "sapi_request_info") 8 48;
    fld "pad1" (TArr TU8 384) 56 384;
    fld "global_request_time" TDouble 440 8]);
  ("Bucket", TStruct [
    fld "val" (TNamed "zval") 0 16;
    fld "h" TU64 16 8;
    fld "key" TPtr 24 8]);
  ("zend_alloc_globals", TStruct [
    fld "mm_heap" TPtr 0 8]);
  ("zend_mm_heap", TStruct [
    fld "pad0" (TArr TU8 16) 0 16;
    fld "size" TSize 16 8;
    fld "peak" TSize 24 8]);
  ("zend_object", TStruct [
    fld "pad0" (TArr TU8 16) 0 16;
    fld "ce" TPtr 16 8;
    fld "pad1" (TArr TU8 16) 24 16;
    fld "properties_table" (TArr (TNamed "zval") 1) 40 16]);
  ("pdo_bound_param_data", TStruct [
    fld "parameter" (TNamed "zval") 0 16;
    fld "pad0" (TArr TU8 16) 16 16;
    fld "paramno" TI64 32 8;
    fld "name" TPtr 40 8;
    fld "pad1" (TArr TU8 24) 48 24;
    fld "param_type" TI32 72 4]);
  ("pdo_stmt_t", TStruct [
    fld "pad0" (TArr TU8 24) 0 24;
    fld "bound_params" TPtr 24 8;
    fld "pad1" (TArr TU8 128) 32 128;
    fld "std" (TNamed "zend_object") 160 56])].

(** [structs/x86_64/php_structs_86.h] *)
Definition php_structs_86_x86 : header := [
  ("zend_array", TStruct [
    fld "pad0" (TArr TU8 8) 0 8;
    fld "flags" TU8 8 1;
    fld "pad1" (TArr TU8 3) 9 3;
    fld "nTableMask" TU32 12 4;
    fld "arData" TPtr 16 8;
    fld "nNumUsed" TU32 24 4;
    fld "nNumOfElements" TU32 28 4;
    fld "nTableSize" TU32 32 4]);
  ("zend_executor_globals", TStruct [
    fld "pad0" (TArr TU8 304) 0 304;
    fld "symbol_table" (TNamed "zend_array") 304 36;
    fld "pad1" (TArr TU8 172) 340 172;
    fld "current_execute_data" TPtr 512 8]);
  ("zend_value", TUnion [
    fld "lval" TLong 0 8;
    fld "dval" TDouble 0 8;
    fld "str" TPtr 0 8;
    fld "arr" TPtr 0 8]);
  ("zval", TStruct [
    fld "value" (TNamed "zend_value") 0 8;
    anon "u1" (TUnion [
      anon "v" (TStruct [
        fld "type" TU8 8 1;
        fld "pad0" (TArr TU8 3) 9 3])]);
    anon "u2" (TUnion [
      fld "next" TU32 12 4])]);
  ("zend_execute_data", TStruct [
    fld "opline" TPtr 0 8;
    fld "pad0" (TArr TU8 16) 8 16;
    fld "func" TPtr 24 8;
    fld "This" (TNamed "zval") 32 16;
    fld "prev_execute_data" TPtr 48 8;
    fld "symbol_table" TPtr 56 8]);
  ("zend_op_array", TStruct [
    fld "pad0" (TArr TU8 92) 0 92;
    fld "last_var" TInt 92 4;
    fld "pad1" (TArr TU8 32) 96 32;
    fld "vars" TPtr 128 8;
    fld "pad2" (TArr TU8 32) 136 32;
    fld "filename" TPtr 168 8;
    fld "line_start" TU32 176 4]);
  ("zend_function", TUnion [
    fld "type" TU8 0 1;
    anon "common" (TStruct [
      fld "pad0" (TArr TU8 8) 0 8;
      fld "function_name" TPtr 8 8;
      fld "scope" TPtr 16 8]);
    fld "op_array" (TNamed "zend_op_array") 0 240]);
  ("zend_class_entry", TStruct [
    fld "pad0" (TArr TU8 8) 0 8;
    fld "name" TPtr 8 8]);
  ("zend_string", TStruct [
    fld "pad0" (TArr TU8 16) 0 16;
    fld "len" TSize 16 8;
    fld "val" (TArr TChar 1) 24 1]);
  ("zend_op", TStruct [
    fld "pad0" (TArr TU8 24) 0 24;
    fld "lineno" TU32 24 4]);
  ("sapi_request_info", TStruct [
    fld "pad0" (TArr TU8 8) 0 8;
    fld "query_string" TPtr 8 8;
    fld "cookie_data" TPtr 16 8;
    fld "pad1" (TArr TU8 8) 24 8;
    fld "path_translated" TPtr 32 8;
    fld "request_uri" TPtr 40 8]);
  ("sapi_globals_struct", TStruct [
    fld "pad0" (TArr TU8 8) 0 8;
    fld "request_info" (TNamed "sapi_request_info") 8 48;
    fld "pad1" (TArr TU8 376) 56 376;
    fld "global_request_time" TDouble 432 8]);
  ("Bucket", TStruct [
    fld "val" (TNamed "zval") 0 16;
    fld "h" TU64 16 8;
    fld "key" TPtr 24 8]);
  ("zend_alloc_globals", TStruct [
    fld "mm_heap" TPtr 0 8]);
  ("zend_mm_heap", TStruct [
    fld "pad0" (TArr TU8 16) 0 16;
    fld "size" TSize 16 8;
    fld "peak" TSize 24 8]);
  ("zend_object", TStruct [
    fld "pad0" (TArr TU8 16) 0 16;
    fld "ce" TPtr 16 8;
    fld "pad1" (TArr TU8 16) 24 16;
    fld "properties_table" (TArr (TNamed "zval") 1) 40 16]);
  ("pdo_bound_param_data", TStruct [
    fld "parameter" (TNamed "zval") 0 16;
    fld "pad0" (TArr TU8 16) 16 16;
    fld "paramno" TI64 32 8;
    fld "name" TPtr 40 8;
    fld "pad1" (TArr TU8 24) 48 24;
    fld "param_type" TI32 72 4]);
  ("pdo_stmt_t", TStruct [
    fld "pad0" (TArr TU8 24) 0 24;
    fld "bound_params" TPtr 24 8;
    fld "pad1" (TArr TU8 128) 32 128;
    fld "std" (TNamed "zend_object") 160 56])].

(** The headers that [structs/structs.h] includes on x86-64, by version. *)
Definition headers_x86 : list (Z * header) := [
  (70, php_structs_70_x86);
  (71, php_structs_71_x86);
  (72, php_structs_72_x86);
  (73, php_structs_73_x86);
  (74, php_structs_74_x86);
  (80, php_structs_80_x86);
  (81, php_structs_81_x86);
  (82, php_structs_82_x86);
  (83, php_structs_83_x86);
  (84, php_structs_84_x86);
  (85, php_structs_85_x86);
  (86, php_structs_86_x86)].
