(* ===== verification/Versions.v ===== *)
(** * Versions: from the PHP version to a tracer and its layout

    The version detection at the end of [get_php_version], the dispatch in
    [main_pid], and the instances of [phpspy_trace_tpl.c] that [phpspy.c]
    includes, each with the layout its header declares. *)
From S2P Require Import Prelude CLib Layout StructsX86 StructsArm.

(** ** Detection: [char phpv[4]] to [opt_phpv] *)

Definition detect_version (phpv : bytes) : option bytes :=
  if strncmp_eq phpv (cs "7.0") 3 then Some (cs "70")
  else if strncmp_eq phpv (cs "7.1") 3 then Some (cs "71")
  else if strncmp_eq phpv (cs "7.2") 3 then Some (cs "72")
  else if strncmp_eq phpv (cs "7.3") 3 then Some (cs "73")
  else if strncmp_eq phpv (cs "7.4") 3 then Some (cs "74")
  else if strncmp_eq phpv (cs "8.0") 3 then Some (cs "80")
  else if strncmp_eq phpv (cs "8.1") 3 then Some (cs "81")
  else if strncmp_eq phpv (cs "8.2") 3 then Some (cs "82")
  else if strncmp_eq phpv (cs "8.3") 3 then Some (cs "83")
  else if strncmp_eq phpv (cs "8.4") 3 then Some (cs "84")
  else if strncmp_eq phpv (cs "8.5") 3 then Some (cs "85")
  else if strncmp_eq phpv (cs "8.6") 3 then Some (cs "86")
  else None.

(** ** Dispatch: [opt_phpv] to [do_trace_ptr], the instance by its number *)

Definition dispatch (opt_phpv : bytes) : option Z :=
  if strcmp_eq (cs "70") opt_phpv then Some 70
  else if strcmp_eq (cs "71") opt_phpv then Some 71
  else if strcmp_eq (cs "72") opt_phpv then Some 72
  else if strcmp_eq (cs "73") opt_phpv then Some 73
  else if strcmp_eq (cs "74") opt_phpv then Some 74
  else if strcmp_eq (cs "80") opt_phpv then Some 80
  else if strcmp_eq (cs "81") opt_phpv then Some 81
  else if strcmp_eq (cs "82") opt_phpv then Some 82
  else if strcmp_eq (cs "83") opt_phpv then Some 83
  else if strcmp_eq (cs "84") opt_phpv then Some 84
  else if strcmp_eq (cs "85") opt_phpv then Some 85
  else if strcmp_eq (cs "86") opt_phpv then Some 86
  else None.

(** ** Instances *)

(** The values [phpv] is defined to before each inclusion of the template. *)
Definition instances : list Z := [70; 71; 72; 73; 74; 80; 81; 82; 83; 84; 85; 86].

Inductive arch := X86_64 | AArch64.

Definition headers (a : arch) : list (Z * header) :=
  match a with X86_64 => headers_x86 | AArch64 => headers_arm end.

Fixpoint find_header (hs : list (Z * header)) (v : Z) : option header :=
  match hs with
  | [] => None
  | (n, h) :: hs' => if n =? v then Some h else find_header hs' v
  end.

(** The layout that [do_trace_<v>] is compiled with. *)
Definition layout_for (a : arch) (v : Z) : option zlayout :=
  h ← find_header (headers a) v; mk_layout h v.

(** ** Checks by evaluation *)

(** The comments state the length of an [op_array] as PHP has it; the declared
    part is shorter.  All other stated lengths are the sizes. *)
Definition gap_okb (g : string * Z * option Z) : bool :=
  match g with
  | (name, len, Some size) => String.eqb name "op_array" && (size <? len)
  | (_, _, None) => false
  end.

(** The declared part of [zend_execute_data] ends with [symbol_table]; on 7.0 it
    has [called_scope]. *)
Definition declared_execute_data (v : Z) : Z := if v =? 70 then 72 else 64.

Definition instance_okb (a : arch) (v : Z) : bool :=
  match find_header (headers a) v with
  | Some h =>
    match mk_layout h v with
    | Some L => header_offsets_documented h && forallb gap_okb (header_gaps h) && layout_okb L && (sz_ex L =? declared_execute_data v)
    | None => false
    end
  | None => false
  end.

Lemma instances_checked : forallb (instance_okb X86_64) instances && forallb (instance_okb AArch64) instances = true.
Proof. vm_compute. reflexivity. Qed.

Lemma instance_checked a v : v ∈ instances -> exists h L, find_header (headers a) v = Some h /\ mk_layout h v = Some L
  /\ header_offsets_documented h = true /\ forallb gap_okb (header_gaps h) = true /\ layout_ok L /\ sz_ex L = declared_execute_data v.
Proof.
  intros Hv. assert (instance_okb a v = true) as H.
  { pose proof instances_checked as H. apply andb_true_iff in H as [H1 H2].
    rewrite forallb_forall in H1, H2. destruct a; [apply H1|apply H2]; by apply list_elem_of_In. }
  unfold instance_okb in H. destruct (find_header (headers a) v) as [h|]; [|done].
  destruct (mk_layout h v) as [L|] eqn:HL; [|done]. exists h, L. apply andb_true_iff in H as [[[H1 H2]%andb_true_iff H3]%andb_true_iff H4].
  split_and!; [done|done|exact H1|exact H2|exact H3|lia].
Qed.

Lemma layout_zval L : layout_ok L -> sz_zval L = 16.
Proof. unfold layout_ok, layout_okb. cbv zeta. intros H. repeat (apply andb_true_iff in H as [H ?]). lia. Qed.

Lemma forallb_forall_stdpp {A} (f : A -> bool) l : forallb f l = true -> Forall (fun x => f x = true) l.
Proof. rewrite forallb_forall. intros H. apply Forall_forall. intros x Hx. by apply H, list_elem_of_In. Qed.

Lemma bind_Some_inv {A B} (x : option A) (k : A -> option B) b : x ≫= k = Some b -> exists a, x = Some a /\ k a = Some b.
Proof. destruct x; [by eauto|done]. Qed.

Lemma mk_layout_slot h v L : mk_layout h v = Some L -> frame_slot L = phpspy_frame_slot v.
Proof.
  unfold mk_layout. cbv zeta. intros H.
  repeat (apply bind_Some_inv in H as (? & _ & H)). by injection H as <-.
Qed.

(** ** Lemmas on detection *)

(** The comparison of [detect_version] only sees the first three bytes. *)
Lemma detect_version_take phpv t : take 3 (cstr phpv) = t -> NUL ∉ t -> detect_version phpv = detect_version t.
Proof.
  intros Ht Hn. assert (forall b, strncmp_eq phpv b 3 = strncmp_eq t b 3) as H.
  { intros b. unfold strncmp_eq. rewrite (cstr_id t Hn), Ht. subst t. by rewrite take_take. }
  unfold detect_version. by rewrite !H.
Qed.

Lemma detected_name phpv v :
  detect_version phpv = Some v ->
  exists major minor, take 3 (cstr phpv) = [major; "."%char; minor] /\ v = [major; minor] /\ exists n, dispatch v = Some n /\ n ∈ instances.
Proof.
  unfold detect_version, strncmp_eq. intros H.
  repeat match type of H with context [bool_decide ?P] => destruct (bool_decide P) eqn:Hb; [|clear Hb] end; [..|done].
  all: apply bool_decide_eq_true in Hb; rewrite Hb; injection H as <-; eexists _, _; split_and!; [reflexivity..|].
  all: eexists; split; [reflexivity|]; by apply (bool_decide_unpack _); vm_compute.
Qed.

Lemma dispatch_names v n :
  dispatch v = Some n -> n ∈ instances /\ exists major minor, cstr v = [major; minor] /\ detect_version [major; "."%char; minor] = Some (cstr v)
    /\ n = 10 * (code major - 48) + (code minor - 48).
Proof.
  unfold dispatch, strcmp_eq. intros H.
  repeat match type of H with context [bool_decide ?P] => destruct (bool_decide P) eqn:Hb; [|clear Hb] end; [..|done].
  all: apply bool_decide_eq_true in Hb; rewrite <-Hb; injection H as <-; split; [by apply (bool_decide_unpack _); vm_compute|].
  all: eexists _, _; split_and!; reflexivity.
Qed.

(** ** Theorems *)

(** A member of a structure: its bytes are the [s] from [o] on. *)
Definition member_at (h : header) (tag : string) (path : list string) (o s : Z) : Prop :=
  exists t f, field h (TNamed tag) path = Some (o, t) /\ sizeof h f t = Some s.

(** The path leads to a struct, not to a union. *)
Definition struct_at (h : header) (tag : string) (path : list string) : Prop :=
  exists o t ms, field h (TNamed tag) path = Some (o, t) /\ members h NEST t = Some (false, ms).

(** The layout that the packed declarations give: members lie inside their
    structure, members of a struct do not overlap, and [offsetof] finds them. *)
Record packed (h : header) : Prop := {
  pk_inside : forall tag size path o s, sizeof h NEST (TNamed tag) = Some size -> member_at h tag path o s -> 0 <= o /\ o + s <= size;
  pk_apart : forall tag size c x y p q o1 s1 o2 s2, sizeof h NEST (TNamed tag) = Some size -> struct_at h tag c -> x <> y ->
    member_at h tag (c ++ x :: p) o1 s1 -> member_at h tag (c ++ y :: q) o2 s2 -> o1 + s1 <= o2 \/ o2 + s2 <= o1;
  pk_offset : forall tag path o, offsetof h tag path = Some o -> exists t, field h (TNamed tag) path = Some (o, t);
}.

Lemma header_packed h : packed h.
Proof.
  split.
  - intros tag size path o s Hs (t & f & Hf & Ht). exact (field_inside h _ _ _ _ _ _ _ _ Hf Hs Ht).
  - intros tag size c x y p q o1 s1 o2 s2 Hs (o & t & ms & Hc & Hm) Hne (t1 & f1 & H1 & Hs1) (t2 & f2 & H2 & Hs2).
    exact (fields_apart h _ _ _ _ _ _ _ _ _ _ _ _ _ _ _ _ _ _ _ Hs Hc Hm Hne H1 H2 Hs1 Hs2).
  - intros tag path o. apply offset_path_field.
Qed.

(** PHP's [zend_execute_data] goes on behind the declared part with
    [run_time_cache] and, on 7.0 and most later versions, one more pointer. *)
Record exec_tail (tail : Z -> Z) : Prop := {
  et_70 : tail 70 = 16;
  et_later : forall v, v ∈ instances -> v <> 70 -> tail v = 8 \/ tail v = 16;
}.

(** C20. The struct headers are coherent.  For every declaration, the computed
    offsets place each member inside its structure and members of a struct apart
    from each other; for both architectures and every supported version the
    offsets and lengths in the comments of the header are the computed ones (of
    [op_array], only the first part is declared), and every field the tracer
    decodes lies inside the structure copied for it.  The first local variable is
    looked for where PHP has it, [ZEND_CALL_FRAME_SLOT] zvals behind the frame:
    with PHP's own size of [zend_execute_data], 72 or 80 bytes and 88 on 7.0, the
    slot is that size divided by the size of a zval, rounded up. *)
Theorem headers_coherent a v tail :
  v ∈ instances -> exec_tail tail ->
  exists h L, find_header (headers a) v = Some h /\ mk_layout h v = Some L /\ packed h
    /\ header_offsets_documented h = true /\ Forall (fun g => gap_okb g = true) (header_gaps h) /\ layout_ok L
    /\ (v <> 70 -> sz_ex L + tail v = 72 \/ sz_ex L + tail v = 80)
    /\ frame_slot L = (sz_ex L + tail v + sz_zval L - 1) / sz_zval L.
Proof.
  intros Hv [Ht1 Ht2]. destruct (instance_checked a v Hv) as (h & L & Hh & HL & H1 & H2 & H3 & H4).
  assert (sz_zval L = 16) as Hz by (apply layout_zval, H3).
  exists h, L. split_and!; [done|done|apply header_packed|exact H1|by apply forallb_forall_stdpp|exact H3| |].
  - intros Hne. specialize (Ht2 v Hv Hne). unfold declared_execute_data in H4. rewrite (proj2 (Z.eqb_neq v 70)) in H4 by done. lia.
  - rewrite (mk_layout_slot _ _ _ HL), Hz, H4. unfold declared_execute_data, phpspy_frame_slot. destruct (Z.eqb_spec v 70) as [->|Hne]; [by rewrite Ht1|].
    by destruct (Ht2 v Hv Hne) as [-> | ->].
Qed.

(** Detection recognises exactly the versions major.minor for which a
    tracer is dispatched, from the first three bytes of the version text, and
    names each by its two digits. *)
Theorem detect_version_spec phpv v :
  detect_version phpv = Some v <->
  exists major minor, take 3 (cstr phpv) = [major; "."%char; minor] /\ v = [major; minor] /\ is_Some (dispatch v).
Proof.
  split.
  - intros H. apply detected_name in H as (a & b & H1 & H2 & n & H3 & _). exists a, b. split_and!; [done|done|by eexists].
  - intros (a & b & H1 & -> & n & Hn). apply dispatch_names in Hn as (_ & c & d & Hc & Hd & _).
    assert (a <> NUL /\ b <> NUL) as [Ha Hb].
    { pose proof (cstr_no_nul phpv) as Hnn. rewrite <-(take_drop 3 (cstr phpv)), H1 in Hnn. set_solver. }
    rewrite cstr_id in Hc, Hd by set_solver. injection Hc as <- <-.
    rewrite (detect_version_take phpv _ H1); [done|]. set_solver.
Qed.

(** Every way to name a version leads to a tracer: whatever string
    [dispatch] accepts, detected or given with [-V], names one of the instances
    the program is compiled with, the one whose number is its two digits, and
    that instance has a layout on both architectures. *)
Theorem dispatch_total v n :
  dispatch v = Some n ->
  n ∈ instances /\ (exists major minor, cstr v = [major; minor] /\ n = 10 * (code major - 48) + (code minor - 48))
  /\ forall a, exists L, layout_for a n = Some L /\ layout_ok L.
Proof.
  intros H. apply dispatch_names in H as (Hn & a & b & H1 & _ & H2). split_and!; [done|by exists a, b|].
  intros ar. destruct (instance_checked ar n Hn) as (h & L & Hh & HL & _ & _ & Hok & _). exists L. unfold layout_for. by rewrite Hh.
Qed.

(** ** Witnesses *)

Definition demo_tail (v : Z) : Z := if v =? 74 then 8 else 16.

Lemma headers_coherent_witness : exists h L, find_header (headers AArch64) 70 = Some h /\ mk_layout h 70 = Some L
  /\ frame_slot L = (sz_ex L + 16 + sz_zval L - 1) / sz_zval L.
Proof.
  destruct (headers_coherent AArch64 70 demo_tail) as (h & L & H1 & H2 & _ & _ & _ & _ & _ & H3).
  - left.
  - split; [reflexivity|]. intros v _ _. unfold demo_tail. destruct (v =? 74); auto.
  - exists h, L. exact (conj H1 (conj H2 H3)).
Defined.

Lemma dispatch_total_witness : 84 ∈ instances /\ exists L, layout_for X86_64 84 = Some L /\ layout_ok L.
Proof. destruct (dispatch_total (cs "84") 84) as (H1 & _ & H2); [reflexivity|]. split; [exact H1|apply H2]. Defined.
