(* ===== verification/Context.v ===== *)
(** * Context: the data of phpspy.h, the target process and the event interface

    The structures of [phpspy.h], the option globals of [phpspy.c], the read
    primitive [copy_proc_mem], and the callback through which the tracer talks
    to an output handler ([event_handler_fout], [event_handler_callgrind]).

    The target runs while it is read, so [process_vm_readv] is an oracle indexed
    by the number of reads done so far: two reads of one address may differ. *)
From S2P Require Import Prelude CLib Layout.

(** ** Constants of phpspy.h *)

Definition PHPSPY_OK : Z := 0.
Definition PHPSPY_ERR : Z := 1.
Definition PHPSPY_ERR_PID_DEAD : Z := 2.
Definition PHPSPY_ERR_TRUNCATED : Z := 4.
Definition PHPSPY_ERR_SKIPPED : Z := 8.

Definition PHPSPY_STR_SIZE : nat := 256.
Definition PHPSPY_MAX_ARRAY_BUCKETS : Z := 128.
Definition PHPSPY_HASH_FLAG_PACKED : Z := 4.
Definition PHPSPY_MAX_STACK_WALK : Z := 1024.
Definition PHPSPY_FOUT_MAX_BUFFER : Z := 4 * 1024 * 1024.

Definition PHPSPY_ZVAL_TYPE_UNDEF : Z := 0.
Definition PHPSPY_ZVAL_TYPE_LONG : Z := 4.
Definition PHPSPY_ZVAL_TYPE_DOUBLE : Z := 5.
Definition PHPSPY_ZVAL_TYPE_STRING : Z := 6.
Definition PHPSPY_ZVAL_TYPE_ARRAY : Z := 7.
Definition PHPSPY_ZVAL_TYPE_OBJECT : Z := 8.
Definition PHPSPY_ZVAL_TYPE_REFERENCE : Z := 10.

Definition ESRCH : Z := 3.

(** ** Structures of phpspy.h *)

Record trace_loc := {
  l_func : bytes; l_class : bytes; l_file : bytes;
  l_func_len : Z; l_class_len : Z; l_file_len : Z;
  l_lineno : Z;
}.

Record trace_frame := { f_loc : trace_loc; f_depth : Z }.

(** [r_ts] is the bit pattern of the double. *)
Record trace_request := {
  r_uri : bytes; r_path : bytes; r_qstring : bytes; r_cookie : bytes; r_ts : Z;
}.

(** A varpeek entry and its [varmap], in insertion order. *)
Record varpeek_entry := { ve_filename_lineno : bytes; ve_varmap : list bytes }.

Record glopeek_entry := { ge_key : bytes; ge_gloname : bytes; ge_varname : bytes }.

Record trace_target := {
  t_pid : Z; t_executor_globals_addr : Z; t_sapi_globals_addr : Z;
  t_alloc_globals_addr : Z; t_basic_functions_module_addr : Z;
}.

(** ** The option globals of phpspy.c *)

Inductive handler_kind := HandlerFout | HandlerCallgrind.

Record options := {
  opt_pid : Z; opt_pgrep_args : option bytes; opt_num_workers : Z;
  opt_frame_delim : ascii; opt_trace_delim : ascii;
  opt_time_limit_ms : Z; opt_path_output : bytes;
  opt_filter_re : option (bytes -> bool); opt_filter_negate : bool;
  opt_verbose_fields_pid : bool; opt_verbose_fields_ts : bool;
  opt_fout_buffer_size : Z; opt_libname_awk_patt : bytes;
  opt_quiet : bool; opt_peek_pdo : bool;
  opt_top_mode : bool; opt_sleep_ns : Z;
  opt_executor_globals_addr : Z; opt_sapi_globals_addr : Z;
  opt_capture_req : bool; opt_capture_req_qstring : bool; opt_capture_req_cookie : bool;
  opt_capture_req_uri : bool; opt_capture_req_path : bool;
  opt_capture_mem : bool;
  opt_max_stack_depth_from_leaf : Z; opt_max_stack_depth_from_root : Z;
  opt_trace_limit : Z; opt_path_child_out : bytes; opt_path_child_err : bytes;
  opt_phpv : bytes; opt_pause : bool;
  opt_event_handler : handler_kind; opt_event_handler_opts : option bytes;
  opt_continue_on_error : bool;
  varpeek_map : list varpeek_entry; glopeek_map : list glopeek_entry;
}.

Definition default_options : options := {|
  opt_pid := -1; opt_pgrep_args := None; opt_num_workers := 16;
  opt_frame_delim := NL; opt_trace_delim := NL;
  opt_time_limit_ms := 0; opt_path_output := cs "-";
  opt_filter_re := None; opt_filter_negate := false;
  opt_verbose_fields_pid := false; opt_verbose_fields_ts := false;
  opt_fout_buffer_size := 4096; opt_libname_awk_patt := cs "libphp[78]?";
  opt_quiet := false; opt_peek_pdo := false;
  opt_top_mode := false; opt_sleep_ns := 10101010;
  opt_executor_globals_addr := 0; opt_sapi_globals_addr := 0;
  opt_capture_req := false; opt_capture_req_qstring := false; opt_capture_req_cookie := false;
  opt_capture_req_uri := false; opt_capture_req_path := false;
  opt_capture_mem := false;
  opt_max_stack_depth_from_leaf := -1; opt_max_stack_depth_from_root := -1;
  opt_trace_limit := 0; opt_path_child_out := cs "phpspy.%d.out";
  opt_path_child_err := cs "phpspy.%d.err";
  opt_phpv := cs "auto"; opt_pause := false;
  opt_event_handler := HandlerFout; opt_event_handler_opts := None;
  opt_continue_on_error := false;
  varpeek_map := []; glopeek_map := [];
|}.

(** ** Events

    The event types of [phpspy.h], each with the part of [context->event] (and
    of the context) that the handlers read on it. *)

Inductive event :=
| EvInit (handler_opts : option bytes)
| EvStackBegin
| EvFrame (f : trace_frame)
| EvVarpeek (entry var zval_str : bytes) (zval_str_len : Z)
| EvGlopeek (key zval_str : bytes) (zval_str_len : Z)
| EvRequest (r : trace_request)
| EvMem (size peak : Z)
| EvStackEnd (pid : Z)
| EvError
| EvDeinit.

Class EventHandler (U : Type) := eh_call : event -> U -> outcome (Z * U).

(** An object of [char x[PHPSPY_STR_SIZE]] that holds a C string. *)
Definition str_buf (m : bytes) : Prop := length m = PHPSPY_STR_SIZE /\ NUL ∈ m.

(** What the tracer promises about the data of an event. *)
Definition wf_loc (l : trace_loc) : Prop :=
  str_buf (l_func l) /\ str_buf (l_class l) /\ str_buf (l_file l)
  /\ 0 <= l_func_len l < 256 /\ 0 <= l_class_len l < 256 /\ 0 <= l_file_len l < 256
  /\ - 2 ^ 31 <= l_lineno l < 2 ^ 32.

Definition wf_event (ev : event) : Prop :=
  match ev with
  | EvFrame f => wf_loc (f_loc f) /\ 0 <= f_depth f < 2 ^ 31
  | EvVarpeek entry var s n =>
    (NUL ∉ entry) /\ (NUL ∉ var) /\ length s = PHPSPY_STR_SIZE /\ 0 <= n < 256
  | EvGlopeek key s n =>
    (NUL ∉ key) /\ length s = PHPSPY_STR_SIZE /\ 0 <= n < 256
  | EvRequest r =>
    str_buf (r_uri r) /\ str_buf (r_path r) /\ str_buf (r_qstring r) /\ str_buf (r_cookie r)
    /\ 0 <= r_ts r < 2 ^ 64
  | EvMem size peak => 0 <= size < 2 ^ 64 /\ 0 <= peak < 2 ^ 64
  | EvStackEnd pid => - 2 ^ 31 <= pid < 2 ^ 31
  | EvStackBegin | EvError => True
  | EvInit _ | EvDeinit => False (* sent by [main_pid], not while tracing *)
  end.

(** The events between [STACK_BEGIN] and [STACK_END]. *)
Definition is_record_event (ev : event) : bool :=
  match ev with
  | EvFrame _ | EvVarpeek _ _ _ _ | EvGlopeek _ _ _ | EvRequest _ | EvMem _ _ | EvError => true
  | _ => false
  end.

(** What a handler promises: an invariant of its user data, which may refer to
    the events sent so far, that every event keeps, without a fault. *)
Class HandlerSafe (U : Type) {H : EventHandler U} := {
  eh_inv : list event -> U -> Prop;
  eh_preserves : forall ev evs u, wf_event ev -> eh_inv evs u ->
    exists rv u', eh_call ev u = Done (rv, u') /\ eh_inv (evs ++ [ev]) u';
}.

(** The user data after the events [evs], whatever codes they returned. *)
Fixpoint replay {U} {H : EventHandler U} (evs : list event) (u : U) : outcome U :=
  match evs with
  | [] => Done u
  | ev :: evs' =>
    match eh_call ev u with
    | Done (_, u') => replay evs' u'
    | Fault f => Fault f
    | Diverge => Diverge
    end
  end.

Lemma replay_snoc {U} {H : EventHandler U} evs ev (u u1 u2 : U) rv :
  replay evs u = Done u1 -> eh_call ev u1 = Done (rv, u2) -> replay (evs ++ [ev]) u = Done u2.
Proof.
  revert u. induction evs as [|e evs IH]; intros u; cbn; [by intros [= ->] ->|].
  destruct (eh_call e u) as [[c v]| |]; [apply IH|done..].
Qed.

(** The invariant that also remembers where the user data comes from. *)
Definition history {U} {H : EventHandler U} (HS : HandlerSafe U) (u0 : U) : HandlerSafe U.
Proof.
  refine {| eh_inv := fun evs u => eh_inv evs u /\ replay evs u0 = Done u |}.
  intros ev evs u Hwf [Hi Hr]. destruct (eh_preserves ev evs u Hwf Hi) as (rv & u' & Hc & Hi').
  exists rv, u'. split_and!; [done|done|by eapply replay_snoc].
Defined.

(** ** The target process *)

Inductive vm_result := VmErr (errno : Z) | VmData (bs : bytes).

(** [process_vm_readv] on one remote and one local vector: at the [t]-th call,
    an error or the bytes transferred, at most as many as were asked for. *)
Record target_env := {
  vm_readv : nat -> Z -> Z -> vm_result;
  vm_readv_bounded : forall t a n bs, vm_readv t a n = VmData bs -> Z.of_nat (length bs) <= Z.max 0 n;
  junk : nat -> ascii; (* the contents of uninitialised local memory *)
  char_signed : bool; (* whether plain [char] is signed: x86-64 yes, aarch64 no *)
}.

Definition uninit (E : target_env) (n : nat) : bytes := map (junk E) (seq 0 n).

(** ** The tracer's state

    [w_ctx] is the trace context; [w_udata] the handler's user data; [w_events]
    records the events sent so far and is not read by the program. *)

Record trace_context := {
  c_target : trace_target;
  c_frame : trace_frame;
  c_request : trace_request;
  c_buf : bytes;
  c_buf_len : Z;
  c_stack_ptrs : list Z;
}.

Record world (U : Type) := {
  w_reads : nat; w_ctx : trace_context; w_udata : U; w_events : list event;
}.
Arguments Build_world {U} _ _ _ _.
Arguments w_reads {U} _.
Arguments w_ctx {U} _.
Arguments w_udata {U} _.
Arguments w_events {U} _.

Definition with_ctx {U} (f : trace_context -> trace_context) (w : world U) : world U :=
  {| w_reads := w_reads w; w_ctx := f (w_ctx w); w_udata := w_udata w; w_events := w_events w |}.

Definition set_frame (f : trace_frame) (c : trace_context) : trace_context :=
  {| c_target := c_target c; c_frame := f; c_request := c_request c; c_buf := c_buf c;
     c_buf_len := c_buf_len c; c_stack_ptrs := c_stack_ptrs c |}.
Definition set_request (r : trace_request) (c : trace_context) : trace_context :=
  {| c_target := c_target c; c_frame := c_frame c; c_request := r; c_buf := c_buf c;
     c_buf_len := c_buf_len c; c_stack_ptrs := c_stack_ptrs c |}.
Definition set_buf (b : bytes) (n : Z) (c : trace_context) : trace_context :=
  {| c_target := c_target c; c_frame := c_frame c; c_request := c_request c; c_buf := b;
     c_buf_len := n; c_stack_ptrs := c_stack_ptrs c |}.
Definition set_stack (p : list Z) (c : trace_context) : trace_context :=
  {| c_target := c_target c; c_frame := c_frame c; c_request := c_request c; c_buf := c_buf c;
     c_buf_len := c_buf_len c; c_stack_ptrs := p |}.

(** Calls [context->event_handler]. *)
Definition emit {U} `{EventHandler U} (ev : event) : M (world U) Z := fun w =>
  match eh_call ev (w_udata w) with
  | Done (rv, u) =>
    Done (rv, {| w_reads := w_reads w; w_ctx := w_ctx w; w_udata := u;
                 w_events := w_events w ++ [ev] |})
  | Fault f => Fault f
  | Diverge => Diverge
  end.

(** [if (((rv) = (call)) != 0) return rv;], the [try] macro: [early] is what the
    function returns for the error code. *)
Notation "'try' rv 'else_return' early ';;;' k" :=
  (if bool_decide (rv <> 0) then mret early else k)
  (at level 10, rv at level 99, early at level 99, k at level 200).

(** [copy_proc_mem]: the error code, and the bytes that reached the local
    object (fewer than asked for after a partial read). *)
Definition copy_proc_mem {U} (E : target_env) (raddr size : Z) : M (world U) (Z * bytes) :=
  if raddr =? 0 then mret (PHPSPY_ERR, [])
  else fun w =>
    let w' := {| w_reads := S (w_reads w); w_ctx := w_ctx w; w_udata := w_udata w;
                 w_events := w_events w |} in
    match vm_readv E (w_reads w) raddr size with
    | VmErr errno =>
      Done ((if errno =? ESRCH then Z.lor PHPSPY_ERR PHPSPY_ERR_PID_DEAD else PHPSPY_ERR, []), w')
    | VmData bs =>
      Done ((if Z.of_nat (length bs) =? size then PHPSPY_OK else PHPSPY_ERR, bs), w')
    end.

(** ** Decoding little-endian fields of a copied object *)

Definition le (bs : bytes) : Z := foldr (fun c acc => code c + 256 * acc) 0 bs.

Definition rd (width : nat) (m : bytes) (off : Z) : Z := le (peek m (Z.to_nat off) width).
Abbreviation rd8 := (rd 1).
Abbreviation rd32 := (rd 4).
Abbreviation rd64 := (rd 8).

(** A zeroed local object that [memset] and then a copy filled. *)
Definition obj (size : Z) (bs : bytes) : bytes := poke (repeat NUL (Z.to_nat size)) 0 bs.

(** Pointer arithmetic on remote addresses. *)
Definition padd (p n : Z) : Z := u64 (p + n).

(** ** Lemmas: reads leave the context, the handler and the event log alone *)

Definition quiet {U} (w w' : world U) : Prop :=
  w_ctx w' = w_ctx w /\ w_udata w' = w_udata w /\ w_events w' = w_events w.

#[export] Instance quiet_preorder {U} : PreOrder (@quiet U).
Proof.
  split; [done|]. intros w1 w2 w3 (?&?&?) (?&?&?). repeat split; congruence.
Qed.

(** The error codes of [copy_proc_mem]. *)
Definition copy_rv (rv : Z) : Prop :=
  rv = PHPSPY_OK \/ rv = PHPSPY_ERR \/ rv = Z.lor PHPSPY_ERR PHPSPY_ERR_PID_DEAD.

Lemma copy_proc_mem_wp {U} (E : target_env) d raddr size (Q : Z * bytes -> world U -> Prop) w :
  (forall rv bs w', quiet w w' -> copy_rv rv -> Z.of_nat (length bs) <= Z.max 0 size ->
     (rv = 0 -> Z.of_nat (length bs) = size) -> Q (rv, bs) w') ->
  wpx d (copy_proc_mem E raddr size) Q w.
Proof.
  intros HQ. unfold wpx, copy_proc_mem.
  destruct (raddr =? 0).
  { apply HQ; [done|unfold copy_rv; tauto|simpl; lia|done]. }
  destruct (vm_readv E (w_reads w) raddr size) as [errno|bs] eqn:Hr.
  - apply HQ; [done| |simpl; lia|]; destruct (errno =? ESRCH); unfold copy_rv; auto; done.
  - pose proof (vm_readv_bounded E _ _ _ _ Hr).
    destruct (Z.of_nat (length bs) =? size) eqn:Hs;
      apply HQ; try done; unfold copy_rv; auto; lia.
Qed.

(** A read that succeeds whatever the moment. *)
Definition reads_as (E : target_env) (addr size : Z) (bs : bytes) : Prop :=
  addr <> 0 /\ Z.of_nat (length bs) = size /\ forall t, vm_readv E t addr size = VmData bs.

Lemma copy_proc_mem_reads {U} (E : target_env) addr size bs (w : world U) :
  reads_as E addr size bs ->
  exists w', copy_proc_mem E addr size w = Done ((PHPSPY_OK, bs), w') /\ quiet w w'.
Proof.
  intros (Ha & Hl & Hr). unfold copy_proc_mem.
  rewrite (proj2 (Z.eqb_neq addr 0)), Hr, Hl, Z.eqb_refl by done. eexists. split; [done|]. done.
Qed.

Lemma copy_proc_mem_reads_wp {U} (E : target_env) d addr size bs (Q : Z * bytes -> world U -> Prop) w :
  reads_as E addr size bs ->
  (forall w', quiet w w' -> Q (PHPSPY_OK, bs) w') ->
  wpx d (copy_proc_mem E addr size) Q w.
Proof.
  intros H HQ. destruct (copy_proc_mem_reads E addr size bs w H) as (w' & Hc & Hq).
  eapply wpx_intro_done; eauto.
Qed.

Lemma emit_wp {U} `{!EventHandler U} d ev (Q : Z -> world U -> Prop) w rv u :
  eh_call ev (w_udata w) = Done (rv, u) ->
  Q rv {| w_reads := w_reads w; w_ctx := w_ctx w; w_udata := u; w_events := w_events w ++ [ev] |} ->
  wpx d (emit ev) Q w.
Proof. intros H HQ. unfold wpx, emit. by rewrite H. Qed.

Lemma length_uninit E n : length (uninit E n) = n.
Proof. unfold uninit. by rewrite length_map, length_seq. Qed.

#[export] Hint Rewrite length_uninit : phpspy.

(** ** A concrete target: a memory image of segments *)

Definition EFAULT : Z := 14.

Fixpoint image_read (img : list (Z * bytes)) (a n : Z) : vm_result :=
  match img with
  | [] => VmErr EFAULT
  | (b, bs) :: img' =>
    if (b <=? a) && (a <? b + Z.of_nat (length bs))
    then VmData (peek bs (Z.to_nat (a - b)) (Z.to_nat n))
    else image_read img' a n
  end.

Lemma image_read_bounded img a n bs :
  image_read img a n = VmData bs -> Z.of_nat (length bs) <= Z.max 0 n.
Proof.
  induction img as [|[b s] img IH]; simpl; [done|].
  case_match; [|done]. intros [= <-]. unfold peek. rewrite length_take. lia.
Qed.

Definition image_env (img : list (Z * bytes)) : target_env := {|
  vm_readv := fun _ a n => image_read img a n;
  vm_readv_bounded := fun _ => image_read_bounded img;
  junk := fun _ => "?"%char; char_signed := true |}.

(** ** Lemmas on little-endian fields *)

Lemma code_range c : 0 <= code c < 256.
Proof. unfold code. pose proof (N_ascii_bounded c). lia. Qed.

Lemma le_range bs : 0 <= le bs < 2 ^ (8 * Z.of_nat (length bs)).
Proof.
  induction bs as [|c bs IH]; simpl; [lia|].
  pose proof (code_range c).
  replace (8 * Z.of_nat (S (length bs))) with (8 + 8 * Z.of_nat (length bs)) by lia.
  rewrite Z.pow_add_r by lia. change (2 ^ 8) with 256. lia.
Qed.

Lemma rd_range width m off : 0 <= rd width m off < 2 ^ (8 * Z.of_nat width).
Proof.
  unfold rd. pose proof (le_range (peek m (Z.to_nat off) width)) as H.
  assert (length (peek m (Z.to_nat off) width) <= width)%nat.
  { unfold peek. rewrite length_take. lia. }
  assert (2 ^ (8 * Z.of_nat (length (peek m (Z.to_nat off) width))) <= 2 ^ (8 * Z.of_nat width)).
  { apply Z.pow_le_mono_r; lia. }
  lia.
Qed.
