(* ===== verification/OptionFields.v ===== *)
(** * OptionFields: assignment to one option global

    The option globals of phpspy.c are one record, [options]; this file has the
    functional update of each. *)
From S2P Require Import Prelude CLib Context.

(** The record put together from its fields; an update replaces one of them. *)
Definition eta_options (o : options) : options := {|
  opt_pid := opt_pid o; opt_pgrep_args := opt_pgrep_args o; opt_num_workers := opt_num_workers o;
  opt_frame_delim := opt_frame_delim o; opt_trace_delim := opt_trace_delim o;
  opt_time_limit_ms := opt_time_limit_ms o; opt_path_output := opt_path_output o; opt_filter_re := opt_filter_re o;
  opt_filter_negate := opt_filter_negate o; opt_verbose_fields_pid := opt_verbose_fields_pid o;
  opt_verbose_fields_ts := opt_verbose_fields_ts o; opt_fout_buffer_size := opt_fout_buffer_size o;
  opt_libname_awk_patt := opt_libname_awk_patt o; opt_quiet := opt_quiet o; opt_peek_pdo := opt_peek_pdo o;
  opt_top_mode := opt_top_mode o; opt_sleep_ns := opt_sleep_ns o;
  opt_executor_globals_addr := opt_executor_globals_addr o; opt_sapi_globals_addr := opt_sapi_globals_addr o;
  opt_capture_req := opt_capture_req o; opt_capture_req_qstring := opt_capture_req_qstring o;
  opt_capture_req_cookie := opt_capture_req_cookie o; opt_capture_req_uri := opt_capture_req_uri o;
  opt_capture_req_path := opt_capture_req_path o; opt_capture_mem := opt_capture_mem o;
  opt_max_stack_depth_from_leaf := opt_max_stack_depth_from_leaf o;
  opt_max_stack_depth_from_root := opt_max_stack_depth_from_root o; opt_trace_limit := opt_trace_limit o;
  opt_path_child_out := opt_path_child_out o; opt_path_child_err := opt_path_child_err o; opt_phpv := opt_phpv o;
  opt_pause := opt_pause o; opt_event_handler := opt_event_handler o;
  opt_event_handler_opts := opt_event_handler_opts o; opt_continue_on_error := opt_continue_on_error o;
  varpeek_map := varpeek_map o; glopeek_map := glopeek_map o |}.

Ltac update field v o :=
  let e := eval cbv [eta_options] in (eta_options o) in
  lazymatch (eval pattern (field o) in e) with
  | ?g _ => let r := eval cbv beta in (g v) in exact r
  end.

Definition set_opt_pid (v : Z) (o : options) : options := ltac:(update opt_pid v o).
Definition set_opt_pgrep_args (v : option bytes) (o : options) : options := ltac:(update opt_pgrep_args v o).
Definition set_opt_num_workers (v : Z) (o : options) : options := ltac:(update opt_num_workers v o).
Definition set_opt_frame_delim (v : ascii) (o : options) : options := ltac:(update opt_frame_delim v o).
Definition set_opt_trace_delim (v : ascii) (o : options) : options := ltac:(update opt_trace_delim v o).
Definition set_opt_time_limit_ms (v : Z) (o : options) : options := ltac:(update opt_time_limit_ms v o).
Definition set_opt_path_output (v : bytes) (o : options) : options := ltac:(update opt_path_output v o).
Definition set_opt_filter_re (v : option (bytes -> bool)) (o : options) : options := ltac:(update opt_filter_re v o).
Definition set_opt_filter_negate (v : bool) (o : options) : options := ltac:(update opt_filter_negate v o).
Definition set_opt_verbose_fields_pid (v : bool) (o : options) : options := ltac:(update opt_verbose_fields_pid v o).
Definition set_opt_verbose_fields_ts (v : bool) (o : options) : options := ltac:(update opt_verbose_fields_ts v o).
Definition set_opt_fout_buffer_size (v : Z) (o : options) : options := ltac:(update opt_fout_buffer_size v o).
Definition set_opt_libname_awk_patt (v : bytes) (o : options) : options := ltac:(update opt_libname_awk_patt v o).
Definition set_opt_quiet (v : bool) (o : options) : options := ltac:(update opt_quiet v o).
Definition set_opt_peek_pdo (v : bool) (o : options) : options := ltac:(update opt_peek_pdo v o).
Definition set_opt_top_mode (v : bool) (o : options) : options := ltac:(update opt_top_mode v o).
Definition set_opt_sleep_ns (v : Z) (o : options) : options := ltac:(update opt_sleep_ns v o).
Definition set_opt_executor_globals_addr (v : Z) (o : options) : options := ltac:(update opt_executor_globals_addr v o).
Definition set_opt_sapi_globals_addr (v : Z) (o : options) : options := ltac:(update opt_sapi_globals_addr v o).
Definition set_opt_capture_req (v : bool) (o : options) : options := ltac:(update opt_capture_req v o).
Definition set_opt_capture_req_qstring (v : bool) (o : options) : options := ltac:(update opt_capture_req_qstring v o).
Definition set_opt_capture_req_cookie (v : bool) (o : options) : options := ltac:(update opt_capture_req_cookie v o).
Definition set_opt_capture_req_uri (v : bool) (o : options) : options := ltac:(update opt_capture_req_uri v o).
Definition set_opt_capture_req_path (v : bool) (o : options) : options := ltac:(update opt_capture_req_path v o).
Definition set_opt_capture_mem (v : bool) (o : options) : options := ltac:(update opt_capture_mem v o).
Definition set_opt_max_stack_depth_from_leaf (v : Z) (o : options) : options := ltac:(update opt_max_stack_depth_from_leaf v o).
Definition set_opt_max_stack_depth_from_root (v : Z) (o : options) : options := ltac:(update opt_max_stack_depth_from_root v o).
Definition set_opt_trace_limit (v : Z) (o : options) : options := ltac:(update opt_trace_limit v o).
Definition set_opt_path_child_out (v : bytes) (o : options) : options := ltac:(update opt_path_child_out v o).
Definition set_opt_path_child_err (v : bytes) (o : options) : options := ltac:(update opt_path_child_err v o).
Definition set_opt_phpv (v : bytes) (o : options) : options := ltac:(update opt_phpv v o).
Definition set_opt_pause (v : bool) (o : options) : options := ltac:(update opt_pause v o).
Definition set_opt_event_handler (v : handler_kind) (o : options) : options := ltac:(update opt_event_handler v o).
Definition set_opt_event_handler_opts (v : option bytes) (o : options) : options := ltac:(update opt_event_handler_opts v o).
Definition set_opt_continue_on_error (v : bool) (o : options) : options := ltac:(update opt_continue_on_error v o).
Definition set_varpeek_map (v : list varpeek_entry) (o : options) : options := ltac:(update varpeek_map v o).
Definition set_glopeek_map (v : list glopeek_entry) (o : options) : options := ltac:(update glopeek_map v o).

Lemma eta_options_id o : eta_options o = o.
Proof. by destruct o. Qed.
