(* ===== verification/Zval.v ===== *)
(** * Zval: Zend hash lookup and the zval printers of phpspy_trace.c

    [phpspy_zend_inline_hash_func], [copy_zarray_bucket] and the [sprint_*]
    functions.  A printer gets an object [buf], the offset [off] of its output
    pointer in it and the size it may use there; it returns the error code, the
    object afterwards and the length it printed.

    [sprint_zval] and [sprint_zarray] call each other: the fuel of
    [sprint_zval] bounds the nesting of arrays. *)
From S2P Require Import Prelude CLib Layout Context.

Section zval.
Context {U : Type} (E : target_env) (L : zlayout).
Abbreviation W := (world U).

(** ** The Zend string hash (phpspy.c) *)

Definition char_val (c : ascii) : Z := if char_signed E then s8 (code c) else code c.

(** [hash = ((hash << 5) + hash) + *str++] *)
Definition hash_step (h : Z) (c : ascii) : Z := u64 (u64 (u64 (Z.shiftl h 5) + h) + char_val c).

(** [k] such statements in a row, as in the unrolled body and in the
    fall-through of [case k] of the [switch]. *)
Fixpoint hash_steps (k : nat) (h : Z) (s : bytes) : Z * bytes :=
  match k, s with
  | S k', c :: s' => hash_steps k' (hash_step h c) s'
  | _, _ => (h, s)
  end.

(** [for (; len >= 8; len -= 8) ...] and then the [switch] on [len]. *)
Fixpoint hash_loop (len : nat) (h : Z) (s : bytes) : Z :=
  match len with
  | S (S (S (S (S (S (S (S len'))))))) =>
    let '(h', s') := hash_steps 8 h s in hash_loop len' h' s'
  | _ => fst (hash_steps len h s)
  end.

Definition phpspy_zend_inline_hash_func (str : bytes) (len : nat) : Z :=
  Z.lor (hash_loop len 5381 str) 0x8000000000000000.

(** ** Strings *)

(** [buf_size -= n] on [size_t]: an underflow would let later writes leave the
    buffer. *)
Definition usub (size n : nat) : M W nat :=
  if bool_decide (n <= size)%nat then mret (size - n)%nat else raise OutOfBounds.

(** [strlen(buf)] *)
Definition c_strlen (buf : bytes) (off : nat) : M W nat :=
  if terminated (drop off buf) then mret (strlen_at buf off) else raise OverRead.

Definition sprint_zstring (rzstring : Z) (buf : bytes) (off size : nat) : M W (Z * bytes * nat) :=
  buf ← store buf off [NUL];
  '(rv, lzstring) ← copy_proc_mem E rzstring (sz_str L);
  try rv else_return (rv, buf, 0%nat) ;;;
  let buf_len := Z.to_nat (Z.min (rd64 lzstring (o_str_len L)) (Z.max 1 (Z.of_nat size) - 1)) in
  '(rv, bs) ← copy_proc_mem E (padd rzstring (o_str_val L)) (Z.of_nat buf_len);
  buf ← store buf off bs;
  try rv else_return (rv, buf, buf_len) ;;;
  buf ← store buf (off + buf_len) [NUL];
  mret (PHPSPY_OK, buf, buf_len).

(** ** Hash-table lookup *)

(** The [do ... while] over the collision chain from the bucket index [idx]. *)
Fixpoint bucket_chain (fuel : nat) (key : bytes) (arData idx : Z) : M W (Z * bytes) :=
  match fuel with
  | O => diverge
  | S f =>
    if idx =? 2 ^ 32 - 1 then mret (PHPSPY_ERR, []) else
    '(rv, lbucket) ← copy_proc_mem E (padd arData (sz_bucket L * idx)) (sz_bucket L);
    try rv else_return (rv, []) ;;;
    let rkey := rd64 lbucket (o_bk_key L) in
    if rkey =? 0 then mret (PHPSPY_OK, lbucket) else
    '(rv, tmp_key, _) ← sprint_zstring rkey (uninit E PHPSPY_STR_SIZE) 0 PHPSPY_STR_SIZE;
    try rv else_return (rv, []) ;;;
    if strcmp_eq key tmp_key then mret (PHPSPY_OK, lbucket)
    else bucket_chain f key arData (rd32 lbucket (o_bk_val L + o_zv_next L))
  end.

(** The negation of a [nTableMask] of [-2 ^ 31] overflows, which C leaves
    undefined; here it has the two's complement result. *)
Definition copy_zarray_bucket (fuel : nat) (rzarray : Z) (key : bytes) : M W (Z * bytes) :=
  '(rv, lzarray) ← copy_proc_mem E rzarray (sz_array L);
  try rv else_return (rv, []) ;;;
  let hash_val := phpspy_zend_inline_hash_func (cstr key) (length (cstr key)) in
  let hash_table_size := u32 (- s32 (rd32 lzarray (o_arr_mask L))) in
  if hash_table_size =? 0 then raise DivByZero else
  let hash_index := u32 (hash_val mod hash_table_size) in
  let arData := rd64 lzarray (o_arr_data L) in
  '(rv, hash_table_val) ←
    copy_proc_mem E (padd arData (4 * (hash_index - hash_table_size))) 4;
  try rv else_return (rv, []) ;;;
  bucket_chain fuel key arData (le hash_table_val).

(** ** Values *)

Definition printer : Type := bytes -> bytes -> nat -> nat -> M W (Z * bytes * nat).

(** [sprint_zval], given the printer of nested arrays. *)
Definition sprint_zval_with (zarray : Z -> bytes -> nat -> nat -> M W (Z * bytes * nat)) : printer :=
  fun lzval buf off size =>
  let type := rd8 lzval (o_zv_type L) in
  let value := rd64 lzval (o_zv_value L) in
  if type =? PHPSPY_ZVAL_TYPE_LONG then
    buf ← snprintf buf off size (fmt_d (s64 value));
    n ← c_strlen buf off;
    mret (PHPSPY_OK, buf, n)
  else if type =? PHPSPY_ZVAL_TYPE_DOUBLE then
    buf ← snprintf buf off size (fmt_f value);
    n ← c_strlen buf off;
    mret (PHPSPY_OK, buf, n)
  else if type =? PHPSPY_ZVAL_TYPE_STRING then sprint_zstring value buf off size
  else if type =? PHPSPY_ZVAL_TYPE_ARRAY then zarray value buf off size
  else mret (PHPSPY_ERR, buf, 0%nat).

Definition sprint_zarray_packed (pz : printer) (idx : nat) : printer :=
  fun lzval buf off size =>
  if rd8 lzval (o_zv_type L) =? PHPSPY_ZVAL_TYPE_UNDEF then mret (PHPSPY_OK, buf, 0%nat) else
  let s := fmt_d (Z.of_nat idx) ++ ["="%char] in
  let n := length s in
  buf ← snprintf buf off size s;
  if bool_decide (size <= n)%nat then mret (PHPSPY_OK, buf, 0%nat) else
  size' ← usub size n;
  '(rv, buf, tmp_len) ← pz lzval buf (off + n)%nat size';
  try rv else_return (rv, buf, 0%nat) ;;;
  mret (PHPSPY_OK, buf, (n + tmp_len)%nat).

Definition sprint_zarray_bucket (pz : printer) : printer :=
  fun lbucket buf off size =>
  let lzval := peek lbucket (Z.to_nat (o_bk_val L)) (Z.to_nat (sz_zval L)) in
  if rd8 lzval (o_zv_type L) =? PHPSPY_ZVAL_TYPE_UNDEF then mret (PHPSPY_OK, buf, 0%nat) else
  let finish buf n off size :=
    '(rv, buf, tmp_len) ← pz lzval buf (off : nat) size;
    try rv else_return (rv, buf, 0%nat) ;;;
    mret (PHPSPY_OK, buf, (n + tmp_len)%nat) in
  let key := rd64 lbucket (o_bk_key L) in
  if key =? 0 then finish buf 0%nat off size else
  '(rv, tmp_key, tmp_len) ← sprint_zstring key (uninit E PHPSPY_STR_SIZE) 0 PHPSPY_STR_SIZE;
  try rv else_return (rv, buf, 0%nat) ;;;
  if bool_decide (tmp_len + 1 + 1 < size)%nat then
    buf ← snprintf buf off size (cstr tmp_key ++ ["="%char]);
    size' ← usub size (tmp_len + 1);
    finish buf (tmp_len + 1)%nat (off + (tmp_len + 1))%nat size'
  else finish buf 0%nat off size.

(** The [for] loop of [sprint_zarray] and [sprint_pdo_binds]: [pel i] prints the
    [i]-th element, and [k] elements are left. *)
Fixpoint zarray_loop (pel : nat -> bytes -> nat -> nat -> M W (Z * bytes * nat))
    (k i : nat) (buf : bytes) (off size : nat) : M W (Z * bytes * nat) :=
  match k with
  | O => mret (PHPSPY_OK, buf, off)
  | S k' =>
    '(rv, buf, tmp_len) ← pel i buf off size;
    try rv else_return (rv, buf, off) ;;;
    if bool_decide (tmp_len = 0%nat) then zarray_loop pel k' (S i) buf off size else
    let off := (off + tmp_len)%nat in
    size ← usub size tmp_len;
    if bool_decide (size < 2)%nat then mret (PHPSPY_OK, buf, off) else
    buf ← store buf off [","%char];
    zarray_loop pel k' (S i) buf (S off) (size - 1)
  end.

(** [if (buf > obuf && *(buf - 1) == ',') --buf;] *)
Definition drop_comma (buf : bytes) (obuf off : nat) : nat :=
  if bool_decide (obuf < off)%nat && bool_decide (buf !! (off - 1)%nat = Some ","%char)
  then (off - 1)%nat else off.

(** The [i]-th element of a copied C array. *)
Definition elem (arr : bytes) (size : Z) (i : nat) : bytes :=
  peek arr (i * Z.to_nat size) (Z.to_nat size).

Definition is_packed (lzarray : bytes) : bool :=
  negb (Z.land (rd8 lzarray (o_arr_flags L)) PHPSPY_HASH_FLAG_PACKED =? 0).

Definition sprint_zarray (pz : printer) (rzarray : Z) (buf : bytes) (off size : nat)
    : M W (Z * bytes * nat) :=
  '(rv, lzarray) ← copy_proc_mem E rzarray (sz_array L);
  try rv else_return (rv, buf, 0%nat) ;;;
  let array_len := Z.min (rd32 lzarray (o_arr_used L)) PHPSPY_MAX_ARRAY_BUCKETS in
  let arData := rd64 lzarray (o_arr_data L) in
  let esize := if is_packed lzarray then sz_zval L else sz_bucket L in
  '(rv, arr) ← copy_proc_mem E arData (esize * array_len);
  try rv else_return (rv, buf, 0%nat) ;;;
  let pel i := if is_packed lzarray then sprint_zarray_packed pz i (elem arr esize i)
               else sprint_zarray_bucket pz (elem arr esize i) in
  '(rv, buf, off') ← zarray_loop pel (Z.to_nat array_len) 0 buf off size;
  try rv else_return (rv, buf, 0%nat) ;;;
  mret (PHPSPY_OK, buf, (drop_comma buf off off' - off)%nat).

Fixpoint sprint_zval (fuel : nat) : printer :=
  match fuel with
  | O => fun _ _ _ _ => diverge
  | S f => sprint_zval_with (sprint_zarray (sprint_zval f))
  end.

Definition sprint_zarray_val (fuel : nat) (rzarray : Z) (key : bytes) (buf : bytes) (off size : nat)
    : M W (Z * bytes * nat) :=
  '(rv, bucket) ← copy_zarray_bucket fuel rzarray key;
  try rv else_return (rv, buf, 0%nat) ;;;
  sprint_zval fuel (peek bucket (Z.to_nat (o_bk_val L)) (Z.to_nat (sz_zval L))) buf off size.

(** ** PDO binds *)

(** The name of a bind, or its number (phpspy_trace.c:796-801). *)
Definition pdo_bind_name (lbp : bytes) : M W (Z * bytes * nat) :=
  let name := rd64 lbp (o_bp_name L) in
  if name =? 0 then
    tmp ← snprintf (uninit E PHPSPY_STR_SIZE) 0 PHPSPY_STR_SIZE
            (fmt_d (s64 (rd64 lbp (o_bp_paramno L))));
    n ← c_strlen tmp 0;
    mret (PHPSPY_OK, tmp, n)
  else sprint_zstring name (uninit E PHPSPY_STR_SIZE) 0 PHPSPY_STR_SIZE.

(** The bound value, behind at most one reference (808-814). *)
Definition pdo_bind_deref (param : bytes) : M W bytes :=
  let rref := rd64 param (o_zv_value L) in
  if (rd8 param (o_zv_type L) =? PHPSPY_ZVAL_TYPE_REFERENCE) && negb (rref =? 0) then
    '(rv, lref) ← copy_proc_mem E (padd rref 8) (sz_zval L);
    mret (if rv =? PHPSPY_OK then lref else param)
  else mret param.

(** [name=value] (803-820). *)
Definition pdo_bind_print (fuel : nat) (lbp tmp_name : bytes) (name_len : nat)
    (buf : bytes) (off size : nat) : M W (Z * bytes * nat) :=
  let s := fmt_prec (s32 (Z.of_nat name_len)) tmp_name ++ ["="%char] in
  let n := length s in
  buf ← snprintf buf off size s;
  if bool_decide (size <= n)%nat then mret (PHPSPY_OK, buf, 0%nat) else
  size' ← usub size n;
  vptr ← pdo_bind_deref (peek lbp (Z.to_nat (o_bp_param L)) (Z.to_nat (sz_zval L)));
  '(rv, buf, tmp_len) ← sprint_zval fuel vptr buf (off + n)%nat size';
  try rv else_return (rv, buf, 0%nat) ;;;
  mret (PHPSPY_OK, buf, (n + tmp_len)%nat).

Definition sprint_pdo_bind (fuel : nat) : printer :=
  fun lzval buf off size =>
  if rd8 lzval (o_zv_type L) =? PHPSPY_ZVAL_TYPE_UNDEF then mret (PHPSPY_OK, buf, 0%nat) else
  let rbp := rd64 lzval (o_zv_value L) in
  if rbp =? 0 then mret (PHPSPY_OK, buf, 0%nat) else
  '(rv, lbp) ← copy_proc_mem E rbp (sz_bp L);
  if bool_decide (rv <> PHPSPY_OK) then mret (PHPSPY_OK, buf, 0%nat) else
  '(rv, tmp_name, name_len) ← pdo_bind_name lbp;
  if bool_decide (rv <> PHPSPY_OK) then mret (PHPSPY_OK, buf, 0%nat) else
  pdo_bind_print fuel lbp tmp_name name_len buf off size.

Definition sprint_pdo_binds (fuel : nat) (rht : Z) (buf : bytes) (off size : nat)
    : M W (Z * bytes * nat) :=
  if rht =? 0 then mret (PHPSPY_OK, buf, 0%nat) else
  '(rv, lht) ← copy_proc_mem E rht (sz_array L);
  try rv else_return (rv, buf, 0%nat) ;;;
  let used := Z.min (rd32 lht (o_arr_used L)) PHPSPY_MAX_ARRAY_BUCKETS in
  let arData := rd64 lht (o_arr_data L) in
  if (used <=? 0) || (arData =? 0) then mret (PHPSPY_OK, buf, 0%nat) else
  let esize := if is_packed lht then sz_zval L else sz_bucket L in
  '(rv, arr) ← copy_proc_mem E arData (esize * used);
  try rv else_return (rv, buf, 0%nat) ;;;
  let zv i := if is_packed lht then elem arr esize i
              else peek (elem arr esize i) (Z.to_nat (o_bk_val L)) (Z.to_nat (sz_zval L)) in
  '(rv, buf, off') ← zarray_loop (fun i => sprint_pdo_bind fuel (zv i)) (Z.to_nat used) 0 buf off size;
  try rv else_return (rv, buf, 0%nat) ;;;
  mret (PHPSPY_OK, buf, (drop_comma buf off off' - off)%nat).

End zval.

(** ** Writes stay inside a window of the buffer *)

Definition inside (buf buf' : bytes) (off size : nat) : Prop :=
  length buf' = length buf /\
  forall i, (i < off \/ off + size <= i)%nat -> buf' !! i = buf !! i.

Lemma inside_refl buf off size : inside buf buf off size.
Proof. done. Qed.

Lemma inside_trans b1 b2 b3 off size :
  inside b1 b2 off size -> inside b2 b3 off size -> inside b1 b3 off size.
Proof. intros [H1 H2] [H3 H4]. split; [congruence|]. intros i Hi. by rewrite H4, H2. Qed.

Lemma inside_sub b1 b2 off size off' size' :
  inside b1 b2 off' size' -> (off <= off')%nat -> (off' + size' <= off + size)%nat ->
  inside b1 b2 off size.
Proof. intros [H1 H2] ? ?. split; [done|]. intros i Hi. apply H2. lia. Qed.

Lemma inside_poke buf off size off' bs :
  (off + size <= length buf)%nat -> (off <= off')%nat -> (off' + length bs <= off + size)%nat ->
  inside buf (poke buf off' bs) off size.
Proof.
  intros. split; [apply length_poke; lia|]. intros i Hi. apply lookup_poke_out; lia.
Qed.

#[export] Hint Resolve inside_refl inside_poke : phpspy.

(** A printing computation writes only its window, prints less than the window
    holds when it succeeds, returns one of the read errors otherwise, and
    touches neither the context nor the handler. *)
Definition prints {U} (d : Prop) (m : M (world U) (Z * bytes * nat)) (buf : bytes) (off size : nat) : Prop :=
  forall w, wpx d m (fun r w' =>
    let '(rv, buf', n) := r in
    inside buf buf' off size /\ copy_rv rv /\ (rv = 0 -> (n < size)%nat) /\ quiet w w') w.

Lemma copy_rv_ok : copy_rv PHPSPY_OK.
Proof. by left. Qed.
Lemma copy_rv_err : copy_rv PHPSPY_ERR.
Proof. by right; left. Qed.
#[export] Hint Resolve copy_rv_ok copy_rv_err : phpspy.

Lemma prints_ret {U} d rv buf buf' n off size :
  inside buf buf' off size -> copy_rv rv -> (rv = 0 -> (n < size)%nat) ->
  prints (U:=U) d (mret (rv, buf', n)) buf off size.
Proof. intros ??? w. apply wpx_ret. done. Qed.

(** Continues a printing computation after a step that changed the buffer
    inside the window. *)
Lemma prints_wpx {U} d (m : M (world U) (Z * bytes * nat)) buf buf1 off size w w1 :
  inside buf buf1 off size -> quiet w w1 -> prints d m buf1 off size ->
  wpx d m (fun r w' => let '(rv, buf', n) := r in
    inside buf buf' off size /\ copy_rv rv /\ (rv = 0 -> (n < size)%nat) /\ quiet w w') w1.
Proof.
  intros Hi Hq Hm. eapply wpx_mono; [apply Hm|].
  intros [[rv b] n] w' (?&?&?&?). split_and!; [by eapply inside_trans|done|done|by etrans].
Qed.

Lemma prints_copy {U} (E : target_env) d addr n (k : Z * bytes -> M (world U) (Z * bytes * nat)) buf off size :
  (forall rv bs, copy_rv rv -> Z.of_nat (length bs) <= Z.max 0 n ->
     (rv = 0 -> Z.of_nat (length bs) = n) -> prints d (k (rv, bs)) buf off size) ->
  prints d (copy_proc_mem E addr n ≫= k) buf off size.
Proof.
  intros Hk w. apply wpx_bind, copy_proc_mem_wp. intros rv bs w' Hq Hrv Hl Hn.
  apply prints_wpx with buf; [done|done|by apply Hk].
Qed.

Lemma prints_store {U} d buf off size off' bs (k : bytes -> M (world U) (Z * bytes * nat)) :
  (off + size <= length buf)%nat -> (off <= off')%nat -> (off' + length bs <= off + size)%nat ->
  (length (poke buf off' bs) = length buf -> prints d (k (poke buf off' bs)) (poke buf off' bs) off size) ->
  prints d (store buf off' bs ≫= k) buf off size.
Proof.
  intros ??? Hk w. apply wpx_bind, store_ok; [lia|].
  apply prints_wpx with (poke buf off' bs); [auto with phpspy|done|].
  apply Hk. by rewrite length_poke by lia.
Qed.

(** The same for a nested printer on a smaller window. *)
Lemma prints_bind {U} d m buf off size off' size' (k : Z * bytes * nat -> M (world U) (Z * bytes * nat)) :
  prints d m buf off' size' -> (off <= off')%nat -> (off' + size' <= off + size)%nat ->
  (forall rv buf' n, length buf' = length buf -> copy_rv rv -> (rv = 0 -> (n < size')%nat) ->
     prints d (k (rv, buf', n)) buf' off size) ->
  prints d (m ≫= k) buf off size.
Proof.
  intros Hm ?? Hk w. apply wpx_bind. eapply wpx_mono; [apply Hm|].
  intros [[rv b] n] w' (Hi&?&?&?).
  apply prints_wpx with b; [by eapply inside_sub|done|]. apply Hk; [apply Hi|done|done].
Qed.

Lemma prints_usub {U} d size0 n (k : nat -> M (world U) (Z * bytes * nat)) buf off size :
  (n <= size0)%nat -> prints d (k (size0 - n)%nat) buf off size ->
  prints d (usub size0 n ≫= k) buf off size.
Proof.
  intros Hn Hk w. apply wpx_bind. unfold usub. rewrite bool_decide_true by done. apply Hk.
Qed.

Lemma prints_try {U} d (rv : Z) early (k : M (world U) (Z * bytes * nat)) buf off size :
  (rv <> 0 -> prints (U:=U) d (mret early) buf off size) -> (rv = 0 -> prints d k buf off size) ->
  prints d (try rv else_return early ;;; k) buf off size.
Proof. intros H1 H2. case_bool_decide; [by apply H1|]. apply H2. lia. Qed.

(** The window of a [snprintf] of [s], and that it ends in a NUL. *)
Lemma prints_snprintf {U} d buf off size s (k : bytes -> M (world U) (Z * bytes * nat)) :
  (off + size <= length buf)%nat -> (1 <= size)%nat ->
  (let b := poke buf off (take (size - 1) s ++ [NUL]) in
   length b = length buf -> prints d (k b) b off size) ->
  prints d (snprintf buf off size s ≫= k) buf off size.
Proof.
  intros H1 H2 Hk. destruct size as [|n]; [lia|]. unfold snprintf.
  rewrite Nat.sub_succ, Nat.sub_0_r in Hk.
  apply prints_store; [done|lia| |exact Hk].
  rewrite length_app, length_take. simpl. lia.
Qed.

Lemma prints_snprintf_strlen {U} d buf off size s :
  (off + size <= length buf)%nat -> (1 <= size)%nat ->
  prints (U:=U) d (buf ← snprintf buf off size s; n ← c_strlen buf off; mret (PHPSPY_OK, buf, n))
    buf off size.
Proof.
  intros H1 H2. apply prints_snprintf; [done|done|]. simpl. intros Hb w.
  apply wpx_bind. unfold c_strlen.
  assert (length (take (size - 1) s) <= size - 1)%nat by (rewrite length_take; lia).
  replace (terminated _) with true.
  - apply wpx_ret, wpx_ret. split_and!; [done|auto with phpspy| |done]. intros _.
    rewrite strlen_at_snprintf by lia.
    pose proof (length_cstr (take (size - 1) s)). lia.
  - symmetry. unfold poke. rewrite drop_app_length' by (rewrite length_take; lia).
    rewrite <-app_assoc. apply terminated_app_nul.
Qed.

(** ** The printers are safe *)

Section printers_safe.
Context {U : Type} (E : target_env) (L : zlayout).

Lemma sprint_zstring_prints d rz buf off size :
  (off + size <= length buf)%nat -> (1 <= size)%nat ->
  prints (U:=U) d (sprint_zstring E L rz buf off size) buf off size.
Proof.
  intros H1 H2. unfold sprint_zstring.
  apply prints_store; [lia|lia|simpl; lia|]. intros Hb.
  apply prints_copy. intros rv hdr Hrv Hl Hn.
  apply prints_try; intros Hz; [by apply prints_ret|].
  set (n := Z.to_nat _).
  assert (n < size)%nat by lia.
  apply prints_copy. intros rv' bs Hrv' Hl' Hn'.
  apply prints_store; [lia|lia|lia|]. intros Hb'.
  apply prints_try; intros Hz'; [by apply prints_ret|].
  apply prints_store; [lia|lia|simpl; lia|]. intros _.
  apply prints_ret; auto with phpspy.
Qed.

(** What a printer of element values must guarantee on every window. *)
Definition printer_safe (d : Prop) (pz : printer (U:=U)) : Prop :=
  forall zv buf off size, (off + size <= length buf)%nat -> (1 <= size)%nat ->
    prints d (pz zv buf off size) buf off size.

Lemma sprint_zval_with_prints d zarray zv buf off size :
  (forall r buf off size, (off + size <= length buf)%nat -> (1 <= size)%nat ->
     prints d (zarray r buf off size) buf off size) ->
  (off + size <= length buf)%nat -> (1 <= size)%nat ->
  prints (U:=U) d (sprint_zval_with E L zarray zv buf off size) buf off size.
Proof.
  intros Hz H1 H2. unfold sprint_zval_with. cbv zeta.
  repeat case_match.
  - by apply prints_snprintf_strlen.
  - by apply prints_snprintf_strlen.
  - by apply sprint_zstring_prints.
  - by apply Hz.
  - apply prints_ret; auto with phpspy.
Qed.

Lemma printer_finish d (pz : printer (U:=U)) zv buf off size n :
  printer_safe d pz -> (off + size <= length buf)%nat -> (n < size)%nat ->
  prints d ('(rv, buf, tmp_len) ← pz zv buf (off + n)%nat (size - n)%nat;
            try rv else_return (rv, buf, 0%nat) ;;;
            mret (PHPSPY_OK, buf, (n + tmp_len)%nat)) buf off size.
Proof.
  intros Hp H1 H2.
  eapply prints_bind; [apply Hp; lia|lia|lia|]. intros rv b m Hb Hrv Hm.
  apply prints_try; intros Hz; apply prints_ret; auto with phpspy; lia.
Qed.

Lemma sprint_zarray_packed_safe d pz i :
  printer_safe d pz -> printer_safe d (sprint_zarray_packed L pz i).
Proof.
  intros Hp zv buf off size H1 H2. unfold sprint_zarray_packed.
  case_match; [apply prints_ret; auto with phpspy; lia|].
  apply prints_snprintf; [done|done|]. cbv zeta. intros Hb.
  case_bool_decide as Hs; [apply prints_ret; auto with phpspy; lia|].
  apply prints_usub; [lia|]. apply printer_finish; [done|lia|lia].
Qed.

Lemma prints_quiet {U' } d m (k : Z * bytes * nat -> M (world U') (Z * bytes * nat)) buf off size b0 off0 size0 :
  prints d m b0 off0 size0 ->
  (forall rv b n, copy_rv rv -> length b = length b0 -> (rv = 0 -> (n < size0)%nat) ->
     prints d (k (rv, b, n)) buf off size) ->
  prints d (m ≫= k) buf off size.
Proof.
  intros Hm Hk w. apply wpx_bind. eapply wpx_mono; [apply Hm|].
  intros [[rv b] n] w' ([? _]&?&?&?).
  apply prints_wpx with buf; [done|done|]. by apply Hk.
Qed.

Lemma sprint_zarray_bucket_safe d pz :
  printer_safe d pz -> printer_safe d (sprint_zarray_bucket E L pz).
Proof.
  intros Hp bk buf off size H1 H2. unfold sprint_zarray_bucket. cbv zeta.
  case_match; [apply prints_ret; auto with phpspy; lia|].
  assert (forall zv, prints d ('(rv, buf, tmp_len) ← pz zv buf off size;
            try rv else_return (rv, buf, 0%nat) ;;;
            mret (PHPSPY_OK, buf, (0 + tmp_len)%nat)) buf off size) as H0.
  { intros zv. pose proof (printer_finish d pz zv buf off size 0 Hp H1 ltac:(lia)) as Hf.
    by rewrite Nat.add_0_r, Nat.sub_0_r in Hf. }
  case_match; [apply H0|].
  eapply prints_quiet; [apply sprint_zstring_prints; rewrite ?length_uninit; unfold PHPSPY_STR_SIZE; lia|].
  intros rv key n Hrv Hlen Hn.
  apply prints_try; intros Hz; [by apply prints_ret|].
  case_bool_decide as Hs; [|apply H0].
  apply prints_snprintf; [done|done|]. cbv zeta. intros Hb.
  apply prints_usub; [lia|]. apply printer_finish; [done|lia|lia].
Qed.

(** The loop keeps [off + size] fixed and leaves at least one byte. *)
Lemma zarray_loop_prints d pel k i buf obuf off size size0 :
  (forall i, forall buf off size, (off + size <= length buf)%nat -> (1 <= size)%nat ->
     prints d (pel i buf off size) buf off size) ->
  (obuf <= off)%nat -> (off + size = obuf + size0)%nat -> (1 <= size)%nat ->
  (obuf + size0 <= length buf)%nat ->
  forall w, wpx d (zarray_loop (U:=U) pel k i buf off size) (fun r w' =>
    let '(rv, buf', off') := r in
    inside buf buf' obuf size0 /\ copy_rv rv /\ (rv = 0 -> (obuf <= off' < obuf + size0)%nat)
    /\ quiet w w') w.
Proof.
  intros Hp. revert i buf off size.
  induction k as [|k IH]; intros i buf off size Ho He Hs Hl w; simpl.
  { apply wpx_ret. split_and!; auto with phpspy; [|done]. lia. }
  apply wpx_bind. eapply wpx_mono; [apply Hp; lia|].
  intros [[rv b] n] w1 (Hi & Hrv & Hn & Hq).
  assert (inside buf b obuf size0) as Hi' by (eapply inside_sub; [done|lia|lia]).
  destruct Hi as [Hlb _].
  assert (forall (m : M (world U) (Z * bytes * nat)) (Q : Z -> nat -> Prop), wpx d m (fun r w' => let '(rv, buf', off') := r in
      inside b buf' obuf size0 /\ copy_rv rv /\ Q rv off' /\ quiet w1 w') w1 ->
    wpx d m (fun r w' => let '(rv, buf', off') := r in
      inside buf buf' obuf size0 /\ copy_rv rv /\ Q rv off' /\ quiet w w') w1) as Hchain.
  { intros m Q Hm. eapply wpx_mono; [exact Hm|]. intros [[? ?] ?] ? (?&?&?&?).
    split_and!; [by eapply inside_trans|done|done|by etrans]. }
  case_bool_decide as Hz; [apply wpx_ret; split_and!; auto; lia|].
  assert (rv = 0) as Hrv0 by lia. specialize (Hn Hrv0).
  case_bool_decide as Hz2.
  { apply (Hchain _ (fun rv off' => rv = 0 -> (obuf <= off' < obuf + size0)%nat)). apply IH; lia. }
  apply wpx_bind. unfold usub at 1. rewrite bool_decide_true by lia. apply wpx_ret.
  case_bool_decide as Hz3; [apply wpx_ret; split_and!; auto with phpspy; lia|].
  apply wpx_bind, store_ok; [simpl; lia|].
  apply (Hchain _ (fun rv off' => rv = 0 -> (obuf <= off' < obuf + size0)%nat)).
  assert (length (poke b (off + n) [","%char]) = length b) as Hlp by (apply length_poke; simpl; lia).
  eapply wpx_mono; [apply IH; lia|]. intros [[? ?] ?] ? (?&?&?&?).
  split_and!; auto. eapply inside_trans; [|done]. apply inside_poke; simpl; lia.
Qed.

Lemma drop_comma_le buf obuf off : (obuf <= off -> obuf <= drop_comma buf obuf off <= off)%nat.
Proof. unfold drop_comma. intros. case_match eqn:Hc; [|lia]. apply andb_true_iff in Hc as [Hc _]. case_bool_decide; [lia|done]. Qed.

(** The tail of [sprint_zarray] and [sprint_pdo_binds]. *)
Lemma zarray_tail_prints d pel k buf off size :
  (forall i, forall buf off size, (off + size <= length buf)%nat -> (1 <= size)%nat ->
     prints d (pel i buf off size) buf off size) ->
  (off + size <= length buf)%nat -> (1 <= size)%nat ->
  prints (U:=U) d ('(rv, buf, off') ← zarray_loop pel k 0 buf off size;
    try rv else_return (rv, buf, 0%nat) ;;;
    mret (PHPSPY_OK, buf, (drop_comma buf off off' - off)%nat)) buf off size.
Proof.
  intros Hp H1 H2 w. apply wpx_bind. eapply wpx_mono; [by apply (zarray_loop_prints d pel k 0 buf off off size size)|].
  intros [[rv b] off'] w' (?&?&Ho&?). case_bool_decide as Hz; [by apply wpx_ret|].
  apply wpx_ret. split_and!; auto with phpspy. intros _.
  pose proof (drop_comma_le b off off'). lia.
Qed.

Lemma sprint_zarray_prints d pz r buf off size :
  printer_safe d pz -> (off + size <= length buf)%nat -> (1 <= size)%nat ->
  prints d (sprint_zarray E L pz r buf off size) buf off size.
Proof.
  intros Hp H1 H2. unfold sprint_zarray.
  apply prints_copy. intros rv arr Hrv _ _. apply prints_try; intros Hz; [by apply prints_ret|].
  cbv zeta. apply prints_copy. intros rv' els Hrv' _ _.
  apply prints_try; intros Hz'; [by apply prints_ret|].
  apply zarray_tail_prints; [|done|done]. intros i b o s Ho Hs.
  case_match; [by apply sprint_zarray_packed_safe|by apply sprint_zarray_bucket_safe].
Qed.

Lemma sprint_zval_safe fuel : printer_safe True (sprint_zval E L fuel).
Proof.
  induction fuel as [|f IH]; intros zv buf off size H1 H2; [by intros w; apply wpx_diverge|].
  apply sprint_zval_with_prints; [|done|done].
  intros. by apply sprint_zarray_prints.
Qed.

End printers_safe.

Section pdo_safe.
Context {U : Type} (E : target_env) (L : zlayout).

Lemma pdo_bind_name_prints d lbp :
  prints (U:=U) d (pdo_bind_name E L lbp) (uninit E PHPSPY_STR_SIZE) 0 PHPSPY_STR_SIZE.
Proof.
  unfold pdo_bind_name. case_match.
  - apply prints_snprintf_strlen; rewrite ?length_uninit; unfold PHPSPY_STR_SIZE; lia.
  - apply sprint_zstring_prints; rewrite ?length_uninit; unfold PHPSPY_STR_SIZE; lia.
Qed.

Lemma pdo_bind_deref_prints d param (k : bytes -> M (world U) (Z * bytes * nat)) buf off size :
  (forall v, prints d (k v) buf off size) -> prints d (pdo_bind_deref E L param ≫= k) buf off size.
Proof.
  intros Hk w. apply wpx_bind. unfold pdo_bind_deref. cbv zeta. case_match.
  - apply wpx_bind, copy_proc_mem_wp. intros rv bs w' Hq _ _ _. apply wpx_ret.
    by apply prints_wpx with buf.
  - apply wpx_ret, Hk.
Qed.

Lemma pdo_bind_print_prints fuel lbp name nl buf off size :
  (off + size <= length buf)%nat -> (1 <= size)%nat ->
  prints (U:=U) True (pdo_bind_print E L fuel lbp name nl buf off size) buf off size.
Proof.
  intros H1 H2. unfold pdo_bind_print. cbv zeta.
  apply prints_snprintf; [done|done|]. cbv zeta. intros Hb.
  case_bool_decide; [apply prints_ret; auto with phpspy; lia|].
  apply prints_usub; [lia|]. apply pdo_bind_deref_prints. intros v.
  apply printer_finish; [apply sprint_zval_safe|lia|lia].
Qed.

Lemma sprint_pdo_bind_safe fuel : printer_safe True (sprint_pdo_bind (U:=U) E L fuel).
Proof.
  intros zv buf off size H1 H2. unfold sprint_pdo_bind.
  case_match; [apply prints_ret; auto with phpspy; lia|].
  cbv zeta. case_match; [apply prints_ret; auto with phpspy; lia|].
  apply prints_copy. intros rv lbp Hrv _ _.
  case_bool_decide; [apply prints_ret; auto with phpspy; lia|].
  eapply prints_quiet; [apply pdo_bind_name_prints|]. intros rv' name nl _ _ _.
  case_bool_decide; [apply prints_ret; auto with phpspy; lia|].
  by apply pdo_bind_print_prints.
Qed.

Lemma sprint_pdo_binds_prints fuel r buf off size :
  (off + size <= length buf)%nat -> (1 <= size)%nat ->
  prints (U:=U) True (sprint_pdo_binds E L fuel r buf off size) buf off size.
Proof.
  intros H1 H2. unfold sprint_pdo_binds.
  case_match; [apply prints_ret; auto with phpspy; lia|].
  apply prints_copy. intros rv arr Hrv _ _. apply prints_try; intros Hz; [by apply prints_ret|].
  cbv zeta. case_match; [apply prints_ret; auto with phpspy; lia|].
  apply prints_copy. intros rv' els Hrv' _ _.
  apply prints_try; intros Hz'; [by apply prints_ret|].
  apply zarray_tail_prints; [|done|done]. intros. by apply sprint_pdo_bind_safe.
Qed.

End pdo_safe.

(** ** The hash is the Zend polynomial *)

Section hash.
Context (E : target_env).

Lemma hash_step_poly h c : hash_step E h c = (h * 33 + char_val E c) mod 2 ^ 64.
Proof.
  unfold hash_step. rewrite Z.shiftl_mul_pow2 by lia.
  rewrite wrap_add_idemp, <-Z.add_assoc, wrap_add_idemp. unfold wrap. f_equal. lia.
Qed.

Lemma hash_steps_fold k h s :
  hash_steps E k h s = (fold_left (hash_step E) (take k s) h, drop k s).
Proof.
  revert h s; induction k as [|k IH]; intros h s; [done|].
  destruct s as [|c s]; [done|]. simpl. apply IH.
Qed.

Lemma hash_loop_eq len h s :
  hash_loop E len h s =
    (if (8 <=? len)%nat
     then hash_loop E (len - 8) (fst (hash_steps E 8 h s)) (snd (hash_steps E 8 h s))
     else fst (hash_steps E len h s)).
Proof.
  do 8 (destruct len as [|len]; [done|]). change (8 <=? S (S (S (S (S (S (S (S len))))))))%nat with true.
  replace (S (S (S (S (S (S (S (S len))))))) - 8)%nat with len by lia.
  cbn [hash_loop]. by destruct (hash_steps E 8 h s).
Qed.

Lemma hash_loop_fold len h s :
  hash_loop E len h s = fold_left (hash_step E) (take len s) h.
Proof.
  revert h s. induction (Nat.lt_wf_0 len) as [len _ IH]. intros h s.
  rewrite hash_loop_eq. destruct (Nat.leb_spec 8 len) as [Hle|Hlt].
  - rewrite hash_steps_fold. cbn [fst snd]. rewrite IH by lia.
    rewrite <-fold_left_app. f_equal. rewrite <-(take_drop 8 (take len s)), take_take, Nat.min_l by lia.
    f_equal. by rewrite skipn_firstn_comm.
  - by rewrite hash_steps_fold.
Qed.

Lemma hash_fold_range s h : 0 <= h < 2 ^ 64 -> 0 <= fold_left (hash_step E) s h < 2 ^ 64.
Proof.
  revert h; induction s as [|c s IH]; intros h Hh; [done|]. simpl. apply IH.
  rewrite hash_step_poly. apply Z.mod_pos_bound. lia.
Qed.

End hash.
