(* ===== verification/ZvalSpec.v ===== *)
(** * ZvalSpec: what the zval printers print and what the hash lookup finds

    On memory that does not change while it is read, a PHP value that phpspy
    supports is described by a tree [pval]; [represents] relates the tree to the
    bytes of the target and [render] is the text phpspy is meant to print. *)
From S2P Require Import Prelude CLib Layout Context Zval.

(** ** The hash as a polynomial *)

Definition zend_poly (E : target_env) (s : bytes) : Z :=
  fold_left (fun h c => h * 33 + char_val E c) s 5381.

(** ** Values and their text *)

Inductive pval :=
| VLong (z : Z)
| VDouble (bits : Z)
| VString (s : bytes)
| VPacked (vs : list (option pval))                  (* [None]: an unused slot *)
| VHash (kvs : list (option (option bytes * pval))). (* [None] key: an integer key *)

(** [a,b,c] without the empty texts, a comma behind each. *)
Definition with_commas (ts : list bytes) : bytes :=
  concat (map (fun t => match t with [] => [] | _ => t ++ [","%char] end) ts).

Definition comma_list (ts : list bytes) : bytes := removelast (with_commas ts).

Fixpoint render (v : pval) : bytes :=
  match v with
  | VLong z => fmt_d z
  | VDouble b => fmt_f b
  | VString s => s
  | VPacked vs =>
    comma_list ((fix go (i : nat) (l : list (option pval)) : list bytes :=
      match l with
      | [] => []
      | None :: l' => [] :: go (S i) l'
      | Some v :: l' => (fmt_d (Z.of_nat i) ++ "="%char :: render v) :: go (S i) l'
      end) 0%nat vs)
  | VHash kvs =>
    comma_list ((fix go (l : list (option (option bytes * pval))) : list bytes :=
      match l with
      | [] => []
      | None :: l' => [] :: go l'
      | Some (None, v) :: l' => render v :: go l'
      | Some (Some k, v) :: l' => (k ++ "="%char :: render v) :: go l'
      end) kvs)
  end.

(** How deeply arrays nest. *)
Fixpoint depth (v : pval) : nat :=
  match v with
  | VPacked vs =>
    S ((fix go (l : list (option pval)) : nat :=
      match l with
      | [] => 0%nat
      | None :: l' => go l'
      | Some v :: l' => Nat.max (depth v) (go l')
      end) vs)
  | VHash kvs =>
    S ((fix go (l : list (option (option bytes * pval))) : nat :=
      match l with
      | [] => 0%nat
      | None :: l' => go l'
      | Some (_, v) :: l' => Nat.max (depth v) (go l')
      end) kvs)
  | _ => 1%nat
  end.

Section memory.
Context (E : target_env) (L : zlayout).

(** The [zend_string] at [addr] is [s]. *)
Definition zstr (addr : Z) (s : bytes) : Prop :=
  exists hdr, reads_as E addr (sz_str L) hdr /\ rd64 hdr (o_str_len L) = Z.of_nat (length s)
    /\ forall n, (n <= length s)%nat -> reads_as E (padd addr (o_str_val L)) (Z.of_nat n) (take n s).

(** The [zend_array] at [addr]: its header and its [n] elements. *)
Definition zarr (addr : Z) (packed : bool) (n : nat) (hdr arr : bytes) : Prop :=
  reads_as E addr (sz_array L) hdr /\ is_packed L hdr = packed
  /\ rd32 hdr (o_arr_used L) = Z.of_nat n /\ Z.of_nat n <= PHPSPY_MAX_ARRAY_BUCKETS
  /\ reads_as E (rd64 hdr (o_arr_data L)) ((if packed then sz_zval L else sz_bucket L) * Z.of_nat n) arr.

Definition zv_type (zv : bytes) : Z := rd8 zv (o_zv_type L).
Definition bucket_zval (bk : bytes) : bytes := peek bk (Z.to_nat (o_bk_val L)) (Z.to_nat (sz_zval L)).

(** The key of a bucket: a string that fits the key buffer, or none. *)
Definition bucket_key (bk : bytes) (k : option bytes) : Prop :=
  match k with
  | None => rd64 bk (o_bk_key L) = 0
  | Some s => rd64 bk (o_bk_key L) <> 0 /\ zstr (rd64 bk (o_bk_key L)) s
      /\ (NUL ∉ s) /\ (length s < PHPSPY_STR_SIZE)%nat
  end.

Fixpoint represents (v : pval) (zv : bytes) : Prop :=
  match v with
  | VLong z => zv_type zv = PHPSPY_ZVAL_TYPE_LONG /\ s64 (rd64 zv (o_zv_value L)) = z
  | VDouble b => zv_type zv = PHPSPY_ZVAL_TYPE_DOUBLE /\ rd64 zv (o_zv_value L) = b
  | VString s => zv_type zv = PHPSPY_ZVAL_TYPE_STRING /\ zstr (rd64 zv (o_zv_value L)) s
  | VPacked vs =>
    zv_type zv = PHPSPY_ZVAL_TYPE_ARRAY /\ exists hdr arr,
    zarr (rd64 zv (o_zv_value L)) true (length vs) hdr arr /\
    (fix go (i : nat) (l : list (option pval)) : Prop :=
      match l with
      | [] => True
      | None :: l' => zv_type (elem arr (sz_zval L) i) = PHPSPY_ZVAL_TYPE_UNDEF /\ go (S i) l'
      | Some v :: l' => represents v (elem arr (sz_zval L) i) /\ go (S i) l'
      end) 0%nat vs
  | VHash kvs =>
    zv_type zv = PHPSPY_ZVAL_TYPE_ARRAY /\ exists hdr arr,
    zarr (rd64 zv (o_zv_value L)) false (length kvs) hdr arr /\
    (fix go (i : nat) (l : list (option (option bytes * pval))) : Prop :=
      match l with
      | [] => True
      | None :: l' => zv_type (bucket_zval (elem arr (sz_bucket L) i)) = PHPSPY_ZVAL_TYPE_UNDEF /\ go (S i) l'
      | Some (k, v) :: l' =>
        bucket_key (elem arr (sz_bucket L) i) k /\ represents v (bucket_zval (elem arr (sz_bucket L) i))
        /\ go (S i) l'
      end) 0%nat kvs
  end.

(** ** The collision chain *)

(** The buckets from index [idx] of the data at [arData] on, with their keys. *)
Inductive chain (arData : Z) : Z -> list (bytes * bytes) -> Prop :=
| Chain_end : chain arData (2 ^ 32 - 1) []
| Chain_cons idx k bk rest :
    idx <> 2 ^ 32 - 1 ->
    reads_as E (padd arData (sz_bucket L * idx)) (sz_bucket L) bk ->
    rd64 bk (o_bk_key L) <> 0 -> zstr (rd64 bk (o_bk_key L)) k -> NUL ∉ k ->
    chain arData (rd32 bk (o_bk_val L + o_zv_next L)) rest ->
    chain arData idx ((k, bk) :: rest).

Definition lookup_chain (key : bytes) (c : list (bytes * bytes)) : Z * bytes :=
  match List.find (fun e => bool_decide (fst e = key)) c with
  | Some (_, bk) => (PHPSPY_OK, bk)
  | None => (PHPSPY_ERR, [])
  end.

(** The slot of [key] in the hash part of the array with header [hdr]. *)
Definition slot_addr (hdr key : bytes) : Z :=
  let size := u32 (- s32 (rd32 hdr (o_arr_mask L))) in
  padd (rd64 hdr (o_arr_data L))
    (4 * (phpspy_zend_inline_hash_func E key (length key) mod size - size)).

End memory.

(** A text fits a window of [size] bytes, with room for a comma and a NUL. *)
Definition fits (t : bytes) (size : nat) : Prop :=
  (1 <= size)%nat /\ (t <> [] -> (length t + 1 < size)%nat).

(** [m] prints exactly [t] into the window and nothing else. *)
Definition prints_text {U} (m : M (world U) (Z * bytes * nat)) (buf : bytes) (off size : nat) (t : bytes) : Prop :=
  forall w, twp m (fun r w' => let '(rv, buf', n) := r in
    rv = PHPSPY_OK /\ n = length t /\ peek buf' off (length t) = t
    /\ inside buf buf' off size /\ quiet w w') w.

Lemma fmt_d_ne z : fmt_d z <> [].
Proof.
  unfold fmt_d. destruct (z <? 0); [done|]. pose proof (length_fmt_u_pos z). by destruct (fmt_u z); [simpl in *; lia|].
Qed.

Lemma fmt_f_ne b : fmt_f b <> [].
Proof.
  unfold fmt_f, fmt_f_abs, fmt_fixed. cbv zeta. intros H. destruct (_ =? 2047); apply app_eq_nil in H as [_ H].
  - by destruct (_ =? 0).
  - by apply app_eq_nil in H as [_ ?].
Qed.

(** ** Lemmas: the trees element by element *)

Definition packed_text_of (i : nat) (x : option pval) : bytes :=
  match x with None => [] | Some v => fmt_d (Z.of_nat i) ++ "="%char :: render v end.

Definition hash_text_of (x : option (option bytes * pval)) : bytes :=
  match x with
  | None => []
  | Some (None, v) => render v
  | Some (Some k, v) => k ++ "="%char :: render v
  end.

Lemma render_packed vs : render (VPacked vs) = comma_list (imap packed_text_of vs).
Proof.
  simpl. f_equal. change packed_text_of with (fun i x => packed_text_of (0 + i) x). generalize 0%nat as i.
  induction vs as [|[v|] vs IH]; intros i; [done| |]; rewrite imap_cons, Nat.add_0_r; f_equal; rewrite IH;
    apply imap_ext; intros j x _; cbn [compose]; f_equal; lia.
Qed.

Lemma render_hash kvs : render (VHash kvs) = comma_list (map hash_text_of kvs).
Proof. simpl. f_equal. induction kvs as [|[[[k|] v]|] kvs IH]; simpl; f_equal; done. Qed.

Lemma depth_packed vs v : Some v ∈ vs -> (depth v < depth (VPacked vs))%nat.
Proof.
  simpl. induction vs as [|[x|] vs IH]; [set_solver| |]; intros [H|H]%elem_of_cons; simplify_eq; try lia;
    specialize (IH H); lia.
Qed.

Lemma depth_hash kvs k v : Some (k, v) ∈ kvs -> (depth v < depth (VHash kvs))%nat.
Proof.
  simpl. induction kvs as [|[[k' x]|] kvs IH]; [set_solver| |]; intros [H|H]%elem_of_cons; simplify_eq; try lia;
    specialize (IH H); lia.
Qed.

Section represents.
Context (E : target_env) (L : zlayout).

Lemma represents_packed vs zv :
  represents E L (VPacked vs) zv -> zv_type L zv = PHPSPY_ZVAL_TYPE_ARRAY /\ exists hdr arr,
    zarr E L (rd64 zv (o_zv_value L)) true (length vs) hdr arr /\
    forall j x, vs !! j = Some x ->
      match x with
      | None => zv_type L (elem arr (sz_zval L) j) = PHPSPY_ZVAL_TYPE_UNDEF
      | Some v => represents E L v (elem arr (sz_zval L) j)
      end.
Proof.
  cbn [represents]. intros (Hty & hdr & arr & Hz & Hgo). split; [done|]. exists hdr, arr. split; [done|]. clear Hz.
  intros j. change j with (0 + j)%nat at 2 3. revert Hgo. generalize 0%nat as i. revert j.
  induction vs as [|[v|] vs IH]; intros j i Hgo x Hx; [done| |];
    destruct Hgo as [H0 Hgo], j as [|j]; simpl in Hx; simplify_eq; rewrite ?Nat.add_0_r; try done;
    specialize (IH j (S i) Hgo x Hx); by rewrite Nat.add_succ_comm in IH.
Qed.

Lemma represents_hash kvs zv :
  represents E L (VHash kvs) zv -> zv_type L zv = PHPSPY_ZVAL_TYPE_ARRAY /\ exists hdr arr,
    zarr E L (rd64 zv (o_zv_value L)) false (length kvs) hdr arr /\
    forall j x, kvs !! j = Some x ->
      match x with
      | None => zv_type L (bucket_zval L (elem arr (sz_bucket L) j)) = PHPSPY_ZVAL_TYPE_UNDEF
      | Some (k, v) => bucket_key E L (elem arr (sz_bucket L) j) k
          /\ represents E L v (bucket_zval L (elem arr (sz_bucket L) j))
      end.
Proof.
  cbn [represents]. intros (Hty & hdr & arr & Hz & Hgo). split; [done|]. exists hdr, arr. split; [done|]. clear Hz.
  intros j. change j with (0 + j)%nat at 2 3 4. revert Hgo. generalize 0%nat as i. revert j.
  induction kvs as [|[[k v]|] kvs IH]; intros j i Hgo x Hx; [done| |].
  - destruct Hgo as (H0 & H1 & Hgo), j as [|j]; simpl in Hx; simplify_eq; rewrite ?Nat.add_0_r; [done|].
    specialize (IH j (S i) Hgo x Hx). by rewrite Nat.add_succ_comm in IH.
  - destruct Hgo as (H0 & Hgo), j as [|j]; simpl in Hx; simplify_eq; rewrite ?Nat.add_0_r; [done|].
    specialize (IH j (S i) Hgo x Hx). by rewrite Nat.add_succ_comm in IH.
Qed.

Lemma represents_type v zv : represents E L v zv -> zv_type L zv <> PHPSPY_ZVAL_TYPE_UNDEF.
Proof. destruct v; intros [-> _]; done. Qed.

End represents.

(** ** Lemmas: strings and scalars *)

Section printers.
Context {U : Type} (E : target_env) (L : zlayout).

(** [sprint_zstring] on a string of the target: the text cut to the window,
    NUL-terminated. *)
Lemma sprint_zstring_wp addr s buf off size (Q : Z * bytes * nat -> world U -> Prop) w :
  zstr E L addr s -> (off + size <= length buf)%nat -> (1 <= size)%nat ->
  (forall w', quiet w w' ->
     let n := Nat.min (length s) (size - 1) in
     Q (PHPSPY_OK, poke (poke (poke buf off [NUL]) off (take n s)) (off + n) [NUL], n) w') ->
  twp (sprint_zstring E L addr buf off size) Q w.
Proof.
  intros (hdr & Hh & Hlen & Hdata) Hb Hs HQ. unfold sprint_zstring.
  apply wpx_bind, store_ok; [simpl; lia|].
  apply wpx_bind. eapply copy_proc_mem_reads_wp; [done|]. intros w1 Hq1.
  rewrite bool_decide_false by (intros X; by apply X). rewrite Hlen.
  set (n := Nat.min (length s) (size - 1)). replace (Z.to_nat _) with n by lia. cbv zeta.
  apply wpx_bind. eapply copy_proc_mem_reads_wp; [apply Hdata; lia|]. intros w2 Hq2.
  assert (length (take n s) = n) as Hn by (rewrite length_take; lia).
  assert (length (poke buf off [NUL]) = length buf) as Hl1 by (apply length_poke; simpl; lia).
  apply wpx_bind, store_ok; [lia|].
  assert (length (poke (poke buf off [NUL]) off (take n s)) = length buf) as Hl2 by (rewrite length_poke; lia).
  rewrite bool_decide_false by (intros X; by apply X).
  apply wpx_bind, store_ok; [simpl; lia|]. apply wpx_ret, HQ. by etrans.
Qed.

Lemma inside_poke3 buf off size n a b c :
  (off + size <= length buf)%nat -> (1 <= size)%nat -> (length b = n)%nat -> (n < size)%nat ->
  inside buf (poke (poke (poke buf off [a]) off b) (off + n) [c]) off size.
Proof.
  intros. assert (length (poke buf off [a]) = length buf) as H3 by (apply length_poke; simpl; lia).
  assert (length (poke (poke buf off [a]) off b) = length buf) by (rewrite length_poke; lia).
  apply inside_trans with (poke buf off [a]); [apply inside_poke; simpl; lia|].
  apply inside_trans with (poke (poke buf off [a]) off b); [apply inside_poke; lia|]. apply inside_poke; simpl; lia.
Qed.

Lemma peek_before (buf : bytes) off n off' x :
  (off + n <= off')%nat -> (off' + length x <= length buf)%nat -> peek (poke buf off' x) off n = peek buf off n.
Proof.
  intros. apply list_eq. intros i. unfold peek.
  destruct (decide (i < n)%nat); [|by rewrite !lookup_take_ge by lia].
  rewrite !lookup_take_lt, !lookup_drop by lia. apply lookup_poke_out; lia.
Qed.

(** The key buffer read back as a C string. *)
Lemma zstring_key (buf s : bytes) :
  NUL ∉ s -> (length s < length buf)%nat ->
  cstr (poke (poke (poke buf 0 [NUL]) 0 s) (0 + length s) [NUL]) = s.
Proof.
  intros Hs Hl. assert (length (poke buf 0 [NUL]) = length buf) as Hl1 by (apply length_poke; simpl; lia).
  unfold poke at 1. rewrite Nat.add_0_l. rewrite <-(Nat.add_0_l (length s)), take_poke_end by lia.
  cbn [take app Nat.add]. by rewrite cstr_app_nul.
Qed.

Lemma sprint_zstring_text addr s buf off size :
  zstr E L addr s -> (off + size <= length buf)%nat -> fits s size ->
  prints_text (U:=U) (sprint_zstring E L addr buf off size) buf off size s.
Proof.
  intros Hz Hb [Hs Hf] w. eapply sprint_zstring_wp; [done|done|done|]. intros w' Hq n.
  assert (n = length s) as Hn.
  { subst n. destruct s as [|c s]; [done|]. specialize (Hf ltac:(done)). lia. }
  assert (length s < size)%nat by (destruct s; [simpl; lia|]; specialize (Hf ltac:(done)); lia).
  rewrite Hn, take_ge by lia.
  assert (length (poke buf off [NUL]) = length buf) as Hl1 by (apply length_poke; simpl; lia).
  assert (length (poke (poke buf off [NUL]) off s) = length buf) as Hl2 by (rewrite length_poke; lia).
  split_and!; try done; [|by apply inside_poke3].
  rewrite peek_before by (simpl; lia). rewrite <-(peek_poke (poke buf off [NUL]) off s) at 3 by lia. done.
Qed.

Lemma snprintf_text s buf off size :
  NUL ∉ s -> s <> [] -> (off + size <= length buf)%nat -> fits s size ->
  prints_text (U:=U) (buf ← snprintf buf off size s; n ← c_strlen buf off; mret (PHPSPY_OK, buf, n)) buf off size s.
Proof.
  intros Hs Hne Hb [H1 Hf] w. specialize (Hf Hne). destruct size as [|k]; [lia|]. unfold snprintf.
  rewrite take_ge by lia. apply wpx_bind, store_ok; [rewrite length_app; simpl; lia|].
  apply wpx_bind. unfold c_strlen. rewrite strlen_at_snprintf, cstr_id by (done || lia).
  replace (terminated _) with true.
  - apply wpx_ret, wpx_ret. split_and!; try done.
    + unfold peek, poke. rewrite drop_app_length' by (rewrite length_take; lia).
      by rewrite <-app_assoc, take_app_length.
    + apply inside_poke; rewrite ?length_app; simpl; lia.
  - symmetry. unfold poke. rewrite drop_app_length' by (rewrite length_take; lia).
    rewrite <-app_assoc. apply terminated_app_nul.
Qed.

(** ** Lemmas: elements and the loop *)

Lemma peek_app_split (b : bytes) off n m t1 t2 :
  peek b off n = t1 -> peek b (off + n) m = t2 -> length t1 = n -> peek b off (n + m) = t1 ++ t2.
Proof.
  intros <- <- _. unfold peek. rewrite <-drop_drop. by rewrite take_take_drop.
Qed.

(** What an [inside] write leaves of the text in front of its window. *)
Lemma inside_peek (b b' : bytes) off n off' size : (off + n <= off')%nat -> inside b b' off' size -> peek b' off n = peek b off n.
Proof.
  intros Hle [Hl Ho]. apply list_eq. intros i. unfold peek.
  destruct (decide (i < n)%nat); [|by rewrite !lookup_take_ge by lia].
  rewrite !lookup_take_lt, !lookup_drop by lia. apply Ho. lia.
Qed.

(** A prefix [p] that is in place, then a value printed behind it. *)
Lemma finish_text (m : M (world U) (Z * bytes * nat)) b buf off size p t w w1 :
  peek b off (length p) = p -> inside buf b off size -> quiet w w1 ->
  (length p <= size)%nat ->
  prints_text m b (off + length p) (size - length p) t ->
  twp ('(rv, buf, tmp_len) ← m; try rv else_return (rv, buf, 0%nat) ;;;
       mret (PHPSPY_OK, buf, (length p + tmp_len)%nat))
    (fun r w' => let '(rv, buf', n) := r in rv = PHPSPY_OK /\ n = length (p ++ t)
      /\ peek buf' off (length (p ++ t)) = p ++ t /\ inside buf buf' off size /\ quiet w w') w1.
Proof.
  intros Hp Hi Hq Hl Hm. apply wpx_bind. eapply wpx_mono; [apply Hm|].
  intros [[rv b'] n] w' (-> & -> & Ht & Hi' & Hq'). rewrite bool_decide_false by (intros X; by apply X).
  apply wpx_ret. rewrite length_app. split_and!; try done.
  - apply peek_app_split; [|done|done]. by rewrite (inside_peek b b' off (length p) _ _ (Nat.le_refl _) Hi').
  - eapply inside_trans; [done|]. eapply inside_sub; [done|lia|lia].
  - by etrans.
Qed.

(** [snprintf] of a text that fits. *)
Lemma snprintf_wp s buf off size (Q : bytes -> world U -> Prop) w :
  (off + size <= length buf)%nat -> (length s < size)%nat ->
  (let b := poke buf off (s ++ [NUL]) in
   length b = length buf -> peek b off (length s) = s -> inside buf b off size -> Q b w) ->
  twp (snprintf buf off size s) Q w.
Proof.
  intros Hb Hs HQ. destruct size as [|k]; [lia|]. unfold snprintf. rewrite take_ge by lia.
  apply store_ok; [rewrite length_app; simpl; lia|]. apply HQ.
  - apply length_poke. rewrite length_app. simpl. lia.
  - unfold peek, poke. rewrite drop_app_length' by (rewrite length_take; lia).
    by rewrite <-app_assoc, take_app_length.
  - apply inside_poke; rewrite ?length_app; simpl; lia.
Qed.

(** What a printer of values does on the values it is given. *)
Definition prints_value (pz : printer (U:=U)) (zv t : bytes) : Prop :=
  forall buf off size, (off + size <= length buf)%nat -> fits t size ->
    prints_text (pz zv buf off size) buf off size t.

Lemma fits_app p t size : p <> [] -> fits (p ++ t) size -> fits t (size - length p) /\ (length p < size)%nat
  /\ (length p + 1 < size)%nat.
Proof.
  intros Hp [H1 H2]. rewrite length_app in H2. assert (p ++ t <> []) by (by destruct p).
  specialize (H2 ltac:(done)). split_and!; [split; [lia|intros; lia]|lia|lia].
Qed.

Lemma packed_text pz i zv t :
  zv_type L zv <> PHPSPY_ZVAL_TYPE_UNDEF -> prints_value pz zv t ->
  prints_value (sprint_zarray_packed L pz i) zv (fmt_d (Z.of_nat i) ++ "="%char :: t).
Proof.
  intros Hty Hpz buf off size Hb Hf w. unfold sprint_zarray_packed. unfold zv_type in Hty.
  rewrite (proj2 (Z.eqb_neq _ _)) by done.
  change (fmt_d (Z.of_nat i) ++ "="%char :: t) with (fmt_d (Z.of_nat i) ++ ["="%char] ++ t) in *.
  rewrite app_assoc in *. set (p := fmt_d (Z.of_nat i) ++ ["="%char]) in *.
  assert (p <> []) as Hp by (subst p; by destruct (fmt_d (Z.of_nat i))).
  destruct (fits_app p t size Hp Hf) as (Hft & Hps & _).
  apply wpx_bind, snprintf_wp; [done|done|]. cbv zeta. intros Hl Hpk Hi.
  rewrite bool_decide_false by lia. apply wpx_bind. unfold usub. rewrite bool_decide_true by lia. apply wpx_ret.
  eapply finish_text; [exact Hpk|exact Hi|done|lia|]. apply Hpz; [lia|done].
Qed.

Lemma bucket_text pz bk k t :
  zv_type L (bucket_zval L bk) <> PHPSPY_ZVAL_TYPE_UNDEF -> bucket_key E L bk k ->
  prints_value pz (bucket_zval L bk) t ->
  prints_value (sprint_zarray_bucket E L pz) bk
    (match k with Some s => s ++ "="%char :: t | None => t end).
Proof.
  intros Hty Hk Hpz buf off size Hb Hf w. unfold sprint_zarray_bucket. unfold zv_type in Hty.
  fold (bucket_zval L bk). rewrite (proj2 (Z.eqb_neq _ _)) by done. destruct k as [s|]; simpl in Hk.
  - destruct Hk as (Hk0 & Hz & Hnn & Hlen). rewrite (proj2 (Z.eqb_neq _ _)) by done.
    change (s ++ "="%char :: t) with (s ++ ["="%char] ++ t) in *. rewrite app_assoc in *.
    assert (s ++ ["="%char] <> []) as Hp by (by destruct s).
    destruct (fits_app _ t size Hp Hf) as (Hft & Hps & Hps2). rewrite length_app in Hps2. simpl in Hps2.
    apply wpx_bind. eapply sprint_zstring_wp; [done|rewrite length_uninit; lia|unfold PHPSPY_STR_SIZE; lia|].
    intros w1 Hq1. cbv zeta. rewrite Nat.min_l by lia. rewrite take_ge by lia.
    rewrite bool_decide_false by (intros X; by apply X). rewrite bool_decide_true by lia.
    set (key := poke _ _ [NUL]). assert (cstr key = s) as Hkey by (by apply zstring_key; rewrite ?length_uninit).
    rewrite Hkey. apply wpx_bind, snprintf_wp; [done|done|]. cbv zeta. intros Hl Hpk Hi.
    apply wpx_bind. unfold usub. rewrite bool_decide_true by (rewrite length_app in Hps; simpl in Hps; lia).
    apply wpx_ret. replace (length s + 1)%nat with (length (s ++ ["="%char])) by (rewrite length_app; simpl; lia).
    eapply finish_text; [exact Hpk|exact Hi|done|lia|]. apply Hpz; [lia|done].
  - rewrite (proj2 (Z.eqb_eq _ _)) by done.
    pose proof (finish_text (pz (bucket_zval L bk) buf off size) buf buf off size [] t w w) as Hfin.
    cbn [length app] in Hfin. rewrite Nat.add_0_r, Nat.sub_0_r in Hfin.
    apply Hfin; [done|done|done|lia|]. by apply Hpz.
Qed.

Lemma with_commas_cons t ts :
  with_commas (t :: ts) = (match t with [] => [] | _ => t ++ [","%char] end) ++ with_commas ts.
Proof. done. Qed.

Lemma with_commas_cases ts : with_commas ts = [] \/ exists y, y <> [] /\ with_commas ts = y ++ [","%char].
Proof.
  induction ts as [|t ts IH]; [by left|]. rewrite with_commas_cons. destruct t as [|c t]; [done|right].
  destruct IH as [->|(y & Hy & ->)].
  - exists (c :: t). by rewrite app_nil_r.
  - exists ((c :: t) ++ ","%char :: y). split; [done|]. cbn [app]. by rewrite <-!app_assoc.
Qed.

Lemma zarray_loop_text pel ts i buf off size w :
  (forall j t, ts !! j = Some t -> forall buf off size, (off + size <= length buf)%nat -> fits t size ->
     prints_text (U:=U) (pel (i + j)%nat buf off size) buf off size t) ->
  (off + size <= length buf)%nat -> (length (with_commas ts) < size)%nat ->
  twp (zarray_loop pel (length ts) i buf off size) (fun r w' => let '(rv, buf', off') := r in
    rv = PHPSPY_OK /\ off' = (off + length (with_commas ts))%nat
    /\ peek buf' off (length (with_commas ts)) = with_commas ts
    /\ inside buf buf' off size /\ quiet w w') w.
Proof.
  revert i buf off size w. induction ts as [|t ts IH]; intros i buf off size w Hp Hb Hs.
  { apply wpx_ret. rewrite Nat.add_0_r. done. }
  rewrite with_commas_cons in Hs |- *. cbn [length zarray_loop].
  assert (fits t size) as Hf.
  { split; [lia|]. intros Hne. destruct t; [done|]. rewrite !length_app in Hs. simpl in Hs |- *. lia. }
  assert (forall j t, ts !! j = Some t -> forall buf off size, (off + size <= length buf)%nat -> fits t size ->
     prints_text (U:=U) (pel (S i + j)%nat buf off size) buf off size t) as Hp'.
  { intros j t' Hj. rewrite Nat.add_succ_comm. by apply (Hp (S j)). }
  apply wpx_bind. pose proof (Hp 0%nat t eq_refl) as H0. rewrite Nat.add_0_r in H0.
  eapply wpx_mono; [by apply H0|]. clear H0.
  intros [[rv b] n] w1 (-> & -> & Ht & Hi & Hq). rewrite bool_decide_false by (intros X; by apply X).
  destruct t as [|c t].
  { rewrite bool_decide_true by done. eapply wpx_mono; [apply IH; [done|by destruct Hi as [-> _]|done]|].
    intros [[rv b2] off2] w2 (-> & -> & Hpk & Hi2 & Hq2). cbn [app]. split_and!; try done;
      [by eapply inside_trans|by etrans]. }
  set (t' := c :: t) in *. rewrite bool_decide_false by done.
  rewrite !length_app in *. cbn [length] in Hs.
  apply wpx_bind. unfold usub at 1. rewrite bool_decide_true by lia. apply wpx_ret.
  rewrite bool_decide_false by lia. pose proof Hi as [Hlb _].
  apply wpx_bind, store_ok; [cbn [length]; lia|]. set (b1 := poke b (off + length t') [","%char]).
  assert (length b1 = length b) as Hlb1 by (apply length_poke; cbn [length]; lia).
  eapply wpx_mono; [apply IH; [done|lia|lia]|].
  intros [[rv b2] off2] w2 (-> & -> & Hpk & Hi2 & Hq2).
  assert (inside b b1 off size) as Hib by (apply inside_poke; cbn [length]; lia).
  split_and!; [done|cbn [length]; lia| | |by etrans].
  - rewrite <-app_assoc, <-Nat.add_assoc. apply peek_app_split; [|apply peek_app_split; [| |done]|done].
    + rewrite (inside_peek b1 b2 off (length t') (S (off + length t')) (size - length t' - 1)) by (done || lia). unfold b1.
      rewrite peek_before by (cbn [length]; lia). done.
    + change (length [","%char]) with 1%nat.
      rewrite (inside_peek b1 b2 (off + length t') 1 (S (off + length t')) (size - length t' - 1)) by (done || lia).
      apply (peek_poke b (off + length t') [","%char]). cbn [length]. lia.
    + replace (off + length t' + length [","%char])%nat with (S (off + length t')) by (cbn [length]; lia). done.
  - eapply inside_trans; [exact Hi|]. eapply inside_trans; [exact Hib|]. eapply inside_sub; [exact Hi2|lia|lia].
Qed.

(** The common end of [sprint_zarray] and [sprint_pdo_binds]. *)
Lemma zarray_tail_text pel ts buf off size :
  (forall j t, ts !! j = Some t -> forall buf off size, (off + size <= length buf)%nat -> fits t size ->
     prints_text (U:=U) (pel j buf off size) buf off size t) ->
  (off + size <= length buf)%nat -> fits (comma_list ts) size ->
  prints_text ('(rv, buf, off') ← zarray_loop pel (length ts) 0 buf off size;
    try rv else_return (rv, buf, 0%nat) ;;;
    mret (PHPSPY_OK, buf, (drop_comma buf off off' - off)%nat)) buf off size (comma_list ts).
Proof.
  intros Hp Hb [H1 H2] w. unfold comma_list in *. apply wpx_bind.
  destruct (with_commas_cases ts) as [Hc|(y & Hy & Hc)]; rewrite Hc in *.
  - eapply wpx_mono; [apply (zarray_loop_text pel ts 0); [done|done|rewrite Hc; simpl; lia]|].
    intros [[rv b] off'] w' (-> & -> & Hpk & Hi & Hq). rewrite bool_decide_false by (intros X; by apply X).
    apply wpx_ret. rewrite Hc. cbn [length removelast]. rewrite Nat.add_0_r.
    unfold drop_comma. rewrite bool_decide_false by lia. cbn [andb]. split_and!; try done. lia.
  - rewrite removelast_last in *. specialize (H2 Hy).
    eapply wpx_mono; [apply (zarray_loop_text pel ts 0); [done|done|rewrite Hc, length_app; simpl; lia]|].
    intros [[rv b] off'] w' (-> & -> & Hpk & Hi & Hq). rewrite bool_decide_false by (intros X; by apply X).
    apply wpx_ret. rewrite Hc, length_app in *. cbn [length] in *.
    assert (0 < length y)%nat by (destruct y; [done|simpl; lia]).
    assert (b !! (off + (length y + 1) - 1)%nat = Some ","%char) as Hlast.
    { apply (f_equal (lookup (length y))) in Hpk. rewrite list_lookup_middle in Hpk by done.
      unfold peek in Hpk. rewrite lookup_take_lt, lookup_drop in Hpk by lia. rewrite <-Hpk. f_equal. lia. }
    unfold drop_comma. rewrite !bool_decide_true by (done || lia). cbn [andb].
    split_and!; try done; [lia|]. apply (f_equal (take (length y))) in Hpk.
    unfold peek in Hpk |- *. rewrite take_take, take_app_length in Hpk. rewrite <-Hpk at 2. f_equal. lia.
Qed.

Lemma sprint_zarray_text pz addr (packed : bool) n hdr arr ts buf off size :
  zarr E L addr packed n hdr arr -> length ts = n ->
  (forall j t, ts !! j = Some t ->
     prints_value (if packed then sprint_zarray_packed L pz j else sprint_zarray_bucket E L pz)
       (elem arr (if packed then sz_zval L else sz_bucket L) j) t) ->
  (off + size <= length buf)%nat -> fits (comma_list ts) size ->
  prints_text (sprint_zarray E L pz addr buf off size) buf off size (comma_list ts).
Proof.
  intros (Hh & Hp & Hu & Hmax & Ha) Hts Hel Hb Hf w. unfold sprint_zarray.
  apply wpx_bind. eapply copy_proc_mem_reads_wp; [done|]. intros w1 Hq1.
  rewrite bool_decide_false by (intros X; by apply X). cbv zeta. rewrite Hp, Hu, Z.min_l by lia.
  apply wpx_bind. eapply copy_proc_mem_reads_wp; [by destruct packed|]. intros w2 Hq2.
  rewrite bool_decide_false by (intros X; by apply X). rewrite Nat2Z.id, <-Hts.
  eapply wpx_mono; [apply zarray_tail_text; [|done|done]|].
  - intros j t Hj b o s Ho Hs. specialize (Hel j t Hj). destruct packed; by apply Hel.
  - intros [[rv b] m] w' (?&?&?&?&?). split_and!; try done. by do 2 (etrans; [done|]).
Qed.

Lemma prints_value_undef_packed pz i zv :
  zv_type L zv = PHPSPY_ZVAL_TYPE_UNDEF -> prints_value (sprint_zarray_packed L pz i) zv [].
Proof.
  intros Hty buf off size _ _ w. unfold sprint_zarray_packed. unfold zv_type in Hty. rewrite Hty.
  apply wpx_ret. done.
Qed.

Lemma prints_value_undef_bucket pz bk :
  zv_type L (bucket_zval L bk) = PHPSPY_ZVAL_TYPE_UNDEF -> prints_value (sprint_zarray_bucket E L pz) bk [].
Proof.
  intros Hty buf off size _ _ w. unfold sprint_zarray_bucket. unfold zv_type, bucket_zval in Hty. cbv zeta.
  rewrite Hty. apply wpx_ret. done.
Qed.

(** [sprint_zval] prints the rendering, given enough fuel for the nesting. *)
Lemma sprint_zval_text fuel v zv :
  represents E L v zv -> (depth v <= fuel)%nat -> prints_value (sprint_zval E L fuel) zv (render v).
Proof.
  revert v zv. induction fuel as [|f IH]; intros v zv Hv Hd; [destruct v; simpl in Hd; lia|].
  intros buf off size Hb Hf. cbn [sprint_zval]. unfold sprint_zval_with. destruct v as [z|b|s|vs|kvs].
  - destruct Hv as [Hty <-]. unfold zv_type in Hty. cbv zeta. rewrite Hty. cbn [Z.eqb].
    apply snprintf_text; [apply fmt_d_nn|apply fmt_d_ne|done|done].
  - destruct Hv as [Hty <-]. unfold zv_type in Hty. cbv zeta. rewrite Hty. cbn [Z.eqb].
    apply snprintf_text; [apply fmt_f_nn|apply fmt_f_ne|done|done].
  - destruct Hv as [Hty Hz]. unfold zv_type in Hty. cbv zeta. rewrite Hty. cbn [Z.eqb].
    by apply sprint_zstring_text.
  - apply represents_packed in Hv as (Hty & hdr & arr & Hz & Hel). rewrite render_packed in Hf |- *.
    unfold zv_type in Hty. cbv zeta. rewrite Hty. cbn [Z.eqb].
    eapply sprint_zarray_text; [exact Hz|apply length_imap| |done|done]. intros j t Hj.
    rewrite list_lookup_imap in Hj. destruct (vs !! j) as [x|] eqn:Hx; [|done]. injection Hj as <-.
    specialize (Hel j x Hx). destruct x as [v|]; [|by apply prints_value_undef_packed].
    apply packed_text; [by eapply represents_type|]. apply IH; [done|].
    pose proof (depth_packed vs v (list_elem_of_lookup_2 _ _ _ Hx)). lia.
  - apply represents_hash in Hv as (Hty & hdr & arr & Hz & Hel). rewrite render_hash in Hf |- *.
    unfold zv_type in Hty. cbv zeta. rewrite Hty. cbn [Z.eqb].
    eapply sprint_zarray_text; [exact Hz|apply length_map| |done|done]. intros j t Hj.
    rewrite list_lookup_fmap in Hj. destruct (kvs !! j) as [x|] eqn:Hx; [|done]. injection Hj as <-.
    specialize (Hel j x Hx). destruct x as [[k v]|]; [|by apply prints_value_undef_bucket].
    destruct Hel as [Hk Hv]. pose proof (depth_hash kvs k v (list_elem_of_lookup_2 _ _ _ Hx)) as Hdv.
    assert (depth v <= f)%nat as Hdf by lia.
    pose proof (bucket_text (sprint_zval E L f) (elem arr (sz_bucket L) j) k (render v)
      (represents_type E L _ _ Hv) Hk (IH v _ Hv Hdf)) as Hbt. by destruct k.
Qed.

(** ** Lemmas: the collision chain *)

(** A stored key compared with a key shorter than the key buffer: truncation
    cannot make them equal. *)
Lemma key_compare key k :
  NUL ∉ key -> NUL ∉ k -> (length key < PHPSPY_STR_SIZE - 1)%nat ->
  let n := Nat.min (length k) (PHPSPY_STR_SIZE - 1) in
  strcmp_eq key (poke (poke (poke (uninit E PHPSPY_STR_SIZE) 0 [NUL]) 0 (take n k)) (0 + n) [NUL])
  = bool_decide (k = key).
Proof.
  intros Hkey Hk Hlen n. unfold strcmp_eq, PHPSPY_STR_SIZE in *.
  assert (length (take n k) = n) as Hn by (rewrite length_take; subst n; lia).
  assert (NUL ∉ take n k) as Hnn by (intros H; apply Hk; rewrite <-(take_drop n k); set_solver).
  pose proof (zstring_key (uninit E 256) (take n k) Hnn) as Hz. rewrite Hn in Hz.
  rewrite Hz by (rewrite length_uninit; subst n; lia). rewrite (cstr_id key) by done.
  apply bool_decide_ext. split; [intros ->|intros ->].
  - destruct (decide (length k <= 255)%nat); [by rewrite take_ge by lia|]. rewrite Hn in Hlen. lia.
  - by rewrite take_ge by lia.
Qed.

Lemma bucket_chain_wp fuel key arData idx c (w : world U) :
  chain E L arData idx c -> (length c < fuel)%nat -> NUL ∉ key -> (length key < PHPSPY_STR_SIZE - 1)%nat ->
  twp (bucket_chain E L fuel key arData idx) (fun r w' => r = lookup_chain key c /\ quiet w w') w.
Proof.
  intros Hc. revert fuel w. induction Hc as [|idx k bk rest Hidx Hbk Hk0 Hz Hnn Hc IH];
    intros fuel w Hf Hkey Hlen; (destruct fuel as [|f]; [simpl in Hf; lia|]); cbn [bucket_chain].
  { rewrite Z.eqb_refl. by apply wpx_ret. }
  rewrite (proj2 (Z.eqb_neq _ _)) by done. apply wpx_bind. eapply copy_proc_mem_reads_wp; [done|]. intros w1 Hq1.
  rewrite bool_decide_false by (intros X; by apply X). cbv zeta. rewrite (proj2 (Z.eqb_neq _ _)) by done.
  apply wpx_bind. eapply sprint_zstring_wp; [done|rewrite length_uninit; lia|unfold PHPSPY_STR_SIZE; lia|].
  intros w2 Hq2. cbv zeta. rewrite bool_decide_false by (intros X; by apply X).
  rewrite key_compare by done. unfold lookup_chain. cbn [List.find fst]. case_bool_decide.
  - apply wpx_ret. split; [done|by etrans].
  - eapply wpx_mono; [apply IH; [simpl in Hf; lia|done|done]|]. intros r w' [-> Hq]. split; [done|].
    by do 2 (etrans; [done|]).
Qed.

End printers.
