(* ===== verification/ZvalTheorems.v ===== *)
(** * ZvalTheorems: correctness of the hash, the hash lookup and the printers *)
From S2P Require Import Prelude CLib Layout StructsX86 Context Zval ZvalSpec.

(** ** A concrete target for the witnesses

    The PHP array [["a" => 7, 5 => "hi"]] of a PHP 8.0 process on x86-64. *)

Definition no_layout : zlayout := {|
  sz_array := 0; o_arr_flags := 0; o_arr_mask := 0; o_arr_data := 0; o_arr_used := 0; sz_eg := 0;
  o_eg_symtable := 0; o_eg_current := 0; sz_zval := 0; o_zv_value := 0; o_zv_type := 0; o_zv_next := 0;
  sz_ex := 0; o_ex_opline := 0; o_ex_func := 0; o_ex_this := 0; o_ex_prev := 0; sz_func := 0; o_fn_type := 0;
  o_fn_name := 0; o_fn_scope := 0; o_op_last_var := 0; o_op_vars := 0; o_op_filename := 0; o_op_line_start := 0;
  sz_ce := 0; o_ce_name := 0; sz_str := 0; o_str_len := 0; o_str_val := 0; sz_op := 0; o_op_lineno := 0;
  sz_sapi := 0; o_sapi_query := 0; o_sapi_cookie := 0; o_sapi_path := 0; o_sapi_uri := 0; o_sapi_time := 0;
  sz_bucket := 0; o_bk_val := 0; o_bk_key := 0; sz_ag := 0; o_ag_heap := 0; sz_heap := 0; o_heap_size := 0;
  o_heap_peak := 0; sz_obj := 0; o_obj_props := 0; sz_bp := 0; o_bp_param := 0; o_bp_paramno := 0; o_bp_name := 0;
  sz_stmt := 0; o_stmt_params := 0; o_stmt_std := 0; frame_slot := 0 |}.

Definition layout_80 : zlayout := default no_layout (mk_layout php_structs_80_x86 80).

Definition enc (n : nat) (z : Z) : bytes :=
  map (fun i => ascii_of_N (Z.to_N (Z.shiftr z (8 * Z.of_nat i) mod 256))) (seq 0 n).

(** An object of [size] bytes with the given fields, zero elsewhere. *)
Definition build (size : Z) (fs : list (Z * bytes)) : bytes :=
  foldl (fun m f => poke m (Z.to_nat (fst f)) (snd f)) (repeat NUL (Z.to_nat size)) fs.

Definition mem_zval (type value next : Z) : bytes :=
  build (sz_zval layout_80) [(o_zv_value layout_80, enc 8 value); (o_zv_type layout_80, enc 1 type);
    (o_zv_next layout_80, enc 4 next)].
Definition mem_string (s : bytes) : bytes :=
  build (o_str_val layout_80) [(o_str_len layout_80, enc 8 (Z.of_nat (length s)))] ++ s ++ repeat NUL 8.
Definition mem_bucket (zv : bytes) (key : Z) : bytes :=
  build (sz_bucket layout_80) [(o_bk_val layout_80, zv); (o_bk_key layout_80, enc 8 key)].
Definition mem_array (flags mask data used : Z) : bytes :=
  build (sz_array layout_80) [(o_arr_flags layout_80, enc 1 flags); (o_arr_mask layout_80, enc 4 mask);
    (o_arr_data layout_80, enc 8 data); (o_arr_used layout_80, enc 4 used)].

Definition demo_bucket : bytes := mem_bucket (mem_zval 4 7 (2 ^ 32 - 1)) 12288.
Definition demo_image : list (Z * bytes) := [
  (4096, mem_array 0 (2 ^ 32 - 2) 8192 2);
  (8184, enc 4 0 ++ enc 4 (2 ^ 32 - 1) ++ demo_bucket ++ mem_bucket (mem_zval 6 16384 (2 ^ 32 - 1)) 0);
  (12288, mem_string (cs "a")); (16384, mem_string (cs "hi"))].
Definition demo_env : target_env := image_env demo_image.
Definition demo_val : pval := VHash [Some (Some (cs "a"), VLong 7); Some (None, VString (cs "hi"))].

(** An array at 4096 whose only element, without a key, is itself. *)
Definition loop_image : list (Z * bytes) := [
  (4096, mem_array 0 (2 ^ 32 - 2) 8192 1); (8192, mem_bucket (mem_zval 7 4096 (2 ^ 32 - 1)) 0)].

Definition null_ctx : trace_context := {|
  c_target := {| t_pid := 1; t_executor_globals_addr := 0; t_sapi_globals_addr := 0; t_alloc_globals_addr := 0;
                 t_basic_functions_module_addr := 0 |};
  c_frame := {| f_loc := {| l_func := repeat NUL 256; l_class := repeat NUL 256; l_file := repeat NUL 256;
     l_func_len := 0; l_class_len := 0; l_file_len := 0; l_lineno := 0 |}; f_depth := 0 |};
  c_request := {| r_uri := repeat NUL 256; r_path := repeat NUL 256; r_qstring := repeat NUL 256;
     r_cookie := repeat NUL 256; r_ts := 0 |};
  c_buf := repeat NUL 256; c_buf_len := 0; c_stack_ptrs := [] |}.
Definition null_world : world unit := {| w_reads := 0; w_ctx := null_ctx; w_udata := tt; w_events := [] |}.

(** ** Lemmas *)

Lemma zend_poly_fold E s h h' :
  h mod 2 ^ 64 = h' mod 2 ^ 64 ->
  fold_left (hash_step E) s h mod 2 ^ 64 = fold_left (fun h c => h * 33 + char_val E c) s h' mod 2 ^ 64.
Proof.
  revert h h'. induction s as [|c s IH]; intros h h' Hh; [done|]. simpl. apply IH.
  rewrite hash_step_poly, Z.mod_mod by lia.
  rewrite (Zplus_mod (h * 33)), (Zplus_mod (h' * 33)), (Zmult_mod h), (Zmult_mod h'). by rewrite Hh.
Qed.

Lemma image_reads img a n bs :
  image_read img a n = VmData bs -> a <> 0 -> Z.of_nat (length bs) = n -> reads_as (image_env img) a n bs.
Proof. by intros. Qed.

(** Evaluates a read of a concrete image. *)
Ltac solve_read := apply image_reads; [vm_compute; reflexivity|vm_compute; discriminate|vm_compute; reflexivity].

Lemma demo_zstr_a : zstr demo_env layout_80 12288 (cs "a").
Proof.
  eexists. split_and!; [solve_read|by vm_compute|]. intros n Hn.
  do 2 (destruct n as [|n]; [solve_read|]). simpl in Hn. lia.
Qed.

Lemma demo_zstr_hi : zstr demo_env layout_80 16384 (cs "hi").
Proof.
  eexists. split_and!; [solve_read|by vm_compute|]. intros n Hn.
  do 3 (destruct n as [|n]; [solve_read|]). simpl in Hn. lia.
Qed.

Lemma demo_represents : represents demo_env layout_80 demo_val (mem_zval 7 4096 0).
Proof.
  split; [by vm_compute|]. eexists _, _. split.
  - split_and!; [solve_read|by vm_compute|by vm_compute|by vm_compute|solve_read].
  - split; [|split; [|split; [|split; [|done]]]].
    + split_and!; [by vm_compute|exact demo_zstr_a|by apply (bool_decide_unpack _)|apply (bool_decide_unpack _); by vm_compute].
    + split; by vm_compute.
    + by vm_compute.
    + split; [by vm_compute|exact demo_zstr_hi].
Qed.

Lemma demo_chain : chain demo_env layout_80 8192 0 [(cs "a", demo_bucket)].
Proof.
  apply Chain_cons; [done|solve_read|by vm_compute|exact demo_zstr_a|by apply (bool_decide_unpack _)|].
  replace (rd32 _ _) with (2 ^ 32 - 1) by by vm_compute. constructor.
Qed.

(** The part of the lookup in front of the chain. *)
Lemma slot_wp {U} E L fuel addr hdr slot key (Q : Z * bytes -> world U -> Prop) w :
  reads_as E addr (sz_array L) hdr -> 0 < u32 (- s32 (rd32 hdr (o_arr_mask L))) ->
  NUL ∉ key -> reads_as E (slot_addr E L hdr key) 4 slot ->
  (forall w', quiet w w' -> twp (bucket_chain E L fuel key (rd64 hdr (o_arr_data L)) (le slot)) Q w') ->
  twp (copy_zarray_bucket E L fuel addr key) Q w.
Proof.
  intros Hh Hpos Hkey Hslot HQ.
  unfold copy_zarray_bucket. apply wpx_bind. eapply copy_proc_mem_reads_wp; [done|]. intros w1 Hq1.
  rewrite bool_decide_false by (intros X; by apply X). cbv zeta. rewrite (cstr_id key) by done.
  rewrite (proj2 (Z.eqb_neq _ _)) by lia. set (size := u32 (- s32 _)) in *.
  assert (0 <= phpspy_zend_inline_hash_func E key (length key) mod size < 2 ^ 32) as Hm.
  { pose proof (Z.mod_pos_bound (phpspy_zend_inline_hash_func E key (length key)) size Hpos).
    pose proof (wrap_range 32 (- s32 (rd32 hdr (o_arr_mask L))) ltac:(lia)). fold size in H0. lia. }
  rewrite (wrap_small 32 _ Hm). apply wpx_bind. eapply copy_proc_mem_reads_wp; [exact Hslot|]. intros w2 Hq2.
  rewrite bool_decide_false by (intros X; by apply X). apply HQ. by etrans.
Qed.

(** ** Theorems *)

(** C22. The unrolled hash loop computes the Zend polynomial: the DJB hash
    [5381 * 33^n + ...] of the first [len] bytes, reduced to 64 bits, with the
    top bit set. *)
Theorem zend_hash_spec E str len :
  phpspy_zend_inline_hash_func E str len = Z.lor (zend_poly E (take len str) mod 2 ^ 64) (2 ^ 63).
Proof.
  unfold phpspy_zend_inline_hash_func. rewrite hash_loop_fold. f_equal.
  rewrite <-(Z.mod_small (fold_left _ _ _) (2 ^ 64)) by (by apply hash_fold_range).
  by apply zend_poly_fold.
Qed.

(** C13. Memory safety of the value printers against any target: whatever
    [process_vm_readv] returns, and even if memory changes between reads,
    [sprint_zval] never writes outside its window of the caller's buffer, never
    reads an unterminated local string, and prints less than the window holds
    when it succeeds.  It touches neither the context nor the handler. *)
Theorem sprint_zval_memory_safe {U} E L fuel zv buf off size (w : world U) :
  (off + size <= length buf)%nat -> (1 <= size)%nat ->
  match sprint_zval E L fuel zv buf off size w with
  | Done (rv, buf', n, w') =>
    length buf' = length buf /\ (forall i, (i < off \/ off + size <= i)%nat -> buf' !! i = buf !! i)
    /\ (rv = PHPSPY_OK -> (n < size)%nat)
    /\ w_ctx w' = w_ctx w /\ w_udata w' = w_udata w /\ w_events w' = w_events w
  | Fault _ => False
  | Diverge => True
  end.
Proof.
  intros Hb Hs. pose proof (sprint_zval_safe E L fuel zv buf off size Hb Hs w) as H. unfold wpx in H.
  destruct (sprint_zval E L fuel zv buf off size w) as [[[[rv b] n] w']| |]; [|done|done].
  destruct H as ([? ?] & _ & ? & (? & ? & ?)). done.
Qed.

(** The same for the bound parameters of a PDO statement. *)
Theorem sprint_pdo_binds_memory_safe {U} E L fuel rht buf off size (w : world U) :
  (off + size <= length buf)%nat -> (1 <= size)%nat ->
  match sprint_pdo_binds E L fuel rht buf off size w with
  | Done (rv, buf', n, w') =>
    length buf' = length buf /\ (forall i, (i < off \/ off + size <= i)%nat -> buf' !! i = buf !! i)
    /\ (rv = PHPSPY_OK -> (n < size)%nat)
    /\ w_ctx w' = w_ctx w /\ w_udata w' = w_udata w /\ w_events w' = w_events w
  | Fault _ => False
  | Diverge => True
  end.
Proof.
  intros Hb Hs. pose proof (sprint_pdo_binds_prints E L fuel rht buf off size Hb Hs w) as H. unfold wpx in H.
  destruct (sprint_pdo_binds E L fuel rht buf off size w) as [[[[rv b] n] w']| |]; [|done|done].
  destruct H as ([? ?] & _ & ? & (? & ? & ?)). done.
Qed.

(** C12. On memory that is stable, [sprint_zval] returns and prints exactly
    the rendering of the value (numbers in decimal, strings raw, arrays as
    comma-separated [key=value] pairs, unused slots left out), when the fuel
    covers the nesting of arrays and the text fits the buffer with two bytes to
    spare. *)
Theorem sprint_zval_renders {U} E L fuel v zv buf off size (w : world U) :
  represents E L v zv -> (depth v <= fuel)%nat ->
  (off + size <= length buf)%nat -> (length (render v) + 1 < size)%nat ->
  exists buf' w', sprint_zval E L fuel zv buf off size w = Done (PHPSPY_OK, buf', length (render v), w')
    /\ peek buf' off (length (render v)) = render v
    /\ length buf' = length buf /\ (forall i, (i < off \/ off + size <= i)%nat -> buf' !! i = buf !! i).
Proof.
  intros Hv Hd Hb Hf.
  destruct (twp_done _ _ _ (sprint_zval_text E L fuel v zv Hv Hd buf off size Hb ltac:(split; lia) w))
    as ([[rv b] n] & w' & Hrun & -> & -> & Ht & [Hl Ho] & _).
  exists b, w'. done.
Qed.

(** C14. Hash lookup: if the slot of the key leads to a chain of string-keyed
    buckets that ends, [copy_zarray_bucket] returns the first bucket with that
    key, and an error if there is none.  The walk takes one step per bucket. *)
Theorem copy_zarray_bucket_finds {U} E L fuel addr hdr slot key c (w : world U) :
  reads_as E addr (sz_array L) hdr -> 0 < u32 (- s32 (rd32 hdr (o_arr_mask L))) ->
  NUL ∉ key -> (length key < PHPSPY_STR_SIZE - 1)%nat ->
  reads_as E (slot_addr E L hdr key) 4 slot ->
  chain E L (rd64 hdr (o_arr_data L)) (le slot) c -> (length c < fuel)%nat ->
  exists w', copy_zarray_bucket E L fuel addr key w = Done (lookup_chain key c, w') /\ quiet w w'.
Proof.
  intros Hh Hpos Hkey Hlen Hslot Hc Hf.
  assert (twp (copy_zarray_bucket E L fuel addr key) (fun r w' => r = lookup_chain key c /\ quiet w w') w) as Hw.
  { eapply slot_wp; [done..|]. intros w1 Hq1.
    eapply wpx_mono; [by eapply bucket_chain_wp|]. intros r w' [-> Hq]. split; [done|]. by etrans. }
  destruct (twp_done _ _ _ Hw) as (r & w' & Hrun & -> & Hq). by exists w'.
Qed.

(** A bucket with an integer key (a NULL key pointer) ends the walk as
    if it matched: the lookup of any string key whose chain starts with such a
    bucket succeeds with that bucket. *)
Theorem copy_zarray_bucket_int_key {U} E L fuel addr hdr slot key bk (w : world U) :
  reads_as E addr (sz_array L) hdr -> 0 < u32 (- s32 (rd32 hdr (o_arr_mask L))) ->
  NUL ∉ key -> reads_as E (slot_addr E L hdr key) 4 slot -> le slot <> 2 ^ 32 - 1 ->
  reads_as E (padd (rd64 hdr (o_arr_data L)) (sz_bucket L * le slot)) (sz_bucket L) bk ->
  rd64 bk (o_bk_key L) = 0 ->
  exists w', copy_zarray_bucket E L (S fuel) addr key w = Done (PHPSPY_OK, bk, w').
Proof.
  intros Hh Hpos Hkey Hslot Hidx Hbk Hk0.
  assert (twp (copy_zarray_bucket E L (S fuel) addr key) (fun r w' => r = (PHPSPY_OK, bk)) w) as Hw.
  { eapply slot_wp; [done..|]. intros w1 Hq1. cbn [bucket_chain].
    rewrite (proj2 (Z.eqb_neq _ _)) by done. apply wpx_bind. eapply copy_proc_mem_reads_wp; [done|]. intros w3 Hq3.
    rewrite bool_decide_false by (intros X; by apply X). cbv zeta. rewrite Hk0. by apply wpx_ret. }
  destruct (twp_done _ _ _ Hw) as (r & w' & Hrun & ->). by exists w'.
Qed.

(** A table mask of zero, which a racing or corrupt read may yield, makes
    the lookup divide by zero. *)
Theorem copy_zarray_bucket_zero_mask {U} E L fuel addr hdr key (w : world U) :
  reads_as E addr (sz_array L) hdr -> rd32 hdr (o_arr_mask L) = 0 ->
  copy_zarray_bucket E L fuel addr key w = Fault DivByZero.
Proof.
  intros Hh Hm. destruct (copy_proc_mem_reads E addr (sz_array L) hdr w Hh) as (w' & Hr & _).
  unfold copy_zarray_bucket, mbind, M_bind. rewrite Hr. by rewrite Hm.
Qed.

(** The nesting of printed arrays is not bounded: on an array whose
    element is, without a string key, the array itself, no amount of fuel lets
    [sprint_zval] return, so the C recursion exhausts the stack. *)
Theorem sprint_zval_unbounded {U} E L addr hdr bk fuel zv buf off size (w : world U) :
  zarr E L addr false 1 hdr bk -> 0 < sz_bucket L ->
  rd64 bk (o_bk_key L) = 0 -> bucket_zval L bk = zv ->
  zv_type L zv = PHPSPY_ZVAL_TYPE_ARRAY -> rd64 zv (o_zv_value L) = addr ->
  sprint_zval E L fuel zv buf off size w = Diverge.
Proof.
  intros (Hh & Hp & Hu & Hmax & Ha) Hsz Hk Hzv Hty Hval. revert buf off size w.
  induction fuel as [|f IH]; intros buf off size w; [done|].
  cbn [sprint_zval]. unfold sprint_zval_with. cbv zeta. unfold zv_type in Hty. rewrite Hty, Hval.
  change (sprint_zarray E L (sprint_zval E L f) addr buf off size w = Diverge). unfold sprint_zarray. destruct (copy_proc_mem_reads E addr (sz_array L) hdr w Hh) as (w1 & H1 & _).
  destruct (copy_proc_mem_reads E _ _ bk w1 Ha) as (w2 & H2 & _).
  rewrite (bind_done _ _ _ _ _ H1). cbv zeta. rewrite Hp, Hu, Z.min_l by lia.
  rewrite bool_decide_false by (intros X; by apply X). rewrite (bind_done _ _ _ _ _ H2).
  rewrite bool_decide_false by (intros X; by apply X). apply bind_diverge.
  change (Z.to_nat (Z.of_nat 1)) with 1%nat. cbn [zarray_loop]. apply bind_diverge.
  destruct Ha as (_ & Hla & _). assert (elem bk (sz_bucket L) 0 = bk) as ->.
  { unfold elem, peek. rewrite Nat.mul_0_l, drop_0, take_ge by lia. done. }
  unfold sprint_zarray_bucket. fold (bucket_zval L bk). cbv zeta. rewrite Hzv, Hty, Hk.
  by apply bind_diverge.
Qed.

(** ** Witnesses *)

Definition out_buf : bytes := repeat "."%char 32.

Lemma sprint_zval_memory_safe_witness :
  match sprint_zval demo_env layout_80 3 (mem_zval 7 4096 0) out_buf 4%nat 20%nat null_world with
  | Done (rv, buf', n, w') =>
    length buf' = length out_buf /\ (forall i, (i < 4 \/ 4 + 20 <= i)%nat -> buf' !! i = out_buf !! i)
    /\ (rv = PHPSPY_OK -> (n < 20)%nat)
    /\ w_ctx w' = null_ctx /\ w_udata w' = tt /\ w_events w' = []
  | Fault _ => False
  | Diverge => True
  end.
Proof.
  apply (sprint_zval_memory_safe demo_env layout_80 3 (mem_zval 7 4096 0) out_buf 4%nat 20%nat null_world);
    apply (bool_decide_unpack _); vm_compute; exact I.
Defined.

Lemma sprint_pdo_binds_memory_safe_witness :
  match sprint_pdo_binds demo_env layout_80 3 4096 out_buf 4%nat 20%nat null_world with
  | Done (rv, buf', n, w') =>
    length buf' = length out_buf /\ (forall i, (i < 4 \/ 4 + 20 <= i)%nat -> buf' !! i = out_buf !! i)
    /\ (rv = PHPSPY_OK -> (n < 20)%nat)
    /\ w_ctx w' = null_ctx /\ w_udata w' = tt /\ w_events w' = []
  | Fault _ => False
  | Diverge => True
  end.
Proof.
  apply (sprint_pdo_binds_memory_safe demo_env layout_80 3 4096 out_buf 4%nat 20%nat null_world);
    apply (bool_decide_unpack _); vm_compute; exact I.
Defined.

Lemma sprint_zval_renders_witness : exists buf' w',
  sprint_zval demo_env layout_80 2 (mem_zval 7 4096 0) out_buf 4%nat 20%nat null_world = Done (PHPSPY_OK, buf', 6%nat, w')
  /\ peek buf' 4 6 = cs "a=7,hi" /\ length buf' = 32%nat
  /\ (forall i, (i < 4 \/ 4 + 20 <= i)%nat -> buf' !! i = out_buf !! i).
Proof.
  apply (sprint_zval_renders demo_env layout_80 2 demo_val (mem_zval 7 4096 0) out_buf 4%nat 20%nat null_world demo_represents);
    apply (bool_decide_unpack _); vm_compute; exact I.
Defined.

Lemma copy_zarray_bucket_finds_witness : exists w',
  copy_zarray_bucket demo_env layout_80 2 4096 (cs "a") null_world = Done (PHPSPY_OK, demo_bucket, w')
  /\ quiet null_world w'.
Proof.
  apply (copy_zarray_bucket_finds demo_env layout_80 2 4096 (mem_array 0 (2 ^ 32 - 2) 8192 2) (enc 4 0) (cs "a")
    [(cs "a", demo_bucket)] null_world).
  - solve_read.
  - by vm_compute.
  - by apply (bool_decide_unpack _).
  - apply (bool_decide_unpack _). by vm_compute.
  - solve_read.
  - exact demo_chain.
  - simpl. lia.
Defined.

(** The same array with the slot leading to the bucket of the integer key. *)
Definition int_key_image : list (Z * bytes) := [
  (4096, mem_array 0 (2 ^ 32 - 2) 8192 1);
  (8184, enc 4 0 ++ enc 4 (2 ^ 32 - 1) ++ mem_bucket (mem_zval 4 7 (2 ^ 32 - 1)) 0)].

Lemma copy_zarray_bucket_int_key_witness : exists w',
  copy_zarray_bucket (image_env int_key_image) layout_80 1 4096 (cs "a") null_world
    = Done (PHPSPY_OK, mem_bucket (mem_zval 4 7 (2 ^ 32 - 1)) 0, w').
Proof.
  apply (copy_zarray_bucket_int_key (image_env int_key_image) layout_80 0 4096 (mem_array 0 (2 ^ 32 - 2) 8192 1)
    (enc 4 0) (cs "a") (mem_bucket (mem_zval 4 7 (2 ^ 32 - 1)) 0) null_world).
  - solve_read.
  - by vm_compute.
  - by apply (bool_decide_unpack _).
  - solve_read.
  - by vm_compute.
  - solve_read.
  - by vm_compute.
Defined.

Lemma copy_zarray_bucket_zero_mask_witness :
  copy_zarray_bucket (image_env [(4096, mem_array 0 0 8192 0)]) layout_80 9 4096 (cs "a") null_world = Fault DivByZero.
Proof.
  apply (copy_zarray_bucket_zero_mask (image_env [(4096, mem_array 0 0 8192 0)]) layout_80 9 4096
    (mem_array 0 0 8192 0) (cs "a") null_world); [solve_read|by vm_compute].
Defined.

Lemma sprint_zval_unbounded_witness :
  sprint_zval (image_env loop_image) layout_80 50 (mem_zval 7 4096 (2 ^ 32 - 1)) out_buf 0%nat 32%nat null_world = Diverge.
Proof.
  apply (sprint_zval_unbounded (image_env loop_image) layout_80 4096 (mem_array 0 (2 ^ 32 - 2) 8192 1)
    (mem_bucket (mem_zval 7 4096 (2 ^ 32 - 1)) 0) 50 (mem_zval 7 4096 (2 ^ 32 - 1)) out_buf 0%nat 32%nat null_world);
    [split_and!; [solve_read|by vm_compute|by vm_compute|by vm_compute|solve_read]|by vm_compute..].
Defined.
