(* ===== verification/Trace.v ===== *)
(** * Trace: taking one sample (phpspy_trace.c)

    [do_trace] and the functions it calls, over an arbitrary event handler, an
    arbitrary target and an arbitrary structure layout (the C file is compiled
    once per PHP version, with the layout of that version).  [fuel] bounds the
    nesting of printed arrays and the length of a collision chain; the stack
    walks need none beyond [PHPSPY_MAX_STACK_WALK]. *)
From S2P Require Import Prelude CLib Layout Context Zval.

Section trace.
Context {U : Type} `{EH : !EventHandler U}.
Context (E : target_env) (L : zlayout) (o : options) (fuel : nat).
Abbreviation W := (world U).

(** ** The frame under construction, [context->event.frame] *)

Definition set_loc (f : trace_loc -> trace_loc) : M W unit :=
  modify (with_ctx (fun c =>
    set_frame {| f_loc := f (f_loc (c_frame c)); f_depth := f_depth (c_frame c) |} c)).

Definition set_func (b : bytes) (n : Z) (l : trace_loc) : trace_loc :=
  {| l_func := b; l_class := l_class l; l_file := l_file l; l_func_len := n;
     l_class_len := l_class_len l; l_file_len := l_file_len l; l_lineno := l_lineno l |}.
Definition set_class (b : bytes) (n : Z) (l : trace_loc) : trace_loc :=
  {| l_func := l_func l; l_class := b; l_file := l_file l; l_func_len := l_func_len l;
     l_class_len := n; l_file_len := l_file_len l; l_lineno := l_lineno l |}.
Definition set_file (b : bytes) (n : Z) (l : trace_loc) : trace_loc :=
  {| l_func := l_func l; l_class := l_class l; l_file := b; l_func_len := l_func_len l;
     l_class_len := l_class_len l; l_file_len := n; l_lineno := l_lineno l |}.
Definition set_lineno (n : Z) (l : trace_loc) : trace_loc :=
  {| l_func := l_func l; l_class := l_class l; l_file := l_file l; l_func_len := l_func_len l;
     l_class_len := l_class_len l; l_file_len := l_file_len l; l_lineno := n |}.
Definition set_depth (d : Z) : M W unit :=
  modify (with_ctx (fun c => set_frame {| f_loc := f_loc (c_frame c); f_depth := d |} c)).

Definition cur_loc : M W trace_loc := fun w => Done (f_loc (c_frame (w_ctx w)), w).
Definition cur_frame : M W trace_frame := fun w => Done (c_frame (w_ctx w), w).

(** [field_len = snprintf(field, sizeof(field), text)] for a short literal. *)
Definition put_text (buf : bytes) (s : bytes) : M W bytes := snprintf buf 0 PHPSPY_STR_SIZE s.

(** The function name, [<main>] without one (112-116). *)
Definition emit_func (zfunc : bytes) : M W Z :=
  l ← cur_loc;
  let name := rd64 zfunc (o_fn_name L) in
  if name =? 0 then
    b ← put_text (l_func l) (cs "<main>");
    set_loc (set_func b 6);; mret PHPSPY_OK
  else
    '(rv, b, n) ← sprint_zstring E L name (l_func l) 0 PHPSPY_STR_SIZE;
    set_loc (set_func b (Z.of_nat n));; mret rv.

(** The class name, empty without a scope (117-123). *)
Definition emit_class (zfunc : bytes) : M W Z :=
  l ← cur_loc;
  let scope := rd64 zfunc (o_fn_scope L) in
  if scope =? 0 then
    b ← store (l_class l) 0 [NUL];
    set_loc (set_class b 0);; mret PHPSPY_OK
  else
    '(rv, zce) ← copy_proc_mem E scope (sz_ce L);
    try rv else_return rv ;;;
    '(rv, b, n) ← sprint_zstring E L (rd64 zce (o_ce_name L)) (l_class l) 0 PHPSPY_STR_SIZE;
    set_loc (set_class b (Z.of_nat n));; mret rv.

(** ** Local variables *)

Definition find_varpeek (key : bytes) : option varpeek_entry :=
  List.find (fun e => bool_decide (ve_filename_lineno e = key)) (varpeek_map o).

Fixpoint locals_loop (k i : nat) (entry : varpeek_entry) (remote vars : Z) (found : nat) (tmp : bytes)
    : M W Z :=
  match k with
  | O => mret PHPSPY_OK
  | S k' =>
    '(rv, zstrp) ← copy_proc_mem E (padd vars (8 * Z.of_nat i)) 8;
    try rv else_return rv ;;;
    '(rv, tmp, tmp_len) ← sprint_zstring E L (le zstrp) tmp 0 PHPSPY_STR_SIZE;
    try rv else_return rv ;;;
    let var := take tmp_len tmp in
    if negb (bool_decide (var ∈ ve_varmap entry))
    then locals_loop k' (S i) entry remote vars found tmp else
    '(rv, zv) ← copy_proc_mem E (padd remote (sz_zval L * s32 (frame_slot L + Z.of_nat i))) (sz_zval L);
    try rv else_return rv ;;;
    '(rv, tmp, tmp_len) ← sprint_zval E L fuel zv tmp 0%nat PHPSPY_STR_SIZE;
    try rv else_return rv ;;;
    rv ← emit (EvVarpeek (ve_filename_lineno entry) var tmp (Z.of_nat tmp_len));
    try rv else_return rv ;;;
    if bool_decide (length (ve_varmap entry) <= S found)%nat then mret PHPSPY_OK
    else locals_loop k' (S i) entry remote vars (S found) tmp
  end.

Definition trace_locals (zop_lineno remote : Z) (op_array file : bytes) (file_len : Z) : M W Z :=
  let varpeek_key := snprintf_cstr PHPSPY_STR_SIZE
    (fmt_prec file_len file ++ ":"%char :: fmt_d (s32 zop_lineno)) in
  match find_varpeek varpeek_key with
  | None => mret PHPSPY_OK
  | Some entry =>
    locals_loop (Z.to_nat (s32 (rd32 op_array (o_op_last_var L)))) 0 entry remote
      (rd64 op_array (o_op_vars L)) 0 (uninit E PHPSPY_STR_SIZE)
  end.

(** File and line of the frame, [<internal>:-1] for an internal function
    (124-136). *)
Definition emit_file (zfunc : bytes) (remote opline : Z) : M W Z :=
  l ← cur_loc;
  if rd8 zfunc (o_fn_type L) =? 2 then
    '(rv, b, n) ← sprint_zstring E L (rd64 zfunc (o_op_filename L)) (l_file l) 0 PHPSPY_STR_SIZE;
    set_loc (set_file b (Z.of_nat n));;
    try rv else_return rv ;;;
    set_loc (set_lineno (s32 (rd32 zfunc (o_op_line_start L))));;
    '(rv, zop) ← copy_proc_mem E opline (sz_op L);
    if bool_decide (rv <> PHPSPY_OK) then mret PHPSPY_OK else
    let lineno := rd32 zop (o_op_lineno L) in
    set_loc (set_lineno (s32 lineno));;
    if bool_decide (varpeek_map o = []) then mret PHPSPY_OK else
    trace_locals lineno remote zfunc b (Z.of_nat n);; mret PHPSPY_OK
  else
    b ← put_text (l_file l) (cs "<internal>");
    set_loc (set_file b 10);;
    set_loc (set_lineno (-1));;
    mret PHPSPY_OK.

(** ** PDO *)

(** Prints and, when something was printed, sends a [#pdo_args] event
    (421-428, 435-442). *)
Definition pdo_args (entry : bytes) (r : Z * bytes * nat) : M W Z :=
  let '(rv, buf, buf_len) := r in
  if bool_decide (rv = PHPSPY_OK) && bool_decide (0 < buf_len)%nat then
    rv ← emit (EvVarpeek entry (cs "#pdo_args") buf (Z.of_nat buf_len));
    try rv else_return rv ;;;
    mret 1
  else mret 1.

(** The arguments of [execute], or else the bound parameters (418-443). *)
Definition pdo_execute_args (entry this : bytes) (remote robj : Z) (buf : bytes) : M W Z :=
  if 0 <? rd32 this (o_zv_next L) then
    '(rv, first_arg) ← copy_proc_mem E (padd remote (sz_zval L * 5)) (sz_zval L);
    try rv else_return rv ;;;
    if rd8 first_arg (o_zv_type L) =? PHPSPY_ZVAL_TYPE_ARRAY then
      r ← sprint_zarray E L (sprint_zval E L fuel) (rd64 first_arg (o_zv_value L)) buf 0 PHPSPY_STR_SIZE;
      pdo_args entry r
    else mret 1
  else
    '(rv, lstmt) ← copy_proc_mem E (padd robj (- o_stmt_std L)) (sz_stmt L);
    try rv else_return rv ;;;
    let params := rd64 lstmt (o_stmt_params L) in
    if params =? 0 then mret 1 else
    r ← sprint_pdo_binds E L fuel params buf 0 PHPSPY_STR_SIZE;
    pdo_args entry r.

(** [PDOStatement::execute] (398-444). *)
Definition trace_pdo_execute (entry ex : bytes) (remote : Z) : M W Z :=
  let this := peek ex (Z.to_nat (o_ex_this L)) (Z.to_nat (sz_zval L)) in
  let robj := rd64 this (o_zv_value L) in
  if negb (rd8 this (o_zv_type L) =? PHPSPY_ZVAL_TYPE_OBJECT) then mret 1 else
  if robj =? 0 then mret 1 else
  '(rv, lobj) ← copy_proc_mem E robj (sz_obj L);
  try rv else_return rv ;;;
  let prop := peek lobj (Z.to_nat (o_obj_props L)) (Z.to_nat (sz_zval L)) in
  '(rv, buf) ←
    (if rd8 prop (o_zv_type L) =? PHPSPY_ZVAL_TYPE_STRING then
       '(rv, buf, n) ← sprint_zstring E L (rd64 prop (o_zv_value L)) (uninit E PHPSPY_STR_SIZE)
                         0 PHPSPY_STR_SIZE;
       try rv else_return (rv, buf) ;;;
       rv ← emit (EvVarpeek entry (cs "#pdo_sql") buf (Z.of_nat n));
       mret (rv, buf)
     else mret (PHPSPY_OK, uninit E PHPSPY_STR_SIZE));
  try rv else_return rv ;;;
  pdo_execute_args entry this remote robj buf.

(** [PDO::query], [PDO::exec] (446-459). *)
Definition trace_pdo_query (entry ex : bytes) (remote : Z) : M W Z :=
  let this := peek ex (Z.to_nat (o_ex_this L)) (Z.to_nat (sz_zval L)) in
  let num_args := rd32 this (o_zv_next L) in
  if num_args <? 1 then mret 1 else
  '(rv, first_arg) ← copy_proc_mem E (padd remote (sz_zval L * 5)) (sz_zval L);
  try rv else_return rv ;;;
  if rd8 first_arg (o_zv_type L) =? PHPSPY_ZVAL_TYPE_STRING then
    '(rv, buf, n) ← sprint_zstring E L (rd64 first_arg (o_zv_value L)) (uninit E PHPSPY_STR_SIZE)
                      0 PHPSPY_STR_SIZE;
    try rv else_return rv ;;;
    rv ← emit (EvVarpeek entry (cs "#pdo_sql") buf (Z.of_nat n));
    try rv else_return rv ;;;
    mret 1
  else mret 1.

Definition trace_pdo (remote : Z) (ex : bytes) (frame : trace_frame) : M W Z :=
  let class := cstr (l_class (f_loc frame)) in
  let func := cstr (l_func (f_loc frame)) in
  let is_stmt_execute := bool_decide (class = cs "PDOStatement") && bool_decide (func = cs "execute") in
  let is_pdo_query_or_exec :=
    bool_decide (class = cs "PDO") && (bool_decide (func = cs "query") || bool_decide (func = cs "exec")) in
  if negb is_stmt_execute && negb is_pdo_query_or_exec then mret 0 else
  let entry := snprintf_cstr PHPSPY_STR_SIZE (take 96 class ++ cs "::" ++ take 96 func) in
  if is_stmt_execute then trace_pdo_execute entry ex remote
  else trace_pdo_query entry ex remote.

(** ** The stack *)

(** Sends the frame at [remote]; returns the code and the caller's frame
    pointer. *)
Definition stack_emit_frame (remote depth : Z) : M W (Z * Z) :=
  '(rv, ex) ← copy_proc_mem E remote (sz_ex L);
  try rv else_return (rv, 0) ;;;
  '(rv, zfunc) ← copy_proc_mem E (rd64 ex (o_ex_func L)) (sz_func L);
  try rv else_return (rv, 0) ;;;
  rv ← emit_func zfunc;
  try rv else_return (rv, 0) ;;;
  rv ← emit_class zfunc;
  try rv else_return (rv, 0) ;;;
  rv ← emit_file zfunc remote (rd64 ex (o_ex_opline L));
  try rv else_return (rv, 0) ;;;
  set_depth depth;;
  frame ← cur_frame;
  rv ← emit (EvFrame frame);
  try rv else_return (rv, 0) ;;;
  (if opt_peek_pdo o then trace_pdo remote ex frame else mret 0);;
  mret (PHPSPY_OK, rd64 ex (o_ex_prev L)).

Fixpoint collect_loop (n : nat) (remote : Z) : M W Z :=
  match n with
  | O => diverge
  | S n' =>
    if remote =? 0 then mret PHPSPY_OK else
    w ← get;
    if PHPSPY_MAX_STACK_WALK <=? Z.of_nat (length (c_stack_ptrs (w_ctx w))) then mret PHPSPY_OK else
    modify (with_ctx (fun c => set_stack (c_stack_ptrs c ++ [remote]) c));;
    '(rv, next) ← copy_proc_mem E (padd remote (o_ex_prev L)) 8;
    try rv else_return rv ;;;
    collect_loop n' (le next)
  end.

Definition WALK_FUEL : nat := S (S (Z.to_nat PHPSPY_MAX_STACK_WALK)).

Definition stack_collect (remote : Z) : M W Z :=
  modify (with_ctx (set_stack []));;
  collect_loop WALK_FUEL remote.

(** The marker frame for [num_elided] elided frames (168-174). *)
Definition emit_elided (num_elided i : Z) : M W Z :=
  l ← cur_loc;
  let s := cs "<elided:" ++ fmt_d num_elided ++ cs ">" in
  b ← put_text (l_func l) s;
  set_loc (set_func b (Z.of_nat (length s)));;
  b ← store (l_class l) 0 [NUL];
  set_loc (set_class b 0);;
  b ← put_text (l_file l) (cs "<elided>");
  set_loc (set_file b 8);;
  set_loc (set_lineno (-1));;
  set_depth i;;
  frame ← cur_frame;
  emit (EvFrame frame).

(** The [for] loop over the collected frames, [k] of them left. *)
Fixpoint outer_loop (k : nat) (i keep_inner keep_outer_from num_elided : Z) : M W Z :=
  match k with
  | O => mret PHPSPY_OK
  | S k' =>
    rv ← (if (i =? keep_inner) && (0 <? num_elided) then emit_elided num_elided i else mret PHPSPY_OK);
    try rv else_return rv ;;;
    if (keep_inner <=? i) && (i <? keep_outer_from)
    then outer_loop k' (i + 1) keep_inner keep_outer_from num_elided else
    w ← get;
    match c_stack_ptrs (w_ctx w) !! Z.to_nat i with
    | None => raise OutOfBounds
    | Some p =>
      '(rv, _) ← stack_emit_frame p i;
      try rv else_return rv ;;;
      outer_loop k' (i + 1) keep_inner keep_outer_from num_elided
    end
  end.

(** [keep_inner], [keep_outer_from] and [num_elided] (157-163), in [int]
    arithmetic.  The sum of line 160 overflows if [-n] and [-N] add up to [2 ^ 31]
    or more, which C leaves undefined; here it has the two's complement result. *)
Definition elision (total_depth : Z) : Z * Z * Z :=
  let leaf := opt_max_stack_depth_from_leaf o in
  let root := opt_max_stack_depth_from_root o in
  let keep_inner := if 0 <=? leaf then leaf else 0 in
  if s32 (keep_inner + root) <? total_depth
  then (keep_inner, s32 (total_depth - root), s32 (s32 (total_depth - root) - keep_inner))
  else (keep_inner, keep_inner, 0).

(** The [while] loop without [-N]. *)
Fixpoint leaf_loop (n : nat) (remote depth : Z) : M W (Z * Z) :=
  match n with
  | O => diverge
  | S n' =>
    if (remote =? 0) || (depth =? opt_max_stack_depth_from_leaf o) then mret (PHPSPY_OK, depth) else
    if PHPSPY_MAX_STACK_WALK <=? depth then mret (PHPSPY_OK, depth) else
    '(rv, next) ← stack_emit_frame remote depth;
    try rv else_return (rv, depth) ;;;
    leaf_loop n' next (depth + 1)
  end.

(** Returns the code and [*depth]. *)
Definition trace_stack (remote : Z) : M W (Z * Z) :=
  if 0 <=? opt_max_stack_depth_from_root o then
    rv ← stack_collect remote;
    try rv else_return (rv, 0) ;;;
    w ← get;
    let total_depth := Z.of_nat (length (c_stack_ptrs (w_ctx w))) in
    let '(keep_inner, keep_outer_from, num_elided) := elision total_depth in
    rv ← outer_loop (Z.to_nat total_depth) 0 keep_inner keep_outer_from num_elided;
    try rv else_return (rv, 0) ;;;
    mret (PHPSPY_OK, total_depth)
  else leaf_loop WALK_FUEL remote 0.

(** ** Request, memory, globals *)

(** [try_copy_sapi_global_field]: the field afterwards. *)
Definition copy_sapi_field (capture : bool) (ptr : Z) (local : bytes) : M W (Z * bytes) :=
  if capture && negb (ptr =? 0) then
    '(rv, bs) ← copy_proc_mem E ptr (Z.of_nat PHPSPY_STR_SIZE);
    b ← store local 0 bs;
    mret (rv, b)
  else
    b ← store local 0 ["-"%char; NUL];
    mret (PHPSPY_OK, b).

Definition trace_request_info : M W Z :=
  w ← get;
  '(rv, sapi) ← copy_proc_mem E (t_sapi_globals_addr (c_target (w_ctx w))) (sz_sapi L);
  try rv else_return rv ;;;
  let r := c_request (w_ctx w) in
  let upd u p q c t := modify (with_ctx (set_request
    {| r_uri := u; r_path := p; r_qstring := q; r_cookie := c; r_ts := t |})) in
  '(rv, q) ← copy_sapi_field (opt_capture_req_qstring o) (rd64 sapi (o_sapi_query L)) (r_qstring r);
  upd (r_uri r) (r_path r) q (r_cookie r) (r_ts r);;
  try rv else_return rv ;;;
  '(rv, c) ← copy_sapi_field (opt_capture_req_cookie o) (rd64 sapi (o_sapi_cookie L)) (r_cookie r);
  upd (r_uri r) (r_path r) q c (r_ts r);;
  try rv else_return rv ;;;
  '(rv, u) ← copy_sapi_field (opt_capture_req_uri o) (rd64 sapi (o_sapi_uri L)) (r_uri r);
  upd u (r_path r) q c (r_ts r);;
  try rv else_return rv ;;;
  '(rv, p) ← copy_sapi_field (opt_capture_req_path o) (rd64 sapi (o_sapi_path L)) (r_path r);
  upd u p q c (r_ts r);;
  try rv else_return rv ;;;
  let t := rd64 sapi (o_sapi_time L) in
  upd u p q c t;;
  emit (EvRequest {| r_uri := u; r_path := p; r_qstring := q; r_cookie := c; r_ts := t |}).

Definition trace_memory_info : M W Z :=
  w ← get;
  '(rv, ag) ← copy_proc_mem E (t_alloc_globals_addr (c_target (w_ctx w))) (sz_ag L);
  try rv else_return rv ;;;
  '(rv, heap) ← copy_proc_mem E (rd64 ag (o_ag_heap L)) (sz_heap L);
  try rv else_return rv ;;;
  emit (EvMem (rd64 heap (o_heap_size L)) (rd64 heap (o_heap_peak L))).

Fixpoint globals_loop (symtable : Z) (gs : list glopeek_entry) : M W Z :=
  match gs with
  | [] => mret PHPSPY_OK
  | g :: gs' =>
    '(rv, garray) ←
      (match ge_gloname g with
       | [] => mret (PHPSPY_OK, symtable)
       | gloname =>
         '(rv, lbucket) ← copy_zarray_bucket E L fuel symtable gloname;
         mret (rv, rd64 lbucket (o_bk_val L + o_zv_value L))
       end);
    try rv else_return rv ;;;
    w ← get;
    '(rv, b, n) ← sprint_zarray_val E L fuel garray (ge_varname g) (c_buf (w_ctx w)) 0 PHPSPY_STR_SIZE;
    modify (with_ctx (set_buf b (Z.of_nat n)));;
    if bool_decide (rv = PHPSPY_OK) then
      rv ← emit (EvGlopeek (ge_key g) b (Z.of_nat n));
      try rv else_return rv ;;;
      globals_loop symtable gs'
    else globals_loop symtable gs'
  end.

Definition trace_globals : M W Z :=
  w ← get;
  globals_loop (padd (t_executor_globals_addr (c_target (w_ctx w))) (o_eg_symtable L)) (glopeek_map o).

(** ** One sample *)

Definition should_stop_trace (rv : Z) : bool :=
  negb (Z.land rv PHPSPY_ERR_PID_DEAD =? 0)
  || negb (Z.land rv PHPSPY_ERR_TRUNCATED =? 0)
  || (negb (rv =? PHPSPY_OK) && negb (opt_continue_on_error o)).

(** [if (cond) { rv |= part; if (should_stop_trace(rv)) goto end; }]: the code so
    far, and whether to go on. *)
Definition part (cond : bool) (m : M W Z) (s : Z * bool) : M W (Z * bool) :=
  let '(rv, go) := s in
  if go && cond then
    r ← m;
    let rv := Z.lor rv r in
    mret (rv, negb (should_stop_trace rv))
  else mret (rv, go).

(** [current_execute_data] is cleared first, for a read that fails; the callers
    use it only after one that succeeds. *)
Definition copy_executor_globals : M W (Z * bytes) :=
  w ← get;
  copy_proc_mem E (t_executor_globals_addr (c_target (w_ctx w))) (sz_eg L).

Definition do_trace : M W Z :=
  '(rv, eg) ← copy_executor_globals;
  try rv else_return rv ;;;
  rv ← emit EvStackBegin;
  try rv else_return rv ;;;
  '(r, depth) ← trace_stack (rd64 eg (o_eg_current L));
  let rv := Z.lor PHPSPY_OK r in
  s ← part (opt_capture_req o) trace_request_info
        (rv, negb (should_stop_trace rv) && (1 <=? depth));
  s ← part (opt_capture_mem o) trace_memory_info s;
  s ← part (bool_decide (glopeek_map o <> [])) trace_globals s;
  let rv := fst s in
  if (rv =? PHPSPY_OK) || opt_continue_on_error o then
    w ← get;
    emit (EvStackEnd (t_pid (c_target (w_ctx w))))
  else mret rv.

End trace.
