(* ===== verification/TraceSafe.v ===== *)
(** * TraceSafe: the tracer keeps its protocol with any handler and any target

    Whatever the target's memory holds and however it changes between reads, the
    tracer's functions stay inside their buffers and send the handler only
    well-formed events, with frame depths that increase.  The lemmas are proved
    against the interface [HandlerSafe]. *)
From Stdlib Require Import Sorted.
From S2P Require Import Prelude CLib Layout Context Zval Trace.

(** ** Well-formed contexts and event traces *)

Definition loc_sized (l : trace_loc) : Prop :=
  length (l_func l) = PHPSPY_STR_SIZE /\ length (l_class l) = PHPSPY_STR_SIZE
  /\ length (l_file l) = PHPSPY_STR_SIZE.

Definition request_sized (r : trace_request) : Prop :=
  length (r_uri r) = PHPSPY_STR_SIZE /\ length (r_path r) = PHPSPY_STR_SIZE
  /\ length (r_qstring r) = PHPSPY_STR_SIZE /\ length (r_cookie r) = PHPSPY_STR_SIZE.

(** The character arrays of the context have their declared size. *)
Definition ctx_ok (c : trace_context) : Prop :=
  loc_sized (f_loc (c_frame c)) /\ request_sized (c_request c) /\ length (c_buf c) = PHPSPY_STR_SIZE.

Definition good_event (ev : event) : Prop := is_record_event ev = true /\ wf_event ev.

Definition frame_depths (evs : list event) : list Z :=
  omap (fun ev => match ev with EvFrame f => Some (f_depth f) | _ => None end) evs.

(** The depths of the frames are increasing and lie in [[lo, hi)]. *)
Definition depths_in (lo hi : Z) (evs : list event) : Prop :=
  StronglySorted Z.lt (frame_depths evs) /\ Forall (fun d => lo <= d < hi) (frame_depths evs).

(** The parts of the context that sending leaves alone. *)
Definition fixed_ctx (c c' : trace_context) : Prop :=
  c_target c' = c_target c /\ c_stack_ptrs c' = c_stack_ptrs c.

(** [w'] is [w] after sending well-formed events with such frames. *)
Definition sent {U} (lo hi : Z) (w w' : world U) : Prop :=
  fixed_ctx (w_ctx w) (w_ctx w') /\
  exists evs, w_events w' = w_events w ++ evs /\ Forall good_event evs /\ depths_in lo hi evs.

(** What the option parser guarantees of the peek maps: C strings. *)
Definition peeks_ok (o : options) : Prop :=
  Forall (fun e => (NUL ∉ ve_filename_lineno e) /\ Forall (fun v => NUL ∉ v) (ve_varmap e)) (varpeek_map o)
  /\ Forall (fun g => NUL ∉ ge_key g) (glopeek_map o).

Definition loc_of {U} (w : world U) : trace_loc := f_loc (c_frame (w_ctx w)).

Definition func_ok (l : trace_loc) : Prop := str_buf (l_func l) /\ 0 <= l_func_len l < 256.
Definition class_ok (l : trace_loc) : Prop := str_buf (l_class l) /\ 0 <= l_class_len l < 256.
Definition file_ok (l : trace_loc) : Prop :=
  str_buf (l_file l) /\ 0 <= l_file_len l < 256 /\ - 2 ^ 31 <= l_lineno l < 2 ^ 31.

(** ** Lemmas on depths and sending *)

Lemma frame_depths_app a b : frame_depths (a ++ b) = frame_depths a ++ frame_depths b.
Proof. apply omap_app. Qed.

Lemma StronglySorted_app_lt lo mid hi (a b : list Z) :
  StronglySorted Z.lt a -> StronglySorted Z.lt b ->
  Forall (fun d => lo <= d < mid) a -> Forall (fun d => mid <= d < hi) b -> StronglySorted Z.lt (a ++ b).
Proof.
  intros Ha Hb Fa Fb. induction Ha as [|x a Ha IH Hx]; [done|]. apply Forall_cons in Fa as [Fx Fa].
  simpl. constructor; [by apply IH|]. apply Forall_app. split; [done|].
  eapply Forall_impl; [exact Fb|]. simpl. lia.
Qed.

Lemma depths_in_app lo mid hi a b :
  lo <= mid <= hi -> depths_in lo mid a -> depths_in mid hi b -> depths_in lo hi (a ++ b).
Proof.
  intros Hm [Sa Fa] [Sb Fb]. unfold depths_in. rewrite frame_depths_app. split.
  - by eapply StronglySorted_app_lt.
  - apply Forall_app. split; (eapply Forall_impl; [eassumption|]); simpl; lia.
Qed.

Lemma depths_in_mono lo hi lo' hi' a : lo' <= lo -> hi <= hi' -> depths_in lo hi a -> depths_in lo' hi' a.
Proof. intros ?? [S F]. split; [done|]. eapply Forall_impl; [exact F|]. simpl. lia. Qed.

Section sent.
Context {U : Type}.
Implicit Types w : world U.

Lemma sent_app lo mid hi w w1 w2 : lo <= mid <= hi -> sent lo mid w w1 -> sent mid hi w1 w2 -> sent lo hi w w2.
Proof.
  intros Hm (Ht & e1 & He1 & F1 & D1) (Ht2 & e2 & He2 & F2 & D2). split; [destruct Ht, Ht2; split; congruence|].
  exists (e1 ++ e2). rewrite He2, He1, app_assoc, Forall_app. split_and!; try done. by eapply depths_in_app.
Qed.

Lemma sent_mono lo hi lo' hi' w w' : lo' <= lo -> hi <= hi' -> sent lo hi w w' -> sent lo' hi' w w'.
Proof. intros ?? (Ht & e & He & F & D). split; [done|]. exists e. split_and!; try done. by eapply depths_in_mono. Qed.

Lemma sent_nil lo hi w w' : fixed_ctx (w_ctx w) (w_ctx w') -> w_events w' = w_events w -> sent lo hi w w'.
Proof. intros Ht He. split; [done|]. exists []. rewrite app_nil_r. split; [done|]. split; [constructor|]. split; constructor. Qed.

Lemma quiet_sent lo hi w w' : quiet w w' -> sent lo hi w w'.
Proof. intros (Hc & _ & He). apply sent_nil; [by rewrite Hc|done]. Qed.

Lemma sent_ctx lo hi w f : fixed_ctx (w_ctx w) (f (w_ctx w)) -> sent lo hi w (with_ctx f w).
Proof. intros Ht. by apply sent_nil. Qed.
End sent.

(** ** Safe computations *)

Section safe.
Context {U : Type} {EH : EventHandler U} {HS : HandlerSafe U}.
Context (E : target_env) (L : zlayout) (o : options) (fuel : nat).
Implicit Types w : world U.

Definition world_ok w : Prop := eh_inv (w_events w) (w_udata w) /\ ctx_ok (w_ctx w).

(** [m], from a well-formed world, sends well-formed events and ends in a
    well-formed world. *)
Definition safely {A} (d : Prop) (lo hi : Z) (m : M (world U) A) (Q : A -> world U -> Prop) w : Prop :=
  world_ok w -> wpx d m (fun a w' => world_ok w' /\ sent lo hi w w' /\ Q a w') w.

Lemma safely_ret {A} d lo hi (a : A) (Q : A -> world U -> Prop) w : Q a w -> safely d lo hi (mret a) Q w.
Proof. intros HQ Hw. apply wpx_ret. split_and!; [done|by apply sent_nil|done]. Qed.

Lemma safely_bind_fixed {A B} d lo mid hi (m : M (world U) A) (k : A -> M (world U) B) P Q w :
  lo <= mid <= hi -> safely d lo mid m P w ->
  (forall a w', fixed_ctx (w_ctx w) (w_ctx w') -> P a w' -> safely d mid hi (k a) Q w') ->
  safely d lo hi (m ≫= k) Q w.
Proof.
  intros Hm H1 H2 Hw. eapply wpx_bind_mono; [by apply H1|]. intros a w1 (Hw1 & Hs1 & HP).
  pose proof Hs1 as [Hfix _].
  eapply wpx_mono; [by apply H2|]. intros b w2 (Hw2 & Hs2 & HQ). split_and!; [done| |done].
  by eapply sent_app.
Qed.

Lemma safely_bind {A B} d lo mid hi (m : M (world U) A) (k : A -> M (world U) B) P Q w :
  lo <= mid <= hi -> safely d lo mid m P w ->
  (forall a w', P a w' -> safely d mid hi (k a) Q w') -> safely d lo hi (m ≫= k) Q w.
Proof. intros Hm H1 H2. eapply safely_bind_fixed; [done|done|]. intros a w' _. apply H2. Qed.

(** A first step that sends no frames. *)
Lemma safely_seq {A B} d lo hi (m : M (world U) A) (k : A -> M (world U) B) Q w :
  lo <= hi -> safely d lo lo m (fun a w' => safely d lo hi (k a) Q w') w -> safely d lo hi (m ≫= k) Q w.
Proof. intros Hl H. eapply safely_bind; [|exact H|]; [lia|done]. Qed.

Lemma safely_mono {A} d lo hi lo' hi' (m : M (world U) A) (P Q : A -> world U -> Prop) w :
  safely d lo' hi' m P w -> lo <= lo' -> hi' <= hi -> (forall a w', P a w' -> Q a w') -> safely d lo hi m Q w.
Proof.
  intros H ?? HPQ Hw. eapply wpx_mono; [by apply H|]. intros a w' (Hw' & Hs & HP).
  split_and!; [done|by eapply sent_mono|by apply HPQ].
Qed.

(** A step that neither sends nor changes the context. *)
Lemma safely_quiet {A} d lo hi (m : M (world U) A) (Q : A -> world U -> Prop) w :
  wpx d m (fun a w' => quiet w w' /\ Q a w') w -> safely d lo hi m Q w.
Proof.
  intros H [Hi Hc]. eapply wpx_mono; [exact H|]. intros a w' [Hq HQ]. pose proof Hq as (Hc' & Hu' & He').
  split_and!; [|by apply quiet_sent|done]. split; [by rewrite Hu', He'|by rewrite Hc'].
Qed.

Lemma safely_copy d lo hi addr n (Q : Z * bytes -> world U -> Prop) w :
  (forall rv bs w', quiet w w' -> Z.of_nat (length bs) <= Z.max 0 n -> copy_rv rv ->
     (rv = 0 -> Z.of_nat (length bs) = n) -> Q (rv, bs) w') ->
  safely d lo hi (copy_proc_mem E addr n) Q w.
Proof.
  intros HQ. apply safely_quiet, copy_proc_mem_wp. intros rv bs w' Hq Hrv Hl Hn. split; [done|by apply HQ].
Qed.

Lemma safely_store d lo hi m off bs (Q : bytes -> world U -> Prop) w :
  (off + length bs <= length m)%nat -> Q (poke m off bs) w -> safely d lo hi (store m off bs) Q w.
Proof. intros. apply safely_quiet, store_ok; [done|]. done. Qed.

Lemma safely_snprintf d lo hi m s (Q : bytes -> world U -> Prop) w :
  length m = PHPSPY_STR_SIZE -> (forall b, str_buf b -> Q b w) ->
  safely d lo hi (put_text m s) Q w.
Proof.
  intros Hm HQ. change (put_text m s) with (store (W := world U) m 0 (take 255 s ++ [NUL])).
  unfold PHPSPY_STR_SIZE in *.
  assert (length (take 255 s ++ [NUL]) <= 256)%nat as Hl by (rewrite length_app, length_take; cbn [length]; lia).
  apply safely_store; [lia|]. apply HQ. split; [by rewrite length_poke by lia|]. unfold poke. set_solver.
Qed.

Lemma safely_emit d lo hi ev (Q : Z -> world U -> Prop) w :
  good_event ev -> depths_in lo hi [ev] -> (forall rv w', w_ctx w' = w_ctx w -> Q rv w') ->
  safely d lo hi (emit ev) Q w.
Proof.
  intros Hg Hd HQ [Hi Hc]. destruct (eh_preserves ev (w_events w) (w_udata w) (proj2 Hg) Hi) as (rv & u & He & Hi').
  eapply emit_wp; [exact He|]. split_and!; [done| |by apply HQ].
  split; [done|]. exists [ev]. split_and!; [done|by constructor|done].
Qed.

Lemma safely_modify d lo hi f (Q : unit -> world U -> Prop) w :
  (ctx_ok (w_ctx w) -> ctx_ok (f (w_ctx w))) -> fixed_ctx (w_ctx w) (f (w_ctx w)) ->
  Q tt (with_ctx f w) -> safely d lo hi (modify (with_ctx f)) Q w.
Proof.
  intros Hc Ht HQ [Hi Hok]. apply wpx_modify. split_and!; [|by apply sent_ctx|done]. split; [done|by apply Hc].
Qed.

Lemma safely_try {A} d lo hi (rv : Z) (e : A) (k : M (world U) A) (Q : A -> world U -> Prop) w :
  (rv <> 0 -> Q e w) -> (rv = 0 -> safely d lo hi k Q w) ->
  safely d lo hi (try rv else_return e ;;; k) Q w.
Proof. intros H1 H2. case_bool_decide; [by apply safely_ret, H1|]. apply H2. lia. Qed.

Lemma no_frames lo hi ev : match ev with EvFrame _ => False | _ => True end -> depths_in lo hi [ev].
Proof. destruct ev; intros H; [..]; try done; split; constructor. Qed.

(** [sprint_zstring] into a fresh or a context buffer of 256 bytes. *)
Lemma safely_zstring d lo hi rz buf (Q : Z * bytes * nat -> world U -> Prop) w :
  length buf = PHPSPY_STR_SIZE ->
  (forall rv b n w', quiet w w' -> length b = PHPSPY_STR_SIZE -> (rv = 0 -> str_buf b /\ (n < 256)%nat) ->
     Q (rv, b, n) w') ->
  safely d lo hi (sprint_zstring E L rz buf 0 PHPSPY_STR_SIZE) Q w.
Proof.
  intros Hb HQ. apply safely_quiet. unfold sprint_zstring.
  assert (length (poke buf 0 [NUL]) = 256%nat) as H1 by (rewrite length_poke; unfold PHPSPY_STR_SIZE in *; simpl; lia).
  apply wpx_bind, store_ok; [unfold PHPSPY_STR_SIZE in *; simpl; lia|].
  apply wpx_bind, copy_proc_mem_wp. intros rv hdr w1 Hq1 _ _ _. case_bool_decide as Hrv.
  { apply wpx_ret. split; [done|]. apply HQ; [done|done|]. intros ->. by destruct Hrv. }
  cbv zeta. set (n := Z.to_nat _). assert (n < 256)%nat by (subst n; unfold PHPSPY_STR_SIZE; lia).
  apply wpx_bind, copy_proc_mem_wp. intros rv' bs w2 Hq2 _ Hl Hn. apply wpx_bind, store_ok; [lia|].
  assert (length (poke (poke buf 0 [NUL]) 0 bs) = 256%nat) as H2 by (rewrite length_poke; lia).
  assert (quiet w w2) by by etrans.
  case_bool_decide as Hrv'.
  { apply wpx_ret. split; [done|]. apply HQ; [done|done|]. intros ->. by destruct Hrv'. }
  apply wpx_bind, store_ok; [simpl; lia|]. apply wpx_ret. split; [done|].
  assert (length (poke (poke (poke buf 0 [NUL]) 0 bs) (0 + n) [NUL]) = 256%nat) as H3
    by (rewrite length_poke; simpl; lia).
  apply HQ; [done|done|]. intros _. split; [|done]. split; [done|]. unfold poke at 1. set_solver.
Qed.

(** Printing computations that need fuel return or run out of it. *)
Lemma safely_prints (d : Prop) lo hi m buf (Q : Z * bytes * nat -> world U -> Prop) w :
  d -> prints True m buf 0 PHPSPY_STR_SIZE -> length buf = PHPSPY_STR_SIZE ->
  (forall rv b n w', quiet w w' -> length b = PHPSPY_STR_SIZE -> (rv = 0 -> (n < 256)%nat) -> Q (rv, b, n) w') ->
  safely d lo hi m Q w.
Proof.
  intros Hd Hm Hb HQ. apply safely_quiet. specialize (Hm w). unfold wpx in *.
  destruct (m w) as [[[[rv b] n] w']| |]; [|done|done]. destruct Hm as ([Hl _] & _ & Hn & Hq).
  split; [done|]. apply HQ; [done|congruence|done].
Qed.

Lemma safely_zval (d : Prop) lo hi zv buf (Q : Z * bytes * nat -> world U -> Prop) w :
  d -> length buf = PHPSPY_STR_SIZE ->
  (forall rv b n w', quiet w w' -> length b = PHPSPY_STR_SIZE -> (rv = 0 -> (n < 256)%nat) -> Q (rv, b, n) w') ->
  safely d lo hi (sprint_zval E L fuel zv buf 0%nat PHPSPY_STR_SIZE) Q w.
Proof.
  intros Hd Hb. apply safely_prints with buf; [done| |done]. apply sprint_zval_safe; unfold PHPSPY_STR_SIZE in *; lia.
Qed.

(** ** Lemmas: one frame *)

Lemma safely_set_loc d lo hi f (Q : unit -> world U -> Prop) w :
  (loc_sized (loc_of w) -> loc_sized (f (loc_of w))) ->
  (forall w', loc_of w' = f (loc_of w) -> Q tt w') -> safely d lo hi (set_loc f) Q w.
Proof.
  intros Hs HQ. apply safely_modify; [|done|by apply HQ].
  intros (Hl & Hr & Hb). split_and!; try done. by apply Hs.
Qed.

Lemma safely_cur_loc d lo hi (Q : trace_loc -> world U -> Prop) w :
  Q (loc_of w) w -> safely d lo hi cur_loc Q w.
Proof. intros HQ. apply safely_quiet. done. Qed.

Lemma safely_ok {A} d lo hi (m : M (world U) A) (Q : A -> world U -> Prop) w :
  (world_ok w -> safely d lo hi m Q w) -> safely d lo hi m Q w.
Proof. intros H Hw. by apply H. Qed.

Lemma str_buf_len b : str_buf b -> length b = PHPSPY_STR_SIZE.
Proof. by intros []. Qed.

Lemma quiet_loc w w' : quiet w w' -> loc_of w' = loc_of w.
Proof. intros [Hc _]. unfold loc_of. by rewrite Hc. Qed.

(** One step of a safe computation that reads or fills the frame. *)
Ltac step := apply safely_seq; [lia|].

Lemma safely_emit_func d lo zfunc w :
  safely d lo lo (emit_func E L zfunc) (fun rv w' =>
    exists b n, loc_of w' = set_func b n (loc_of w) /\ (rv = 0 -> func_ok (loc_of w'))) w.
Proof.
  apply safely_ok. intros [_ [[Hf [Hc Hfi]] _]]. fold (loc_of w) in *. unfold emit_func.
  step. apply safely_cur_loc. case_match.
  - step. apply safely_snprintf; [done|]. intros b Hb. step. apply safely_set_loc.
    { intros _. split_and!; [by apply str_buf_len|done|done]. }
    intros w' Hl. apply safely_ret. exists b, 6. split; [done|]. intros _. rewrite Hl. by split.
  - step. apply safely_zstring; [done|]. intros rv b n w' Hq%quiet_loc Hb Hrv. step.
    apply safely_set_loc; rewrite Hq; [intros _; by split_and!|].
    intros w2 Hl. apply safely_ret. exists b, (Z.of_nat n). split; [done|]. intros Hz. rewrite Hl.
    destruct (Hrv Hz). split; [done|]. cbn. lia.
Qed.

Lemma safely_emit_class d lo zfunc w :
  safely d lo lo (emit_class E L zfunc) (fun rv w' =>
    exists b n, loc_of w' = set_class b n (loc_of w) /\ (rv = 0 -> class_ok (loc_of w'))
    \/ rv <> 0 /\ loc_of w' = loc_of w) w.
Proof.
  apply safely_ok. intros [_ [[Hf [Hc Hfi]] _]]. fold (loc_of w) in *. unfold emit_class.
  step. apply safely_cur_loc. case_match.
  - step. unfold PHPSPY_STR_SIZE in *. apply safely_store; [cbn [length]; lia|].
    assert (str_buf (poke (l_class (loc_of w)) 0 [NUL])) as Hb.
    { split; [rewrite length_poke; unfold PHPSPY_STR_SIZE; cbn [length]; lia|]. unfold poke. set_solver. }
    step. apply safely_set_loc. { intros _. split_and!; [done|by apply str_buf_len|done]. }
    intros w' Hl. apply safely_ret. eexists _, 0. left. split; [done|]. intros _. rewrite Hl. by split.
  - step. apply safely_copy. intros rv zce w1 Hq1%quiet_loc _ _ _. apply safely_try; intros Hrv.
    { exists [], 0. right. by rewrite Hq1. }
    step. apply safely_zstring; [done|]. intros rv' b n w' Hq%quiet_loc Hb Hrv'. step.
    apply safely_set_loc; rewrite Hq, Hq1; [intros _; by split_and!|].
    intros w2 Hl. apply safely_ret. exists b, (Z.of_nat n). left. split; [done|]. intros Hz. rewrite Hl.
    destruct (Hrv' Hz). split; [done|]. cbn. lia.
Qed.

(** ** Lemmas: local variables and PDO *)

Lemma good_varpeek entry var s n :
  NUL ∉ entry -> NUL ∉ var -> length s = PHPSPY_STR_SIZE -> (n < 256)%nat -> good_event (EvVarpeek entry var s (Z.of_nat n)).
Proof. intros. split; [done|]. simpl. split_and!; try done; lia. Qed.

Lemma safely_varpeek d lo entry var s n (Q : Z -> world U -> Prop) w :
  NUL ∉ entry -> NUL ∉ var -> length s = PHPSPY_STR_SIZE -> (n < 256)%nat ->
  (forall rv w', w_ctx w' = w_ctx w -> Q rv w') ->
  safely d lo lo (emit (EvVarpeek entry var s (Z.of_nat n))) Q w.
Proof. intros. apply safely_emit; [by apply good_varpeek|by apply no_frames|done]. Qed.

Lemma safely_locals_loop (d : Prop) lo k i entry remote vars found tmp w :
  d -> NUL ∉ ve_filename_lineno entry -> Forall (fun v => NUL ∉ v) (ve_varmap entry) ->
  length tmp = PHPSPY_STR_SIZE ->
  safely d lo lo (locals_loop E L fuel k i entry remote vars found tmp) (fun _ w' => w_ctx w' = w_ctx w) w.
Proof.
  intros Hd He Hv. revert i found tmp w. induction k as [|k IH]; intros i found tmp w Ht; cbn [locals_loop].
  { by apply safely_ret. }
  step. apply safely_copy. intros rv zs w1 Hq1 _ _ _. apply safely_try; [by intros _; destruct Hq1|intros _].
  step. apply safely_zstring; [done|]. intros rv2 tmp2 n2 w2 Hq2 Ht2 Hn2.
  assert (w_ctx w2 = w_ctx w) as Hc2 by (destruct Hq1, Hq2; congruence).
  apply safely_try; [done|intros _]. case_bool_decide as Hin; cbn [negb].
  2:{ rewrite <-Hc2. by apply IH. }
  assert (NUL ∉ take n2 tmp2) as Hvar by (rewrite Forall_forall in Hv; by apply Hv).
  step. apply safely_copy. intros rv3 zv w3 Hq3 _ _ _.
  assert (w_ctx w3 = w_ctx w) as Hc3 by (destruct Hq3; congruence).
  apply safely_try; [done|intros _]. step. apply safely_zval; [done|done|]. intros rv4 tmp4 n4 w4 Hq4 Ht4 Hn4.
  assert (w_ctx w4 = w_ctx w) as Hc4 by (destruct Hq4; congruence).
  apply safely_try; [done|]. intros Hz. step. apply safely_varpeek; [done|done|done|by apply Hn4|].
  intros rv5 w5 Hc5. rewrite Hc4 in Hc5. apply safely_try; [done|intros _]. case_bool_decide; [by apply safely_ret|].
  rewrite <-Hc5. by apply IH.
Qed.

Lemma safely_trace_locals (d : Prop) lo lineno remote zfunc b n w :
  d -> peeks_ok o ->
  safely d lo lo (trace_locals E L o fuel lineno remote zfunc b n) (fun _ w' => w_ctx w' = w_ctx w) w.
Proof.
  intros Hd [Hp _]. unfold trace_locals. cbv zeta. destruct (find_varpeek o _) as [e|] eqn:Hf; [|by apply safely_ret].
  apply List.find_some in Hf as [Hin _]. rewrite Forall_forall in Hp.
  destruct (Hp e) as [He Hv]; [by apply list_elem_of_In|]. apply safely_locals_loop; [done|done|done|by rewrite length_uninit].
Qed.

Lemma cstr_snprintf_nn n s : NUL ∉ snprintf_cstr n s.
Proof. apply cstr_no_nul. Qed.

Lemma safely_pdo_args d lo entry rv b n w :
  NUL ∉ entry -> length b = PHPSPY_STR_SIZE -> (rv = 0 -> (n < 256)%nat) ->
  safely d lo lo (pdo_args entry (rv, b, n)) (fun _ w' => w_ctx w' = w_ctx w) w.
Proof.
  intros He Hb Hn. unfold pdo_args. case_bool_decide as Hrv; cbn [andb]; [|by apply safely_ret].
  case_bool_decide; [|by apply safely_ret]. step.
  apply safely_varpeek; [done|by apply (bool_decide_unpack _)|done|by apply Hn|].
  intros rv' w' Hc. apply safely_try; [done|intros _]. by apply safely_ret.
Qed.

(** The SQL text, sent when it is a string. *)
Lemma safely_pdo_sql {A} d lo entry addr buf (k : Z * bytes -> M (world U) A) Q w :
  NUL ∉ entry -> length buf = PHPSPY_STR_SIZE ->
  (forall rv b w', w_ctx w' = w_ctx w -> length b = PHPSPY_STR_SIZE -> safely d lo lo (k (rv, b)) Q w') ->
  safely d lo lo (('(rv, buf, n) ← sprint_zstring E L addr buf 0 PHPSPY_STR_SIZE;
       try rv else_return (rv, buf) ;;;
       rv ← emit (EvVarpeek entry (cs "#pdo_sql") buf (Z.of_nat n));
       mret (rv, buf)) ≫= k) Q w.
Proof.
  intros He Hb Hk. step. step. apply safely_zstring; [done|]. intros rv b n w1 Hq Hl Hn.
  apply safely_try; [intros _; apply Hk; [by destruct Hq|done]|]. intros Hz. step.
  apply safely_varpeek; [done|by apply (bool_decide_unpack _)|done|by apply Hn|].
  intros rv' w' Hc. apply safely_ret, Hk; [|done]. destruct Hq. congruence.
Qed.

Lemma safely_pdo_execute_args (d : Prop) lo entry this remote robj b w :
  d -> NUL ∉ entry -> length b = PHPSPY_STR_SIZE ->
  safely d lo lo (pdo_execute_args E L fuel entry this remote robj b) (fun _ w' => w_ctx w' = w_ctx w) w.
Proof.
  intros Hd He Hb. unfold pdo_execute_args. destruct (0 <? _); step; apply safely_copy; intros rv bs w1 Hq1 _ _ _;
    (assert (w_ctx w1 = w_ctx w) as Hc1 by by destruct Hq1); (apply safely_try; [done|intros _]).
  - destruct (_ =? PHPSPY_ZVAL_TYPE_ARRAY); [|by apply safely_ret]. step. apply safely_prints with b; [done| |done|].
    { apply sprint_zarray_prints; [apply sprint_zval_safe|unfold PHPSPY_STR_SIZE in *; lia..]. }
    intros rv4 b4 n4 w4 [Hq4 _] Hb4 Hn4. rewrite <-Hc1, <-Hq4. by apply safely_pdo_args.
  - cbv zeta. destruct (_ =? 0); [by apply safely_ret|]. step. apply safely_prints with b; [done| |done|].
    { apply sprint_pdo_binds_prints; unfold PHPSPY_STR_SIZE in *; lia. }
    intros rv4 b4 n4 w4 [Hq4 _] Hb4 Hn4. rewrite <-Hc1, <-Hq4. by apply safely_pdo_args.
Qed.

Lemma safely_pdo_execute (d : Prop) lo entry ex remote w :
  d -> NUL ∉ entry ->
  safely d lo lo (trace_pdo_execute E L fuel entry ex remote) (fun _ w' => w_ctx w' = w_ctx w) w.
Proof.
  intros Hd He. unfold trace_pdo_execute. cbv zeta. destruct (negb _); [by apply safely_ret|].
  destruct (_ =? 0); [by apply safely_ret|].
  step. apply safely_copy. intros rv lobj w1 Hq1 _ _ _. assert (w_ctx w1 = w_ctx w) as Hc1 by by destruct Hq1.
  apply safely_try; [done|intros _]. destruct (_ =? PHPSPY_ZVAL_TYPE_STRING).
  - apply safely_pdo_sql; [done|by rewrite length_uninit|]. intros rv2 b w2 Hc2 Hb. rewrite Hc1 in Hc2.
    apply safely_try; [done|intros _]. rewrite <-Hc2. by apply safely_pdo_execute_args.
  - step. apply safely_ret. apply safely_try; [done|intros _]. rewrite <-Hc1.
    apply safely_pdo_execute_args; [done|done|by rewrite length_uninit].
Qed.

Lemma safely_pdo_query (d : Prop) lo entry ex remote w :
  NUL ∉ entry -> safely d lo lo (trace_pdo_query E L entry ex remote) (fun _ w' => w_ctx w' = w_ctx w) w.
Proof.
  intros He. unfold trace_pdo_query. cbv zeta. case_match; [by apply safely_ret|].
  step. apply safely_copy. intros rv zv w1 Hq1 _ _ _. assert (w_ctx w1 = w_ctx w) as Hc1 by by destruct Hq1.
  apply safely_try; [done|intros _]. case_match; [|by apply safely_ret].
  step. apply safely_zstring; [by rewrite length_uninit|]. intros rv2 b n w2 Hq2 Hl Hn.
  assert (w_ctx w2 = w_ctx w) as Hc2 by (destruct Hq2; congruence).
  apply safely_try; [done|]. intros Hz. step.
  apply safely_varpeek; [done|by apply (bool_decide_unpack _)|done|by apply Hn|].
  intros rv3 w3 Hc3. rewrite Hc2 in Hc3. apply safely_try; [done|intros _]. by apply safely_ret.
Qed.

Lemma safely_trace_pdo (d : Prop) lo remote ex frame w :
  d -> safely d lo lo (trace_pdo E L fuel remote ex frame) (fun _ w' => w_ctx w' = w_ctx w) w.
Proof.
  intros Hd. unfold trace_pdo. cbv zeta. case_match; [by apply safely_ret|].
  case_match; [apply safely_pdo_execute; [done|]|apply safely_pdo_query]; apply cstr_snprintf_nn.
Qed.

Lemma s32_range z : - 2 ^ 31 <= s32 z < 2 ^ 31.
Proof. pose proof (swrap_range 32 z ltac:(lia)). lia. Qed.

Lemma safely_emit_file (d : Prop) lo zfunc remote opline w :
  (varpeek_map o <> [] -> d) -> peeks_ok o ->
  safely d lo lo (emit_file E L o fuel zfunc remote opline) (fun rv w' =>
    exists b n line, loc_of w' = set_lineno line (set_file b n (loc_of w)) /\ (rv = 0 -> file_ok (loc_of w'))) w.
Proof.
  intros Hd Hp. apply safely_ok. intros [_ [[Hf [Hc Hfi]] _]]. fold (loc_of w) in *. unfold emit_file.
  step. apply safely_cur_loc. case_match; cycle 1.
  { step. apply safely_snprintf; [done|]. intros b Hb. step. apply safely_set_loc.
    { intros _. split_and!; [done|done|by apply str_buf_len]. }
    intros w1 H1. step. apply safely_set_loc; [by rewrite H1; intros (?&?&?)|].
    intros w2 H2. apply safely_ret. rewrite H1 in H2. exists b, 10, (-1). split; [done|]. intros _. rewrite H2.
    split_and!; try done; cbn; lia. }
  step. apply safely_zstring; [done|]. intros rv b n w1 Hq1%quiet_loc Hb Hrv. step.
  apply safely_set_loc; rewrite Hq1; [intros _; by split_and!|]. intros w2 H2. apply safely_try; intros Hz.
  { exists b, (Z.of_nat n), (l_lineno (loc_of w)). split; [done|]. intros ?. lia. }
  destruct (Hrv Hz) as [Hsb Hn].
  assert (forall line w', - 2 ^ 31 <= line < 2 ^ 31 -> loc_of w' = set_lineno line (set_file b (Z.of_nat n) (loc_of w)) ->
    exists b n line, loc_of w' = set_lineno line (set_file b n (loc_of w)) /\ (PHPSPY_OK = 0 -> file_ok (loc_of w'))) as Hdone.
  { intros line w' Hl Hw'. exists b, (Z.of_nat n), line. split; [done|]. intros _. rewrite Hw'. split; [done|]. cbn. lia. }
  step. apply safely_set_loc; rewrite H2; [by intros (?&?&?)|]. intros w3 H3.
  step. apply safely_copy. intros rv4 zop w4 Hq4%quiet_loc _ _ _. case_bool_decide.
  { apply safely_ret. apply (Hdone _ _ (s32_range (rd32 zfunc (o_op_line_start L)))). by rewrite Hq4, H3. }
  cbv zeta. step. apply safely_set_loc; rewrite Hq4, H3; [by intros (?&?&?)|]. intros w5 H5.
  case_bool_decide.
  { apply safely_ret. apply (Hdone _ _ (s32_range (rd32 zop (o_op_lineno L)))). by rewrite H5. }
  step. eapply (safely_mono d lo lo lo lo); [apply safely_trace_locals; [by apply Hd|done]|lia|lia|].
  intros ? w6 H6. apply safely_ret. apply (Hdone _ _ (s32_range (rd32 zop (o_op_lineno L)))).
  unfold loc_of in *. by rewrite H6, H5.
Qed.

(** ** Lemmas: the stack *)

Lemma depths_in_frame f lo : f_depth f = lo -> depths_in lo (lo + 1) [EvFrame f].
Proof. intros <-. split; simpl; repeat constructor; lia. Qed.

Lemma safely_emit_frame d depth (Q : Z -> world U -> Prop) w :
  0 <= depth < 2 ^ 31 -> wf_loc (loc_of w) -> f_depth (c_frame (w_ctx w)) = depth ->
  (forall rv w', w_ctx w' = w_ctx w -> Q rv w') ->
  safely d depth (depth + 1) (emit (EvFrame (c_frame (w_ctx w)))) Q w.
Proof.
  intros Hd Hl Hf HQ. apply safely_emit; [|by apply depths_in_frame|done]. split; [done|].
  split; [exact Hl|]. by rewrite Hf.
Qed.

Lemma safely_set_depth d lo hi z (Q : unit -> world U -> Prop) w :
  (forall w', loc_of w' = loc_of w -> f_depth (c_frame (w_ctx w')) = z ->
     Q tt w') ->
  safely d lo hi (set_depth z) Q w.
Proof. intros HQ. apply safely_modify; [done|done|]. by apply HQ. Qed.

Lemma wf_loc_parts l : func_ok l -> class_ok l -> file_ok l -> wf_loc l.
Proof. intros [? ?] [? ?] (? & ? & ?). split_and!; try done; lia. Qed.

Lemma safely_stack_emit_frame (d : Prop) remote depth w :
  (varpeek_map o <> [] -> d) -> (opt_peek_pdo o = true -> d) -> peeks_ok o -> 0 <= depth < 2 ^ 31 ->
  safely d depth (depth + 1) (stack_emit_frame E L o fuel remote depth) (fun _ _ => True) w.
Proof.
  intros Hv Hpdo Hp Hd. unfold stack_emit_frame.
  step. apply safely_copy. intros rv ex w1 _ _ _ _. apply safely_try; [done|intros _].
  step. apply safely_copy. intros rv2 zfunc w2 _ _ _ _. apply safely_try; [done|intros _].
  step. eapply (safely_mono d depth depth depth depth); [apply safely_emit_func|lia|lia|].
  intros rv3 w3 (fb & fn & H3 & Hf). apply safely_try; [done|]. intros Hz3. specialize (Hf Hz3).
  step. eapply (safely_mono d depth depth depth depth); [apply safely_emit_class|lia|lia|].
  intros rv4 w4 (cb & cn & Hc). apply safely_try; [done|]. intros Hz4.
  destruct Hc as [[H4 Hc]|[? _]]; [|done]. specialize (Hc Hz4).
  step. eapply (safely_mono d depth depth depth depth); [by apply safely_emit_file|lia|lia|].
  intros rv5 w5 (b & n & line & H5 & Hfi). apply safely_try; [done|]. intros Hz5. specialize (Hfi Hz5).
  step. apply safely_set_depth. intros w6 H6 Hd6. step. apply safely_quiet, wpx_intro_done with (c_frame (w_ctx w6)) w6; [done|].
  split; [done|]. eapply (safely_bind d depth (depth + 1) (depth + 1)); [lia| |].
  { apply (safely_emit_frame d depth (fun _ _ => True)); [done| |done|done]. rewrite H6.
    apply wf_loc_parts; [rewrite H5, H4; by rewrite H3 in *|rewrite H5; by rewrite H4 in *|done]. }
  intros rv7 w7 _. apply safely_try; [done|intros _]. eapply (safely_bind d (depth + 1) (depth + 1)); [lia| |].
  { destruct (opt_peek_pdo o); [|by apply (safely_ret _ _ _ _ (fun _ _ => True))].
    eapply (safely_mono d (depth + 1) (depth + 1) (depth + 1) (depth + 1)); [by apply safely_trace_pdo, Hpdo|lia|lia|].
    by intros. }
  intros ? w8 _. by apply safely_ret.
Qed.

Lemma length_fmt_d n : - 2 ^ 31 <= n < 2 ^ 31 -> (length (fmt_d n) <= 11)%nat.
Proof.
  intros Hn. unfold fmt_d. destruct (Z.ltb_spec n 0); cbn [length].
  - pose proof (length_fmt_u_le (- n) 10 ltac:(lia) ltac:(lia)). lia.
  - pose proof (length_fmt_u_le n 10 ltac:(lia) ltac:(lia)). lia.
Qed.

Lemma safely_emit_elided d n i w :
  - 2 ^ 31 <= n < 2 ^ 31 -> 0 <= i < 2 ^ 31 ->
  safely d i (i + 1) (emit_elided n i) (fun _ _ => True) w.
Proof.
  intros Hn Hi. apply safely_ok. intros [_ [[Hf [Hc Hfi]] _]]. fold (loc_of w) in *. unfold emit_elided.
  step. apply safely_cur_loc. cbv zeta. set (s := cs "<elided:" ++ fmt_d n ++ cs ">").
  assert (length s <= 20)%nat as Hs.
  { pose proof (length_fmt_d n Hn). subst s. rewrite !length_app. simpl. lia. }
  clearbody s. step. apply safely_snprintf; [done|]. intros b Hb. step. apply safely_set_loc.
  { intros _. split_and!; [by apply str_buf_len|done|done]. }
  intros w1 H1. step. unfold PHPSPY_STR_SIZE in *. apply safely_store; [cbn [length]; lia|].
  assert (str_buf (poke (l_class (loc_of w)) 0 [NUL])) as Hcb.
  { split; [rewrite length_poke; unfold PHPSPY_STR_SIZE; cbn [length]; lia|]. unfold poke. set_solver. }
  step. apply safely_set_loc; rewrite H1. { intros _. split_and!; [by apply str_buf_len|by apply str_buf_len|done]. }
  intros w2 H2. step. apply safely_snprintf; [done|]. intros fb Hfb. step. apply safely_set_loc; rewrite H2.
  { intros _. split_and!; by apply str_buf_len. }
  intros w3 H3. step. apply safely_set_loc; rewrite H3. { intros _. split_and!; by apply str_buf_len. }
  intros w4 H4. step. apply safely_set_depth. intros w5 H5 Hd5. step.
  apply safely_quiet, wpx_intro_done with (c_frame (w_ctx w5)) w5; [done|]. split; [done|].
  apply (safely_emit_frame d i (fun _ _ => True)); [done| |done|done]. rewrite H5, H4.
  split_and!; try done; cbn; lia.
Qed.

Lemma safely_get d lo hi (Q : world U -> world U -> Prop) w : Q w w -> safely d lo hi get Q w.
Proof. intros HQ. apply safely_quiet. done. Qed.

Section stack_walk.
Context (d : Prop) (Hvar : varpeek_map o <> [] -> d) (Hpdo : opt_peek_pdo o = true -> d) (Hp : peeks_ok o).

Lemma safely_outer_loop k i ki ko ne w :
  0 <= i -> i + Z.of_nat k = Z.of_nat (length (c_stack_ptrs (w_ctx w))) ->
  i + Z.of_nat k <= PHPSPY_MAX_STACK_WALK -> - 2 ^ 31 <= ne < 2 ^ 31 ->
  (ki < i + Z.of_nat k -> 0 < ne -> ki < ko) ->
  safely d i (i + Z.of_nat k) (outer_loop E L o fuel k i ki ko ne) (fun _ _ => True) w.
Proof.
  revert i w. induction k as [|k IH]; intros i w Hi Hlen Hmax Hne Hm; cbn [outer_loop]; [by apply safely_ret|].
  unfold PHPSPY_MAX_STACK_WALK in *.
  assert (forall w1 lo, i <= lo <= i + 1 -> c_stack_ptrs (w_ctx w1) = c_stack_ptrs (w_ctx w) ->
    safely d lo (i + Z.of_nat (S k)) (outer_loop E L o fuel k (i + 1) ki ko ne) (fun _ _ => True) w1) as Hrest.
  { intros w1 lo Hlo H1. eapply safely_mono; [apply (IH (i + 1)); rewrite ?H1; try lia; try done|lia|lia|done]. }
  destruct ((i =? ki) && (0 <? ne)) eqn:Hmark.
  - assert (i = ki /\ 0 < ne) as [-> Hpos] by lia.
    eapply (safely_bind_fixed d ki (ki + 1)); [lia|apply safely_emit_elided; lia|].
    intros rv w1 [_ Hst] _. apply safely_try; [done|intros _].
    rewrite (proj2 (andb_true_iff _ _)) by lia. apply Hrest; [lia|done].
  - step. apply safely_ret. apply safely_try; [done|intros _].
    destruct ((ki <=? i) && (i <? ko)); [apply Hrest; [lia|done]|].
    step. apply safely_get. destruct (c_stack_ptrs (w_ctx w) !! Z.to_nat i) as [ptr|] eqn:Hptr.
    2:{ apply lookup_ge_None in Hptr. lia. }
    eapply (safely_bind_fixed d i (i + 1)); [lia|apply safely_stack_emit_frame; try done; lia|].
    intros [rv next] w1 [_ Hst] _. apply safely_try; [done|intros _]. apply Hrest; [lia|done].
Qed.

Lemma safely_leaf_loop n remote depth w :
  0 <= depth <= PHPSPY_MAX_STACK_WALK -> PHPSPY_MAX_STACK_WALK - depth < Z.of_nat n ->
  safely d depth PHPSPY_MAX_STACK_WALK (leaf_loop E L o fuel n remote depth) (fun _ _ => True) w.
Proof.
  unfold PHPSPY_MAX_STACK_WALK. revert remote depth w.
  induction n as [|n IH]; intros remote depth w Hd Hn; cbn [leaf_loop]; [lia|].
  destruct (_ || _); [by apply safely_ret|]. unfold PHPSPY_MAX_STACK_WALK.
  destruct (Z.leb_spec (1024) depth); [by apply safely_ret|].
  eapply (safely_bind d depth (depth + 1)); [lia|apply safely_stack_emit_frame; try done; lia|].
  intros [rv next] w1 _. apply safely_try; [done|intros _]. apply IH; lia.
Qed.

End stack_walk.

(** The limits the option parser accepts. *)
Definition limits_ok : Prop :=
  - 2 ^ 31 <= opt_max_stack_depth_from_leaf o < 2 ^ 31 /\ - 2 ^ 31 <= opt_max_stack_depth_from_root o < 2 ^ 31.

(** A marker is only due where frames are left out, also when the [int]
    arithmetic wraps. *)
Lemma elision_marker total ki ko ne :
  limits_ok -> 0 <= opt_max_stack_depth_from_root o -> 0 <= total <= PHPSPY_MAX_STACK_WALK ->
  elision o total = (ki, ko, ne) ->
  0 <= ki < 2 ^ 31 /\ - 2 ^ 31 <= ne < 2 ^ 31 /\ (ki < total -> 0 < ne -> ki < ko).
Proof.
  intros [Hl Hr] Hr0 Ht. unfold elision, PHPSPY_MAX_STACK_WALK in *. cbv zeta.
  set (leaf := opt_max_stack_depth_from_leaf o) in *. set (root := opt_max_stack_depth_from_root o) in *.
  set (k := if 0 <=? leaf then leaf else 0). assert (0 <= k < 2 ^ 31) as Hk by (subst k; destruct (Z.leb_spec 0 leaf); lia).
  clearbody k. destruct (s32 (k + root) <? total); intros [= <- <- <-].
  - split; [done|]. split; [apply s32_range|]. intros Hkt. rewrite (swrap_small 32 (total - root)) by lia.
    intros Hne. destruct (decide (k < total - root)) as [|Hge]; [done|]. rewrite swrap_small in Hne by lia. lia.
  - split; [done|]. split; [lia|]. lia.
Qed.

(** ** Lemmas: the parts of a sample *)

(** Like [sent], for parts that collect the stack. *)
Definition sends (lo hi : Z) w w' : Prop :=
  c_target (w_ctx w') = c_target (w_ctx w) /\
  exists evs, w_events w' = w_events w ++ evs /\ Forall good_event evs /\ depths_in lo hi evs.

Lemma sent_sends lo hi w w' : sent lo hi w w' -> sends lo hi w w'.
Proof. intros [[Ht _] H]. by split. Qed.

Lemma sends_app lo mid hi w w1 w2 : lo <= mid <= hi -> sends lo mid w w1 -> sends mid hi w1 w2 -> sends lo hi w w2.
Proof.
  intros Hm (Ht & e1 & He1 & F1 & D1) (Ht2 & e2 & He2 & F2 & D2). split; [congruence|].
  exists (e1 ++ e2). rewrite He2, He1, app_assoc, Forall_app. split_and!; try done. by eapply depths_in_app.
Qed.

Lemma collect_loop_wp d n remote w :
  world_ok w -> Z.of_nat (length (c_stack_ptrs (w_ctx w))) <= PHPSPY_MAX_STACK_WALK ->
  PHPSPY_MAX_STACK_WALK - Z.of_nat (length (c_stack_ptrs (w_ctx w))) + 1 < Z.of_nat n ->
  wpx d (collect_loop E L n remote) (fun _ w' => world_ok w' /\ sends 0 0 w w'
    /\ Z.of_nat (length (c_stack_ptrs (w_ctx w'))) <= PHPSPY_MAX_STACK_WALK) w.
Proof.
  unfold PHPSPY_MAX_STACK_WALK. revert remote w. induction n as [|n IH]; intros remote w Hw Hlen Hn; cbn [collect_loop]; [lia|].
  assert (sends 0 0 w w) as Hrefl by (apply sent_sends; by apply sent_nil).
  destruct (remote =? 0); [by apply wpx_ret|]. apply wpx_bind, wpx_get. unfold PHPSPY_MAX_STACK_WALK.
  destruct (Z.leb_spec 1024 (Z.of_nat (length (c_stack_ptrs (w_ctx w))))); [by apply wpx_ret|].
  apply wpx_bind, wpx_modify, wpx_bind, copy_proc_mem_wp. intros rv bs w1 (Hc & Hu & He) _ _ _.
  assert (world_ok w1 /\ sends 0 0 w w1) as [Hw1 Hs1].
  { destruct Hw as [Hi Hctx]. split; [split; [by rewrite Hu, He|by rewrite Hc]|].
    split; [by rewrite Hc|]. exists []. rewrite He, app_nil_r. split; [done|]. split; [constructor|split; constructor]. }
  assert (length (c_stack_ptrs (w_ctx w1)) = S (length (c_stack_ptrs (w_ctx w)))) as Hl1
    by (rewrite Hc; cbn; rewrite length_app; simpl; lia).
  case_bool_decide; [apply wpx_ret; split_and!; [done|done|lia]|].
  eapply wpx_mono; [apply IH; [done|lia|lia]|]. intros ? w2 (Hw2 & Hs2 & Hl2).
  split_and!; [done| |done]. by eapply (sends_app 0 0 0).
Qed.

Lemma stack_collect_wp d remote w :
  world_ok w -> wpx d (stack_collect E L remote) (fun _ w' => world_ok w' /\ sends 0 0 w w'
    /\ Z.of_nat (length (c_stack_ptrs (w_ctx w'))) <= PHPSPY_MAX_STACK_WALK) w.
Proof.
  intros Hw. unfold stack_collect. apply wpx_bind, wpx_modify.
  eapply wpx_mono; [apply collect_loop_wp; [done|done|by vm_compute]|]. done.
Qed.

Lemma trace_stack_wp (d : Prop) remote w :
  (varpeek_map o <> [] -> d) -> (opt_peek_pdo o = true -> d) -> peeks_ok o -> limits_ok -> world_ok w ->
  wpx d (trace_stack E L o fuel remote) (fun _ w' => world_ok w' /\ sends 0 PHPSPY_MAX_STACK_WALK w w') w.
Proof.
  intros Hvar Hpdo Hp Hlim Hw. unfold trace_stack. destruct (Z.leb_spec 0 (opt_max_stack_depth_from_root o)) as [Hr|Hr].
  - eapply wpx_bind_mono; [by apply stack_collect_wp|]. intros rv w1 (Hw1 & Hs1 & Hl1).
    assert (forall w2, sends 0 PHPSPY_MAX_STACK_WALK w1 w2 -> sends 0 PHPSPY_MAX_STACK_WALK w w2) as Hs.
    { intros w2. by apply sends_app. }
    assert (sends 0 PHPSPY_MAX_STACK_WALK w1 w1) as Hrefl by (apply sent_sends; by apply sent_nil).
    case_bool_decide; [apply wpx_ret; by auto|]. apply wpx_bind, wpx_get. cbv zeta.
    set (total := Z.of_nat (length (c_stack_ptrs (w_ctx w1)))) in *.
    destruct (elision o total) as [[ki ko] ne] eqn:Hel.
    apply elision_marker in Hel as (Hki & Hne & Hm); [|done|done|lia].
    pose proof (safely_outer_loop d Hvar Hpdo Hp (Z.to_nat total) 0 ki ko ne w1) as Hloop.
    rewrite Z2Nat.id, Z.add_0_l in Hloop by lia.
    eapply wpx_bind_mono; [apply Hloop; try done; lia|]. intros rv2 w2 (Hw2 & Hs2 & _).
    assert (sends 0 PHPSPY_MAX_STACK_WALK w1 w2) as Hs2' by (eapply sent_sends, sent_mono; [| |exact Hs2]; lia).
    case_bool_decide; apply wpx_ret; by auto.
  - eapply wpx_mono; [apply (safely_leaf_loop d Hvar Hpdo Hp WALK_FUEL remote 0 w); [by vm_compute|by vm_compute|done]|].
    intros r w' (Hw' & Hs & _). split; [done|]. by apply sent_sends.
Qed.

Lemma safely_sapi_field d lo hi ptr local (Q : Z * bytes -> world U -> Prop) w :
  length local = PHPSPY_STR_SIZE -> (forall b, str_buf b -> Q (PHPSPY_OK, b) w) ->
  safely d lo hi (copy_sapi_field E false ptr local) Q w.
Proof.
  intros Hl HQ. cbn [copy_sapi_field andb]. unfold PHPSPY_STR_SIZE in *.
  apply safely_quiet, wpx_bind, store_ok; [cbn [length]; lia|]. apply wpx_ret. split; [done|]. apply HQ. split.
  - unfold PHPSPY_STR_SIZE. rewrite length_poke; cbn [length]; lia.
  - unfold poke. set_solver.
Qed.

Lemma safely_set_request d lo hi r (Q : unit -> world U -> Prop) w :
  request_sized r -> (forall w', Q tt w') -> safely d lo hi (modify (with_ctx (set_request r))) Q w.
Proof.
  intros Hr HQ. apply safely_modify; [|done|by apply HQ]. intros (Hl & _ & Hb). by split_and!.
Qed.

(** Request fields are only C strings when none is copied from the target. *)
Definition no_request_fields : Prop :=
  opt_capture_req_qstring o = false /\ opt_capture_req_cookie o = false
  /\ opt_capture_req_uri o = false /\ opt_capture_req_path o = false.

Lemma safely_request d lo w :
  no_request_fields -> safely d lo lo (trace_request_info E L o) (fun _ _ => True) w.
Proof.
  intros (Hq & Hco & Hu & Hpa). apply safely_ok. intros [_ [_ [(S1 & S2 & S3 & S4) _]]].
  unfold trace_request_info. rewrite Hq, Hco, Hu, Hpa. step. apply safely_get.
  step. apply safely_copy. intros rv sapi w1 _ _ _ _. apply safely_try; [done|intros _]. cbv zeta.
  step. apply safely_sapi_field; [done|]. intros q [Lq Nq]. step. apply safely_set_request; [by split_and!|]. intros w2.
  apply safely_try; [done|intros _]. step. apply safely_sapi_field; [done|]. intros c [Lc Nc].
  step. apply safely_set_request; [by split_and!|]. intros w3. apply safely_try; [done|intros _].
  step. apply safely_sapi_field; [done|]. intros u [Lu Nu].
  step. apply safely_set_request; [by split_and!|]. intros w4. apply safely_try; [done|intros _].
  step. apply safely_sapi_field; [done|]. intros p [Lp Np].
  step. apply safely_set_request; [by split_and!|]. intros w5. apply safely_try; [done|intros _].
  step. apply safely_set_request; [by split_and!|]. intros w6.
  apply safely_emit; [|by apply no_frames|done]. split; [done|]. split_and!; try done; cbn; apply rd_range.
Qed.

Lemma safely_memory d lo w : safely d lo lo (trace_memory_info E L) (fun _ _ => True) w.
Proof.
  unfold trace_memory_info. step. apply safely_get. step. apply safely_copy. intros rv ag w1 _ _ _ _.
  apply safely_try; [done|intros _]. step. apply safely_copy. intros rv2 heap w2 _ _ _ _.
  apply safely_try; [done|intros _]. apply safely_emit; [|by apply no_frames|done]. split; [done|].
  split; apply (rd_range 8).
Qed.

Lemma safely_part d lo cond m r w :
  (cond = true -> forall w', safely d lo lo m (fun _ _ => True) w') ->
  safely d lo lo (part o cond m r) (fun _ _ => True) w.
Proof.
  intros Hm. destruct r as [rv go]. unfold part. destruct go, cond; cbn [andb]; try by apply safely_ret.
  step. eapply (safely_mono d lo lo lo lo); [by apply Hm|lia|lia|]. intros r w1 _. by apply safely_ret.
Qed.

(** What one sample sends: nothing, or a begin, well-formed records with at
    most 1024 frames of increasing depth, and an end unless it is given up. *)
Definition protocol w w' : Prop :=
  w_events w' = w_events w \/
  exists evs tail, w_events w' = w_events w ++ EvStackBegin :: evs ++ tail
    /\ Forall good_event evs /\ depths_in 0 PHPSPY_MAX_STACK_WALK evs
    /\ (tail = [] \/ tail = [EvStackEnd (t_pid (c_target (w_ctx w)))]).

Lemma emit_plain_wp (d : Prop) ev (Q : Z -> world U -> Prop) w :
  wf_event ev -> world_ok w ->
  (forall rv w', world_ok w' -> w_ctx w' = w_ctx w -> w_events w' = w_events w ++ [ev] -> Q rv w') -> wpx d (emit ev) Q w.
Proof.
  intros Hwf [Hi Hc] HQ. destruct (eh_preserves ev (w_events w) (w_udata w) Hwf Hi) as (rv & u & He & Hi').
  eapply emit_wp; [exact He|]. by apply HQ.
Qed.

Lemma do_trace_wp (d : Prop) w :
  (varpeek_map o <> [] -> d) -> (opt_peek_pdo o = true -> d) -> peeks_ok o -> limits_ok ->
  (opt_capture_req o = true -> no_request_fields) -> glopeek_map o = [] ->
  - 2 ^ 31 <= t_pid (c_target (w_ctx w)) < 2 ^ 31 -> world_ok w ->
  wpx d (do_trace E L o fuel) (fun _ w' => world_ok w' /\ protocol w w'
    /\ c_target (w_ctx w') = c_target (w_ctx w)) w.
Proof.
  intros Hvar Hpdo Hp Hlim Hreq Hglo Hpid Hw. unfold do_trace, copy_executor_globals. apply wpx_bind, wpx_bind, wpx_get.
  apply copy_proc_mem_wp. intros rv eg w1 (Hc1 & Hu1 & He1) _ _ _.
  assert (world_ok w1) as Hw1 by (destruct Hw; split; [by rewrite Hu1, He1|by rewrite Hc1]).
  case_bool_decide; [apply wpx_ret; split_and!; [done|by left|by rewrite Hc1]|].
  apply wpx_bind, emit_plain_wp; [done|done|]. intros rv2 w2 Hw2 Hc2 He2. rewrite He1 in He2. rewrite Hc1 in Hc2.
  assert (forall w3, sends 0 PHPSPY_MAX_STACK_WALK w2 w3 -> protocol w w3 /\ c_target (w_ctx w3) = c_target (w_ctx w)) as Hfin.
  { intros w3 (Ht & evs & He & Hg & Hdep). rewrite He2, <-app_assoc in He. split; [|by rewrite Ht, Hc2].
    right. exists evs, []. rewrite app_nil_r. split_and!; try done. by left. }
  assert (sends 0 PHPSPY_MAX_STACK_WALK w2 w2) as Hrefl by (apply sent_sends; by apply sent_nil).
  case_bool_decide; [apply wpx_ret; split; [done|by apply Hfin]|].
  eapply wpx_bind_mono; [by apply trace_stack_wp|]. intros [r depth] w3 [Hw3 Hs3].
  set (walk := PHPSPY_MAX_STACK_WALK) in *. assert (0 <= walk <= walk) as Hwk by done.
  apply wpx_bind. eapply wpx_mono; [apply (safely_part d walk); [|done]|].
  { intros Hc w'. apply safely_request. by apply Hreq. }
  intros s4 w4 (Hw4 & Hs4%sent_sends & _). pose proof (sends_app 0 walk walk _ _ _ Hwk Hs3 Hs4) as Ha4.
  apply wpx_bind. eapply wpx_mono; [apply (safely_part d walk); [|done]|].
  { intros Hc w'. apply safely_memory. }
  intros s5 w5 (Hw5 & Hs5%sent_sends & _). pose proof (sends_app 0 walk walk _ _ _ Hwk Ha4 Hs5) as Ha5.
  rewrite Hglo, bool_decide_false by (intros X; by apply X). apply wpx_bind.
  eapply wpx_mono; [apply (safely_part d walk); [done|done]|].
  intros s6 w6 (Hw6 & Hs6%sent_sends & _). pose proof (sends_app 0 walk walk _ _ _ Hwk Ha5 Hs6) as Ha6.
  cbv zeta. destruct (_ || _); [|apply wpx_ret; split; [done|by apply Hfin]].
  apply wpx_bind, wpx_get. pose proof Ha6 as (Ht6 & evs & He6 & Hg6 & Hd6). rewrite Hc2 in Ht6.
  apply emit_plain_wp; [by rewrite Ht6|done|]. intros rv7 w7 Hw7 Hc7 He7.
  split_and!; [done| |by rewrite Hc7]. right. exists evs, [EvStackEnd (t_pid (c_target (w_ctx w)))].
  rewrite He7, He6, He2, Ht6, <-!app_assoc. split_and!; try done. by right.
Qed.

End safe.
