(* ===== verification/Fout.v ===== *)
(** * Fout: the trace writer (event_fout.c)

    [event_handler_fout] collects the records of a sample in a growing buffer
    and writes it at [STACK_END], whole or cut into chunks at record
    boundaries.  The state [fout] holds the handler's user data, the statics of
    the file and the log of [writev] calls; the operating system is a parameter
    [os]. *)
From S2P Require Import Prelude CLib Layout Context.

(** ** State *)

Record fout_udata := {
  u_fd : Z;
  u_buf : bytes;              (* the bytes of [buf] written so far *)
  u_len : nat;
  u_cap : Z;
  u_use_mutex : bool;
  u_truncated : bool;
  u_trunc_marker : bytes;     (* [trunc_marker_len] bytes *)
  u_tail : bytes;             (* [char trace_id_tail[64]] *)
  u_tail_len : nat;
}.

Inductive udata_ptr := UNull | ULive (u : fout_udata) | UFreed.

(** One [writev]: descriptor, bytes of all vectors, result. *)
Record write_call := { wr_fd : Z; wr_data : bytes; wr_ret : Z }.

Record fout := {
  fo_udata : udata_ptr;
  fo_trace_id : Z;            (* event_handler_fout_trace_id *)
  fo_shared_fd : Z;           (* event_handler_fout_shared_fd *)
  fo_mutex : bool;            (* event_handler_fout_mutex is held *)
  fo_writes : list write_call;
  fo_closed : list Z;
}.

(** The system calls the handler makes.  [os_writev n fd data] is the result of
    the [n]-th [writev]; [os_realloc size] says whether [realloc] succeeds. *)
Record os_env := {
  os_writev : nat -> Z -> bytes -> Z;
  os_pipe_buf : Z;
  os_realloc : Z -> bool;
  os_open : bytes -> Z;
  os_dup : Z -> Z;
  os_gettid : Z;
  os_timeofday : nat -> Z * Z;
}.

Definition STDOUT_FILENO : Z := 1.

Section fout.
Context (o : options) (os : os_env).
Abbreviation FM := (M fout).

Definition put_udata (p : udata_ptr) (f : fout) : fout :=
  {| fo_udata := p; fo_trace_id := fo_trace_id f; fo_shared_fd := fo_shared_fd f;
     fo_mutex := fo_mutex f; fo_writes := fo_writes f; fo_closed := fo_closed f |}.
Definition put_trace_id (t : Z) (f : fout) : fout :=
  {| fo_udata := fo_udata f; fo_trace_id := t; fo_shared_fd := fo_shared_fd f;
     fo_mutex := fo_mutex f; fo_writes := fo_writes f; fo_closed := fo_closed f |}.
Definition put_shared_fd (n : Z) (f : fout) : fout :=
  {| fo_udata := fo_udata f; fo_trace_id := fo_trace_id f; fo_shared_fd := n;
     fo_mutex := fo_mutex f; fo_writes := fo_writes f; fo_closed := fo_closed f |}.
Definition put_mutex (b : bool) (f : fout) : fout :=
  {| fo_udata := fo_udata f; fo_trace_id := fo_trace_id f; fo_shared_fd := fo_shared_fd f;
     fo_mutex := b; fo_writes := fo_writes f; fo_closed := fo_closed f |}.
Definition put_writes (l : list write_call) (f : fout) : fout :=
  {| fo_udata := fo_udata f; fo_trace_id := fo_trace_id f; fo_shared_fd := fo_shared_fd f;
     fo_mutex := fo_mutex f; fo_writes := l; fo_closed := fo_closed f |}.
Definition put_closed (l : list Z) (f : fout) : fout :=
  {| fo_udata := fo_udata f; fo_trace_id := fo_trace_id f; fo_shared_fd := fo_shared_fd f;
     fo_mutex := fo_mutex f; fo_writes := fo_writes f; fo_closed := l |}.

Definition set_bytes (b : bytes) (n : nat) (t : bool) (u : fout_udata) : fout_udata :=
  {| u_fd := u_fd u; u_buf := b; u_len := n; u_cap := u_cap u; u_use_mutex := u_use_mutex u;
     u_truncated := t; u_trunc_marker := u_trunc_marker u; u_tail := u_tail u;
     u_tail_len := u_tail_len u |}.
Definition set_cap (c : Z) (u : fout_udata) : fout_udata :=
  {| u_fd := u_fd u; u_buf := u_buf u; u_len := u_len u; u_cap := c; u_use_mutex := u_use_mutex u;
     u_truncated := u_truncated u; u_trunc_marker := u_trunc_marker u; u_tail := u_tail u;
     u_tail_len := u_tail_len u |}.
Definition set_tail (t : bytes) (n : nat) (u : fout_udata) : fout_udata :=
  {| u_fd := u_fd u; u_buf := u_buf u; u_len := u_len u; u_cap := u_cap u;
     u_use_mutex := u_use_mutex u; u_truncated := u_truncated u;
     u_trunc_marker := u_trunc_marker u; u_tail := t; u_tail_len := n |}.

(** [pthread_mutex_lock] and [pthread_mutex_unlock] of the handler's mutex. *)
Definition mutex_lock : FM unit :=
  f ← get; if fo_mutex f then raise Deadlock else put (put_mutex true f).
Definition mutex_unlock : FM unit := modify (put_mutex false).

(** A store into the heap buffer of [u_cap] bytes; the bytes before [off] must
    have been written. *)
Definition buf_store (u : fout_udata) (off : nat) (bs : bytes) : FM bytes :=
  if bool_decide (Z.of_nat (off + length bs) <= u_cap u) && bool_decide (off <= length (u_buf u))%nat
  then mret (poke (u_buf u) off bs) else raise OutOfBounds.

(** ** Growing the buffer *)

(** [while (new_cap < needed_cap) new_cap *= 2;] *)
Fixpoint double_until (n : nat) (new_cap needed_cap : Z) : FM Z :=
  match n with
  | O => diverge
  | S n' => if new_cap <? needed_cap then double_until n' (u64 (new_cap * 2)) needed_cap
            else mret new_cap
  end.

(** 4 MB is reached from 1 in 22 doublings. *)
Definition DOUBLE_FUEL : nat := 32.

Definition event_handler_fout_realloc (u : fout_udata) (needed_cap : Z) : FM (Z * fout_udata) :=
  if PHPSPY_FOUT_MAX_BUFFER <? needed_cap then mret (PHPSPY_ERR, u) else
  new_cap ← double_until DOUBLE_FUEL (u_cap u) needed_cap;
  let new_cap := if PHPSPY_FOUT_MAX_BUFFER <? new_cap then PHPSPY_FOUT_MAX_BUFFER else new_cap in
  if os_realloc os new_cap then mret (PHPSPY_OK, set_cap new_cap u) else mret (PHPSPY_ERR, u).

(** ** Appending a record *)

Definition event_handler_fout_truncate (u : fout_udata) : FM fout_udata :=
  let len := match memrchr (opt_frame_delim o) (take (u_len u) (u_buf u)) with
             | Some i => S i
             | None => 0%nat
             end in
  b ← buf_store u len [NUL];
  mret (set_bytes b len true u).

(** The inner [while] of the stripping loop, over the appended text [r] from
    index [cur] on. *)
Fixpoint strip_pass (n : nat) (d : ascii) (r : bytes) (cur : nat) : bytes * nat :=
  match n with
  | O => (r, cur)
  | S n' =>
    if bool_decide (cur < length r)%nat then
      match memchr d (drop cur r) with
      | None => (r, cur)
      | Some i => strip_pass n' d (poke r (cur + i) ["?"%char]) (S (cur + i))
      end
    else (r, cur)
  end.

Definition strip_delims (r : bytes) : bytes :=
  let '(r1, cur) := strip_pass (S (length r)) (opt_frame_delim o) r 0 in
  fst (strip_pass (S (length r)) (opt_trace_delim o) r1 cur).

(** [vsnprintf(udata->buf + udata->len, rem_cap, ...)] with the text [s]. *)
Definition buf_snprintf (u : fout_udata) (rem_cap : Z) (s : bytes) : FM fout_udata :=
  if rem_cap =? 0 then mret u else
  b ← buf_store u (u_len u) (take (Z.to_nat (rem_cap - 1)) s ++ [NUL]);
  mret (set_bytes b (u_len u) (u_truncated u) u).

Definition event_handler_fout_snprintf (strip_delim : bool) (s : bytes) (u : fout_udata) : FM fout_udata :=
  if u_truncated u then mret u else
  let append_len := length s in
  let rem_cap := u64 (u_cap u - Z.of_nat (u_len u)) in
  u ← buf_snprintf u rem_cap s;
  '(ok, u) ←
    (if bool_decide (rem_cap <= Z.of_nat append_len) then
       '(rv, u) ← event_handler_fout_realloc u (Z.of_nat (u_len u) + Z.of_nat append_len + 1);
       if bool_decide (rv <> PHPSPY_OK) then u ← event_handler_fout_truncate u; mret (false, u) else
       u ← buf_snprintf u (u64 (u_cap u - Z.of_nat (u_len u))) s;
       mret (true, u)
     else mret (true, u));
  if negb ok then mret u else
  b ← (if strip_delim
       then buf_store u (u_len u) (strip_delims (peek (u_buf u) (u_len u) append_len))
       else mret (u_buf u));
  mret (set_bytes b (u_len u + append_len) (u_truncated u) u).

(** A record and its delimiter: the pair of calls every event makes. *)
Definition put_record (s : bytes) (u : fout_udata) : FM fout_udata :=
  u ← event_handler_fout_snprintf true s u;
  event_handler_fout_snprintf false [opt_frame_delim o] u.

(** ** Writing *)

(** [event_handler_fout_writev] on the concatenation of the vectors. *)
Definition event_handler_fout_writev (fd : Z) (iov : list bytes) : FM Z :=
  f ← get;
  let data := concat iov in
  let ret := os_writev os (length (fo_writes f)) fd data in
  put (put_writes (fo_writes f ++ [{| wr_fd := fd; wr_data := data; wr_ret := ret |}]) f);;
  mret (if ret =? Z.of_nat (length data) then PHPSPY_OK else PHPSPY_ERR).

Definition event_handler_fout_write_whole (u : fout_udata) : FM Z :=
  event_handler_fout_writev (u_fd u)
    ([take (u_len u) (u_buf u)]
     ++ (if u_truncated u then [u_trunc_marker u] else [])
     ++ [[opt_trace_delim o]]).

Definition trace_id_text (trace_id chunk_idx : Z) : bytes :=
  cs "# trace_id = " ++ fmt_u trace_id ++ "."%char :: fmt_u chunk_idx
  ++ ["~"%char; opt_frame_delim o; opt_trace_delim o].

Definition event_handler_fout_fill_trace_id (u : fout_udata) (trace_id chunk_idx : Z) : FM fout_udata :=
  let text := trace_id_text trace_id chunk_idx in
  tail ← snprintf (u_tail u) 0 64 text;
  mret (set_tail tail (length text) u).

(** The end of the chunk that starts at [start], as an offset, when a record
    boundary fits. *)
Definition event_handler_fout_find_chunk_end (buf : bytes) (start stop max_chunk_len : nat) : option nat :=
  if bool_decide (stop - start <= max_chunk_len)%nat then Some stop else
  match memrchr (opt_frame_delim o) (peek buf start max_chunk_len) with
  | None => None
  | Some i => Some (start + i + 1)%nat
  end.

Definition event_handler_fout_write_chunk (u : fout_udata) (body : bytes) (sentinel : ascii)
    : FM (Z * fout_udata) :=
  if bool_decide (u_tail_len u < 3)%nat then raise AssertFailed else
  tail ← store (u_tail u) (u_tail_len u - 3) [sentinel];
  if bool_decide (length tail < u_tail_len u)%nat then raise OverRead else
  rv ← event_handler_fout_writev (u_fd u) [body; take (u_tail_len u) tail];
  mret (rv, set_tail tail (u_tail_len u) u).

(** The [while (chunk_start < stop)] loop: the code, the user data, where it
    stopped and the next chunk index. *)
Fixpoint chunk_loop (n : nat) (u : fout_udata) (trace_id chunk_idx : Z) (start : nat) (rv : Z)
    : FM (Z * fout_udata * nat * Z) :=
  match n with
  | O => diverge
  | S n' =>
    let stop := u_len u in
    if bool_decide (stop <= start)%nat then mret (rv, u, start, chunk_idx) else
    u ← event_handler_fout_fill_trace_id u trace_id chunk_idx;
    let max_chunk_len := Z.to_nat (opt_fout_buffer_size o - Z.of_nat (u_tail_len u)) in
    match event_handler_fout_find_chunk_end (u_buf u) start stop max_chunk_len with
    | None => mret (rv, u, start, chunk_idx)
    | Some chunk_end =>
      let sentinel := if bool_decide (chunk_end = stop) && negb (u_truncated u) then "!"%char else "~"%char in
      '(r, u) ← event_handler_fout_write_chunk u (peek (u_buf u) start (chunk_end - start)) sentinel;
      chunk_loop n' u trace_id (u64 (chunk_idx + 1)) chunk_end (Z.lor rv r)
    end
  end.

Definition event_handler_fout_write_chunked (u : fout_udata) : FM (Z * fout_udata) :=
  f ← get;
  let trace_id := fo_trace_id f in
  put (put_trace_id (u64 (trace_id + 1)) f);;
  '(rv, u, start, chunk_idx) ← chunk_loop (S (u_len u)) u trace_id 0 0 PHPSPY_OK;
  let u := if bool_decide (start < u_len u)%nat then set_bytes (u_buf u) (u_len u) true u else u in
  if negb (u_truncated u) then mret (rv, u) else
  u ← event_handler_fout_fill_trace_id u trace_id chunk_idx;
  '(r, u) ← event_handler_fout_write_chunk u (u_trunc_marker u) "!"%char;
  mret (Z.lor rv r, u).

Definition event_handler_fout_write (u : fout_udata) : FM (Z * fout_udata) :=
  let total_len := Z.of_nat (u_len u) + 1
    + (if u_truncated u then Z.of_nat (length (u_trunc_marker u)) else 0) in
  (if u_use_mutex u then mutex_lock else mret tt);;
  '(rv, u) ←
    (if bool_decide (total_len <= opt_fout_buffer_size o) then
       rv ← event_handler_fout_write_whole u; mret (rv, u)
     else event_handler_fout_write_chunked u);
  (if u_use_mutex u then mutex_unlock else mret tt);;
  mret (if u_truncated u then Z.lor rv PHPSPY_ERR_TRUNCATED else rv, u).

(** ** Opening *)

Definition event_handler_fout_open : FM (Z * Z) :=
  mutex_lock;;
  tfd ←
    (match strstr (opt_path_output o) (cs "%d") with
     | Some _ =>
       match fmt_path (Some (os_gettid os)) (opt_path_output o) with
       | Done apath => mret (os_open os apath)
       | Fault x => raise x
       | Diverge => diverge
       end
     | None =>
       if bool_decide (opt_path_output o = cs "-") then mret (os_dup os STDOUT_FILENO) else
       f ← get;
       if fo_shared_fd f <? 0 then
         let tfd := os_open os (opt_path_output o) in
         put (put_shared_fd tfd f);;
         mret tfd
       else mret (os_dup os (fo_shared_fd f))
     end);
  mutex_unlock;;
  mret (if tfd <? 0 then (PHPSPY_ERR, -1) else (PHPSPY_OK, tfd)).

(** ** Records *)

Definition fmt_frame (f : trace_frame) : bytes :=
  let l := f_loc f in
  fmt_d (f_depth f) ++ " "%char :: fmt_prec (l_class_len l) (l_class l)
  ++ (if 0 <? l_class_len l then cs "::" else [])
  ++ fmt_prec (l_func_len l) (l_func l) ++ " "%char :: fmt_prec (l_file_len l) (l_file l)
  ++ ":"%char :: fmt_d (l_lineno l).

Definition fmt_varpeek (entry var s : bytes) (n : Z) : bytes :=
  cs "# varpeek " ++ var ++ "@"%char :: entry ++ cs " = " ++ fmt_prec n s.

Definition fmt_glopeek (key s : bytes) (n : Z) : bytes :=
  cs "# glopeek " ++ key ++ cs " = " ++ fmt_prec n s.

(** ** The handler *)

Definition fout_init (handler_opts : option bytes) : FM Z :=
  '(rv, fd) ← event_handler_fout_open;
  try rv else_return rv ;;;
  let u := {| u_fd := fd; u_buf := []; u_len := 0; u_cap := opt_fout_buffer_size o;
              u_use_mutex := false; u_truncated := false; u_trunc_marker := [];
              u_tail := repeat NUL 64; u_tail_len := 0 |} in
  '(rv, u) ← event_handler_fout_realloc u (u_cap u);
  try rv else_return rv ;;;
  let u := {| u_fd := fd; u_buf := u_buf u; u_len := 0; u_cap := u_cap u;
              u_use_mutex := match handler_opts with
                             | Some s => bool_decide (is_Some (strchr s "m"%char))
                             | None => false
                             end;
              u_truncated := false;
              u_trunc_marker := cs "# truncated = 1" ++ [opt_frame_delim o];
              u_tail := u_tail u; u_tail_len := 0 |} in
  modify (put_udata (ULive u));;
  mret PHPSPY_OK.

Definition fout_stack_end (pid : Z) (u : fout_udata) : FM (Z * fout_udata) :=
  if bool_decide (u_len u = 0%nat) then mret (PHPSPY_OK, u) else
  skipped ← (match opt_filter_re o with
             | Some re =>
               s ← c_str (u_buf u);
               mret (if opt_filter_negate o then re s else negb (re s))
             | None => mret false
             end);
  if (skipped : bool) then mret (PHPSPY_ERR_SKIPPED, u) else
  f ← get;
  u ← (if opt_verbose_fields_ts o
       then let '(sec, usec) := os_timeofday os (length (fo_writes f)) in
            put_record (cs "# trace_ts = " ++ fmt_timeval sec usec) u
       else mret u);
  u ← (if opt_verbose_fields_pid o then put_record (cs "# pid = " ++ fmt_d pid) u else mret u);
  event_handler_fout_write u.

(** The part of the [switch] that runs on live user data. *)
Definition fout_event (ev : event) (u : fout_udata) : FM (Z * fout_udata) :=
  match ev with
  | EvStackBegin =>
    b ← buf_store u 0 [NUL];
    mret (PHPSPY_OK, set_bytes b 0 false u)
  | EvFrame fr => u ← put_record (fmt_frame fr) u; mret (PHPSPY_OK, u)
  | EvVarpeek entry var s n => u ← put_record (fmt_varpeek entry var s n) u; mret (PHPSPY_OK, u)
  | EvGlopeek key s n => u ← put_record (fmt_glopeek key s n) u; mret (PHPSPY_OK, u)
  | EvRequest r =>
    s ← c_str (r_uri r);     u ← put_record (cs "# uri = " ++ s) u;
    s ← c_str (r_path r);    u ← put_record (cs "# path = " ++ s) u;
    s ← c_str (r_qstring r); u ← put_record (cs "# qstring = " ++ s) u;
    s ← c_str (r_cookie r);  u ← put_record (cs "# cookie = " ++ s) u;
    u ← put_record (cs "# ts = " ++ fmt_f (r_ts r)) u;
    mret (PHPSPY_OK, u)
  | EvMem size peak =>
    u ← put_record (cs "# mem " ++ fmt_u size ++ " "%char :: fmt_u peak) u; mret (PHPSPY_OK, u)
  | EvStackEnd pid => fout_stack_end pid u
  | EvInit _ | EvError | EvDeinit => mret (PHPSPY_OK, u)
  end.

Definition event_handler_fout (ev : event) : FM Z :=
  f ← get;
  match fo_udata f, ev with
  | _, EvInit handler_opts => fout_init handler_opts
  | UNull, _ => mret PHPSPY_ERR
  | UFreed, _ => raise UseAfterFree
  | ULive u, EvDeinit =>
    put (put_udata UFreed
          (if u_fd u =? fo_shared_fd f then f else put_closed (u_fd u :: fo_closed f) f));;
    mret PHPSPY_OK
  | ULive u, _ =>
    '(rv, u) ← fout_event ev u;
    modify (put_udata (ULive u));;
    mret rv
  end.

(** The handler as the tracer sees it. *)
#[export] Instance fout_handler : EventHandler fout := fun ev f => event_handler_fout ev f.

End fout.
