(* ===== verification/FoutSpec.v ===== *)
(** * FoutSpec: what the trace writer promises

    The buffer is, at every event, the concatenation of the records accepted so
    far, each followed by the frame delimiter ([holds]).  The theorems relate
    the records to the bytes of the [writev] calls. *)
From S2P Require Import Prelude CLib Layout Context Fout.

(** ** Stripping delimiters *)

Definition subst_char (d c : ascii) : ascii := if decide (c = d) then "?"%char else c.

(** Where the second pass of the stripping loop starts: behind the last frame
    delimiter. *)
Definition strip_from (d : ascii) (r : bytes) : nat :=
  match memrchr d r with Some i => S i | None => 0%nat end.

(** ** Records in the buffer *)

Definition join (d : ascii) (rs : list bytes) : bytes := concat (map (fun r => r ++ [d]) rs).

(** The handler's buffer holds [content], NUL-terminated. *)
Record holds (o : options) (u : fout_udata) (content : bytes) : Prop := {
  h_len : length content = u_len u;
  h_content : take (u_len u) (u_buf u) = content;
  h_nul : u_buf u !! u_len u = Some NUL \/ u_buf u = [];
  h_room : Z.of_nat (u_len u) < u_cap u;
  h_bound : Z.of_nat (length (u_buf u)) <= u_cap u;
  h_cap : 1 <= u_cap u <= PHPSPY_FOUT_MAX_BUFFER;
  h_tail : length (u_tail u) = 64%nat;
  h_marker : u_trunc_marker u = cs "# truncated = 1" ++ [opt_frame_delim o];
}.

(** Everything but the buffer and its capacity. *)
Definition same_rest (u u' : fout_udata) : Prop :=
  u_fd u' = u_fd u /\ u_use_mutex u' = u_use_mutex u /\ u_trunc_marker u' = u_trunc_marker u
  /\ u_tail u' = u_tail u /\ u_tail_len u' = u_tail_len u.

(** The delimiters the option parser can set. *)
Definition delims_ok (o : options) : Prop :=
  opt_frame_delim o <> NUL /\ opt_trace_delim o <> NUL /\
  opt_frame_delim o <> "?"%char /\ opt_trace_delim o <> "?"%char.

(** ** Lemmas: stripping *)

Section strip.
Context (o : options).

Lemma poke_one {A} (l : list A) i x : poke l i [x] = <[i := x]> l \/ (length l <= i)%nat.
Proof.
  destruct (decide (i < length l)%nat) as [Hi|]; [left|right; lia].
  unfold poke. rewrite insert_take_drop by done. simpl. do 2 f_equal. f_equal. lia.
Qed.

Lemma memchr_split d r i :
  memchr d r = Some i -> r = take i r ++ d :: drop (S i) r /\ (d ∉ take i r) /\ (i < length r)%nat.
Proof.
  intros H. destruct (memchr_Some _ _ _ H) as [Hi Hn]. split_and!.
  - by rewrite take_drop_middle.
  - done.
  - by eapply lookup_lt_Some.
Qed.

Lemma map_subst_none d r : d ∉ r -> map (subst_char d) r = r.
Proof.
  induction r as [|c r IH]; [done|]. intros H. simpl. rewrite IH by set_solver.
  unfold subst_char. rewrite decide_False by set_solver. done.
Qed.

Lemma memrchr_app_none d a b : d ∉ b -> memrchr d (a ++ b) = memrchr d a.
Proof.
  intros Hb. induction a as [|c a IH]; simpl; [by apply memrchr_None|]. by rewrite IH.
Qed.

Lemma memrchr_app_some d a b i :
  memrchr d b = Some i -> memrchr d (a ++ b) = Some (length a + i)%nat.
Proof. intros Hb. induction a as [|c a IH]; simpl; [done|]. by rewrite IH. Qed.

Lemma strip_from_cons d a b : d ∉ a -> strip_from d (a ++ d :: b) = (S (length a) + strip_from d b)%nat.
Proof.
  intros Ha. unfold strip_from. destruct (memrchr d b) as [i|] eqn:Hb.
  - rewrite (memrchr_app_some d a (d :: b) (S i)); [lia|]. simpl. by rewrite Hb.
  - rewrite (memrchr_app_some d a (d :: b) 0); [lia|]. simpl. rewrite Hb. by rewrite decide_True.
Qed.

(** One pass replaces every [d] from [cur] on and stops behind the last one. *)
Lemma strip_pass_spec n d r p :
  d <> "?"%char -> (length r < n)%nat ->
  strip_pass n d (p ++ r) (length p) = (p ++ map (subst_char d) r, (length p + strip_from d r)%nat).
Proof.
  intros Hd. revert r p. induction n as [|n IH]; intros r p Hn; [lia|]. simpl.
  rewrite drop_app_length, length_app.
  case_bool_decide as Hlt.
  - destruct (memchr d r) as [i|] eqn:Hm.
    + destruct (memchr_split _ _ _ Hm) as (Hr & Hni & Hi).
      set (a := take i r) in *. set (b := drop (S i) r) in *.
      assert (length a = i) as Ha by (subst a; rewrite length_take; lia).
      replace (poke (p ++ r) (length p + i) ["?"%char]) with ((p ++ a ++ ["?"%char]) ++ b).
      2:{ destruct (poke_one (p ++ r) (length p + i) "?"%char) as [->|Hge];
            [|rewrite length_app in Hge; lia].
          rewrite insert_app_r, <-!app_assoc. f_equal. rewrite Hr.
          replace i with (length a + 0)%nat by lia. by rewrite insert_app_r. }
      replace (S (length p + i)) with (length (p ++ a ++ ["?"%char])).
      2:{ rewrite !length_app. simpl. lia. }
      rewrite IH by (rewrite Hr in Hn; rewrite length_app in Hn; simpl in Hn; lia).
      rewrite Hr, strip_from_cons by done. f_equal.
      * rewrite map_app. simpl. rewrite (map_subst_none d a) by done.
        unfold subst_char at 2. rewrite decide_True by done. by rewrite <-!app_assoc.
      * rewrite !length_app. simpl. lia.
    + apply memchr_None in Hm. rewrite map_subst_none by done.
      unfold strip_from. rewrite (proj2 (memrchr_None d r)) by done. f_equal. lia.
  - destruct r; [|simpl in Hlt; lia]. simpl. by rewrite app_nil_r, Nat.add_0_r.
Qed.

Lemma length_map_subst d r : length (map (subst_char d) r) = length r.
Proof. apply length_map. Qed.

Lemma strip_from_le d r : (strip_from d r <= length r)%nat.
Proof. unfold strip_from. destruct (memrchr d r) eqn:H; [|lia]. apply memrchr_lt in H. lia. Qed.

Lemma strip_delims_eq r :
  delims_ok o ->
  strip_delims o r =
    map (subst_char (opt_frame_delim o)) (take (strip_from (opt_frame_delim o) r) r)
    ++ map (subst_char (opt_trace_delim o)) (drop (strip_from (opt_frame_delim o) r) r).
Proof.
  intros (_ & _ & Hf & Ht). unfold strip_delims.
  assert (strip_pass (S (length r)) (opt_frame_delim o) r 0
    = (map (subst_char (opt_frame_delim o)) r, strip_from (opt_frame_delim o) r)) as ->
    by (apply (strip_pass_spec (S (length r)) (opt_frame_delim o) r []); [done|lia]).
  set (c := strip_from _ r). pose proof (strip_from_le (opt_frame_delim o) r) as Hc. fold c in Hc.
  assert (opt_frame_delim o ∉ drop c r) as Hnone.
  { subst c. unfold strip_from. destruct (memrchr _ r) eqn:Hm; [by apply memrchr_Some in Hm as [_ ?]|].
    rewrite drop_0. by apply memrchr_None. }
  assert (map (subst_char (opt_frame_delim o)) r
    = map (subst_char (opt_frame_delim o)) (take c r) ++ drop c r) as ->.
  { rewrite <-(take_drop c r) at 1. by rewrite map_app, (map_subst_none _ (drop c r)) by done. }
  pose proof (strip_pass_spec (S (length r)) (opt_trace_delim o) (drop c r)
    (map (subst_char (opt_frame_delim o)) (take c r)) Ht) as H2.
  rewrite length_map_subst, length_take, Nat.min_l in H2 by lia.
  rewrite H2 by (rewrite length_drop; lia). done.
Qed.

Lemma length_strip_delims r : delims_ok o -> length (strip_delims o r) = length r.
Proof.
  intros Ho. rewrite strip_delims_eq by done. rewrite length_app, !length_map_subst, <-length_app.
  by rewrite take_drop.
Qed.

Lemma elem_of_map_subst d c r : d <> "?"%char -> c ∈ map (subst_char d) r -> c <> d /\ (c = "?"%char \/ c ∈ r).
Proof.
  intros Hd Hc. apply list_elem_of_In, in_map_iff in Hc as (x & Hx & Hin).
  unfold subst_char in Hx. apply list_elem_of_In in Hin. case_decide; subst; auto.
Qed.

(** No stripped record holds a frame delimiter, and it has no character that
    was not there but [?]. *)
Lemma strip_no_frame_delim r : delims_ok o -> opt_frame_delim o ∉ strip_delims o r.
Proof.
  intros Ho Hin. rewrite strip_delims_eq in Hin by done. destruct Ho as (_ & _ & Hf & Ht).
  apply elem_of_app in Hin as [Hin|Hin]; apply elem_of_map_subst in Hin as [Hne Hc]; try done.
  destruct Hc as [Hc|Hc]; [congruence|].
  unfold strip_from in Hc. destruct (memrchr _ r) eqn:Hm; [by apply memrchr_Some in Hm as [_ ?]|].
  apply memrchr_None in Hm. by rewrite drop_0 in Hc.
Qed.

Lemma strip_elem c r : delims_ok o -> c ∈ strip_delims o r -> c = "?"%char \/ c ∈ r.
Proof.
  intros Ho Hin. rewrite strip_delims_eq in Hin by done. destruct Ho as (_ & _ & Hf & Ht).
  apply elem_of_app in Hin as [Hin|Hin]; apply elem_of_map_subst in Hin as [_ [Hc|Hc]]; auto; right.
  - rewrite <-(take_drop (strip_from (opt_frame_delim o) r) r). set_solver.
  - rewrite <-(take_drop (strip_from (opt_frame_delim o) r) r). set_solver.
Qed.

End strip.

(** ** Lemmas: appending *)

Section append.
Context (o : options) (os : os_env).

(** What is kept when the buffer cannot grow: up to the last frame delimiter. *)
Definition cut (content : bytes) : bytes := take (strip_from (opt_frame_delim o) content) content.

(** Why a record may be dropped. *)
Definition cannot_grow (needed : Z) : Prop :=
  PHPSPY_FOUT_MAX_BUFFER < needed \/ exists c, os_realloc os c = false.

Inductive appended (u : fout_udata) (content s : bytes) (u' : fout_udata) : Prop :=
| App_ok :
    holds o u' (content ++ s) -> u_truncated u' = false -> same_rest u u' -> u_buf u' <> [] ->
    appended u content s u'
| App_cut :
    holds o u' (cut content) -> u_truncated u' = true -> same_rest u u' -> u_buf u' <> [] ->
    cannot_grow (Z.of_nat (length content) + Z.of_nat (length s) + 1) ->
    appended u content s u'.

Lemma buf_store_wp d u off bs (Q : bytes -> fout -> Prop) f :
  Z.of_nat (off + length bs) <= u_cap u -> (off <= length (u_buf u))%nat ->
  Q (poke (u_buf u) off bs) f -> wpx d (buf_store u off bs) Q f.
Proof. intros. unfold buf_store. rewrite !bool_decide_true by done. by apply wpx_ret. Qed.

Lemma double_until_wp d n c needed (Q : Z -> fout -> Prop) f :
  1 <= c <= 2 * PHPSPY_FOUT_MAX_BUFFER -> needed <= PHPSPY_FOUT_MAX_BUFFER ->
  needed <= c * 2 ^ Z.of_nat n ->
  (forall r, needed <= r -> c <= r -> Q r f) -> wpx d (double_until (S n) c needed) Q f.
Proof.
  revert c. induction n as [|n IH]; intros c Hc Hn Hb HQ; cbn [double_until].
  - destruct (Z.ltb_spec c needed); [change (2 ^ Z.of_nat 0) with 1 in Hb; lia|].
    apply wpx_ret, HQ; lia.
  - destruct (Z.ltb_spec c needed); [|apply wpx_ret, HQ; lia].
    unfold PHPSPY_FOUT_MAX_BUFFER in *.
    rewrite wrap_small by lia. apply IH; [lia|done| |].
    + rewrite Nat2Z.inj_succ, Z.pow_succ_r in Hb by lia. lia.
    + intros. apply HQ; lia.
Qed.

Lemma realloc_wp d u needed (Q : Z * fout_udata -> fout -> Prop) f :
  1 <= u_cap u <= PHPSPY_FOUT_MAX_BUFFER ->
  (cannot_grow needed -> Q (PHPSPY_ERR, u) f) ->
  (forall c, needed <= c -> u_cap u <= c <= PHPSPY_FOUT_MAX_BUFFER -> Q (PHPSPY_OK, set_cap c u) f) ->
  wpx d (event_handler_fout_realloc os u needed) Q f.
Proof.
  intros Hc Hno Hyes. unfold event_handler_fout_realloc.
  destruct (Z.ltb_spec PHPSPY_FOUT_MAX_BUFFER needed).
  { apply wpx_ret, Hno. by left. }
  apply wpx_bind. change DOUBLE_FUEL with (S 31). apply double_until_wp; [lia|done| |].
  { unfold PHPSPY_FOUT_MAX_BUFFER in *. change (2 ^ Z.of_nat 31) with 2147483648. lia. }
  intros r Hr1 Hr2. cbv zeta.
  set (c := if PHPSPY_FOUT_MAX_BUFFER <? r then PHPSPY_FOUT_MAX_BUFFER else r).
  assert (needed <= c /\ u_cap u <= c <= PHPSPY_FOUT_MAX_BUFFER) as [Hc1 Hc2].
  { subst c. destruct (Z.ltb_spec PHPSPY_FOUT_MAX_BUFFER r); lia. }
  destruct (os_realloc os c) eqn:Hos; apply wpx_ret; [by apply Hyes|].
  apply Hno. right. eauto.
Qed.

(** The buffer after a complete [vsnprintf] of [s] over which [s'] of the same
    length is stored. *)
Lemma holds_write u content s s' c :
  holds o u content -> length s' = length s ->
  u_cap u <= c <= PHPSPY_FOUT_MAX_BUFFER ->
  Z.of_nat (u_len u) + Z.of_nat (length s) + 1 <= c ->
  holds o (set_bytes (poke (poke (u_buf u) (u_len u) (s ++ [NUL])) (u_len u) s')
             (u_len u + length s) false (set_cap c u)) (content ++ s').
Proof.
  intros [Hl Hc Hn Hr Hb Hcap Ht Hm] Hs Hcc Hfit.
  assert (u_len u <= length (u_buf u))%nat as Hle.
  { rewrite <-Hc in Hl. rewrite length_take in Hl. lia. }
  assert (length (poke (u_buf u) (u_len u) (s ++ [NUL]))
    = Nat.max (length (u_buf u)) (u_len u + length s + 1))%nat as Hlp.
  { rewrite length_poke_max by lia. rewrite length_app. simpl. lia. }
  split; cbn [u_len u_buf u_cap u_tail u_trunc_marker set_bytes set_cap]; try done.
  - rewrite length_app. lia.
  - rewrite <-Hs, take_poke_end by lia. f_equal. rewrite take_poke by lia. done.
  - left. rewrite lookup_poke_after by lia.
    rewrite lookup_poke_in by (rewrite ?length_app; simpl; lia).
    rewrite lookup_app_r by lia. by rewrite Nat.sub_diag.
  - lia.
  - rewrite length_poke_max by lia. lia.
  - lia.
Qed.

Lemma set_bytes_same u b n :
  same_rest u (set_bytes b n (u_truncated u) u).
Proof. done. Qed.

Lemma holds_len_le u content : holds o u content -> (u_len u <= length (u_buf u))%nat.
Proof. intros [Hl Hc _ _ _ _ _ _]. rewrite <-Hc, length_take in Hl. lia. Qed.

Lemma length_cut content : (length (cut content) <= length content)%nat.
Proof. unfold cut. rewrite length_take. lia. Qed.

(** A partial [vsnprintf] leaves the content alone. *)
Lemma truncate_wp d u content s0 (Q : fout_udata -> fout -> Prop) f :
  holds o u content ->
  Z.of_nat (u_len u) + Z.of_nat (length s0) <= u_cap u ->
  let u1 := set_bytes (poke (u_buf u) (u_len u) s0) (u_len u) (u_truncated u) u in
  (forall u', holds o u' (cut content) -> u_truncated u' = true -> same_rest u u' -> u_buf u' <> [] -> Q u' f) ->
  wpx d (event_handler_fout_truncate o u1) Q f.
Proof.
  intros Hh Hs0 u1 HQ. pose proof (holds_len_le u content Hh) as Hle.
  destruct Hh as [Hl Hc Hn Hr Hb Hcap Ht Hm].
  unfold event_handler_fout_truncate. subst u1. cbn [u_len u_buf u_cap set_bytes].
  rewrite take_poke by lia. rewrite Hc.
  fold (strip_from (opt_frame_delim o) content). set (n := strip_from _ content).
  pose proof (strip_from_le (opt_frame_delim o) content) as Hn'. fold n in Hn'.
  assert (length (poke (u_buf u) (u_len u) s0) = Nat.max (length (u_buf u)) (u_len u + length s0))
    as Hlp by (apply length_poke_max; lia).
  apply wpx_bind, buf_store_wp; cbn [u_len u_buf u_cap set_bytes length]; [lia|lia|].
  apply wpx_ret, HQ; [|done|done|].
  2:{ cbn. intros He. apply (f_equal length) in He. rewrite length_poke_max in He by lia. simpl in He. lia. }
  split; cbn [u_len u_buf u_cap u_tail u_trunc_marker set_bytes]; try done.
  - unfold cut. fold n. rewrite length_take. lia.
  - unfold cut. fold n. rewrite take_poke_le by lia. rewrite take_poke_le by lia.
    rewrite <-Hc, take_take. f_equal. lia.
  - left. apply lookup_poke_head. lia.
  - lia.
  - rewrite length_poke_max by lia. simpl. lia.
Qed.

Lemma poke_not_nil (b : bytes) n x s : (n <= length b)%nat -> poke b n (s ++ [x]) <> [].
Proof.
  intros Hn He. apply (f_equal length) in He. rewrite length_poke_max, length_app in He by done.
  simpl in He. lia.
Qed.

(** A write over an earlier, shorter write at the same place. *)
Lemma poke_poke (b : bytes) n s t :
  (n <= length b)%nat -> (length t <= length s)%nat -> poke (poke b n t) n s = poke b n s.
Proof.
  intros Hn Hl. unfold poke at 1 3. rewrite take_poke by done. do 2 f_equal.
  apply list_eq. intros i. rewrite !lookup_drop. apply lookup_poke_after; lia.
Qed.

Lemma peek_poke_text (b : bytes) n s x : (n <= length b)%nat -> peek (poke b n (s ++ [x])) n (length s) = s.
Proof.
  intros. unfold peek, poke. rewrite drop_app_length' by (rewrite length_take; lia).
  rewrite <-app_assoc. by rewrite take_app_length.
Qed.

Lemma poke_peek (b : bytes) n s x :
  (n <= length b)%nat -> poke (poke b n (s ++ [x])) n s = poke b n (s ++ [x]).
Proof.
  intros. unfold poke at 1. rewrite take_poke by done. rewrite <-(peek_poke_text b n s x) at 1 by done.
  rewrite app_assoc, <-(take_poke b n (s ++ [x])) by done.
  unfold peek. by rewrite take_take_drop, take_drop.
Qed.

(** Stripping the text and advancing [len], once the text is in place. *)
Lemma append_finish d (strip : bool) s u content c (Q : fout_udata -> fout -> Prop) f :
  delims_ok o -> holds o u content ->
  u_cap u <= c <= PHPSPY_FOUT_MAX_BUFFER -> Z.of_nat (u_len u) + Z.of_nat (length s) + 1 <= c ->
  (forall u', appended u content (if strip then strip_delims o s else s) u' -> Q u' f) ->
  let u2 := set_bytes (poke (u_buf u) (u_len u) (s ++ [NUL])) (u_len u) false (set_cap c u) in
  wpx d (b ← (if strip
              then buf_store u2 (u_len u2) (strip_delims o (peek (u_buf u2) (u_len u2) (length s)))
              else mret (u_buf u2));
         mret (set_bytes b (u_len u2 + length s) (u_truncated u2) u2)) Q f.
Proof.
  intros Ho Hh Hcc Hfit HQ u2. subst u2. cbn [u_len u_buf u_truncated set_bytes set_cap].
  pose proof (holds_len_le u content Hh) as Hle.
  pose proof (length_strip_delims o s Ho) as Hls.
  rewrite peek_poke_text by done.
  assert (length (poke (u_buf u) (u_len u) (s ++ [NUL])) = Nat.max (length (u_buf u)) (u_len u + length s + 1))%nat
    as Hlp by (rewrite length_poke_max by lia; rewrite length_app; simpl; lia).
  pose proof (h_bound o u content Hh).
  destruct strip.
  - apply wpx_bind, buf_store_wp; cbn [u_len u_buf u_cap set_bytes set_cap]; [lia|lia|].
    apply wpx_ret, HQ. apply App_ok; [by apply holds_write|done|done|].
    cbn. intros He. apply (f_equal length) in He. rewrite length_poke_max in He by lia. simpl in He. lia.
  - apply wpx_bind, wpx_ret, wpx_ret, HQ. apply App_ok; [|done|done|by apply poke_not_nil].
    rewrite <-poke_peek by done. by apply holds_write.
Qed.

Lemma buf_snprintf_wp d u content rem s (Q : fout_udata -> fout -> Prop) f :
  holds o u content -> rem = u_cap u - Z.of_nat (u_len u) ->
  Q (set_bytes (poke (u_buf u) (u_len u) (take (Z.to_nat (rem - 1)) s ++ [NUL])) (u_len u) (u_truncated u) u) f ->
  wpx d (buf_snprintf u rem s) Q f.
Proof.
  intros Hh -> HQ. pose proof (holds_len_le u content Hh). pose proof (h_room o u content Hh).
  unfold buf_snprintf. destruct (Z.eqb_spec (u_cap u - Z.of_nat (u_len u)) 0) as [|_]; [lia|].
  apply wpx_bind, buf_store_wp; [rewrite length_app, length_take; simpl; lia|done|]. by apply wpx_ret.
Qed.

Lemma fout_snprintf_wp d strip s u content (Q : fout_udata -> fout -> Prop) f :
  delims_ok o -> holds o u content -> u_truncated u = false ->
  (forall u', appended u content (if strip : bool then strip_delims o s else s) u' -> Q u' f) ->
  wpx d (event_handler_fout_snprintf o os strip s u) Q f.
Proof.
  intros Ho Hh Htr HQ. unfold event_handler_fout_snprintf. rewrite Htr. cbv zeta.
  pose proof (holds_len_le u content Hh) as Hle.
  pose proof Hh as [Hl Hc Hn Hr Hb Hcap Ht Hm]. unfold PHPSPY_FOUT_MAX_BUFFER in Hcap.
  rewrite wrap_small by lia.
  apply wpx_bind. eapply buf_snprintf_wp; [done|done|].
  set (t := take _ s ++ [NUL]).
  assert (Z.of_nat (u_len u) + Z.of_nat (length t) <= u_cap u /\ (length t <= S (length s))%nat) as [Ht1 Ht2]
    by (subst t; rewrite length_app, length_take; simpl; lia).
  apply wpx_bind. case_bool_decide as Hfit.
  - apply wpx_bind, realloc_wp; cbn [u_cap set_bytes]; [exact Hcap| |].
    + intros Hno. rewrite bool_decide_true by done.
      apply wpx_bind. apply truncate_wp with content; [done|done|].
      intros u' ????. apply wpx_ret, wpx_ret, HQ. apply App_cut; try done.
      destruct strip; rewrite ?length_strip_delims, Hl by done; exact Hno.
    + intros c Hc1 Hc2. cbn [u_len set_bytes] in Hc1. unfold PHPSPY_FOUT_MAX_BUFFER in Hc2.
      rewrite bool_decide_false by (intros HH; by apply HH).
      apply wpx_bind. unfold buf_snprintf. cbn [u_len u_buf u_cap u_truncated set_bytes set_cap].
      rewrite wrap_small by lia.
      destruct (Z.eqb_spec (c - Z.of_nat (u_len u)) 0) as [|_]; [lia|].
      rewrite (take_ge s) by lia.
      apply wpx_bind, buf_store_wp; cbn [u_len u_buf u_cap set_bytes set_cap];
        [rewrite length_app; simpl; lia|rewrite length_poke_max by lia; lia|].
      apply wpx_ret, wpx_ret. cbn [negb u_len u_buf u_truncated set_bytes set_cap].
      rewrite poke_poke by (rewrite ?length_app; simpl; lia). rewrite Htr.
      apply (append_finish d strip s u content c); try done; unfold PHPSPY_FOUT_MAX_BUFFER; lia.
  - apply wpx_ret. cbn [negb]. subst t. rewrite take_ge by lia. rewrite Htr.
    apply (append_finish d strip s u content (u_cap u)); try done; unfold PHPSPY_FOUT_MAX_BUFFER; lia.
Qed.

(** ** The record abstraction *)

(** The buffer holds the records [rs]; [t] is the truncation flag. *)
Definition recs (u : fout_udata) (rs : list bytes) (t : bool) : Prop :=
  holds o u (join (opt_frame_delim o) rs) /\ u_truncated u = t /\
  Forall (fun r => (opt_frame_delim o ∉ r) /\ (NUL ∉ r)) rs.

Lemma join_snoc fd rs r : join fd (rs ++ [r]) = join fd rs ++ r ++ [fd].
Proof. unfold join. rewrite map_app, concat_app. simpl. by rewrite app_nil_r. Qed.

Lemma join_last fd rs : rs = [] \/ exists y, join fd rs = y ++ [fd].
Proof.
  destruct rs as [|r rs] using rev_ind; [by left|right].
  rewrite join_snoc. eexists. by rewrite app_assoc.
Qed.

Lemma strip_from_join fd rs x : fd ∉ x -> strip_from fd (join fd rs ++ x) = length (join fd rs).
Proof.
  intros Hx. unfold strip_from. rewrite memrchr_app_none by done.
  destruct (join_last fd rs) as [->|[y ->]]; [done|].
  rewrite memrchr_last, length_app. simpl. lia.
Qed.

Lemma cut_join rs x : opt_frame_delim o ∉ x -> cut (join (opt_frame_delim o) rs ++ x) = join (opt_frame_delim o) rs.
Proof. intros Hx. unfold cut. rewrite strip_from_join by done. by rewrite take_app_length. Qed.

Lemma same_rest_trans u1 u2 u3 : same_rest u1 u2 -> same_rest u2 u3 -> same_rest u1 u3.
Proof. unfold same_rest. intros (?&?&?&?&?) (?&?&?&?&?). split_and!; congruence. Qed.

(** One record: it is appended, or everything from it on is dropped. *)
Definition record_step (u : fout_udata) (rs : list bytes) (t : bool) (s : bytes) (u' : fout_udata) : Prop :=
  same_rest u u' /\ u_buf u' <> [] /\
  if t then u' = u
  else recs u' (rs ++ [strip_delims o s]) false
       \/ (recs u' rs true
           /\ cannot_grow (Z.of_nat (length (join (opt_frame_delim o) rs)) + Z.of_nat (length s) + 2)).

Lemma cannot_grow_mono a b : a <= b -> cannot_grow a -> cannot_grow b.
Proof. intros Hab [H|H]; [left; lia|by right]. Qed.

Lemma put_record_wp d u rs t s (Q : fout_udata -> fout -> Prop) f :
  delims_ok o -> NUL ∉ s -> recs u rs t -> (t = true -> u_buf u <> []) ->
  (forall u', record_step u rs t s u' -> Q u' f) ->
  wpx d (put_record o os s u) Q f.
Proof.
  intros Ho Hs (Hh & Ht & Hf) Hnb HQ. unfold put_record. apply wpx_bind.
  destruct t.
  { unfold event_handler_fout_snprintf at 1. rewrite Ht. apply wpx_ret.
    unfold event_handler_fout_snprintf. rewrite Ht. apply wpx_ret, HQ.
    split_and!; [done|by apply Hnb|done]. }
  pose proof (strip_no_frame_delim o s Ho) as Hfd.
  pose proof (length_strip_delims o s Ho) as Hls.
  apply fout_snprintf_wp with (join (opt_frame_delim o) rs); [done|done|done|].
  intros u1 [H1 T1 R1 N1|H1 T1 R1 N1 G1].
  - apply fout_snprintf_wp with (join (opt_frame_delim o) rs ++ strip_delims o s); [done|done|done|].
    intros u2 [H2 T2 R2 N2|H2 T2 R2 N2 G2]; apply HQ; split_and!; eauto using same_rest_trans.
    + left. split_and!; [|done|].
      * rewrite join_snoc, app_assoc. exact H2.
      * apply Forall_app. split; [done|]. apply Forall_singleton. split; [done|].
        intros Hin. apply strip_elem in Hin as [Hin|Hin]; [done|done|done].
    + right. rewrite cut_join in H2 by done. split; [done|].
      eapply cannot_grow_mono; [|exact G2]. rewrite length_app. simpl. lia.
  - unfold event_handler_fout_snprintf. rewrite T1. apply wpx_ret, HQ. split_and!; [done|done|].
    right. rewrite <-(app_nil_r (join _ rs)), cut_join in H1 by set_solver.
    split; [done|]. eapply cannot_grow_mono; [|exact G1]. lia.
Qed.

End append.
