(* ===== verification/FoutWrite.v ===== *)
(** * FoutWrite: the bytes of a written trace

    [event_handler_fout_write] in terms of the records in the buffer: one write
    when the trace fits, otherwise chunks of whole records that carry the trace
    id, a chunk index and a sentinel. *)
From S2P Require Import Prelude CLib Layout Context Fout FoutSpec.

(** ** The chunk format *)

Definition chunk_tail (o : options) (id idx : Z) (sentinel : ascii) : bytes :=
  cs "# trace_id = " ++ fmt_u id ++ "."%char :: fmt_u idx
  ++ [sentinel; opt_frame_delim o; opt_trace_delim o].

Definition marker (o : options) : bytes := cs "# truncated = 1" ++ [opt_frame_delim o].

(** The [i]-th of the groups [gs], when [last] says that the trace ends with
    the last of them. *)
Definition group_data (o : options) (id : Z) (k : nat) (last : bool) (gs : list (list bytes)) : list bytes :=
  imap (fun i g => join (opt_frame_delim o) g ++
    chunk_tail o id (Z.of_nat (k + i)) (if bool_decide (S i = length gs) && last then "!"%char else "~"%char)) gs.

(** The writes of a chunked trace: the groups and, if records are missing, the
    truncation record. *)
Definition chunked_data (o : options) (id : Z) (t : bool) (gs : list (list bytes)) (rest : list bytes) : list bytes :=
  let cut := t || bool_decide (rest <> []) in
  group_data o id 0 (negb cut) gs
  ++ (if cut then [marker o ++ chunk_tail o id (Z.of_nat (length gs)) "!"%char] else []).

(** ** The write log *)

Definition full (w : write_call) : Prop := wr_ret w = Z.of_nat (length (wr_data w)).

(** A call the handler made on [fd], with the result the system gave. *)
Definition issued (os : os_env) (fd : Z) (w : write_call) : Prop :=
  wr_fd w = fd /\ exists k, wr_ret w = os_writev os k fd (wr_data w).

(** [f'] is [f] after writing [datas] to [fd]; [rv'] is the code [rv] becomes. *)
Definition wrote (os : os_env) (fd : Z) (f : fout) (rv : Z) (datas : list bytes) (f' : fout) (rv' : Z) : Prop :=
  exists ws, f' = put_writes (fo_writes f ++ ws) f /\ map wr_data ws = datas
    /\ Forall (issued os fd) ws
    /\ (rv' = PHPSPY_OK \/ rv' = PHPSPY_ERR)
    /\ (rv' = PHPSPY_OK <-> rv = PHPSPY_OK /\ Forall full ws).

(** ** Lemmas: splitting a buffer at record boundaries *)

Lemma join_app fd a b : join fd (a ++ b) = join fd a ++ join fd b.
Proof. unfold join. by rewrite map_app, concat_app. Qed.

Lemma join_cons fd r rs : join fd (r :: rs) = r ++ fd :: join fd rs.
Proof. unfold join. simpl. by rewrite <-app_assoc. Qed.

Lemma join_split fd rs y z :
  Forall (fun r => fd ∉ r) rs -> join fd rs = y ++ fd :: z ->
  exists g r', rs = g ++ r' /\ join fd g = y ++ [fd] /\ join fd r' = z /\ g <> [].
Proof.
  intros Hf. revert y. induction Hf as [|r rs Hr Hf IH]; intros y Hj; [by destruct y|].
  rewrite join_cons in Hj.
  destruct (decide (length r <= length y)%nat) as [Hle|Hgt].
  - assert (exists y', y = r ++ y') as [y' ->].
    { exists (drop (length r) y). rewrite <-(take_drop (length r) y) at 1. f_equal.
      apply (f_equal (take (length r))) in Hj. by rewrite take_app_length, take_app_le in Hj. }
    rewrite <-app_assoc in Hj. apply app_inv_head in Hj. destruct y' as [|c y']; simpl in Hj.
    + injection Hj as Hj. exists [r], rs. rewrite app_nil_r. split_and!; try done. by rewrite join_cons.
    + injection Hj as <- Hj. destruct (IH y' Hj) as (g & r' & -> & Hg & Hr' & _).
      exists (r :: g), r'. split_and!; try done. rewrite join_cons, Hg. by rewrite <-app_assoc.
  - exfalso. apply Hr. apply (f_equal (lookup (length y))) in Hj.
    rewrite lookup_app_l, lookup_app_r, Nat.sub_diag in Hj by lia. by eapply list_elem_of_lookup_2.
Qed.

Lemma length_join_pos fd rs : rs <> [] -> (0 < length (join fd rs))%nat.
Proof. destruct rs; [done|]. rewrite join_cons, length_app. simpl. lia. Qed.

Lemma join_nil_inv fd rs : join fd rs = [] -> rs = [].
Proof. destruct rs; [done|]. rewrite join_cons. by destruct l. Qed.

Section write.
Context (o : options) (os : os_env).
Abbreviation fd := (opt_frame_delim o).

(** ** Lemmas: one write *)

Lemma length_chunk_tail id idx s :
  0 <= id < 2 ^ 64 -> 0 <= idx < 2 ^ 64 -> (length (chunk_tail o id idx s) <= 57)%nat.
Proof.
  intros H1 H2. unfold chunk_tail. rewrite !length_app. simpl. rewrite length_app. simpl.
  pose proof (length_fmt_u64 id H1). pose proof (length_fmt_u64 idx H2). lia.
Qed.

Lemma length_chunk_tail_sentinel id idx s s' : length (chunk_tail o id idx s) = length (chunk_tail o id idx s').
Proof. unfold chunk_tail. rewrite !length_app. simpl. rewrite !length_app. done. Qed.

Lemma length_chunk_tail_ge id idx s : (3 <= length (chunk_tail o id idx s))%nat.
Proof. unfold chunk_tail. rewrite !length_app. simpl. lia. Qed.

Lemma fill_trace_id_wp d u id idx (Q : fout_udata -> fout -> Prop) f :
  length (u_tail u) = 64%nat -> 0 <= id < 2 ^ 64 -> 0 <= idx < 2 ^ 64 ->
  Q (set_tail (poke (u_tail u) 0 (chunk_tail o id idx "~"%char ++ [NUL]))
       (length (chunk_tail o id idx "~"%char)) u) f ->
  wpx d (event_handler_fout_fill_trace_id o u id idx) Q f.
Proof.
  intros Ht H1 H2 HQ. unfold event_handler_fout_fill_trace_id, snprintf.
  change (trace_id_text o id idx) with (chunk_tail o id idx "~"%char).
  pose proof (length_chunk_tail id idx "~"%char H1 H2).
  rewrite take_ge by lia.
  apply wpx_bind, store_ok; [rewrite length_app; cbn [length]; lia|]. by apply wpx_ret.
Qed.

Lemma writev_wp d n iov (Q : Z -> fout -> Prop) f :
  (forall rv f', wrote os n f PHPSPY_OK [concat iov] f' rv -> Q rv f') ->
  wpx d (event_handler_fout_writev os n iov) Q f.
Proof.
  intros HQ. unfold event_handler_fout_writev.
  apply wpx_bind, wpx_get, wpx_bind, wpx_put, wpx_ret, HQ.
  eexists [_]. split_and!; [done|done|by constructor; [split; [done|by eexists]|]| |].
  - case_match; auto.
  - rewrite Forall_singleton. unfold full. cbn [wr_ret wr_data].
    destruct (Z.eqb_spec (os_writev os (length (fo_writes f)) n (concat iov)) (Z.of_nat (length (concat iov))));
      [naive_solver|]. split; [done|]. intros [_ ?]. done.
Qed.

(** The sentinel overwrites the [~] of the filled-in text. *)
Lemma chunk_tail_sentinel (tail : bytes) id idx s :
  (length (chunk_tail o id idx "~"%char) <= 57)%nat -> length tail = 64%nat ->
  take (length (chunk_tail o id idx "~"%char))
    (poke (poke tail 0 (chunk_tail o id idx "~"%char ++ [NUL])) (length (chunk_tail o id idx "~"%char) - 3) [s])
  = chunk_tail o id idx s.
Proof.
  intros Hl Ht. unfold chunk_tail in *.
  rewrite (app_assoc (cs "# trace_id = ")), (app_comm_cons _ _ "."%char), app_assoc in Hl |- *.
  rewrite (app_assoc (cs "# trace_id = ")), (app_comm_cons _ _ "."%char), (app_assoc _ _ [s; _; _]).
  set (p := (cs "# trace_id = " ++ fmt_u id) ++ "."%char :: fmt_u idx) in *.
  rewrite length_app. cbn [length]. replace (length p + 3 - 3)%nat with (length p) by lia.
  unfold poke. rewrite take_0. rewrite <-!app_assoc. cbn [length Nat.add].
  rewrite app_nil_l, take_app_length, drop_app_ge by lia.
  replace (length p + 1 - length p)%nat with 1%nat by lia.
  by rewrite take_app_add.
Qed.

Lemma write_chunk_wp d u id idx body s (Q : Z * fout_udata -> fout -> Prop) f :
  length (u_tail u) = 64%nat -> 0 <= id < 2 ^ 64 -> 0 <= idx < 2 ^ 64 ->
  (forall rv f' tl, length tl = 64%nat -> wrote os (u_fd u) f PHPSPY_OK [body ++ chunk_tail o id idx s] f' rv ->
     Q (rv, set_tail tl (length (chunk_tail o id idx "~"%char)) u) f') ->
  let u1 := set_tail (poke (u_tail u) 0 (chunk_tail o id idx "~"%char ++ [NUL]))
       (length (chunk_tail o id idx "~"%char)) u in
  wpx d (event_handler_fout_write_chunk os u1 body s) Q f.
Proof.
  intros Ht H1 H2 HQ u1. subst u1. unfold event_handler_fout_write_chunk.
  cbn [u_tail_len u_tail u_fd set_tail].
  pose proof (length_chunk_tail id idx "~"%char H1 H2) as Hl.
  pose proof (length_chunk_tail_ge id idx "~"%char).
  rewrite bool_decide_false by lia.
  assert (length (poke (u_tail u) 0 (chunk_tail o id idx "~"%char ++ [NUL])) = 64%nat) as Ht1
    by (rewrite length_poke; rewrite ?length_app; cbn [length]; lia).
  apply wpx_bind, store_ok; [cbn [length]; lia|].
  rewrite length_poke by (cbn [length]; lia). rewrite bool_decide_false by lia.
  apply wpx_bind, writev_wp. intros rv f' Hw. apply wpx_ret.
  cbn [set_tail u_fd u_buf u_len u_cap u_use_mutex u_truncated u_trunc_marker].
  apply HQ; [by rewrite length_poke by (cbn [length]; lia)|].
  cbn [concat] in Hw. rewrite app_nil_r, chunk_tail_sentinel in Hw by lia. exact Hw.
Qed.

(** ** Lemmas: the chunk loop *)

(** The buffer from [start] on holds the records [rest]. *)
Definition at_records (u : fout_udata) (start : nat) (rest : list bytes) : Prop :=
  (start <= length (u_buf u))%nat /\ peek (u_buf u) start (u_len u - start) = join fd rest
  /\ u_len u = (start + length (join fd rest))%nat /\ Forall (fun r => fd ∉ r) rest.

Lemma at_records_prefix u start rest m :
  at_records u start rest -> (m <= length (join fd rest))%nat ->
  peek (u_buf u) start m = take m (join fd rest).
Proof.
  intros (Hs & Hp & Hl & _) Hm. rewrite <-Hp. unfold peek. rewrite take_take. f_equal. lia.
Qed.

Lemma at_records_next u start g rest :
  at_records u start (g ++ rest) -> at_records u (start + length (join fd g)) rest.
Proof.
  intros (Hs & Hp & Hl & Hf). rewrite join_app in Hp, Hl. rewrite length_app in Hl.
  apply Forall_app in Hf as [_ Hf]. 
  assert (length (peek (u_buf u) start (u_len u - start)) = length (join fd g ++ join fd rest)) as Hlp
    by by rewrite Hp.
  unfold peek in Hlp. rewrite length_take, length_drop, length_app in Hlp.
  split_and!; [lia| |lia|done].
  apply (f_equal (drop (length (join fd g)))) in Hp. rewrite drop_app_length in Hp.
  rewrite <-Hp. unfold peek. rewrite skipn_firstn_comm, drop_drop. f_equal. lia.
Qed.

Lemma find_chunk_end_spec u start rest m :
  at_records u start rest -> rest <> [] ->
  match event_handler_fout_find_chunk_end o (u_buf u) start (u_len u) m with
  | Some e => exists g r', rest = g ++ r' /\ g <> [] /\ e = (start + length (join fd g))%nat
      /\ (length (join fd g) <= m)%nat /\ bool_decide (e = u_len u) = bool_decide (r' = [])
  | None => exists r rs, rest = r :: rs /\ (m < length r + 1)%nat
  end.
Proof.
  intros Hat Hne. pose proof Hat as (Hs & Hp & Hl & Hf).
  unfold event_handler_fout_find_chunk_end. case_bool_decide as Hfit.
  { exists rest, []. rewrite app_nil_r. split_and!; try done; [lia|]. by rewrite !bool_decide_true. }
  rewrite (at_records_prefix u start rest m) by (done || lia).
  destruct (memrchr fd (take m (join fd rest))) as [i|] eqn:Hm.
  - pose proof (memrchr_lt _ _ _ Hm) as Hi. apply memrchr_Some in Hm as [Hm _].
    rewrite length_take in Hi. rewrite lookup_take_lt in Hm by lia.
    destruct (join_split fd rest (take i (join fd rest)) (drop (S i) (join fd rest)) Hf)
      as (g & r' & -> & Hg & Hr & Hgne); [by rewrite take_drop_middle|].
    assert (length (join fd g) = S i) as Hlg by (rewrite Hg, length_app, length_take; simpl; lia).
    exists g, r'. split_and!; [done|done|lia|lia|].
    rewrite join_app, length_app in *.
    assert (r' <> []) by (intros ->; simpl in *; lia).
    pose proof (length_join_pos fd r' ltac:(done)).
    rewrite !bool_decide_false; [done|done|lia].
  - apply memrchr_None in Hm. destruct rest as [|r rs]; [done|]. exists r, rs. split; [done|].
    destruct (decide (m < length r + 1)%nat) as [|Hge]; [done|]. exfalso. apply Hm.
    apply list_elem_of_lookup. exists (length r). rewrite join_cons.
    rewrite lookup_take_lt by lia. rewrite lookup_app_r by lia. by rewrite Nat.sub_diag.
Qed.

Lemma group_data_cons id k last g gs :
  group_data o id k last (g :: gs) =
    (join fd g ++ chunk_tail o id (Z.of_nat k) (if bool_decide (gs = []) && last then "!"%char else "~"%char))
    :: group_data o id (S k) last gs.
Proof.
  unfold group_data. rewrite imap_cons. f_equal.
  - f_equal. f_equal; [lia|]. cbn [length]. destruct gs; [done|].
    rewrite !bool_decide_false by (simpl; done || lia). done.
  - apply imap_ext. intros i x _. cbn [compose length]. f_equal. f_equal; [lia|].
    by rewrite (bool_decide_ext (S (S i) = S (length gs)) (S i = length gs)) by lia.
Qed.

Lemma wrote_nil n f rv : rv = PHPSPY_OK \/ rv = PHPSPY_ERR -> wrote os n f rv [] f rv.
Proof.
  intros Hrv. exists []. rewrite app_nil_r. split_and!; try done; [by destruct f|].
  rewrite Forall_nil. naive_solver.
Qed.

Lemma wrote_app n f rv d1 f1 rv1 d2 f2 rv2 :
  wrote os n f rv d1 f1 rv1 -> wrote os n f1 rv1 d2 f2 rv2 -> wrote os n f rv (d1 ++ d2) f2 rv2.
Proof.
  intros (w1 & -> & <- & F1 & _ & E1) (w2 & -> & <- & F2 & V2 & E2).
  exists (w1 ++ w2). rewrite map_app, !Forall_app. cbn. rewrite app_assoc. split_and!; try done.
  rewrite E2, E1. tauto.
Qed.

(** [rv |= r] for the two codes of a write. *)
Lemma wrote_lor n f f' datas r rv :
  (rv = PHPSPY_OK \/ rv = PHPSPY_ERR) ->
  wrote os n f PHPSPY_OK datas f' r -> wrote os n f rv datas f' (Z.lor rv r).
Proof.
  intros Hrv (ws & -> & <- & F & V & Eq). exists ws. split_and!; try done.
  - destruct Hrv as [->| ->], V as [->| ->]; auto.
  - destruct Hrv as [->| ->], V as [->| ->]; naive_solver.
Qed.

(** What the loop leaves behind: a prefix of the records written in groups that
    fit, up to the end or to a record that fits no chunk. *)
Definition loop_post (u : fout_udata) (id : Z) (k start : nat) (rest : list bytes) (rv : Z) (f : fout)
    (r : Z * fout_udata * nat * Z) (f' : fout) : Prop :=
  exists gs r' tl tn rv',
    let datas := group_data o id k (negb (u_truncated u || bool_decide (r' <> []))) gs in
    r = (rv', set_tail tl tn u, (start + length (join fd (concat gs)))%nat, Z.of_nat (k + length gs))
    /\ rest = concat gs ++ r' /\ length tl = 64%nat
    /\ wrote os (u_fd u) f rv datas f' rv'
    /\ Forall (fun g => g <> []) gs
    /\ Forall (fun x => Z.of_nat (length x) <= opt_fout_buffer_size o) datas
    /\ (forall r rs, r' = r :: rs -> opt_fout_buffer_size o
          < Z.of_nat (length r + 1 + length (chunk_tail o id (Z.of_nat (k + length gs)) "~"%char)))
    /\ Z.of_nat (k + length gs) < 2 ^ 64 - 1.

(** Nothing more is written: at the end, or at a record that is too big. *)
Lemma loop_post_stop u id k start rest rv f tl tn :
  length tl = 64%nat -> rv = PHPSPY_OK \/ rv = PHPSPY_ERR -> Z.of_nat k < 2 ^ 64 - 1 ->
  (forall r rs, rest = r :: rs -> opt_fout_buffer_size o
     < Z.of_nat (length r + 1 + length (chunk_tail o id (Z.of_nat k) "~"%char))) ->
  loop_post u id k start rest rv f (rv, set_tail tl tn u, start, Z.of_nat k) f.
Proof.
  intros Ht Hrv Hk Hbig. exists [], rest, tl, tn, rv. cbv zeta. cbn [concat length].
  rewrite !Nat.add_0_r. split_and!; try done. by apply wrote_nil.
Qed.

(** One group in front of what the rest of the loop does. *)
Lemma loop_post_step u id k start g r' rv f r1 f1 tl0 tn0 res f' :
  (rv = PHPSPY_OK \/ rv = PHPSPY_ERR) -> g <> [] ->
  Z.of_nat (length (join fd g) + length (chunk_tail o id (Z.of_nat k) "~"%char)) <= opt_fout_buffer_size o ->
  wrote os (u_fd u) f PHPSPY_OK [join fd g ++ chunk_tail o id (Z.of_nat k)
    (if bool_decide (r' = []) && negb (u_truncated u) then "!"%char else "~"%char)] f1 r1 ->
  loop_post (set_tail tl0 tn0 u) id (S k) (start + length (join fd g)) r' (Z.lor rv r1) f1 res f' ->
  loop_post u id k start (g ++ r') rv f res f'.
Proof.
  intros Hrv Hg Hfit Hw (gs & r2 & tl & tn & rv2 & -> & -> & Htl & Hw2 & Hgs & Hbound & Hbig & Hk).
  cbn [u_fd u_truncated set_tail] in *. set (last := negb (u_truncated u || bool_decide (r2 <> []))) in *.
  assert ((if bool_decide (concat gs ++ r2 = []) && negb (u_truncated u) then "!"%char else "~"%char)
    = (if bool_decide (gs = []) && last then "!"%char else "~"%char)) as Hsent.
  { subst last. destruct (u_truncated u); [by rewrite !andb_false_r|]. cbn [orb negb].
    rewrite andb_true_r. destruct gs as [|g1 gs]; cbn [concat app]; [by destruct r2|].
    apply Forall_cons in Hgs as [Hg1 _]. by destruct g1. }
  exists (g :: gs), r2, tl, tn, rv2. cbv zeta. fold last. cbn [concat length].
  rewrite join_app, length_app, <-app_assoc, group_data_cons, <-Hsent.
  rewrite Nat.add_succ_r, <-Nat.add_succ_l, Nat.add_assoc. split_and!; try done.
  - change (?x :: ?y) with ([x] ++ y). eapply wrote_app; [by apply wrote_lor|exact Hw2].
  - by constructor.
  - constructor; [|done]. rewrite length_app, (length_chunk_tail_sentinel _ _ _ "~"%char). lia.
Qed.

Lemma wrote_code n f rv datas f' rv' : wrote os n f rv datas f' rv' -> rv' = PHPSPY_OK \/ rv' = PHPSPY_ERR.
Proof. by intros (?&_&_&_&?&_). Qed.

Lemma chunk_loop_wp d n u id k start rest rv f :
  at_records u start rest -> length (u_tail u) = 64%nat ->
  0 <= id < 2 ^ 64 -> (length (join fd rest) < n)%nat ->
  Z.of_nat k + Z.of_nat (length (join fd rest)) < 2 ^ 64 - 1 ->
  rv = PHPSPY_OK \/ rv = PHPSPY_ERR ->
  wpx d (chunk_loop o os n u id (Z.of_nat k) start rv) (loop_post u id k start rest rv f) f.
Proof.
  revert u k start rest rv f.
  induction n as [|n IH]; intros u k start rest rv f Hat Ht Hid Hn Hk Hrv; [lia|].
  pose proof Hat as (Hs & Hp & Hl & Hf). cbn [chunk_loop]. case_bool_decide as Hend.
  { assert (rest = []) as -> by (apply (join_nil_inv fd), nil_length_inv; lia).
    apply wpx_ret. destruct u as [a1 a2 a3 a4 a5 a6 a7 a8 a9].
    apply (loop_post_stop {| u_fd := a1; u_buf := a2; u_len := a3; u_cap := a4; u_use_mutex := a5;
      u_truncated := a6; u_trunc_marker := a7; u_tail := a8; u_tail_len := a9 |} id k start [] rv f a8 a9);
      [done|done|lia|done]. }
  assert (rest <> []) as Hne by (intros ->; simpl in Hl; lia).
  apply wpx_bind, fill_trace_id_wp; [done|done|lia|].
  cbn [u_tail_len u_buf set_tail u_truncated]. set (m := Z.to_nat _).
  pose proof (length_chunk_tail id (Z.of_nat k) "~"%char Hid ltac:(lia)) as Hlt.
  pose proof (find_chunk_end_spec u start rest m Hat Hne) as Hfe.
  destruct (event_handler_fout_find_chunk_end o (u_buf u) start (u_len u) m) as [e|].
  - destruct Hfe as (g & r' & -> & Hg & -> & Hlm & Hb).
    pose proof (length_join_pos fd g Hg) as Hgp. rewrite join_app, length_app in *.
    apply wpx_bind, write_chunk_wp; [done|done|lia|]. intros r f1 tl Htl Hw.
    replace (start + length (join fd g) - start)%nat with (length (join fd g)) in Hw by lia.
    rewrite (at_records_prefix u start (g ++ r')) in Hw by (done || rewrite join_app, length_app; lia).
    rewrite join_app, take_app_length, Hb in Hw.
    rewrite wrap_small by lia. replace (Z.of_nat k + 1) with (Z.of_nat (S k)) by lia.
    eapply wpx_mono; [apply IH with (rest := r') (f := f1)|].
    + by apply (at_records_next u).
    + done.
    + done.
    + lia.
    + lia.
    + eapply wrote_code. by apply wrote_lor.
    + intros res f' Hpost. eapply loop_post_step; [done|done| |exact Hw|exact Hpost]. subst m. lia.
  - destruct Hfe as (r & rs & -> & Hbig). apply wpx_ret. apply loop_post_stop; [|done|lia|].
    + rewrite length_poke; [done|]. rewrite length_app. cbn [length]. lia.
    + intros r0 rs0 [= -> ->]. subst m. lia.
Qed.

(** ** Lemmas: a whole trace *)

Lemma recs_at u rs t : recs o u rs t -> at_records u 0 rs.
Proof.
  intros (Hh & _ & Hf). destruct Hh as [Hl Hc _ _ _ _ _ _]. split_and!; [lia| |simpl; lia|].
  - unfold peek. rewrite drop_0, Nat.sub_0_r. done.
  - eapply Forall_impl; [exact Hf|]. by intros r [].
Qed.

(** The state after a chunked write: the records are still there, the flag
    tells whether some were dropped, and the trace id has moved on. *)
Definition chunked_post (u : fout_udata) (rs : list bytes) (t : bool) (f : fout)
    (r : Z * fout_udata) (f' : fout) : Prop :=
  exists gs rest tl tn rv f1,
    let cut := t || bool_decide (rest <> []) in
    let datas := chunked_data o (fo_trace_id f) t gs rest in
    r = (rv, set_tail tl tn (set_bytes (u_buf u) (u_len u) cut u)) /\ length tl = 64%nat
    /\ rs = concat gs ++ rest /\ Forall (fun g => g <> []) gs
    /\ f1 = put_trace_id (u64 (fo_trace_id f + 1)) f
    /\ wrote os (u_fd u) f1 PHPSPY_OK datas f' rv
    /\ Forall (fun x => Z.of_nat (length x) <= opt_fout_buffer_size o)
         (group_data o (fo_trace_id f) 0 (negb cut) gs)
    /\ (forall r rs', rest = r :: rs' -> opt_fout_buffer_size o
          < Z.of_nat (length r + 1 + length (chunk_tail o (fo_trace_id f) (Z.of_nat (length gs)) "~"%char))).

Lemma write_chunked_wp d u rs t f :
  recs o u rs t -> 0 <= fo_trace_id f < 2 ^ 64 ->
  wpx d (event_handler_fout_write_chunked o os u) (chunked_post u rs t f) f.
Proof.
  intros Hr Hid. pose proof (recs_at u rs t Hr) as Hat. pose proof Hr as (Hh & Ht & _).
  pose proof (h_room o u _ Hh) as Hroom. pose proof (h_cap o u _ Hh) as Hcap. pose proof (h_len o u _ Hh) as Hlen.
  unfold PHPSPY_FOUT_MAX_BUFFER in Hcap.
  unfold event_handler_fout_write_chunked. apply wpx_bind, wpx_get. cbv zeta.
  apply wpx_bind, wpx_put, wpx_bind. set (f1 := put_trace_id _ f).
  eapply wpx_mono; [apply (chunk_loop_wp d (S (u_len u)) u (fo_trace_id f) 0 0 rs PHPSPY_OK f1)|].
  1: done. 1: apply (h_tail o u _ Hh). 1: done. 1: lia. 1: lia. 1: by left.
  intros r f2 (gs & rest & tl & tn & rv & -> & Hrs & Htl & Hw & Hgs & Hbound & Hbig & Hk).
  cbn [Nat.add] in *. cbn [u_len set_tail].
  assert (bool_decide (length (join fd (concat gs)) < u_len u)%nat = bool_decide (rest <> [])) as ->.
  { apply bool_decide_ext. rewrite <-Hlen, Hrs, join_app, length_app.
    split; [intros H ->; simpl in H; lia|]. intros H%(length_join_pos fd). lia. }
  rewrite Ht in *.
  assert ((if bool_decide (rest <> []) then set_bytes (u_buf u) (u_len u) true (set_tail tl tn u) else set_tail tl tn u)
    = set_tail tl tn (set_bytes (u_buf u) (u_len u) (t || bool_decide (rest <> [])) u)) as Hu.
  { destruct (bool_decide (rest <> [])); [by rewrite orb_true_r|]. rewrite orb_false_r, <-Ht. by destruct u. }
  cbn [u_buf u_len set_tail set_bytes] in Hu |- *. rewrite Hu. clear Hu. cbn [u_truncated set_tail set_bytes].
  destruct (t || bool_decide (rest <> [])) eqn:Hcut; cbn [negb].
  - apply wpx_bind, fill_trace_id_wp; [done|done|lia|].
    apply wpx_bind, write_chunk_wp; [done|done|lia|]. intros r f3 tl2 Htl2 Hw2. apply wpx_ret.
    exists gs, rest, tl2, (length (chunk_tail o (fo_trace_id f) (Z.of_nat (length gs)) "~"%char)), (Z.lor rv r), f1.
    cbv zeta. unfold chunked_data. rewrite Hcut. split_and!; try done.
    cbn [u_fd u_trunc_marker set_tail set_bytes] in Hw2. rewrite (h_marker o u _ Hh) in Hw2.
    eapply wrote_app; [exact Hw|]. apply wrote_lor; [by eapply wrote_code|]. exact Hw2.
  - apply wpx_ret. exists gs, rest, tl, tn, rv, f1. cbv zeta. unfold chunked_data. rewrite Hcut, app_nil_r.
    split_and!; done.
Qed.

End write.
