(* ===== verification/FoutHandler.v ===== *)
(** * FoutHandler: the trace writer as a state machine over records

    The abstract state of [event_handler_fout] is the list of records accepted
    since [STACK_BEGIN] and the truncation flag.  Every event refines a step on
    that state, and [STACK_END] turns it into the bytes written. *)
From S2P Require Import Prelude CLib Layout Context Fout FoutSpec FoutWrite.

(** ** The abstract writer *)

(** The records an event asks for, before stripping. *)
Definition event_texts (ev : event) : list bytes :=
  match ev with
  | EvFrame fr => [fmt_frame fr]
  | EvVarpeek entry var s n => [fmt_varpeek entry var s n]
  | EvGlopeek key s n => [fmt_glopeek key s n]
  | EvRequest r =>
    [cs "# uri = " ++ cstr (r_uri r); cs "# path = " ++ cstr (r_path r);
     cs "# qstring = " ++ cstr (r_qstring r); cs "# cookie = " ++ cstr (r_cookie r);
     cs "# ts = " ++ fmt_f (r_ts r)]
  | EvMem size peak => [cs "# mem " ++ fmt_u size ++ " "%char :: fmt_u peak]
  | _ => []
  end.

(** From the records [rs], the texts [ss] are offered one by one: each is
    stripped and accepted, or it cannot be stored and it and all later ones are
    dropped. *)
Inductive accepts (o : options) (os : os_env) : list bytes -> bool -> list bytes -> list bytes -> bool -> Prop :=
| Acc_nil rs t : accepts o os rs t [] rs t
| Acc_cut rs ss : accepts o os rs true ss rs true
| Acc_step rs s ss rs' t' :
    accepts o os (rs ++ [strip_delims o s]) false ss rs' t' -> accepts o os rs false (s :: ss) rs' t'
| Acc_drop rs s ss :
    cannot_grow os (Z.of_nat (length (join (opt_frame_delim o) rs)) + Z.of_nat (length s) + 2) ->
    accepts o os rs false (s :: ss) rs true.

(** Whether the trace is written with a single [writev]. *)
Definition fits_whole (o : options) (rs : list bytes) (t : bool) : Prop :=
  Z.of_nat (length (join (opt_frame_delim o) rs)) + 1 + (if t then Z.of_nat (length (marker o)) else 0)
  <= opt_fout_buffer_size o.

(** The [writev] calls for the records [rs]: their data, whether records are
    missing, and the next trace id. *)
Inductive emission (o : options) (id : Z) (rs : list bytes) (t : bool) : list bytes -> bool -> Z -> Prop :=
| Em_whole :
    fits_whole o rs t ->
    emission o id rs t
      [join (opt_frame_delim o) rs ++ (if t then marker o else []) ++ [opt_trace_delim o]] t id
| Em_chunked gs rest :
    ~ fits_whole o rs t -> rs = concat gs ++ rest -> Forall (fun g => g <> []) gs ->
    Forall (fun x => Z.of_nat (length x) <= opt_fout_buffer_size o)
      (group_data o id 0 (negb (t || bool_decide (rest <> []))) gs) ->
    (forall r rs', rest = r :: rs' -> opt_fout_buffer_size o
       < Z.of_nat (length r + 1 + length (chunk_tail o id (Z.of_nat (length gs)) "~"%char))) ->
    emission o id rs t (chunked_data o id t gs rest) (t || bool_decide (rest <> [])) (u64 (id + 1)).

(** Whether [-f]/[-F] skips the trace. *)
Definition skips (o : options) (rs : list bytes) : bool :=
  match opt_filter_re o with
  | None => false
  | Some re => let m := re (join (opt_frame_delim o) rs) in if opt_filter_negate o then m else negb m
  end.

Definition end_texts (o : options) (os : os_env) (n : nat) (pid : Z) : list bytes :=
  (if opt_verbose_fields_ts o
   then [cs "# trace_ts = " ++ fmt_timeval (fst (os_timeofday os n)) (snd (os_timeofday os n))] else [])
  ++ (if opt_verbose_fields_pid o then [cs "# pid = " ++ fmt_d pid] else []).

(** The buffer of [u] holds [rs]; before the first record of a sample there may
    be nothing in it yet. *)
Definition live (o : options) (u : fout_udata) (rs : list bytes) (t : bool) : Prop :=
  recs o u rs t /\ (u_buf u <> [] \/ (rs = [] /\ t = false)).

Definition write_code (ws : list write_call) (cut : bool) : Z :=
  Z.lor (if decide (Forall full ws) then PHPSPY_OK else PHPSPY_ERR)
        (if cut then PHPSPY_ERR_TRUNCATED else PHPSPY_OK).

(** The ways a sample ends: the code, the records and the flag left in the
    buffer, the [writev] calls and the next trace id.  [n] calls were made
    before. *)
Inductive sample_end (o : options) (os : os_env) (pid fd : Z) (n : nat) (id : Z) (rs : list bytes) (t : bool) :
    Z -> list bytes -> bool -> list write_call -> Z -> Prop :=
| End_empty : rs = [] -> sample_end o os pid fd n id rs t PHPSPY_OK rs t [] id
| End_skipped : rs <> [] -> skips o rs = true -> sample_end o os pid fd n id rs t PHPSPY_ERR_SKIPPED rs t [] id
| End_written rs' t' datas cut id' ws :
    rs <> [] -> skips o rs = false -> accepts o os rs t (end_texts o os n pid) rs' t' ->
    emission o id rs' t' datas cut id' ->
    map wr_data ws = datas -> Forall (issued os fd) ws ->
    sample_end o os pid fd n id rs t (write_code ws cut) rs' cut ws id'.

(** The handler's state after a sample. *)
Definition after_sample (f : fout) (u : fout_udata) (ws : list write_call) (id : Z) : fout :=
  put_udata (ULive u) (put_writes (fo_writes f ++ ws) (put_trace_id id f)).

(** The events of a sample, in order; the code of the last one. *)
Fixpoint run_events (o : options) (os : os_env) (evs : list event) (rv : Z) : M fout Z :=
  match evs with
  | [] => mret rv
  | ev :: evs' => rv ← event_handler_fout o os ev; run_events o os evs' rv
  end.

(** The invariant of the handler between [EVENT_INIT] and [EVENT_DEINIT]. *)
Definition fout_inv (o : options) (f : fout) : Prop :=
  fo_mutex f = false /\ 0 <= fo_trace_id f < 2 ^ 64 /\
  match fo_udata f with
  | ULive u => exists rs t, live o u rs t
  | UNull | UFreed => False
  end.

(** ** Lemmas: accepting records *)

Section handler.
Context (o : options) (os : os_env) (Ho : delims_ok o).
Abbreviation fd := (opt_frame_delim o).

Lemma accepts_app rs t s1 rs1 t1 s2 rs2 t2 :
  accepts o os rs t s1 rs1 t1 -> accepts o os rs1 t1 s2 rs2 t2 -> accepts o os rs t (s1 ++ s2) rs2 t2.
Proof.
  induction 1 as [rs t|rs ss|rs s ss rs' t' H IH|rs s ss H]; intros H2; simpl; eauto using accepts.
  - inversion H2; subst; constructor.
  - inversion H2; subst; by apply Acc_drop.
Qed.

(** What is accepted is a prefix of what is offered. *)
Lemma accepts_prefix rs ss rs' t' :
  accepts o os rs false ss rs' t' ->
  exists k, (k <= length ss)%nat /\ rs' = rs ++ map (strip_delims o) (take k ss) /\ (t' = false -> k = length ss).
Proof.
  remember false as t0 eqn:Ht. induction 1 as [rs t|rs ss|rs s ss rs' t' H IH|rs s ss H]; try done.
  - exists 0%nat. by rewrite take_0, app_nil_r.
  - destruct (IH eq_refl) as (k & Hk & -> & He). exists (S k). simpl. rewrite <-app_assoc.
    split_and!; [lia|done|]. intros Ht'. by rewrite He.
  - exists 0%nat. rewrite take_0, app_nil_r. split_and!; [simpl; lia|done|done].
Qed.

(** With room and memory nothing is dropped. *)
Lemma accepts_all rs ss rs' t' :
  accepts o os rs false ss rs' t' -> (forall c, os_realloc os c = true) ->
  Z.of_nat (length (join fd (rs ++ ss))) + 1 <= PHPSPY_FOUT_MAX_BUFFER ->
  rs' = rs ++ map (strip_delims o) ss /\ t' = false.
Proof.
  remember false as t0 eqn:Ht. intros H Hr. induction H as [rs t|rs ss|rs s ss rs' t' H IH|rs s ss H]; intros Hl; try done.
  - by rewrite app_nil_r.
  - simpl. rewrite cons_middle, app_assoc. apply IH; [done|].
    rewrite !join_app, ?join_cons, !length_app in *. cbn [length] in *.
    rewrite length_strip_delims by done. simpl. lia.
  - exfalso. rewrite join_app, join_cons, !length_app in Hl. simpl in Hl.
    destruct H as [H|[c Hc]]; [lia|]. by rewrite Hr in Hc.
Qed.

Lemma put_record_live d u rs t s (Q : fout_udata -> fout -> Prop) f :
  NUL ∉ s -> live o u rs t ->
  (forall u' rs' t', accepts o os rs t [s] rs' t' -> live o u' rs' t' -> same_rest u u' -> Q u' f) ->
  wpx d (put_record o os s u) Q f.
Proof.
  intros Hs [Hr Hb] HQ. apply (put_record_wp o os d u rs t); [done|done|done| |].
  { intros ->. by destruct Hb as [|[_ ?]]. }
  intros u' (Hsame & Hne & Hstep). destruct t.
  - subst u'. apply (HQ u rs true); [constructor|by split; [|left]|done].
  - destruct Hstep as [H|[H G]].
    + eapply HQ; [apply Acc_step, Acc_nil|by split; [|left]|done].
    + eapply HQ; [by apply Acc_drop|by split; [|left]|done].
Qed.

Lemma same_rest_refl u : same_rest u u.
Proof. done. Qed.

(** The result of an event that only adds records. *)
Definition added (u : fout_udata) (rs : list bytes) (t : bool) (ss : list bytes) (f : fout)
    (u' : fout_udata) (f' : fout) : Prop :=
  exists rs' t', f' = f /\ accepts o os rs t ss rs' t' /\ live o u' rs' t' /\ same_rest u u'.

Lemma added_nil u rs t f : live o u rs t -> added u rs t [] f u f.
Proof. intros H. exists rs, t. split_and!; [done|constructor|done|done]. Qed.

(** Chains one more record onto what is still to be done. *)
Lemma put_record_chain {A} d u0 u rs0 t0 ss s (k : fout_udata -> M fout A) (Q : A -> fout -> Prop) f :
  NUL ∉ s -> added u0 rs0 t0 ss f u f ->
  (forall u', added u0 rs0 t0 (ss ++ [s]) f u' f -> wpx d (k u') Q f) ->
  wpx d (u' ← put_record o os s u; k u') Q f.
Proof.
  intros Hs (rs & t & _ & Ha & Hl & Hsr) HQ. apply wpx_bind.
  apply (put_record_live d u rs t); [done|done|]. intros u' rs' t' Ha' Hl' Hs'. apply HQ.
  exists rs', t'. split_and!; [done|by eapply accepts_app|done|by eapply same_rest_trans].
Qed.

Lemma c_str_ok {W} d m (Q : bytes -> W -> Prop) w : NUL ∈ m -> Q (cstr m) w -> wpx d (c_str m) Q w.
Proof. intros Hm HQ. unfold c_str, terminated. rewrite bool_decide_true by done. by apply wpx_ret. Qed.

Lemma fmt_frame_nn fr : NUL ∉ fmt_frame fr.
Proof. unfold fmt_frame. repeat first [apply if_nn | progress solve_nn]. Qed.

Lemma event_texts_nn ev : wf_event ev -> Forall (fun s => NUL ∉ s) (event_texts ev).
Proof.
  destruct ev; simpl; intros Hwf; repeat (apply List.Forall_cons || apply List.Forall_nil); try apply fmt_frame_nn.
  all: unfold fmt_varpeek, fmt_glopeek; destruct_and?; solve_nn. apply fmt_f_nn.
Qed.

Lemma fout_event_wp d ev u rs t f :
  is_record_event ev = true -> wf_event ev -> live o u rs t ->
  wpx d (fout_event o os ev u)
    (fun r f' => fst r = PHPSPY_OK /\ added u rs t (event_texts ev) f (snd r) f') f.
Proof.
  intros Hev Hwf Hl. pose proof (event_texts_nn ev Hwf) as Hnn. pose proof (added_nil u rs t f Hl) as H0.
  destruct ev; try done; simpl in Hnn; decompose_Forall; unfold fout_event.
  4:{ simpl in Hwf. destruct Hwf as ([_ ?] & [_ ?] & [_ ?] & [_ ?] & _).
      do 4 (apply wpx_bind, c_str_ok; [done|]; eapply put_record_chain; [done|eassumption|];
            clear H0; intros ? H0).
      eapply put_record_chain; [done|eassumption|]. intros u5 ?. by apply wpx_ret. }
  all: eapply put_record_chain; [done|eassumption|]; intros u1 ?; by apply wpx_ret.
Qed.

(** ** Lemmas: the end of a sample *)

Lemma recs_retail u rs t cut tl tn :
  recs o u rs t -> length tl = 64%nat ->
  recs o (set_tail tl tn (set_bytes (u_buf u) (u_len u) cut u)) rs cut.
Proof. intros ([] & _ & Hf) Htl. split_and!; [|done|done]. by split. Qed.

Lemma set_bytes_id u : set_bytes (u_buf u) (u_len u) (u_truncated u) u = u.
Proof. by destruct u. Qed.

(** What [event_handler_fout_write] does, in terms of the records. *)
Definition write_post (u : fout_udata) (rs : list bytes) (t : bool) (f : fout) (r : Z * fout_udata) (f' : fout) : Prop :=
  exists datas cut id' ws,
    emission o (fo_trace_id f) rs t datas cut id' /\ map wr_data ws = datas
    /\ Forall (issued os (u_fd u)) ws
    /\ f' = put_writes (fo_writes f ++ ws) (put_trace_id id' f)
    /\ fst r = write_code ws cut /\ live o (snd r) rs cut
    /\ u_use_mutex (snd r) = u_use_mutex u /\ u_fd (snd r) = u_fd u.

Lemma wrote_write_code n f datas f' rv (cut : bool) :
  wrote os n f PHPSPY_OK datas f' rv ->
  exists ws, f' = put_writes (fo_writes f ++ ws) f /\ map wr_data ws = datas
    /\ Forall (issued os n) ws
    /\ (if cut then Z.lor rv PHPSPY_ERR_TRUNCATED else rv) = write_code ws cut.
Proof.
  intros (ws & -> & <- & Hf & Hv & He). exists ws. split_and!; try done. unfold write_code.
  case_decide as Hd; [|destruct Hv as [->| ->]].
  - replace rv with PHPSPY_OK by (symmetry; by apply He). by destruct cut.
  - by destruct He as [[_ ?] _].
  - by destruct cut.
Qed.

Lemma write_locked_wp d u rs t f :
  live o u rs t -> rs <> [] -> 0 <= fo_trace_id f < 2 ^ 64 ->
  wpx d (if bool_decide (Z.of_nat (u_len u) + 1
            + (if u_truncated u then Z.of_nat (length (u_trunc_marker u)) else 0) <= opt_fout_buffer_size o)
         then rv ← event_handler_fout_write_whole o os u; mret (rv, u)
         else event_handler_fout_write_chunked o os u)
    (fun r f' => write_post u rs t f
       (if u_truncated (snd r) then Z.lor (fst r) PHPSPY_ERR_TRUNCATED else fst r, snd r) f') f.
Proof.
  intros [Hr Hb] Hne Hid. pose proof Hr as (Hh & Ht & _).
  assert (u_buf u <> []) as Hb' by (destruct Hb as [?|[? _]]; done).
  rewrite (h_marker o u _ Hh), <-(h_len o u _ Hh), Ht. fold (marker o).
  case_bool_decide as Hfit.
  - unfold event_handler_fout_write_whole. apply wpx_bind, writev_wp. intros rv f' Hw.
    apply wpx_ret. cbn [fst snd]. rewrite Ht.
    destruct (wrote_write_code _ _ _ _ _ t Hw) as (ws & -> & Hd & Hfd & Hc).
    eexists _, t, (fo_trace_id f), ws. split_and!; [by apply Em_whole| |done|by destruct f|done|by split; [|left]|done|done].
    rewrite Hd. rewrite !concat_app. cbn [concat]. rewrite (h_content o u _ Hh), (h_marker o u _ Hh).
    rewrite Ht. by destruct t; cbn [concat]; rewrite ?app_nil_r.
  - eapply wpx_mono; [by eapply write_chunked_wp|].
    intros r f' (gs & rest & tl & tn & rv & f1 & -> & Htl & Hrs & Hgs & -> & Hw & Hbound & Hbig).
    cbn [fst snd u_truncated set_tail set_bytes].
    destruct (wrote_write_code _ _ _ _ _ (t || bool_decide (rest <> [])) Hw) as (ws & -> & Hd & Hfd & Hc).
    eexists _, _, _, ws. split_and!; [by apply Em_chunked|done|done|done|done| |done|done].
    split; [|by left]. by eapply recs_retail.
Qed.

Lemma write_wp d u rs t f :
  live o u rs t -> rs <> [] -> 0 <= fo_trace_id f < 2 ^ 64 -> fo_mutex f = false ->
  wpx d (event_handler_fout_write o os u) (write_post u rs t f) f.
Proof.
  intros Hl Hne Hid Hm. unfold event_handler_fout_write.
  destruct (u_use_mutex u) eqn:Hmu.
  - apply wpx_bind. unfold mutex_lock. apply wpx_bind, wpx_get. rewrite Hm. apply wpx_put.
    pose proof (write_locked_wp d u rs t (put_mutex true f) Hl Hne Hid) as Hw.
    eapply wpx_bind_mono; [exact Hw|].
    intros [rv u'] f' (datas & cut & id' & ws & He & Hd & Hfd & -> & Hc & Hl' & Hu & Hn).
    cbn [snd] in Hu. rewrite Hu, Hmu. apply wpx_bind, wpx_modify, wpx_ret.
    exists datas, cut, id', ws. split_and!; try done. by destruct f; simpl in *; subst.
  - apply wpx_bind, wpx_ret. eapply wpx_bind_mono; [by eapply write_locked_wp|].
    intros [rv u'] f' Hw. pose proof Hw as (?&?&?&?&?&?&?&?&?&?&Hu&_). cbn [snd] in Hu.
    rewrite Hu, Hmu. by apply wpx_bind, wpx_ret, wpx_ret.
Qed.

Lemma join_nn rs : Forall (fun r => (fd ∉ r) /\ (NUL ∉ r)) rs -> NUL ∉ join fd rs.
Proof.
  destruct Ho as (Hfd & _). induction 1 as [|r rs [_ Hr] H IH]; [apply nn_nil|].
  rewrite join_cons. apply cs_nn_app; [done|]. by apply cs_nn_cons.
Qed.

(** The filter sees exactly the records. *)
Lemma live_cstr u rs t : live o u rs t -> u_buf u <> [] -> NUL ∈ u_buf u /\ cstr (u_buf u) = join fd rs.
Proof.
  intros [(Hh & _ & Hf) _] Hne. destruct (h_nul o u _ Hh) as [Hn|]; [|done].
  pose proof (take_drop_middle _ _ _ Hn) as Hsplit. rewrite (h_content o u _ Hh) in Hsplit.
  split; [by eapply list_elem_of_lookup_2|]. rewrite <-Hsplit. by apply cstr_app_nul, join_nn.
Qed.

Lemma accepts_grows rs t ss rs' t' : accepts o os rs t ss rs' t' -> rs <> [] -> rs' <> [].
Proof. induction 1; try done. intros _. apply IHaccepts. by destruct rs. Qed.

Lemma end_texts_wp {A} d u rs t pid (k : fout_udata -> M fout A) (Q : A -> fout -> Prop) f :
  live o u rs t ->
  (forall u', added u rs t (end_texts o os (length (fo_writes f)) pid) f u' f -> wpx d (k u') Q f) ->
  wpx d (f ← get;
    u ← (if opt_verbose_fields_ts o
         then let '(sec, usec) := os_timeofday os (length (fo_writes f)) in
              put_record o os (cs "# trace_ts = " ++ fmt_timeval sec usec) u
         else mret u);
    u ← (if opt_verbose_fields_pid o then put_record o os (cs "# pid = " ++ fmt_d pid) u else mret u);
    k u) Q f.
Proof.
  intros Hl HQ. pose proof (added_nil u rs t f Hl) as H0. unfold end_texts in HQ.
  apply wpx_bind, wpx_get. destruct (os_timeofday os (length (fo_writes f))) as [sec usec].
  assert (NUL ∉ cs "# trace_ts = " ++ fmt_timeval sec usec) as Hts by (solve_nn; apply fmt_timeval_nn).
  assert (NUL ∉ cs "# pid = " ++ fmt_d pid) as Hpid by solve_nn.
  destruct (opt_verbose_fields_ts o), (opt_verbose_fields_pid o); simpl in HQ.
  - eapply put_record_chain; [done|done|]. intros u1 H1. eapply put_record_chain; [done|done|]. done.
  - eapply put_record_chain; [done|done|]. intros u1 H1. apply wpx_bind, wpx_ret. by apply HQ.
  - apply wpx_bind, wpx_ret. eapply put_record_chain; [done|done|]. done.
  - apply wpx_bind, wpx_ret, wpx_bind, wpx_ret. by apply HQ.
Qed.

Lemma stack_end_wp d pid u rs t f :
  live o u rs t -> 0 <= fo_trace_id f < 2 ^ 64 -> fo_mutex f = false ->
  wpx d (fout_stack_end o os pid u) (fun r f' => exists rs' t' ws id',
    sample_end o os pid (u_fd u) (length (fo_writes f)) (fo_trace_id f) rs t (fst r) rs' t' ws id'
    /\ live o (snd r) rs' t' /\ f' = put_writes (fo_writes f ++ ws) (put_trace_id id' f) /\ u_fd (snd r) = u_fd u) f.
Proof.
  intros Hl Hid Hm. pose proof Hl as [(Hh & _ & _) Hb]. unfold fout_stack_end.
  pose proof (h_len o u _ Hh) as Hlen. case_bool_decide as H0.
  { apply wpx_ret. exists rs, t, [], (fo_trace_id f). rewrite app_nil_r. split_and!; [|done|by destruct f|done].
    apply End_empty, (join_nil_inv fd), nil_length_inv. lia. }
  assert (rs <> []) as Hne by (intros ->; simpl in Hlen; lia).
  assert (u_buf u <> []) as Hb' by (destruct Hb as [?|[? _]]; done).
  destruct (live_cstr u rs t Hl Hb') as [Hnul Hcstr].
  apply wpx_bind. apply (wpx_mono _ _ (fun b f' => b = skips o rs /\ f' = f)).
  { unfold skips. destruct (opt_filter_re o); [|by apply wpx_ret].
    apply wpx_bind, c_str_ok; [done|]. apply wpx_ret. by rewrite Hcstr. }
  intros b ? [-> ->]. destruct (skips o rs) eqn:Hsk.
  { apply wpx_ret. exists rs, t, [], (fo_trace_id f). rewrite app_nil_r.
    split_and!; [by apply End_skipped|done|by destruct f|done]. }
  apply (end_texts_wp d u rs t pid); [done|]. intros u' (rs' & t' & _ & Ha & Hl' & Hs).
  eapply wpx_mono; [apply write_wp; [exact Hl'|by eapply accepts_grows|done|done]|].
  intros r f' (datas & cut & id' & ws & He & Hd & Hfd & -> & Hc & Hl2 & _ & Hn).
  destruct Hs as [Hs _]. exists rs', cut, ws, id'. rewrite Hc. split_and!; [|done|done|by rewrite Hn].
  rewrite Hs in Hfd. by eapply End_written.
Qed.

(** ** Lemmas: events on live user data *)

Lemma record_event_wp d ev u rs t f :
  fo_udata f = ULive u -> live o u rs t -> is_record_event ev = true -> wf_event ev ->
  wpx d (event_handler_fout o os ev) (fun rv f' => rv = PHPSPY_OK /\ exists u' rs' t',
    f' = put_udata (ULive u') f /\ accepts o os rs t (event_texts ev) rs' t' /\ live o u' rs' t'
    /\ u_fd u' = u_fd u) f.
Proof.
  intros Hu Hl Hev Hwf. unfold event_handler_fout. apply wpx_bind, wpx_get. rewrite Hu.
  pose proof (fout_event_wp d ev u rs t f Hev Hwf Hl) as Hw.
  destruct ev; try done; eapply wpx_bind_mono; try exact Hw;
    intros [rv u'] f' (Hrv & rs' & t' & -> & Ha & Hl' & Hs); apply wpx_bind, wpx_modify, wpx_ret;
    (split; [done|]); exists u', rs', t'; (split_and!; [done|done|done|by destruct Hs]).
Qed.

Lemma begin_event_wp d u rs t f :
  fo_udata f = ULive u -> live o u rs t ->
  wpx d (event_handler_fout o os EvStackBegin) (fun rv f' => rv = PHPSPY_OK /\ exists u',
    f' = put_udata (ULive u') f /\ live o u' [] false /\ u_fd u' = u_fd u) f.
Proof.
  intros Hu [(Hh & _ & _) _]. unfold event_handler_fout. apply wpx_bind, wpx_get. rewrite Hu.
  destruct Hh as [Hl Hc Hn Hr Hb Hcap Ht Hm].
  apply wpx_bind, wpx_bind, buf_store_wp; [simpl; lia|lia|].
  apply wpx_ret, wpx_bind, wpx_modify, wpx_ret. split; [done|]. eexists. split_and!; [done| |done].
  assert (poke (u_buf u) 0 [NUL] <> []) by (by rewrite <-(app_nil_l [NUL]); apply poke_not_nil; lia).
  split; [|by left]. split_and!; [|done|constructor].
  split; cbn [u_len u_buf u_cap u_tail u_trunc_marker set_bytes]; try done; [|lia|].
  - left. apply lookup_poke_head. lia.
  - rewrite length_poke_max by lia. simpl. lia.
Qed.

Lemma end_event_wp d pid u rs t f :
  fo_udata f = ULive u -> live o u rs t -> 0 <= fo_trace_id f < 2 ^ 64 -> fo_mutex f = false ->
  wpx d (event_handler_fout o os (EvStackEnd pid)) (fun rv f' => exists u' rs' t' ws id',
    f' = after_sample f u' ws id' /\ live o u' rs' t' /\ u_fd u' = u_fd u
    /\ sample_end o os pid (u_fd u) (length (fo_writes f)) (fo_trace_id f) rs t rv rs' t' ws id') f.
Proof.
  intros Hu Hl Hid Hm. unfold event_handler_fout. apply wpx_bind, wpx_get. rewrite Hu.
  eapply wpx_bind_mono; [by eapply stack_end_wp|].
  intros [rv u'] f' (rs' & t' & ws & id' & He & Hl' & -> & Hfd). apply wpx_bind, wpx_modify, wpx_ret.
  by exists u', rs', t', ws, id'.
Qed.

Lemma sample_end_id pid n k id rs t rv rs' t' ws id' :
  sample_end o os pid n k id rs t rv rs' t' ws id' -> 0 <= id < 2 ^ 64 -> 0 <= id' < 2 ^ 64.
Proof.
  intros [| |? ? ? ? ? ? _ _ _ He _ _] Hid; [done|done|].
  inversion He; subst; [done|]. by apply wrap_range.
Qed.

Lemma run_records_wp d evs pid u rs t f rv :
  fo_udata f = ULive u -> live o u rs t -> 0 <= fo_trace_id f < 2 ^ 64 -> fo_mutex f = false ->
  Forall (fun ev => is_record_event ev = true /\ wf_event ev) evs ->
  wpx d (run_events o os (evs ++ [EvStackEnd pid]) rv) (fun rv f' => exists u' rs1 t1 rs' t' ws id',
    accepts o os rs t (concat (map event_texts evs)) rs1 t1
    /\ f' = after_sample f u' ws id' /\ live o u' rs' t'
    /\ sample_end o os pid (u_fd u) (length (fo_writes f)) (fo_trace_id f) rs1 t1 rv rs' t' ws id') f.
Proof.
  intros Hu Hl Hid Hm Hevs. revert u rs t f rv Hu Hl Hid Hm.
  induction Hevs as [|ev evs [Hev Hwf] Hevs IH]; intros u rs t f rv Hu Hl Hid Hm.
  - simpl. eapply wpx_bind_mono; [by eapply end_event_wp|].
    intros rv1 f' (u' & rs' & t' & ws & id' & -> & Hl' & _ & He). apply wpx_ret.
    exists u', rs, t, rs', t', ws, id'. split_and!; [constructor|done|done|done].
  - simpl. eapply wpx_bind_mono; [by eapply record_event_wp|].
    intros rv1 f' (-> & u1 & rs1 & t1 & -> & Ha & Hl1 & Hfd).
    eapply wpx_mono; [by apply (IH u1 rs1 t1)|].
    intros rv2 f' (u' & rs2 & t2 & rs' & t' & ws & id' & Ha2 & -> & Hl' & He). rewrite Hfd in He.
    exists u', rs2, t2, rs', t', ws, id'. split_and!; [by eapply accepts_app|done|done|done].
Qed.

Lemma fout_inv_live u rs t f :
  live o u rs t -> 0 <= fo_trace_id f < 2 ^ 64 -> fo_mutex f = false -> fout_inv o (put_udata (ULive u) f).
Proof. intros Hl Hid Hm. split; [done|]. split; [done|]. by exists rs, t. Qed.

Lemma fout_inv_event ev f :
  wf_event ev -> fout_inv o f ->
  exists rv f', event_handler_fout o os ev f = Done (rv, f') /\ fout_inv o f'.
Proof.
  intros Hwf (Hm & Hid & Hu). destruct (fo_udata f) as [|u|] eqn:Hp; [done|destruct Hu as (rs & t & Hl)|done].
  apply twp_done. destruct (is_record_event ev) eqn:Hev.
  { eapply wpx_mono; [by eapply record_event_wp|]. intros rv f' (_ & u' & rs' & t' & -> & _ & Hl' & _).
    by eapply fout_inv_live. }
  destruct ev; try done.
  - eapply wpx_mono; [by eapply begin_event_wp|]. intros rv f' (_ & u' & -> & Hl' & _).
    by eapply fout_inv_live.
  - eapply wpx_mono; [by eapply end_event_wp|]. intros rv f' (u' & rs' & t' & ws & id' & -> & Hl' & _ & He).
    apply sample_end_id in He; [|done]. by eapply fout_inv_live.
Qed.

End handler.

(** Records are always accepted. *)
Lemma fout_accepts_record o os ev f :
  delims_ok o -> is_record_event ev = true -> wf_event ev -> fout_inv o f ->
  exists f', event_handler_fout o os ev f = Done (PHPSPY_OK, f') /\ fout_inv o f'.
Proof.
  intros Ho Hev Hwf (Hm & Hid & Hu). destruct (fo_udata f) as [|u|] eqn:Hp; [done| |done]. destruct Hu as (rs & t & Hl).
  destruct (twp_done _ _ _ (record_event_wp o os Ho False ev u rs t f Hp Hl Hev Hwf))
    as (rv & f' & Hrun & -> & u' & rs' & t' & -> & _ & Hl' & _).
  eexists. split; [exact Hrun|]. by eapply fout_inv_live.
Qed.

(** The interface the tracer's theorems are proved against. *)
#[export] Instance fout_safe (o : options) (os : os_env) (Ho : delims_ok o) :
  @HandlerSafe fout (fout_handler o os) :=
  {| eh_inv := fun _ => fout_inv o; eh_preserves := fun ev _ f => fout_inv_event o os Ho ev f |}.
