(* ===== verification/FoutTheorems.v ===== *)
(** * FoutTheorems: correctness of the trace writer

    The properties of [event_handler_fout]: a sample refines the abstract
    writer, the chunks of a trace can be read back, the size of a write is
    bounded, and what the delimiter stripping does and does not remove. *)
From S2P Require Import Prelude CLib Layout Context OptionFields Fout FoutSpec FoutWrite FoutHandler.

(** ** A reader of the output *)

(** The records of a text, each ended by [d]. *)
Fixpoint split_records (d : ascii) (bs acc : bytes) : list bytes :=
  match bs with
  | [] => []
  | c :: r => if decide (c = d) then acc :: split_records d r [] else split_records d r (acc ++ [c])
  end.

(** One write of a chunked trace: its records, and the id record at its end. *)
Definition read_chunk (d : ascii) (data : bytes) : list bytes * bytes :=
  let rs := split_records d (removelast data) [] in
  (removelast rs, List.last rs []).

Definition id_record (id idx : Z) (sentinel : ascii) : bytes :=
  cs "# trace_id = " ++ fmt_u id ++ "."%char :: fmt_u idx ++ [sentinel].

(** What the reader finds: the groups in order, their indices, and a single
    [!] at the end. *)
Definition read_groups (id : Z) (last : bool) (gs : list (list bytes)) : list (list bytes * bytes) :=
  imap (fun i g => (g, id_record id (Z.of_nat i)
    (if bool_decide (S i = length gs) && last then "!"%char else "~"%char))) gs.

(** The delimiters of the two output modes: lines, or one line per trace
    ([-1]). *)
Definition std_delims (o : options) : Prop :=
  opt_trace_delim o = NL /\ (opt_frame_delim o = NL \/ opt_frame_delim o = TAB).

(** An operating system that never fails, for the witnesses. *)
Definition good_os : os_env := {|
  os_writev := fun _ _ data => Z.of_nat (length data); os_pipe_buf := 4096; os_realloc := fun _ => true;
  os_open := fun _ => 3; os_dup := fun _ => 4; os_gettid := 7; os_timeofday := fun _ => (0, 0) |}.

Definition fresh_fout : fout := {|
  fo_udata := UNull; fo_trace_id := 0; fo_shared_fd := -1; fo_mutex := false; fo_writes := []; fo_closed := [] |}.

Definition fresh_udata (o : options) (fd : Z) (m : bool) : fout_udata := {|
  u_fd := fd; u_buf := []; u_len := 0; u_cap := opt_fout_buffer_size o; u_use_mutex := m;
  u_truncated := false; u_trunc_marker := marker o; u_tail := repeat NUL 64; u_tail_len := 0 |}.

(** The options with the buffer size of [-b]. *)
Definition with_buffer (b : Z) (o : options) : options := {|
  opt_pid := opt_pid o; opt_pgrep_args := opt_pgrep_args o; opt_num_workers := opt_num_workers o;
  opt_frame_delim := opt_frame_delim o; opt_trace_delim := opt_trace_delim o;
  opt_time_limit_ms := opt_time_limit_ms o; opt_path_output := opt_path_output o;
  opt_filter_re := opt_filter_re o; opt_filter_negate := opt_filter_negate o;
  opt_verbose_fields_pid := opt_verbose_fields_pid o; opt_verbose_fields_ts := opt_verbose_fields_ts o;
  opt_fout_buffer_size := b; opt_libname_awk_patt := opt_libname_awk_patt o;
  opt_quiet := opt_quiet o; opt_peek_pdo := opt_peek_pdo o;
  opt_top_mode := opt_top_mode o; opt_sleep_ns := opt_sleep_ns o;
  opt_executor_globals_addr := opt_executor_globals_addr o; opt_sapi_globals_addr := opt_sapi_globals_addr o;
  opt_capture_req := opt_capture_req o; opt_capture_req_qstring := opt_capture_req_qstring o;
  opt_capture_req_cookie := opt_capture_req_cookie o; opt_capture_req_uri := opt_capture_req_uri o;
  opt_capture_req_path := opt_capture_req_path o; opt_capture_mem := opt_capture_mem o;
  opt_max_stack_depth_from_leaf := opt_max_stack_depth_from_leaf o;
  opt_max_stack_depth_from_root := opt_max_stack_depth_from_root o;
  opt_trace_limit := opt_trace_limit o; opt_path_child_out := opt_path_child_out o;
  opt_path_child_err := opt_path_child_err o; opt_phpv := opt_phpv o; opt_pause := opt_pause o;
  opt_event_handler := opt_event_handler o; opt_event_handler_opts := opt_event_handler_opts o;
  opt_continue_on_error := opt_continue_on_error o;
  varpeek_map := varpeek_map o; glopeek_map := glopeek_map o |}.

(** [-1]: one line per trace. *)
Definition with_delims (fd td : ascii) (o : options) : options := {|
  opt_pid := opt_pid o; opt_pgrep_args := opt_pgrep_args o; opt_num_workers := opt_num_workers o;
  opt_frame_delim := fd; opt_trace_delim := td;
  opt_time_limit_ms := opt_time_limit_ms o; opt_path_output := opt_path_output o;
  opt_filter_re := opt_filter_re o; opt_filter_negate := opt_filter_negate o;
  opt_verbose_fields_pid := opt_verbose_fields_pid o; opt_verbose_fields_ts := opt_verbose_fields_ts o;
  opt_fout_buffer_size := opt_fout_buffer_size o; opt_libname_awk_patt := opt_libname_awk_patt o;
  opt_quiet := opt_quiet o; opt_peek_pdo := opt_peek_pdo o;
  opt_top_mode := opt_top_mode o; opt_sleep_ns := opt_sleep_ns o;
  opt_executor_globals_addr := opt_executor_globals_addr o; opt_sapi_globals_addr := opt_sapi_globals_addr o;
  opt_capture_req := opt_capture_req o; opt_capture_req_qstring := opt_capture_req_qstring o;
  opt_capture_req_cookie := opt_capture_req_cookie o; opt_capture_req_uri := opt_capture_req_uri o;
  opt_capture_req_path := opt_capture_req_path o; opt_capture_mem := opt_capture_mem o;
  opt_max_stack_depth_from_leaf := opt_max_stack_depth_from_leaf o;
  opt_max_stack_depth_from_root := opt_max_stack_depth_from_root o;
  opt_trace_limit := opt_trace_limit o; opt_path_child_out := opt_path_child_out o;
  opt_path_child_err := opt_path_child_err o; opt_phpv := opt_phpv o; opt_pause := opt_pause o;
  opt_event_handler := opt_event_handler o; opt_event_handler_opts := opt_event_handler_opts o;
  opt_continue_on_error := opt_continue_on_error o;
  varpeek_map := varpeek_map o; glopeek_map := glopeek_map o |}.

(** ** Lemmas: reading back *)

Lemma split_records_app d r acc rest :
  d ∉ r -> split_records d (r ++ d :: rest) acc = (acc ++ r) :: split_records d rest [].
Proof.
  revert acc. induction r as [|c r IH]; intros acc Hr; simpl.
  - by rewrite decide_True, app_nil_r.
  - rewrite decide_False by set_solver. rewrite IH by set_solver. by rewrite <-app_assoc.
Qed.

Lemma split_records_join d rs rest :
  Forall (fun r => d ∉ r) rs -> split_records d (join d rs ++ rest) [] = rs ++ split_records d rest [].
Proof.
  induction 1 as [|r rs Hr H IH]; [done|]. rewrite join_cons, <-app_assoc. cbn [app].
  rewrite split_records_app by done. by rewrite IH.
Qed.

Lemma std_delims_ok o : std_delims o -> delims_ok o.
Proof. intros [Ht [Hf|Hf]]; unfold delims_ok; rewrite Ht, Hf; done. Qed.

Lemma is_digit_std o : std_delims o -> ~ is_digit (opt_frame_delim o).
Proof. intros [_ [->| ->]]; unfold is_digit; [change (code NL) with 10|change (code TAB) with 9]; lia. Qed.

Lemma not_in_literal (c : ascii) (s : bytes) : bool_decide (c ∈ s) = false -> c ∉ s.
Proof. apply bool_decide_eq_false_1. Qed.

Lemma id_record_clean o id idx s :
  std_delims o -> s <> opt_frame_delim o -> opt_frame_delim o ∉ id_record id idx s.
Proof.
  intros Ho Hs. pose proof (is_digit_std o Ho) as Hd. unfold id_record.
  rewrite !not_elem_of_app, not_elem_of_cons, not_elem_of_app, list_elem_of_singleton.
  split_and!; [|by apply fmt_u_not| |by apply fmt_u_not|congruence];
    destruct Ho as [_ [->| ->]]; done || by apply not_in_literal.
Qed.

Lemma chunk_tail_id o id idx s :
  chunk_tail o id idx s = (id_record id idx s ++ [opt_frame_delim o]) ++ [opt_trace_delim o].
Proof. unfold chunk_tail, id_record. rewrite <-!app_assoc. cbn [app]. by rewrite <-!app_assoc. Qed.

(** One chunk. *)
Lemma read_chunk_spec o id idx s g :
  std_delims o -> s <> opt_frame_delim o -> Forall (fun r => opt_frame_delim o ∉ r) g ->
  read_chunk (opt_frame_delim o) (join (opt_frame_delim o) g ++ chunk_tail o id idx s) = (g, id_record id idx s).
Proof.
  intros Ho Hs Hg. unfold read_chunk. rewrite chunk_tail_id, app_assoc, removelast_last.
  rewrite split_records_join by done. rewrite split_records_app by by apply id_record_clean.
  cbn [app split_records]. by rewrite removelast_last, last_last.
Qed.

Lemma sentinel_not_delim o (b : bool) : std_delims o -> (if b then "!"%char else "~"%char) <> opt_frame_delim o.
Proof. intros [_ [->| ->]]; by destruct b. Qed.

Lemma read_group_data o id last gs :
  std_delims o -> Forall (fun r => opt_frame_delim o ∉ r) (concat gs) ->
  map (read_chunk (opt_frame_delim o)) (group_data o id 0 last gs) = read_groups id last gs.
Proof.
  intros Ho Hg. unfold group_data, read_groups.
  generalize (length gs) as n. intros n.
  apply list_eq. intros i. change (map ?f ?l) with (f <$> l). rewrite list_lookup_fmap, !list_lookup_imap.
  destruct (gs !! i) as [g|] eqn:Hi; [|done]. simpl. f_equal. apply read_chunk_spec; [done|by apply sentinel_not_delim|].
  rewrite Forall_concat in Hg. rewrite Forall_lookup in Hg. by apply (Hg i).
Qed.

(** ** Lemmas: the whole sample *)

Lemma sample_wp o os evs pid u rs t f :
  delims_ok o -> fo_udata f = ULive u -> live o u rs t -> 0 <= fo_trace_id f < 2 ^ 64 -> fo_mutex f = false ->
  Forall (fun ev => is_record_event ev = true /\ wf_event ev) evs ->
  twp (run_events o os (EvStackBegin :: evs ++ [EvStackEnd pid]) PHPSPY_OK)
    (fun rv f' => exists u' rs1 t1 rs' t' ws id',
    accepts o os [] false (concat (map event_texts evs)) rs1 t1
    /\ f' = after_sample f u' ws id' /\ live o u' rs' t'
    /\ sample_end o os pid (u_fd u) (length (fo_writes f)) (fo_trace_id f) rs1 t1 rv rs' t' ws id') f.
Proof.
  intros Ho Hu Hl Hid Hm Hevs. cbn [run_events]. eapply wpx_bind_mono; [by eapply begin_event_wp|].
  intros rv f' (-> & u1 & -> & Hl1 & Hfd).
  eapply wpx_mono; [by apply (run_records_wp o os Ho False evs pid u1 [] false)|].
  intros rv2 f' (u' & rs1 & t1 & rs' & t' & ws & id' & Ha & -> & Hl' & He). rewrite Hfd in He.
  by exists u', rs1, t1, rs', t', ws, id'.
Qed.

Lemma accepts_records_clean o os rs t ss rs' t' :
  delims_ok o -> accepts o os rs t ss rs' t' ->
  Forall (fun r => opt_frame_delim o ∉ r) rs -> Forall (fun r => opt_frame_delim o ∉ r) rs'.
Proof.
  intros Ho. induction 1; intros Hrs; try done. apply IHaccepts, Forall_app. split; [done|].
  apply Forall_singleton. by apply strip_no_frame_delim.
Qed.

Lemma fresh_live o n m : 1 <= opt_fout_buffer_size o <= PHPSPY_FOUT_MAX_BUFFER -> live o (fresh_udata o n m) [] false.
Proof. intros Hb. split; [|by right]. split_and!; [split; simpl; (done || lia || by right)|done|constructor]. Qed.

Lemma group_data_small o id k last gs :
  0 <= id < 2 ^ 64 -> Z.of_nat (k + length gs) < 2 ^ 64 ->
  Forall (fun g => Z.of_nat (length (join (opt_frame_delim o) g)) + 57 <= opt_fout_buffer_size o) gs ->
  Forall (fun x => Z.of_nat (length x) <= opt_fout_buffer_size o) (group_data o id k last gs).
Proof.
  intros Hid Hk Hg. unfold group_data. apply Forall_lookup. intros i x Hx. rewrite list_lookup_imap in Hx.
  destruct (gs !! i) as [g|] eqn:Hi; [|done]. injection Hx as <-. pose proof (lookup_lt_Some _ _ _ Hi).
  rewrite Forall_lookup in Hg. specialize (Hg i g Hi). rewrite length_app.
  pose proof (length_chunk_tail o id (Z.of_nat (k + i))
    (if bool_decide (S i = length gs) && last then "!"%char else "~"%char) Hid ltac:(lia)). lia.
Qed.

Lemma marker_read o id idx :
  std_delims o -> read_chunk (opt_frame_delim o) (marker o ++ chunk_tail o id idx "!"%char)
    = ([cs "# truncated = 1"], id_record id idx "!"%char).
Proof.
  intros Ho. pose proof (read_chunk_spec o id idx "!"%char [cs "# truncated = 1"] Ho) as H.
  apply H; [by apply (sentinel_not_delim o true)|]. constructor; [|constructor].
  destruct Ho as [_ [->| ->]]; by apply not_in_literal.
Qed.

Lemma length_concat_groups d gs :
  Forall (fun g => g <> []) gs -> (length gs <= length (join d (concat gs)))%nat.
Proof.
  induction 1 as [|g gs Hg Hgs IH]; simpl; [lia|].
  rewrite join_app, length_app. pose proof (length_join_pos d g Hg). lia.
Qed.

(** A record that fits a chunk with the longest id record is never dropped. *)
Lemma emission_small_records o id rs datas cut id' :
  emission o id rs false datas cut id' -> 0 <= id < 2 ^ 64 ->
  Z.of_nat (length (join (opt_frame_delim o) rs)) < 2 ^ 64 ->
  Forall (fun r => Z.of_nat (length r) + 58 <= opt_fout_buffer_size o) rs -> cut = false.
Proof.
  intros He Hid Hlen Hsmall. inversion He as [|gs rest _ -> Hgs _ Hbig]; subst; [done|].
  destruct rest as [|r rest]; [done|]. exfalso.
  apply Forall_app in Hsmall as [_ Hsmall]. apply Forall_cons in Hsmall as [Hr _].
  pose proof (length_concat_groups (opt_frame_delim o) gs Hgs) as Hl.
  rewrite join_app, length_app in Hlen.
  pose proof (length_chunk_tail o id (Z.of_nat (length gs)) "~"%char Hid ltac:(lia)).
  specialize (Hbig r rest eq_refl). lia.
Qed.

Lemma length_join_strip o ss :
  delims_ok o -> length (join (opt_frame_delim o) (map (strip_delims o) ss)) = length (join (opt_frame_delim o) ss).
Proof.
  intros Ho. induction ss as [|s l IH]; [done|]. cbn [map].
  rewrite !join_cons, !length_app, length_strip_delims by done. cbn [length]. lia.
Qed.

(** The emission of small records is complete and can be read back. *)
Lemma emission_no_loss o id rs datas c id' :
  std_delims o -> emission o id rs false datas c id' -> 0 <= id < 2 ^ 64 ->
  Z.of_nat (length (join (opt_frame_delim o) rs)) < 2 ^ 64 ->
  Forall (fun r => Z.of_nat (length r) + 58 <= opt_fout_buffer_size o) rs ->
  Forall (fun r => opt_frame_delim o ∉ r) rs ->
  c = false /\ (datas = [join (opt_frame_delim o) rs ++ [opt_trace_delim o]]
    \/ exists gs, map (read_chunk (opt_frame_delim o)) datas = read_groups id true gs /\ concat gs = rs).
Proof.
  intros Ho He Hid Hlen Hsmall Hclean.
  assert (c = false) as -> by (by eapply emission_small_records). split; [done|].
  inversion He as [|gs rest ? Hrs ? ? ? Hd Hcut]; subst; [by left|right].
  apply bool_decide_eq_false in Hcut. destruct rest; [|by destruct Hcut]. rewrite app_nil_r in *.
  exists gs. split; [|done]. unfold chunked_data. rewrite bool_decide_false by (intros X; by apply X).
  cbn [orb negb]. rewrite app_nil_r. by apply read_group_data.
Qed.

(** The part in front of the last [d]. *)
Lemma strip_from_before d c r :
  c ∈ take (strip_from d r) r -> c <> d -> exists a b, r = a ++ c :: b /\ d ∈ b.
Proof.
  unfold strip_from. destruct (memrchr d r) as [i|] eqn:Hm; [|rewrite take_0; set_solver].
  apply memrchr_Some in Hm as [Hi _]. rewrite (take_S_r _ _ _ Hi), elem_of_app, list_elem_of_singleton.
  intros [Hc|Hc] Hne; [|done]. apply list_elem_of_split in Hc as (a & b & Hab).
  exists a, (b ++ d :: drop (S i) r). split; [|set_solver].
  rewrite <-(take_drop_middle r i d Hi) at 1. rewrite Hab. by rewrite <-app_assoc.
Qed.

Lemma strip_from_covers d c a b : d ∈ b -> c ∈ take (strip_from d (a ++ c :: b)) (a ++ c :: b).
Proof.
  intros Hb. unfold strip_from. destruct (memrchr d b) as [i|] eqn:Hm; [|by apply memrchr_None in Hm].
  rewrite (memrchr_app_some d a (c :: b) (S i)) by (simpl; by rewrite Hm).
  apply list_elem_of_lookup. exists (length a). rewrite lookup_take_lt by lia.
  by rewrite list_lookup_middle.
Qed.

(** The descriptor a handler writes to, and the shared one afterwards: a file
    per thread when the path has a [%d], a duplicate of stdout for [-], and
    otherwise one file that the first handler opens and the others share. *)
Definition open_target (o : options) (os : os_env) (f : fout) : Z * Z :=
  let path := opt_path_output o in
  match strstr path (cs "%d") with
  | Some _ => (match fmt_path (Some (os_gettid os)) path with Done apath => os_open os apath | _ => -1 end, fo_shared_fd f)
  | None =>
    if bool_decide (path = cs "-") then (os_dup os STDOUT_FILENO, fo_shared_fd f)
    else if fo_shared_fd f <? 0 then (os_open os path, os_open os path)
    else (os_dup os (fo_shared_fd f), fo_shared_fd f)
  end.

Lemma fmt_path_copies arg a b : "%"%char ∉ a ->
  fmt_path arg (a ++ b) = match fmt_path arg b with Done s => Done (a ++ s) | Fault f => Fault f | Diverge => Diverge end.
Proof.
  induction a as [|c a IH]; intros Ha; [cbn [app]; by destruct (fmt_path arg b)|]. apply not_elem_of_cons in Ha as [Hc Ha]. cbn [app].
  assert (fmt_path arg (c :: a ++ b) = match fmt_path arg (a ++ b) with Done s => Done (c :: s) | Fault f => Fault f | Diverge => Diverge end) as ->
    by (destruct c as [[] [] [] [] [] [] [] []]; first [reflexivity | exfalso; by apply Hc]).
  rewrite IH by done. by destruct (fmt_path arg b).
Qed.

(** A path with one [%d] and no other percent sign. *)
Lemma fmt_path_one n a b : "%"%char ∉ a -> "%"%char ∉ b -> fmt_path (Some n) (a ++ cs "%d" ++ b) = Done (a ++ fmt_d n ++ b).
Proof.
  intros Ha Hb. rewrite fmt_path_copies by done. cbn. pose proof (fmt_path_copies None b [] Hb) as H. rewrite app_nil_r in H.
  rewrite H. cbn. by rewrite app_nil_r.
Qed.

Lemma prefix_of_app p s : prefix_of p (p ++ s) = true.
Proof. induction p as [|c p IH]; [done|]. cbn. by rewrite bool_decide_true. Qed.

Lemma strstr_app a p b : is_Some (strstr (a ++ p ++ b) p).
Proof.
  induction a as [|c a IH]; cbn [app].
  - destruct (p ++ b) as [|x s] eqn:Hp; cbn [strstr]; rewrite <-?Hp, prefix_of_app; by eexists.
  - cbn [strstr]. destruct (prefix_of p (c :: a ++ p ++ b)); [by eexists|]. destruct IH as [i ->]. by eexists.
Qed.

(** A path that is a format for one number, if it is used as one. *)
Definition path_ok (o : options) : Prop :=
  forall tid, is_Some (strstr (opt_path_output o) (cs "%d")) -> exists apath, fmt_path (Some tid) (opt_path_output o) = Done apath.

Lemma path_ok_plain o : strstr (opt_path_output o) (cs "%d") = None -> path_ok o.
Proof. intros H tid [i Hi]. congruence. Qed.

(** One [%d] gives a file per thread. *)
Lemma open_target_tid o os f a b : opt_path_output o = a ++ cs "%d" ++ b -> "%"%char ∉ a -> "%"%char ∉ b ->
  open_target o os f = (os_open os (a ++ fmt_d (os_gettid os) ++ b), fo_shared_fd f).
Proof.
  intros Hp Ha Hb. unfold open_target. rewrite Hp. destruct (strstr_app a (cs "%d") b) as [i ->]. by rewrite fmt_path_one.
Qed.

(** Any other format is undefined behaviour. *)
Lemma open_bad_format o os f x : is_Some (strstr (opt_path_output o) (cs "%d")) -> fo_mutex f = false ->
  fmt_path (Some (os_gettid os)) (opt_path_output o) = Fault x -> event_handler_fout_open o os f = Fault x.
Proof.
  intros [i Hi] Hm Hp. unfold event_handler_fout_open, mutex_lock, mbind, M_bind, get. rewrite Hm. unfold put. by rewrite Hi, Hp.
Qed.

(** Opening and the first allocation. *)
Definition opened (o : options) (os : os_env) (f : fout) (r : Z * Z) (f' : fout) : Prop :=
  (0 <= fst (open_target o os f) /\ r = (PHPSPY_OK, fst (open_target o os f))
   \/ fst (open_target o os f) < 0 /\ r = (PHPSPY_ERR, -1))
  /\ fo_shared_fd f' = snd (open_target o os f) /\ fo_mutex f' = false /\ fo_trace_id f' = fo_trace_id f /\ fo_writes f' = fo_writes f
  /\ fo_udata f' = fo_udata f.

Lemma open_wp o os d f : path_ok o -> fo_mutex f = false -> wpx d (event_handler_fout_open o os) (opened o os f) f.
Proof.
  intros Hp Hm. unfold event_handler_fout_open. apply wpx_bind. unfold mutex_lock.
  apply wpx_bind, wpx_get. rewrite Hm. apply wpx_put, wpx_bind.
  apply (wpx_mono _ _ (fun tfd f' => (tfd, fo_shared_fd f') = open_target o os f /\ fo_trace_id f' = fo_trace_id f
    /\ fo_writes f' = fo_writes f /\ fo_udata f' = fo_udata f)).
  - unfold open_target. specialize (Hp (os_gettid os)). destruct (strstr (opt_path_output o) (cs "%d")).
    { destruct Hp as [apath ->]; [by eexists|]. by apply wpx_ret. }
    case_bool_decide; [done|].
    apply wpx_bind, wpx_get. cbn [fo_shared_fd put_mutex]. case_match; done.
  - intros tfd f' (Ht & ? & ? & ?). apply wpx_bind, wpx_modify, wpx_ret. unfold opened. rewrite <-Ht. cbn [fst snd].
    split; [|done]. destruct (Z.ltb_spec tfd 0); auto.
Qed.

Lemma first_alloc os d u (Q : Z * fout_udata -> fout -> Prop) f :
  u_cap u <= PHPSPY_FOUT_MAX_BUFFER /\ os_realloc os (u_cap u) = true /\ Q (PHPSPY_OK, u) f
  \/ ~ (u_cap u <= PHPSPY_FOUT_MAX_BUFFER /\ os_realloc os (u_cap u) = true) /\ Q (PHPSPY_ERR, u) f ->
  wpx d (event_handler_fout_realloc os u (u_cap u)) Q f.
Proof.
  intros H. unfold event_handler_fout_realloc. destruct (Z.ltb_spec PHPSPY_FOUT_MAX_BUFFER (u_cap u)).
  { apply wpx_ret. destruct H as [[? _]|[_ H]]; [lia|done]. }
  cbn [DOUBLE_FUEL double_until]. rewrite Z.ltb_irrefl. apply wpx_bind, wpx_ret.
  destruct (Z.ltb_spec PHPSPY_FOUT_MAX_BUFFER (u_cap u)); [lia|].
  destruct (os_realloc os (u_cap u)); apply wpx_ret; destruct H as [(? & ? & H)|[Hn H]]; try done.
  - replace (set_cap (u_cap u) u) with u by by destruct u. done.
  - by destruct Hn.
Qed.

(** The handler option [m]. *)
Definition mutex_opt (opts : option bytes) : bool := match opts with Some s => bool_decide ("m"%char ∈ cstr s) | None => false end.

Lemma mutex_opt_strchr opts : mutex_opt opts = match opts with Some s => bool_decide (is_Some (strchr s "m"%char)) | None => false end.
Proof.
  destruct opts as [s|]; [|done]. unfold mutex_opt, strchr. apply bool_decide_ext. destruct (memchr "m"%char (cstr s)) as [i|] eqn:Hm.
  - split; [by eexists|]. intros _. apply memchr_Some in Hm as [Hm _]. by eapply list_elem_of_lookup_2.
  - apply memchr_None in Hm. split; [done|]. by intros [? [=]].
Qed.

(** What [EVENT_INIT] leaves behind: success needs a descriptor, a size of at
    most 4 MB and memory. *)
Definition init_post (o : options) (os : os_env) (opts : option bytes) (f : fout) (rv : Z) (f' : fout) : Prop :=
  let fd := fst (open_target o os f) in let m := mutex_opt opts in
  fo_shared_fd f' = snd (open_target o os f) /\ fo_mutex f' = false /\ fo_trace_id f' = fo_trace_id f /\ fo_writes f' = fo_writes f
    /\ (rv = PHPSPY_OK <-> 0 <= fd /\ opt_fout_buffer_size o <= PHPSPY_FOUT_MAX_BUFFER
                           /\ os_realloc os (opt_fout_buffer_size o) = true)
    /\ (rv = PHPSPY_OK -> fo_udata f' = ULive (fresh_udata o fd m)
                          /\ live o (fresh_udata o fd m) [] false)
    /\ (rv <> PHPSPY_OK -> rv = PHPSPY_ERR /\ fo_udata f' = fo_udata f).

Lemma fout_init_wp o os d opts f :
  path_ok o -> 1 <= opt_fout_buffer_size o -> fo_mutex f = false ->
  wpx d (event_handler_fout o os (EvInit opts)) (init_post o os opts f) f.
Proof.
  intros Hp Hb Hm. unfold event_handler_fout. apply wpx_bind, wpx_get.
  assert (wpx d (fout_init o os opts) (init_post o os opts f) f) as Hw; [|by destruct (fo_udata f)].
  unfold fout_init. eapply wpx_bind_mono; [by apply open_wp|].
  intros r f1 (Hrv & Hsh & Hm1 & Hid & Hw & Hu). unfold init_post. set (fd := fst (open_target o os f)) in *.
  destruct Hrv as [[Hfd ->]|[Hfd ->]]; cycle 1.
  { rewrite bool_decide_true by done. apply wpx_ret. split_and!; try done. split; [done|lia]. }
  rewrite bool_decide_false by (intros X; by apply X). apply wpx_bind.
  set (u0 := {| u_fd := fd; u_buf := [] |}). apply (first_alloc os d u0).
  destruct (decide (u_cap u0 <= PHPSPY_FOUT_MAX_BUFFER /\ os_realloc os (u_cap u0) = true)) as [[H1 H2]|Hn];
    [left|right]; cbn [u_cap u0] in *.
  - split_and!; [done|done|]. rewrite bool_decide_false by (intros X; by apply X).
    apply wpx_bind, wpx_modify, wpx_ret. split_and!; try done.
    intros _. split; [|apply fresh_live; lia]. rewrite <-mutex_opt_strchr. done.
  - split; [done|]. rewrite bool_decide_true by done. apply wpx_ret.
    split_and!; try done. split; [done|]. by intros [_ ?].
Qed.

(** ** Theorems *)

(** C5. Refinement of the abstract writer: started on live user data, the
    events of one sample return without a fault, and what [writev] receives is
    the emission (whole, or chunked at record boundaries) of the stripped
    records of the events that could be stored; a filtered or empty sample
    writes nothing.  The invariant holds again afterwards. *)
Theorem fout_sample o os evs pid u f :
  delims_ok o -> fout_inv o f -> fo_udata f = ULive u ->
  Forall (fun ev => is_record_event ev = true /\ wf_event ev) evs ->
  exists rv u' rs t rs' t' ws id',
    run_events o os (EvStackBegin :: evs ++ [EvStackEnd pid]) PHPSPY_OK f
      = Done (rv, after_sample f u' ws id')
    /\ accepts o os [] false (concat (map event_texts evs)) rs t
    /\ sample_end o os pid (u_fd u) (length (fo_writes f)) (fo_trace_id f) rs t rv rs' t' ws id'
    /\ fout_inv o (after_sample f u' ws id').
Proof.
  intros Ho (Hm & Hid & Hl) Hu Hevs. rewrite Hu in Hl. destruct Hl as (rs0 & t0 & Hl).
  destruct (twp_done _ _ _ (sample_wp o os evs pid u rs0 t0 f Ho Hu Hl Hid Hm Hevs))
    as (rv & f' & Hrun & u' & rs1 & t1 & rs' & t' & ws & id' & Ha & -> & Hl' & He).
  exists rv, u', rs1, t1, rs', t', ws, id'. split_and!; [done|done|done|].
  apply (fout_inv_live o u' rs' t'); [done|by eapply sample_end_id|done].
Qed.

(** C7. No loss: when memory is available, the records of the sample fit
    the 4 MB buffer and each of them fits a chunk, a sample that is not filtered
    out is written completely: as one write of all records, or as chunks from
    which a reader recovers exactly the records, in order, with consecutive
    indices under one trace id and the [!] sentinel on the last chunk only. *)
Theorem fout_no_loss o os evs pid u f :
  std_delims o -> fout_inv o f -> fo_udata f = ULive u ->
  Forall (fun ev => is_record_event ev = true /\ wf_event ev) evs ->
  (forall c, os_realloc os c = true) ->
  let texts := concat (map event_texts evs) in
  let all := texts ++ end_texts o os (length (fo_writes f)) pid in
  let rs := map (strip_delims o) all in
  texts <> [] -> skips o (map (strip_delims o) texts) = false ->
  Z.of_nat (length (join (opt_frame_delim o) all)) + 1 <= PHPSPY_FOUT_MAX_BUFFER ->
  Forall (fun s => Z.of_nat (length s) + 58 <= opt_fout_buffer_size o) all ->
  exists rv u' ws id',
    run_events o os (EvStackBegin :: evs ++ [EvStackEnd pid]) PHPSPY_OK f
      = Done (rv, after_sample f u' ws id')
    /\ (map wr_data ws = [join (opt_frame_delim o) rs ++ [opt_trace_delim o]]
        \/ exists gs, map (read_chunk (opt_frame_delim o)) (map wr_data ws)
             = read_groups (fo_trace_id f) true gs /\ concat gs = rs)
    /\ (Forall full ws -> rv = PHPSPY_OK).
Proof.
  intros Hstd (Hm & Hid & Hl) Hu Hevs Hos texts all rs Hne Hsk Hfit Hsmall.
  pose proof (std_delims_ok o Hstd) as Ho. rewrite Hu in Hl. destruct Hl as (rs0 & t0 & Hl).
  destruct (twp_done _ _ _ (sample_wp o os evs pid u rs0 t0 f Ho Hu Hl Hid Hm Hevs))
    as (rv & f' & Hrun & u' & rs1 & t1 & rs' & t' & ws & id' & Ha & -> & Hl' & He).
  fold texts in Ha. pose proof Ha as Ha0.
  apply accepts_all in Ha as [-> ->]; [|done|done|subst all; rewrite join_app, length_app in Hfit; simpl; lia].
  cbn [app] in *. inversion He as [Hnil|? Hsk'|rs2 t2 datas cut id2 ws2 _ _ Ha2 Hem Hdata Hfd]; subst.
  { by destruct texts. } { congruence. }
  pose proof (accepts_app _ _ _ _ _ _ _ _ _ _ Ha0 Ha2) as Hall. fold all in Hall. pose proof Hall as Hclean.
  apply accepts_all in Hall as [-> ->]; [|done|done|exact Hfit]. cbn [app] in *. fold rs in Hem, Hclean.
  apply accepts_records_clean in Hclean; [|done|constructor].
  destruct (emission_no_loss o _ _ _ _ _ Hstd Hem Hid) as [-> Hread]; [| |done|].
  - subst rs. rewrite length_join_strip by done. unfold PHPSPY_FOUT_MAX_BUFFER in Hfit. lia.
  - subst rs. apply Forall_map. eapply Forall_impl; [exact Hsmall|]. intros s Hs. cbn.
    by rewrite length_strip_delims.
  - exists (write_code ws false), u', ws, id'. split_and!; [exact Hrun|exact Hread|].
    intros Hfull. unfold write_code. by rewrite decide_True.
Qed.

(** Chunks of an emission decode to groups of its records. *)
Lemma emission_readable o id rs t datas missing id' :
  std_delims o -> Forall (fun r => opt_frame_delim o ∉ r) rs ->
  emission o id rs t datas missing id' -> ~ fits_whole o rs t ->
  exists gs rest, rs = concat gs ++ rest /\ Forall (fun g => g <> []) gs
    /\ map (read_chunk (opt_frame_delim o)) datas = read_groups id (negb missing) gs
         ++ (if missing then [([cs "# truncated = 1"], id_record id (Z.of_nat (length gs)) "!"%char)] else [])
    /\ (missing = false <-> t = false /\ rest = []).
Proof.
  intros Ho Hclean He Hbig. inversion He as [|gs rest ? Hrs Hgs]; subst; [done|].
  exists gs, rest. apply Forall_app in Hclean as [Hclean _]. split_and!; [done|done| |].
  - unfold chunked_data. rewrite map_app, read_group_data by done.
    destruct (t || bool_decide (rest <> [])); [|done]. cbn [map]. by rewrite marker_read.
  - rewrite orb_false_iff, bool_decide_eq_false. split; (intros [? Hr]; split; [done|]).
    + destruct rest; [done|]. by destruct Hr.
    + by intros X.
Qed.

(** Units that are not cut are at most 73 bytes. *)
Lemma emission_bounded o id rs t datas missing id' B :
  emission o id rs t datas missing id' -> 0 <= id < 2 ^ 64 ->
  Z.of_nat (length (join (opt_frame_delim o) rs)) < 2 ^ 64 - 1 -> 73 <= B -> opt_fout_buffer_size o <= B ->
  Forall (fun x => Z.of_nat (length x) <= B) datas.
Proof.
  intros He Hid Hlen Hb HB. inversion He as [Hfit|gs rest ? -> Hgs Hbound]; subst.
  - constructor; [|constructor]. unfold fits_whole in Hfit. rewrite !length_app. cbn [length].
    case_match; cbn [length]; lia.
  - unfold chunked_data. apply Forall_app. split; [eapply Forall_impl; [exact Hbound|]; cbn; lia|].
    destruct (t || bool_decide (rest <> [])); [|constructor]. constructor; [|constructor].
    rewrite length_app. change (length (marker o)) with 16%nat.
    pose proof (length_concat_groups (opt_frame_delim o) gs Hgs) as Hl. rewrite join_app, length_app in Hlen.
    pose proof (length_chunk_tail o id (Z.of_nat (length gs)) "!"%char Hid ltac:(lia)). lia.
Qed.

(** C8. Chunks can be read back, whatever was dropped: when the buffered
    records do not fit one write, [event_handler_fout_write] returns, and every
    [writev] it issued decodes to a group of whole records with the trace id and
    its index; the groups are a prefix of the buffered records, all of them
    unless the trace is reported as truncated, and then one more chunk with the
    truncation record ends the trace.  The code reports failed writes and
    truncation. *)
Theorem chunks_readable o os u rs t f :
  std_delims o -> live o u rs t -> rs <> [] -> 0 <= fo_trace_id f < 2 ^ 64 -> fo_mutex f = false -> ~ fits_whole o rs t ->
  exists u' f' ws gs rest missing, event_handler_fout_write o os u f = Done (write_code ws missing, u', f')
    /\ fo_writes f' = fo_writes f ++ ws /\ fo_mutex f' = false
    /\ rs = concat gs ++ rest /\ Forall (fun g => g <> []) gs
    /\ map (read_chunk (opt_frame_delim o)) (map wr_data ws) = read_groups (fo_trace_id f) (negb missing) gs
         ++ (if missing then [([cs "# truncated = 1"], id_record (fo_trace_id f) (Z.of_nat (length gs)) "!"%char)] else [])
    /\ (missing = false <-> t = false /\ rest = []).
Proof.
  intros Ho Hl Hne Hid Hm Hbig.
  destruct (twp_done _ _ _ (write_wp o os False u rs t f Hl Hne Hid Hm))
    as ([rv u'] & f' & Hrun & datas & missing & id' & ws & He & Hd & _ & -> & Hc & _). cbn [fst] in Hc. subst datas rv.
  assert (Forall (fun r => opt_frame_delim o ∉ r) rs) as Hclean
    by (destruct Hl as [(_ & _ & Hr) _]; eapply Forall_impl; [exact Hr|by intros ? []]).
  destruct (emission_readable o _ rs t _ missing id' Ho Hclean He Hbig) as (gs & rest & H).
  eexists u', _, ws, gs, rest, missing. split; [exact Hrun|]. split; [done|]. split; [exact Hm|exact H].
Qed.

(** C16. Size of a write: with [-b] of at least 73, every [writev] of a
    sample passes at most [-b] bytes, whatever the events (16 bytes of
    truncation record and at most 57 bytes of id record are the largest unit that
    is not cut). *)
Theorem writes_bounded o os evs pid u f :
  delims_ok o -> fout_inv o f -> fo_udata f = ULive u -> 73 <= opt_fout_buffer_size o ->
  Forall (fun ev => is_record_event ev = true /\ wf_event ev) evs ->
  exists rv u' ws id',
    run_events o os (EvStackBegin :: evs ++ [EvStackEnd pid]) PHPSPY_OK f = Done (rv, after_sample f u' ws id')
    /\ Forall (fun wr => wr_fd wr = u_fd u /\ Z.of_nat (length (wr_data wr)) <= opt_fout_buffer_size o) ws.
Proof.
  intros Ho (Hm & Hid & Hl) Hu Hb Hevs. rewrite Hu in Hl. destruct Hl as (rs0 & t0 & Hl).
  destruct (twp_done _ _ _ (sample_wp o os evs pid u rs0 t0 f Ho Hu Hl Hid Hm Hevs))
    as (rv & f' & Hrun & u' & rs1 & t1 & rs' & t' & ws & id' & _ & -> & Hl' & He).
  exists rv, u', ws, id'. split; [exact Hrun|].
  destruct He as [| |rs' t' datas cut id' ws _ _ _ Hem Hd Hfd]; [constructor..|]. apply Forall_and.
  split; [eapply Forall_impl; [exact Hfd|by intros ? []]|].
  destruct Hl' as [(Hh & _) _]. pose proof (h_len _ _ _ Hh). pose proof (h_room _ _ _ Hh). pose proof (h_cap _ _ _ Hh) as Hcap.
  unfold PHPSPY_FOUT_MAX_BUFFER in Hcap.
  pose proof (emission_bounded o _ _ _ _ _ _ _ Hem Hid ltac:(lia) Hb ltac:(lia)) as HB. subst datas. rewrite Forall_map in HB. exact HB.
Qed.

(** With the default delimiters (both newline) every newline of a
    record, and nothing else, is replaced by a question mark. *)
Theorem strip_lines o r :
  opt_frame_delim o = NL -> opt_trace_delim o = NL ->
  strip_delims o r = map (fun c => if decide (c = NL) then "?"%char else c) r.
Proof.
  intros Hf Ht. rewrite strip_delims_eq by (unfold delims_ok; by rewrite Hf, Ht).
  rewrite Hf, Ht, <-map_app, take_drop. done.
Qed.

(** With one line per trace ([-1]: tab and newline) the search for the
    trace delimiter resumes behind the last frame delimiter, so a newline stays
    in the record exactly when a tab follows it. *)
Theorem strip_one_line o r :
  opt_frame_delim o = TAB -> opt_trace_delim o = NL ->
  (NL ∈ strip_delims o r <-> exists a b, r = a ++ NL :: b /\ TAB ∈ b).
Proof.
  intros Hf Ht. rewrite strip_delims_eq by (unfold delims_ok; by rewrite Hf, Ht). rewrite Hf, Ht.
  rewrite elem_of_app. split.
  - intros [H|H].
    + apply elem_of_map_subst in H as [_ [H|H]]; [done| |done]. by apply strip_from_before.
    + by apply elem_of_map_subst in H as [? _].
  - intros (a & b & -> & Hb). left. apply (list_elem_of_fmap_2' _ _ NL); [|done].
    by apply strip_from_covers.
Qed.

(** C21. Initialisation.  The path may be a format for one number: with one
    [%d] in it (and no other percent sign) the handler opens a file per thread,
    named with its thread id; it duplicates stdout for [-], and opens any other
    file once, sharing it between threads.  (A path with [%d] and another
    conversion makes [asprintf] read an argument that is not there; such paths
    are excluded.)  It accepts a buffer size of up to 4 MB and a descriptor that
    could be opened, and then its user data is fresh, with the mutex used exactly
    if the handler options contain an [m], and the invariant holds; otherwise it
    reports an error and installs nothing.  The mutex is free again in every
    case. *)
Theorem fout_init_spec o os opts f :
  path_ok o -> 1 <= opt_fout_buffer_size o -> fo_mutex f = false ->
  exists rv f', event_handler_fout o os (EvInit opts) f = Done (rv, f') /\ init_post o os opts f rv f'
    /\ forall a b, opt_path_output o = a ++ cs "%d" ++ b -> "%"%char ∉ a -> "%"%char ∉ b ->
         open_target o os f = (os_open os (a ++ fmt_d (os_gettid os) ++ b), fo_shared_fd f).
Proof.
  intros Hp Hb Hm. destruct (twp_done _ _ _ (fout_init_wp o os False opts f Hp Hb Hm)) as (rv & f' & Hrun & Hpost).
  exists rv, f'. split; [exact Hrun|]. split; [exact Hpost|]. apply open_target_tid.
Qed.

(** C17. Safety of the handler: from a state that satisfies the invariant, no
    sequence of events the tracer may send faults (no write outside the heap
    buffer or [trace_id_tail], no over-read, no deadlock), every call returns,
    and the invariant holds at the end. *)
Theorem fout_events_safe o os evs rv f :
  delims_ok o -> fout_inv o f -> Forall wf_event evs ->
  exists rv' f', run_events o os evs rv f = Done (rv', f') /\ fout_inv o f'.
Proof.
  intros Ho Hf Hevs. revert rv f Hf. induction Hevs as [|ev evs Hev Hevs IH]; intros rv f Hf.
  { by exists rv, f. }
  destruct (fout_inv_event o os Ho ev f Hev Hf) as (rv1 & f1 & Hrun & Hf1).
  destruct (IH rv1 f1 Hf1) as (rv2 & f2 & Hrun2 & Hf2). exists rv2, f2. split; [|done].
  cbn [run_events]. unfold mbind, M_bind. by rewrite Hrun.
Qed.

(** ** Witnesses *)

Definition demo_loc : trace_loc := {|
  l_func := cs "main" ++ repeat NUL 252; l_class := repeat NUL 256; l_file := cs "/a.php" ++ repeat NUL 250;
  l_func_len := 4; l_class_len := 0; l_file_len := 6; l_lineno := 7 |}.
Definition demo_events : list event := [EvFrame {| f_loc := demo_loc; f_depth := 0 |}; EvMem 100 200].
Definition ready (o : options) : fout := put_udata (ULive (fresh_udata o 4 true)) fresh_fout.

Lemma demo_events_ok : Forall (fun ev => is_record_event ev = true /\ wf_event ev) demo_events.
Proof.
  constructor; [|constructor; [|constructor]]; (split; [done|]); simpl; [|lia].
  unfold wf_loc, str_buf. simpl. split_and!; try lia; try done; apply (bool_decide_unpack _); by vm_compute.
Qed.

Lemma ready_inv o : 1 <= opt_fout_buffer_size o <= PHPSPY_FOUT_MAX_BUFFER -> fout_inv o (ready o).
Proof. intros Hb. apply (fout_inv_live o _ [] false); [by apply fresh_live|done|done]. Qed.

Lemma default_std : std_delims default_options.
Proof. split; [done|by left]. Qed.

Lemma fout_sample_witness : exists rv u' rs t rs' t' ws id',
  run_events default_options good_os (EvStackBegin :: demo_events ++ [EvStackEnd 9]) PHPSPY_OK (ready default_options)
    = Done (rv, after_sample (ready default_options) u' ws id')
  /\ accepts default_options good_os [] false (concat (map event_texts demo_events)) rs t
  /\ sample_end default_options good_os 9 4 0 0 rs t rv rs' t' ws id'
  /\ fout_inv default_options (after_sample (ready default_options) u' ws id').
Proof.
  exact (fout_sample default_options good_os demo_events 9 (fresh_udata default_options 4 true)
    (ready default_options) (std_delims_ok _ default_std) (ready_inv default_options ltac:(by vm_compute))
    eq_refl demo_events_ok).
Defined.

Definition small_options : options := with_buffer 80 default_options.

Lemma fout_no_loss_witness : exists rv u' ws id',
  run_events small_options good_os (EvStackBegin :: demo_events ++ [EvStackEnd 9]) PHPSPY_OK (ready small_options)
    = Done (rv, after_sample (ready small_options) u' ws id')
  /\ (map wr_data ws = [cs "0 main /a.php:7" ++ NL :: cs "# mem 100 200" ++ [NL; NL]]
      \/ exists gs, map (read_chunk NL) (map wr_data ws) = read_groups 0 true gs
           /\ concat gs = [cs "0 main /a.php:7"; cs "# mem 100 200"])
  /\ (Forall full ws -> rv = PHPSPY_OK).
Proof.
  apply (fout_no_loss small_options good_os demo_events 9 (fresh_udata small_options 4 true) (ready small_options)
    default_std (ready_inv small_options ltac:(by vm_compute)) eq_refl demo_events_ok); try done.
  repeat constructor; vm_compute; discriminate.
Defined.

(** Two records of 21 bytes, delimiter included, that need two chunks. *)
Definition two_records : list bytes := [repeat "a"%char 20; repeat "b"%char 20].
Definition tiny_options : options := with_buffer 41 default_options.
Definition two_udata : fout_udata := {|
  u_fd := 4; u_buf := join NL two_records ++ [NUL]; u_len := 42; u_cap := 64; u_use_mutex := true; u_truncated := false;
  u_trunc_marker := cs "# truncated = 1" ++ [NL]; u_tail := repeat NUL 64; u_tail_len := 0 |}.

Lemma two_udata_live : live tiny_options two_udata two_records false.
Proof.
  split; [|left; discriminate]. split_and!; [|done|repeat constructor; by apply not_in_literal].
  split; try done; try (by left); vm_compute; (lia || done).
Qed.

Lemma chunks_readable_witness : exists u' f' ws gs rest missing,
  event_handler_fout_write tiny_options good_os two_udata fresh_fout = Done (write_code ws missing, u', f')
    /\ fo_writes f' = [] ++ ws /\ fo_mutex f' = false
    /\ two_records = concat gs ++ rest /\ Forall (fun g => g <> []) gs
    /\ map (read_chunk NL) (map wr_data ws) = read_groups 0 (negb missing) gs
         ++ (if missing then [([cs "# truncated = 1"], id_record 0 (Z.of_nat (length gs)) "!"%char)] else [])
    /\ (missing = false <-> false = false /\ rest = []).
Proof.
  apply (chunks_readable tiny_options good_os two_udata two_records false fresh_fout default_std two_udata_live); try done.
  intros H. vm_compute in H. by apply H.
Defined.

Lemma writes_bounded_witness : exists rv u' ws id',
  run_events small_options good_os (EvStackBegin :: demo_events ++ [EvStackEnd 9]) PHPSPY_OK (ready small_options)
    = Done (rv, after_sample (ready small_options) u' ws id')
  /\ Forall (fun wr => wr_fd wr = 4 /\ Z.of_nat (length (wr_data wr)) <= 80) ws.
Proof.
  apply (writes_bounded small_options good_os demo_events 9 (fresh_udata small_options 4 true) (ready small_options)
    (std_delims_ok _ default_std) (ready_inv small_options ltac:(by vm_compute)) eq_refl); [done|apply demo_events_ok].
Defined.

Lemma strip_lines_witness : strip_delims default_options (cs "a" ++ [NL; TAB] ++ cs "b") = cs "a?" ++ TAB :: cs "b".
Proof. rewrite (strip_lines default_options) by reflexivity. reflexivity. Defined.

Definition one_line_options : options := with_delims TAB NL default_options.

Lemma strip_one_line_witness : NL ∈ strip_delims one_line_options (cs "a" ++ [NL; TAB] ++ cs "b").
Proof. apply (strip_one_line one_line_options); [done|done|]. exists (cs "a"), (TAB :: cs "b"). split; [done|left]. Defined.

Definition per_thread_options : options := set_opt_path_output (cs "out.%d") default_options.

Lemma per_thread_path : path_ok per_thread_options.
Proof. intros tid _. eexists. reflexivity. Qed.

Lemma fout_init_spec_witness : exists rv f',
  event_handler_fout per_thread_options good_os (EvInit (Some (cs "m"))) fresh_fout = Done (rv, f')
  /\ init_post per_thread_options good_os (Some (cs "m")) fresh_fout rv f'.
Proof.
  destruct (fout_init_spec per_thread_options good_os (Some (cs "m")) fresh_fout) as (rv & f' & Hrun & Hpost & _);
    [exact per_thread_path|by vm_compute|done|]. by exists rv, f'.
Defined.

Lemma fout_events_safe_witness : exists rv' f',
  run_events default_options good_os [EvStackBegin; EvMem 1 2; EvStackEnd 9; EvError] 0 (ready default_options)
    = Done (rv', f') /\ fout_inv default_options f'.
Proof.
  apply (fout_events_safe default_options good_os _ 0 (ready default_options)).
  - apply std_delims_ok, default_std.
  - apply ready_inv. by vm_compute.
  - repeat constructor; simpl; lia.
Defined.
