(* ===== verification/FoutThreads.v ===== *)
(** * FoutThreads: the trace writer under many threads (event_fout.c)

    In pgrep mode the workers share the output, the counter of trace ids and,
    with the handler option [m], a mutex.  Here [event_handler_fout_write] is a
    program whose atomic actions are those on the shared state: the lock, the
    [__atomic_fetch_add] and the steps of each [writev].  A [writev] of up to
    [PIPE_BUF] bytes is one step; a longer one may put any part of its bytes into
    the output before it returns, and other threads act in between (pipe(7)).
    Run alone the program is the function of Fout.v ([run_write_prog]); a run of
    many threads interleaves the actions of their programs in any order. *)
From S2P Require Import Prelude CLib Layout Context Fout FoutSpec FoutWrite FoutHandler FoutTheorems.

(** ** Programs of atomic actions *)

Inductive prog (A : Type) :=
| Ret (a : A)
| Fail (f : fault)
| Spin
| Lock (k : prog A)
| Unlock (k : prog A)
| FetchAdd (k : Z -> prog A)
(* a write of [data], of which [sent] bytes are out *)
| Writev (fd : Z) (data : bytes) (sent : nat) (k : Z -> prog A).
Arguments Ret {A} _.
Arguments Fail {A} _.
Arguments Spin {A}.
Arguments Lock {A} _.
Arguments Unlock {A} _.
Arguments FetchAdd {A} _.
Arguments Writev {A} _ _ _ _.

#[export] Instance prog_ret : MRet prog := @Ret.
Fixpoint prog_bind_ {A B} (k : A -> prog B) (p : prog A) : prog B :=
  match p with
  | Ret a => k a
  | Fail f => Fail f
  | Spin => Spin
  | Lock p => Lock (prog_bind_ k p)
  | Unlock p => Unlock (prog_bind_ k p)
  | FetchAdd p => FetchAdd (fun n => prog_bind_ k (p n))
  | Writev fd data sent p => Writev fd data sent (fun n => prog_bind_ k (p n))
  end.
#[export] Instance prog_bind : MBind prog := @prog_bind_.

(** A computation on private data. *)
Definition private {A} (m : M unit A) : prog A :=
  match m tt with Done (a, _) => Ret a | Fault f => Fail f | Diverge => Spin end.

(** ** The writer *)

Section writer.
Context (o : options).

Definition writev_prog (fd : Z) (iov : list bytes) : prog Z :=
  let data := concat iov in
  Writev fd data 0 (fun ret => mret (if ret =? Z.of_nat (length data) then PHPSPY_OK else PHPSPY_ERR)).

Definition write_whole_prog (u : fout_udata) : prog Z :=
  writev_prog (u_fd u)
    ([take (u_len u) (u_buf u)]
     ++ (if u_truncated u then [u_trunc_marker u] else [])
     ++ [[opt_trace_delim o]]).

Definition fill_trace_id_prog (u : fout_udata) (trace_id chunk_idx : Z) : prog fout_udata :=
  let text := trace_id_text o trace_id chunk_idx in
  tail ← private (snprintf (u_tail u) 0 64 text);
  mret (set_tail tail (length text) u).

Definition write_chunk_prog (u : fout_udata) (body : bytes) (sentinel : ascii) : prog (Z * fout_udata) :=
  if bool_decide (u_tail_len u < 3)%nat then Fail AssertFailed else
  tail ← private (store (u_tail u) (u_tail_len u - 3) [sentinel]);
  if bool_decide (length tail < u_tail_len u)%nat then Fail OverRead else
  rv ← writev_prog (u_fd u) [body; take (u_tail_len u) tail];
  mret (rv, set_tail tail (u_tail_len u) u).

Fixpoint chunk_loop_prog (n : nat) (u : fout_udata) (trace_id chunk_idx : Z) (start : nat) (rv : Z)
    : prog (Z * fout_udata * nat * Z) :=
  match n with
  | O => Spin
  | S n' =>
    let stop := u_len u in
    if bool_decide (stop <= start)%nat then mret (rv, u, start, chunk_idx) else
    u ← fill_trace_id_prog u trace_id chunk_idx;
    let max_chunk_len := Z.to_nat (opt_fout_buffer_size o - Z.of_nat (u_tail_len u)) in
    match event_handler_fout_find_chunk_end o (u_buf u) start stop max_chunk_len with
    | None => mret (rv, u, start, chunk_idx)
    | Some chunk_end =>
      let sentinel := if bool_decide (chunk_end = stop) && negb (u_truncated u) then "!"%char else "~"%char in
      '(r, u) ← write_chunk_prog u (peek (u_buf u) start (chunk_end - start)) sentinel;
      chunk_loop_prog n' u trace_id (u64 (chunk_idx + 1)) chunk_end (Z.lor rv r)
    end
  end.

(** After [__atomic_fetch_add]. *)
Definition write_chunks_prog (u : fout_udata) (trace_id : Z) : prog (Z * fout_udata) :=
  '(rv, u, start, chunk_idx) ← chunk_loop_prog (S (u_len u)) u trace_id 0 0 PHPSPY_OK;
  let u := if bool_decide (start < u_len u)%nat then set_bytes (u_buf u) (u_len u) true u else u in
  if negb (u_truncated u) then mret (rv, u) else
  u ← fill_trace_id_prog u trace_id chunk_idx;
  '(r, u) ← write_chunk_prog u (u_trunc_marker u) "!"%char;
  mret (Z.lor rv r, u).

(** Between the lock and the unlock. *)
Definition write_body_prog (u : fout_udata) : prog (Z * fout_udata) :=
  let total_len := Z.of_nat (u_len u) + 1
    + (if u_truncated u then Z.of_nat (length (u_trunc_marker u)) else 0) in
  if bool_decide (total_len <= opt_fout_buffer_size o) then
    rv ← write_whole_prog u; mret (rv, u)
  else FetchAdd (write_chunks_prog u).

Definition write_prog (u : fout_udata) : prog (Z * fout_udata) :=
  let body :=
    '(rv, u') ← write_body_prog u;
    let r := (if u_truncated u' then Z.lor rv PHPSPY_ERR_TRUNCATED else rv, u') in
    if u_use_mutex u' then Unlock (mret r) else mret r in
  if u_use_mutex u then Lock body else body.

(** A worker: the buffers it has at each [STACK_END], in turn. *)
Fixpoint worker (us : list fout_udata) : prog unit :=
  match us with
  | [] => mret tt
  | u :: us => _ ← write_prog u; worker us
  end.

End writer.

(** ** Actions *)

(** [APart]: the bytes [piece] of a pending write of [data] come out.  [AWrite]:
    a [writev] returns, after the bytes [rest]. *)
Inductive act := ALock | AUnlock | AId (id : Z) | APart (fd : Z) (data piece : bytes) | AWrite (w : write_call) (rest : bytes).

(** What is still to come out when a write returns [ret].  (It may have failed
    after some bytes, then nothing follows.) *)
Definition last_part (data : bytes) (sent : nat) (ret : Z) : bytes := take (Z.to_nat ret - sent) (drop sent data).

(** The bytes an action puts into the output. *)
Definition act_bytes (a : act) : bytes :=
  match a with APart _ _ piece => piece | AWrite _ rest => rest | _ => [] end.

Definition stream (acts : list act) : bytes := concat (map act_bytes acts).

(** The program after its next action, with the system's answer in it. *)
Definition next {A} (p : prog A) (a : act) : option (prog A) :=
  match p, a with
  | Lock k, ALock => Some k
  | Unlock k, AUnlock => Some k
  | FetchAdd k, AId id => Some (k id)
  | Writev fd data sent k, APart fd' data' piece =>
    if bool_decide (fd' = fd /\ data' = data /\ piece <> [] /\ piece = take (length piece) (drop sent data))
    then Some (Writev fd data (sent + length piece) k) else None
  | Writev fd data sent k, AWrite w rest =>
    if bool_decide (wr_fd w = fd /\ wr_data w = data /\ rest = last_part data sent (wr_ret w)) then Some (k (wr_ret w)) else None
  | _, _ => None
  end.

Fixpoint follow {A} (p : prog A) (acts : list act) : option (prog A) :=
  match acts with
  | [] => Some p
  | a :: acts => p ← next p a; follow p acts
  end.

Section shared.
Context (os : os_env).

(** What an action does to the shared state, when it can happen there. *)
Definition apply_act (a : act) (f : fout) : option fout :=
  match a with
  | ALock => if fo_mutex f then None else Some (put_mutex true f)
  | AUnlock => Some (put_mutex false f)
  | AId id => if bool_decide (id = fo_trace_id f) then Some (put_trace_id (u64 (id + 1)) f) else None
  | APart _ data _ => if bool_decide (os_pipe_buf os < Z.of_nat (length data)) then Some f else None
  | AWrite w _ =>
    if bool_decide (wr_ret w = os_writev os (length (fo_writes f)) (wr_fd w) (wr_data w))
    then Some (put_writes (fo_writes f ++ [w]) f) else None
  end.

Fixpoint apply_acts (acts : list act) (f : fout) : option fout :=
  match acts with
  | [] => Some f
  | a :: acts => f ← apply_act a f; apply_acts acts f
  end.

(** ** Threads *)

Definition config : Type := fout * list (prog unit).

Inductive cstep : config -> nat * act -> config -> Prop :=
| cstep_intro i a p p' f f' ts :
    ts !! i = Some p -> next p a = Some p' -> apply_act a f = Some f' -> cstep (f, ts) (i, a) (f', <[i := p']> ts).

Inductive csteps : config -> list (nat * act) -> config -> Prop :=
| csteps_nil c : csteps c [] c
| csteps_snoc c h c' l c'' : csteps c h c' -> cstep c' l c'' -> csteps c (h ++ [l]) c''.

(** Execution by a schedule: the thread that acts, at each step; a write comes
    out at once. *)
Definition pending {A} (p : prog A) (f : fout) : option act :=
  match p with
  | Lock _ => Some ALock
  | Unlock _ => Some AUnlock
  | FetchAdd _ => Some (AId (fo_trace_id f))
  | Writev fd data sent _ => let ret := os_writev os (length (fo_writes f)) fd data in
    Some (AWrite {| wr_fd := fd; wr_data := data; wr_ret := ret |} (last_part data sent ret))
  | _ => None
  end.

Definition step_thread (i : nat) (c : config) : option (act * config) :=
  p ← c.2 !! i;
  a ← pending p c.1;
  p' ← next p a;
  f' ← apply_act a c.1;
  Some (a, (f', <[i := p']> c.2)).

Fixpoint schedule (who : list nat) (h : list (nat * act)) (c : config) : option (list (nat * act) * config) :=
  match who with
  | [] => Some (h, c)
  | i :: who => '(a, c) ← step_thread i c; schedule who (h ++ [(i, a)]) c
  end.

Lemma step_thread_cstep i c a c' : step_thread i c = Some (a, c') -> cstep c (i, a) c'.
Proof.
  destruct c as [f ts]. unfold step_thread. cbn. destruct (ts !! i) as [p|] eqn:Hp; [|done]. cbn. destruct (pending p f) as [b|]; [|done]. cbn.
  destruct (next p b) as [p'|] eqn:Hn; [|done]. cbn. destruct (apply_act b f) as [f'|] eqn:Ha; [|done]. intros [= <- <-]. by eapply cstep_intro.
Qed.

Lemma schedule_csteps who h0 c0 c h c' : csteps c0 h0 c -> schedule who h0 c = Some (h, c') -> csteps c0 h c'.
Proof.
  revert h0 c. induction who as [|i who IH]; intros h0 c Hs Hr; cbn in Hr; [by simplify_eq|].
  destruct (step_thread i c) as [[a c1]|] eqn:Hi; [|done]. eapply IH; [|exact Hr]. eapply csteps_snoc; [exact Hs|by apply step_thread_cstep].
Qed.

(** Execution of a given history. *)
Fixpoint play (h : list (nat * act)) (c : config) : option config :=
  match h with
  | [] => Some c
  | (i, a) :: h => p ← c.2 !! i; p' ← next p a; f' ← apply_act a c.1; play h (f', <[i := p']> c.2)
  end.

Lemma csteps_cons c l c1 h c2 : cstep c l c1 -> csteps c1 h c2 -> csteps c (l :: h) c2.
Proof.
  intros Hl Hs. revert c Hl. induction Hs as [c1|c1 h c' l' c'' Hs IH Hl']; intros c Hl.
  - apply (csteps_snoc c [] c); [constructor|exact Hl].
  - apply (csteps_snoc c (l :: h) c'); [by apply IH|exact Hl'].
Qed.

Lemma play_csteps h c c' : play h c = Some c' -> csteps c h c'.
Proof.
  revert c. induction h as [|[i a] h IH]; intros [f ts] Hp; cbn in Hp; [injection Hp as <-; constructor|].
  destruct (ts !! i) as [p|] eqn:Hi; [|done]. cbn in Hp. destruct (next p a) as [p'|] eqn:Hn; [|done]. cbn in Hp.
  destruct (apply_act a f) as [f'|] eqn:Ha; [|done]. cbn in Hp. eapply csteps_cons; [by eapply cstep_intro|by apply IH].
Qed.

(** ** A thread alone *)

Fixpoint run {A} (p : prog A) : M fout A :=
  match p with
  | Ret a => mret a
  | Fail f => raise f
  | Spin => diverge
  | Lock k => mutex_lock;; run k
  | Unlock k => mutex_unlock;; run k
  | FetchAdd k => f ← get; put (put_trace_id (u64 (fo_trace_id f + 1)) f);; run (k (fo_trace_id f))
  | Writev fd data _ k =>
    f ← get;
    let ret := os_writev os (length (fo_writes f)) fd data in
    put (put_writes (fo_writes f ++ [{| wr_fd := fd; wr_data := data; wr_ret := ret |}]) f);;
    run (k ret)
  end.

Lemma run_bind {A B} (p : prog A) (k : A -> prog B) f : run (p ≫= k) f = (run p ≫= fun a => run (k a)) f.
Proof.
  unfold mbind, prog_bind, M_bind. revert f. induction p as [a|x| |p IH|p IH|p IH|fd data sent p IH]; intros f; cbn; try done.
  - unfold mbind, M_bind. destruct (mutex_lock f) as [[[] f1]| |]; [apply IH|done..].
  - unfold mbind, M_bind. apply IH.
  - unfold mbind, M_bind. apply IH.
  - unfold mbind, M_bind. apply IH.
Qed.

(** An action of the program leads to the same end. *)
Lemma run_next {A} (p p' : prog A) a f f' : next p a = Some p' -> apply_act a f = Some f' -> run p f = run p' f'.
Proof.
  intros Hp Hf. destruct p, a; try discriminate; cbn in Hp, Hf.
  - injection Hp as <-. cbn. unfold mbind, M_bind, mutex_lock. unfold mbind, M_bind, get. destruct (fo_mutex f); [done|].
    by injection Hf as <-.
  - injection Hp as <-. by injection Hf as <-.
  - injection Hp as <-. case_bool_decide; [|done]. injection Hf as <-. by subst id.
  - do 2 (case_bool_decide; [|done]). injection Hp as <-. by injection Hf as <-.
  - destruct w as [wfd wdata wret]. cbn in *. do 2 (case_bool_decide; [|done]). destruct_and!. subst. injection Hp as <-. by injection Hf as <-.
Qed.

Lemma run_follow {A} (p p' : prog A) acts f f' : follow p acts = Some p' -> apply_acts acts f = Some f' -> run p f = run p' f'.
Proof.
  revert p f. induction acts as [|a acts IH]; intros p f Hp Hf; cbn in *; [by simplify_eq|].
  destruct (next p a) as [p1|] eqn:Hn; [|done]. destruct (apply_act a f) as [f1|] eqn:Ha; [|done]. cbn in *.
  rewrite (run_next _ _ _ _ _ Hn Ha). by apply IH.
Qed.

Lemma run_private {A} (m : forall W, M W A) f :
  (forall W (w : W), m W w = match m unit tt with Done (a, _) => Done (a, w) | Fault x => Fault x | Diverge => Diverge end) ->
  run (private (m unit)) f = m fout f.
Proof. intros Hm. rewrite Hm. unfold private. by destruct (m unit tt) as [[]| |]. Qed.

End shared.

(** ** The programs are the functions of Fout.v *)

Section same.
Context (o : options) (os : os_env).

(** Computations that do the same from every state. *)
Definition same {A} (m m' : M fout A) : Prop := forall f, m f = m' f.

Lemma same_bind {A B} (p : prog A) (m : M fout A) (k : A -> prog B) (k' : A -> M fout B) :
  same (run os p) m -> (forall a, same (run os (k a)) (k' a)) -> same (run os (p ≫= k)) (m ≫= k').
Proof.
  intros Hm Hk f. rewrite run_bind. unfold mbind, M_bind. rewrite Hm. destruct (m f) as [[a f']| |]; [apply Hk|done..].
Qed.

Lemma same_then {A B} (m : M fout A) (k k' : A -> M fout B) : (forall a, same (k a) (k' a)) -> same (m ≫= k) (m ≫= k').
Proof. intros Hk f. unfold mbind, M_bind. destruct (m f) as [[a f']| |]; [apply Hk|done..]. Qed.

Lemma same_private {A} (m : forall W, M W A) :
  (forall W (w : W), m W w = match m unit tt with Done (a, _) => Done (a, w) | Fault x => Fault x | Diverge => Diverge end) ->
  same (run os (private (m unit))) (m fout).
Proof. intros Hm f. by apply run_private. Qed.

Lemma same_store m off bs : same (run os (private (store m off bs))) (store m off bs).
Proof. apply (same_private (fun W => store m off bs)). intros W w. unfold store. by case_bool_decide. Qed.

Lemma same_writev fd iov : same (run os (writev_prog fd iov)) (event_handler_fout_writev os fd iov).
Proof. done. Qed.

Lemma same_fill u id idx : same (run os (fill_trace_id_prog o u id idx)) (event_handler_fout_fill_trace_id o u id idx).
Proof. apply same_bind; [apply same_store|done]. Qed.

Lemma same_chunk u body s : same (run os (write_chunk_prog u body s)) (event_handler_fout_write_chunk os u body s).
Proof.
  unfold write_chunk_prog, event_handler_fout_write_chunk. case_bool_decide; [done|]. apply same_bind; [apply same_store|]. intros tail.
  case_bool_decide; [done|]. by apply same_bind.
Qed.

Lemma same_loop n u id idx start rv : same (run os (chunk_loop_prog o n u id idx start rv)) (chunk_loop o os n u id idx start rv).
Proof.
  revert u idx start rv. induction n as [|n IH]; intros u idx start rv; [done|]. cbn [chunk_loop_prog chunk_loop].
  case_bool_decide; [done|]. apply same_bind; [apply same_fill|]. intros u1.
  destruct (event_handler_fout_find_chunk_end _ _ _ _ _); [|done]. apply same_bind; [apply same_chunk|]. intros [r u2]. apply IH.
Qed.

Lemma same_chunks u f : run os (FetchAdd (write_chunks_prog o u)) f = event_handler_fout_write_chunked o os u f.
Proof.
  cbn [run]. unfold event_handler_fout_write_chunked. unfold mbind at 1 3, M_bind at 1 3, get. unfold mbind at 1 2, M_bind at 1 2, put.
  apply same_bind; [apply same_loop|]. intros [[[rv u1] start] idx]. cbv zeta. case_match; [done|].
  apply same_bind; [apply same_fill|]. intros u2. by apply same_bind; [apply same_chunk|intros []].
Qed.

Lemma same_body u : same (run os (write_body_prog o u))
  (if bool_decide (Z.of_nat (u_len u) + 1 + (if u_truncated u then Z.of_nat (length (u_trunc_marker u)) else 0) <= opt_fout_buffer_size o)
   then rv ← event_handler_fout_write_whole o os u; mret (rv, u) else event_handler_fout_write_chunked o os u).
Proof. unfold write_body_prog. cbv zeta. case_bool_decide; [by apply same_bind|]. intros g. apply same_chunks. Qed.

Lemma run_write_prog u f : run os (write_prog o u) f = event_handler_fout_write o os u f.
Proof.
  unfold write_prog, event_handler_fout_write. cbv zeta. destruct (u_use_mutex u).
  - cbn [run]. apply same_then. intros []. apply same_bind; [apply same_body|]. intros [rv u']. by destruct (u_use_mutex u').
  - match goal with |- _ = (mret tt ≫= ?k) f => change (mret tt ≫= k) with (k tt) end. apply same_bind; [apply same_body|]. intros [rv u']. by destruct (u_use_mutex u').
Qed.

End same.
