(* ===== verification/FoutStream.v ===== *)
(** * FoutStream: the bytes that parallel writers put into the output

    A [writev] that comes out in parts puts its parts between the bytes of other
    threads.  This file relates the bytes of a history to its writes, and defines
    the reader that cuts the bytes of an output into the messages of the writes. *)
From S2P Require Import Prelude CLib Layout Context Fout FoutSpec FoutWrite FoutHandler FoutTheorems FoutThreads.

(** The actions of a [writev]. *)
Definition is_out (a : act) : Prop := match a with APart _ _ _ | AWrite _ _ => True | _ => False end.
Definition act_write (a : act) : option write_call := match a with AWrite w _ => Some w | _ => None end.
Definition act_id (a : act) : option Z := match a with AId id => Some id | _ => None end.

Lemma stream_app a b : stream (a ++ b) = stream a ++ stream b.
Proof. unfold stream. by rewrite map_app, concat_app. Qed.

(** ** Programs that start their writes at the start *)

Fixpoint fresh {A} (p : prog A) : Prop :=
  match p with
  | Ret _ | Fail _ | Spin => True
  | Lock k | Unlock k => fresh k
  | FetchAdd k => forall id, fresh (k id)
  | Writev _ _ sent k => sent = 0%nat /\ forall n, fresh (k n)
  end.

(** A fresh program, some actions later. *)
Definition started {A} (p : prog A) : Prop :=
  match p with Writev _ data sent k => (sent <= length data)%nat /\ forall n, fresh (k n) | _ => fresh p end.

(** The bytes of the write it is in that are out. *)
Definition owed {A} (p : prog A) : bytes := match p with Writev _ data sent _ => take sent data | _ => [] end.

Lemma fresh_started {A} (p : prog A) : fresh p -> started p.
Proof. destruct p; try done. cbn. intros [-> H]. split; [lia|done]. Qed.

Lemma fresh_owed {A} (p : prog A) : fresh p -> owed p = [].
Proof. destruct p; try done. cbn. by intros [-> _]. Qed.

Lemma fresh_bind {A B} (p : prog A) (k : A -> prog B) : fresh p -> (forall a, fresh (k a)) -> fresh (p ≫= k).
Proof.
  intros Hp Hk. induction p as [a|x| |p IH|p IH|p IH|fd data sent p IH]; cbn in Hp |- *; [by apply Hk|done|done|by apply IH|by apply IH|..].
  - intros id. by apply IH.
  - destruct Hp as [Hs Hp]. split; [done|]. intros n. by apply IH.
Qed.

Lemma fresh_private {A} (m : M unit A) : fresh (private m).
Proof. unfold private. by destruct (m tt) as [[]| |]. Qed.

Lemma fresh_writev fd iov : fresh (writev_prog fd iov).
Proof. by split. Qed.

Section writer.
Context (o : options).

Lemma fresh_fill u id idx : fresh (fill_trace_id_prog o u id idx).
Proof. by apply fresh_bind; [apply fresh_private|]. Qed.

Lemma fresh_chunk u body s : fresh (write_chunk_prog u body s).
Proof.
  unfold write_chunk_prog. case_bool_decide; [done|]. apply fresh_bind; [apply fresh_private|]. intros tail.
  case_bool_decide; [done|]. by apply fresh_bind; [apply fresh_writev|].
Qed.

Lemma fresh_loop n u id idx start rv : fresh (chunk_loop_prog o n u id idx start rv).
Proof.
  revert u idx start rv. induction n as [|n IH]; intros u idx start rv; [done|]. cbn [chunk_loop_prog]. case_bool_decide; [done|].
  apply fresh_bind; [apply fresh_fill|]. intros u1. destruct (event_handler_fout_find_chunk_end _ _ _ _ _); [|done].
  apply fresh_bind; [apply fresh_chunk|]. intros [r u2]. apply IH.
Qed.

Lemma fresh_chunks u id : fresh (write_chunks_prog o u id).
Proof.
  apply fresh_bind; [apply fresh_loop|]. intros [[[rv u1] start] idx]. cbv zeta. case_match; [done|].
  apply fresh_bind; [apply fresh_fill|]. intros u3. apply fresh_bind; [apply fresh_chunk|]. by intros [].
Qed.

Lemma fresh_write u : fresh (write_prog o u).
Proof.
  unfold write_prog. cbv zeta. set (body := write_body_prog o u ≫= _). enough (fresh body) by (by destruct (u_use_mutex u)).
  apply fresh_bind; [|intros [rv u']; cbv zeta; by destruct (u_use_mutex u')]. unfold write_body_prog. cbv zeta. case_bool_decide.
  - by apply fresh_bind; [apply fresh_writev|].
  - intros id. apply fresh_chunks.
Qed.

End writer.

(** ** The bytes of a program are those of its writes *)

Definition wrote (a : act) : bytes := match act_write a with Some w => wr_data w | None => [] end.

Lemma started_next {A} (p p' : prog A) a : started p -> next p a = Some p' -> (forall w, act_write a = Some w -> full w) ->
  started p' /\ owed p ++ act_bytes a = wrote a ++ owed p'.
Proof.
  intros Hp Hn Hf. destruct p as [x|x| |p|p|p|fd data sent p]; destruct a as [| |id|fd' data' piece|w rest]; try discriminate; cbn in Hn, Hp.
  - injection Hn as <-. split; [by apply fresh_started|]. cbn. by rewrite fresh_owed.
  - injection Hn as <-. split; [by apply fresh_started|]. cbn. by rewrite fresh_owed.
  - injection Hn as <-. split; [by apply fresh_started|]. cbn. by rewrite fresh_owed.
  - case_bool_decide as Hc; [|done]. injection Hn as <-. destruct Hc as (-> & -> & _ & Hpc), Hp as [Hs Hp].
    pose proof (f_equal length Hpc) as Hl. rewrite length_take, length_drop in Hl. split; [split; [lia|done]|].
    cbn. rewrite Hpc at 1. by rewrite take_take_drop.
  - case_bool_decide as Hc; [|done]. injection Hn as <-. destruct Hc as (<- & <- & ->), Hp as [Hs Hp].
    split; [apply fresh_started, Hp|]. rewrite (fresh_owed _ (Hp _)), app_nil_r. cbn. unfold last_part. rewrite (Hf w eq_refl), Nat2Z.id.
    by rewrite take_take_drop, Nat.add_sub_assoc, Nat.add_comm, Nat.add_sub, firstn_all by lia.
Qed.

(** What the actions [acts] put out, and what their writes passed. *)
Record delivery (acts : list act) : Prop := {
  d_stream : Forall full (omap act_write acts) -> stream acts = concat (map wr_data (omap act_write acts));
  d_parts : forall fd data piece, APart fd data piece ∈ acts -> data ∈ map wr_data (omap act_write acts);
  d_whole : (forall fd data piece, APart fd data piece ∉ acts) -> Forall full (omap act_write acts) ->
    forall w rest, AWrite w rest ∈ acts -> rest = wr_data w;
}.

Lemma started_stream {A} (p : prog A) acts r : started p -> follow p acts = Some (Ret r) -> Forall full (omap act_write acts) ->
  owed p ++ stream acts = concat (map wr_data (omap act_write acts)).
Proof.
  revert p. induction acts as [|a acts IH]; intros p Hp Hf Hw; cbn [follow] in Hf; [by injection Hf as ->|].
  destruct (next p a) as [p1|] eqn:Hn; [|done]. cbn [mbind option_bind] in Hf.
  assert (forall w, act_write a = Some w -> full w) as Hfull.
  { intros w Ha. cbn [omap list_omap] in Hw. rewrite Ha in Hw. by apply Forall_cons in Hw as [? _]. }
  destruct (started_next p p1 a Hp Hn Hfull) as [Hp1 Heq].
  change (stream (a :: acts)) with (act_bytes a ++ stream acts). rewrite app_assoc, Heq, <-app_assoc, (IH p1 Hp1 Hf);
    [|by destruct a; cbn in Hw; try (apply Forall_cons in Hw as [_ Hw])].
  by destruct a.
Qed.

Lemma follow_part {A} (p : prog A) acts r fd data sent k : p = Writev fd data sent k -> follow p acts = Some (Ret r) ->
  data ∈ map wr_data (omap act_write acts).
Proof.
  revert p sent. induction acts as [|a acts IH]; intros p sent ->; cbn [follow]; [done|].
  destruct a as [| |id|fd' data' piece|w rest]; try done; cbn [next]; case_bool_decide as Hc; cbn [mbind option_bind]; try done; intros Hf.
  - by eapply IH.
  - destruct Hc as (_ & <- & _). by left.
Qed.

Lemma follow_parts {A} (p : prog A) acts r fd data piece : follow p acts = Some (Ret r) -> APart fd data piece ∈ acts ->
  data ∈ map wr_data (omap act_write acts).
Proof.
  revert p. induction acts as [|a acts IH]; intros p Hf Hin; [by apply not_elem_of_nil in Hin|]. cbn [follow] in Hf.
  destruct (next p a) as [p1|] eqn:Hn; [|done]. cbn [mbind option_bind] in Hf. apply elem_of_cons in Hin as [<-|Hin].
  - destruct p; try done. cbn in Hn. case_bool_decide as Hc; [|done]. injection Hn as <-. destruct Hc as (_ & <- & _). by eapply (follow_part _ acts r _ _ _ _ eq_refl).
  - specialize (IH p1 Hf Hin). destruct a; cbn; try done. by right.
Qed.

Lemma fresh_whole {A} (p : prog A) acts q : fresh p -> follow p acts = Some q -> (forall fd data piece, APart fd data piece ∉ acts) ->
  Forall full (omap act_write acts) -> forall w rest, AWrite w rest ∈ acts -> rest = wr_data w.
Proof.
  revert p. induction acts as [|a acts IH]; intros p Hp Hf Hno Hw w rest Hin; [by apply not_elem_of_nil in Hin|]. cbn [follow] in Hf.
  destruct (next p a) as [p1|] eqn:Hn; [|done]. cbn [mbind option_bind] in Hf.
  assert (forall fd data piece, APart fd data piece ∉ acts) as Hno1 by (intros fd data piece Hin1; by apply (Hno fd data piece); right).
  destruct p as [x|x| |p|p|p|fd data sent p]; destruct a as [| |id|fd' data' piece|w' rest']; try discriminate; cbn in Hn, Hp;
    [..|by destruct (Hno fd' data' piece); left|].
  1-3: apply elem_of_cons in Hin as [?|Hin]; [done|]; injection Hn as <-; by eapply IH.
  case_bool_decide as Hc; [|done]. injection Hn as <-. cbn in Hw. apply Forall_cons in Hw as [Hw1 Hw]. destruct Hp as [-> Hp].
  apply elem_of_cons in Hin as [[= -> ->]|Hin]; [|by eapply IH]. destruct Hc as (_ & <- & ->). unfold last_part.
  by rewrite Hw1, Nat2Z.id, Nat.sub_0_r, drop_0, firstn_all.
Qed.

Lemma follow_delivery {A} (p : prog A) acts r : fresh p -> follow p acts = Some (Ret r) -> delivery acts.
Proof.
  intros Hp Hf. split.
  - intros Hw. rewrite <-(started_stream p acts r (fresh_started p Hp) Hf Hw). by rewrite fresh_owed.
  - intros fd data piece. by eapply follow_parts.
  - by eapply fresh_whole.
Qed.

(** ** The messages in the output *)

(** A message: records, each with its delimiter, and the trace delimiter. *)
Definition message (o : options) (rs : list bytes) : bytes := join (opt_frame_delim o) rs ++ [opt_trace_delim o].

(** The reader: a message ends at a trace delimiter behind a frame delimiter;
    [cur] is what was read of it, [ended] says that a record has just ended. *)
Fixpoint split_from (fd td : ascii) (cur : bytes) (ended : bool) (bs : bytes) : list bytes :=
  match bs with
  | [] => []
  | c :: bs =>
    if ended && bool_decide (c = td) then (cur ++ [c]) :: split_from fd td [] false bs
    else split_from fd td (cur ++ [c]) (bool_decide (c = fd)) bs
  end.

Definition split_messages (o : options) (bs : bytes) : list bytes := split_from (opt_frame_delim o) (opt_trace_delim o) [] false bs.

(** A record that does not look like the end of a message. *)
Definition record_start (o : options) (r : bytes) : Prop := exists c r', r = c :: r' /\ c <> opt_trace_delim o.

Section reader.
Context (o : options).
Abbreviation fd := (opt_frame_delim o).
Abbreviation td := (opt_trace_delim o).

Lemma split_tail r cur bs : fd ∉ r -> split_from fd td cur false (r ++ fd :: bs) = split_from fd td (cur ++ r ++ [fd]) true bs.
Proof.
  revert cur. induction r as [|c r IH]; intros cur Hr; cbn [app split_from andb].
  - by rewrite bool_decide_true.
  - apply not_elem_of_cons in Hr as [Hc Hr]. rewrite bool_decide_false by done. rewrite IH by done. by rewrite <-app_assoc.
Qed.

Lemma split_record r cur ended bs : record_start o r -> fd ∉ r ->
  split_from fd td cur ended (r ++ fd :: bs) = split_from fd td (cur ++ r ++ [fd]) true bs.
Proof.
  intros (c & r' & -> & Hc) Hr. apply not_elem_of_cons in Hr as [Hcf Hr]. cbn [app split_from].
  rewrite (bool_decide_false (c = td)), andb_false_r, bool_decide_false by done. rewrite split_tail by done. by rewrite <-app_assoc.
Qed.

Lemma split_records_from rs cur ended bs : Forall (record_start o) rs -> Forall (fun r => fd ∉ r) rs ->
  split_from fd td cur ended (join fd rs ++ bs) = split_from fd td (cur ++ join fd rs) (match rs with [] => ended | _ => true end) bs.
Proof.
  intros Hs. revert cur ended. induction Hs as [|r rs Hr Hrs IH]; intros cur ended Hc; [cbn; by rewrite app_nil_r|].
  apply Forall_cons in Hc as [Hc1 Hc]. rewrite join_cons, <-app_assoc. cbn [app]. rewrite split_record by done. rewrite IH by done.
  rewrite <-!app_assoc. cbn [app]. by destruct rs.
Qed.

(** The data of a write that the reader can tell from the next. *)
Definition is_message (d : bytes) : Prop :=
  exists rs, d = message o rs /\ rs <> [] /\ Forall (record_start o) rs /\ Forall (fun r => fd ∉ r) rs.

Lemma split_messages_concat ds : Forall is_message ds -> split_messages o (concat ds) = ds.
Proof.
  unfold split_messages. induction 1 as [|d ds (rs & -> & Hne & Hs & Hc) Hds IH]; [done|]. cbn [concat]. unfold message.
  rewrite <-app_assoc, split_records_from by done. destruct rs as [|r rs]; [done|]. cbn [app split_from]. rewrite bool_decide_true by done. cbn [andb].
  by rewrite IH.
Qed.

Lemma is_message_tail g id idx s : s = "!"%char \/ s = "~"%char -> std_delims o -> Forall (record_start o) g -> Forall (fun r => fd ∉ r) g ->
  is_message (join fd g ++ chunk_tail o id idx s).
Proof.
  intros Hs Ho Hg Hc. exists (g ++ [id_record id idx s]). split_and!.
  - unfold message. rewrite chunk_tail_id, join_snoc. by rewrite <-!app_assoc.
  - by destruct g.
  - apply Forall_app. split; [done|]. constructor; [|constructor]. eexists _, _. split; [reflexivity|]. by destruct Ho as [-> _].
  - apply Forall_app. split; [done|]. constructor; [|constructor]. apply id_record_clean; [done|]. by destruct Hs as [->| ->], Ho as [_ [->| ->]].
Qed.

Lemma marker_start : std_delims o -> record_start o (cs "# truncated = 1") /\ fd ∉ cs "# truncated = 1".
Proof.
  intros Ho. split; [eexists _, _; split; [reflexivity|]; by destruct Ho as [-> _]|]. by destruct Ho as [_ [->| ->]]; apply not_in_literal.
Qed.

Lemma emission_messages id rs t datas cut id' : std_delims o -> rs <> [] -> Forall (record_start o) rs -> Forall (fun r => fd ∉ r) rs ->
  emission o id rs t datas cut id' -> Forall is_message datas.
Proof.
  intros Ho Hne Hs Hc He. destruct (marker_start Ho) as [Hms Hmc]. inversion He as [Hfit|gs rest ? -> Hgs Hbound]; subst.
  - constructor; [|constructor]. exists (if cut then rs ++ [cs "# truncated = 1"] else rs). unfold message, marker. destruct cut.
    + split_and!; [by rewrite join_snoc, <-!app_assoc|by destruct rs|apply Forall_app; by rewrite Forall_singleton|apply Forall_app; by rewrite Forall_singleton].
    + by split_and!.
  - apply Forall_app in Hs as [Hs _]. apply Forall_app in Hc as [Hc _]. rewrite Forall_concat in Hs, Hc. unfold chunked_data. apply Forall_app. split.
    + apply Forall_lookup. intros i d. unfold group_data. rewrite list_lookup_imap. destruct (gs !! i) as [g|] eqn:Hg; [|done]. intros [= <-].
      rewrite Forall_lookup in Hs, Hc. apply is_message_tail; [case_match; auto|done|by eapply Hs|by eapply Hc].
    + case_match; constructor; [|constructor]. change (marker o) with (join fd [cs "# truncated = 1"] ++ []). rewrite app_nil_r.
      apply is_message_tail; [by left|done|by apply Forall_singleton|by apply Forall_singleton].
Qed.

End reader.
