(* ===== verification/FoutInterleave.v ===== *)
(** * FoutInterleave: what interleaved writers leave in the output

    Whatever the order in which the workers of pgrep mode write, each trace can
    be read back from the bytes of the output, if no write is above [PIPE_BUF]:
    the ids of the chunked traces are distinct, and the chunks of an id are the
    chunks of one trace, in order.  Larger writes can be torn
    ([large_writes_mix]). *)
From S2P Require Import Prelude CLib Layout Context Fout FoutSpec FoutWrite FoutHandler FoutTheorems FoutThreads FoutStream.

(** ** Following a program *)

Lemma next_bind {A B} (p : prog A) (k : A -> prog B) a q : next (p ≫= k) a = Some q ->
  (exists x, p = Ret x) \/ exists p', next p a = Some p' /\ q = p' ≫= k.
Proof.
  destruct p as [x|x| |p|p|p|fd data sent p]; [by left; exists x|done|done|..]; intros Hn; right; destruct a; try discriminate;
    cbn in Hn |- *; [..|case_bool_decide; [|done]|case_bool_decide; [|done]]; injection Hn as <-; by eexists.
Qed.

Lemma follow_bind {A B} (p : prog A) (k : A -> prog B) acts q : follow (p ≫= k) acts = Some q ->
  (exists p', follow p acts = Some p' /\ q = p' ≫= k)
  \/ exists acts1 x acts2, acts = acts1 ++ acts2 /\ follow p acts1 = Some (Ret x) /\ follow (k x) acts2 = Some q.
Proof.
  revert p. induction acts as [|a acts IH]; intros p Hf; [injection Hf as <-; by left; exists p|].
  cbn in Hf. destruct (next (p ≫= k) a) as [q1|] eqn:Hn; [|done]. cbn in Hf. destruct (next_bind _ _ _ _ Hn) as [[x ->]|(p1 & Hp1 & ->)].
  - right. exists [], x, (a :: acts). split; [done|]. split; [done|]. cbn. change (next (k x) a = Some q1) in Hn. by rewrite Hn.
  - destruct (IH p1 Hf) as [(p' & Hp' & ->)|(a1 & x & a2 & -> & H1 & H2)].
    + left. exists p'. cbn. by rewrite Hp1.
    + right. exists (a :: a1), x, a2. cbn. by rewrite Hp1.
Qed.

Lemma bind_is_ret {A B} (p : prog A) (k : A -> prog B) y : p ≫= k = Ret y -> exists x, p = Ret x /\ k x = Ret y.
Proof. destruct p; try discriminate. by intros H; exists a. Qed.

Lemma follow_bind_ret {A B} (p : prog A) (k : A -> prog B) acts y : follow (p ≫= k) acts = Some (Ret y) ->
  exists acts1 x acts2, acts = acts1 ++ acts2 /\ follow p acts1 = Some (Ret x) /\ follow (k x) acts2 = Some (Ret y).
Proof.
  intros [(p' & Hp & Hq)|H]%follow_bind; [|done]. symmetry in Hq. apply bind_is_ret in Hq as (x & -> & Hk).
  exists acts, x, []. rewrite app_nil_r. by rewrite <-Hk.
Qed.

Lemma follow_ret {A} (x y : A) acts : follow (Ret x) acts = Some (Ret y) -> acts = [] /\ x = y.
Proof. destruct acts as [|a acts]; [by intros [= ->]|]. by destruct a. Qed.

(** ** Programs that only write *)

Inductive writes_only {A} (Q : A -> Prop) : prog A -> Prop :=
| wo_ret a : Q a -> writes_only Q (Ret a)
| wo_fail f : writes_only Q (Fail f)
| wo_spin : writes_only Q Spin
| wo_writev fd data sent k : (forall n, writes_only Q (k n)) -> writes_only Q (Writev fd data sent k).

Lemma wo_bind {A B} (P : A -> Prop) (Q : B -> Prop) p k :
  writes_only P p -> (forall a, P a -> writes_only Q (k a)) -> writes_only Q (p ≫= k).
Proof. intros Hp Hk. induction Hp as [a Ha|x| |fd data sent p Hp IH]; [by apply Hk|constructor..]. apply IH. Qed.

Lemma wo_private {A} (m : M unit A) : writes_only (fun _ => True) (private m).
Proof. unfold private. destruct (m tt) as [[]| |]; by constructor. Qed.

Lemma wo_writev_prog fd iov : writes_only (fun _ => True) (writev_prog fd iov).
Proof. constructor. intros n. by constructor. Qed.

Lemma wo_follow {A} (Q : A -> Prop) p acts q : writes_only Q p -> follow p acts = Some q ->
  writes_only Q q /\ Forall is_out acts.
Proof.
  intros Hp. revert p Hp. induction acts as [|a acts IH]; intros p Hp Hf; [injection Hf as <-; by split|].
  destruct Hp as [x|x| |fd data sent k Hk]; cbn in Hf; try (by destruct a). destruct a; try done; cbn in Hf; (case_bool_decide; [|done]);
    [edestruct IH as [Hq Ho]; [|exact Hf|]; [by constructor|]|destruct (IH _ (Hk _) Hf) as [Hq Ho]]; (split; [done|]; by constructor).
Qed.

(** ** The actions of one trace *)

Section trace.
Context (o : options).
Abbreviation same_mutex u := (fun r : fout_udata => u_use_mutex r = u_use_mutex u).

Lemma wo_fill u id idx : writes_only (same_mutex u) (fill_trace_id_prog o u id idx).
Proof. eapply wo_bind; [apply wo_private|]. intros tail _. by constructor. Qed.

Lemma wo_chunk u body s : writes_only (fun r => same_mutex u r.2) (write_chunk_prog u body s).
Proof.
  unfold write_chunk_prog. case_bool_decide; [constructor|]. eapply wo_bind; [apply wo_private|]. intros tail _.
  case_bool_decide; [constructor|]. eapply wo_bind; [apply wo_writev_prog|]. intros rv _. by constructor.
Qed.

Lemma wo_loop n u id idx start rv : writes_only (fun r => same_mutex u r.1.1.2) (chunk_loop_prog o n u id idx start rv).
Proof.
  revert u idx start rv. induction n as [|n IH]; intros u idx start rv; [constructor|]. cbn [chunk_loop_prog].
  case_bool_decide; [by constructor|]. eapply wo_bind; [apply wo_fill|]. intros u1 H1.
  destruct (event_handler_fout_find_chunk_end _ _ _ _ _); [|by constructor]. eapply wo_bind; [apply wo_chunk|]. intros [r u2] H2. cbn in H2.
  rewrite <-H1, <-H2. apply IH.
Qed.

Lemma wo_chunks u id : writes_only (fun r => same_mutex u r.2) (write_chunks_prog o u id).
Proof.
  eapply wo_bind; [apply wo_loop|]. intros [[[rv u1] start] idx] H1. cbn in H1. cbv zeta. rewrite <-H1.
  set (u2 := if bool_decide (start < u_len u1)%nat then _ else u1). assert (u_use_mutex u2 = u_use_mutex u1) as <- by (unfold u2; by case_bool_decide).
  case_match; [by constructor|]. eapply wo_bind; [apply wo_fill|]. intros u3 H3. eapply wo_bind; [apply wo_chunk|]. intros [r u4] H4.
  cbn in H4. constructor. cbn. congruence.
Qed.

(** The lock, the trace id, the writes, the unlock. *)
Definition trace_acts (m : bool) (id : option Z) (outs : list act) : list act :=
  (if m then [ALock] else []) ++ (match id with Some id => [AId id] | None => [] end) ++ outs ++ (if m then [AUnlock] else []).

Definition whole (u : fout_udata) : bool :=
  bool_decide (Z.of_nat (u_len u) + 1 + (if u_truncated u then Z.of_nat (length (u_trunc_marker u)) else 0) <= opt_fout_buffer_size o).

Lemma follow_body u acts r : follow (write_body_prog o u) acts = Some (Ret r) ->
  u_use_mutex r.2 = u_use_mutex u /\ exists id outs, acts = match id with Some id => [AId id] | None => [] end ++ outs
    /\ Forall is_out outs /\ (id = None <-> whole u = true).
Proof.
  unfold write_body_prog. fold (whole u). cbv zeta. destruct (whole u) eqn:Hw.
  - intros (a1 & x & a2 & -> & H1 & H2)%follow_bind_ret. apply follow_ret in H2 as [-> <-]. split; [done|].
    destruct (wo_follow _ _ _ _ (wo_writev_prog _ _) H1) as [_ Ho]. exists None, a1. by rewrite app_nil_r.
  - destruct acts as [|a acts]; [done|]. destruct a; try done. cbn [follow next mbind option_bind]. intros Hf.
    destruct (wo_follow _ _ _ _ (wo_chunks u id) Hf) as [Hq Ho]. inversion Hq as [? Hq'| | |]; subst. split; [exact Hq'|].
    by exists (Some id), acts.
Qed.

Lemma follow_write u acts r : follow (write_prog o u) acts = Some (Ret r) ->
  exists id outs, acts = trace_acts (u_use_mutex u) id outs /\ Forall is_out outs /\ (id = None <-> whole u = true).
Proof.
  unfold write_prog. cbv zeta. set (body := write_body_prog o u ≫= _).
  assert (forall acts, follow body acts = Some (Ret r) -> exists id outs, acts = match id with Some id => [AId id] | None => [] end ++ outs
    ++ (if u_use_mutex u then [AUnlock] else []) /\ Forall is_out outs /\ (id = None <-> whole u = true)) as Hbody.
  { clear acts. intros acts (a1 & [rv u'] & a2 & -> & H1 & H2)%follow_bind_ret. destruct (follow_body _ _ _ H1) as (Hm & id & outs & -> & Ho & Hid).
    cbn in Hm. exists id, outs. split; [|done]. rewrite <-app_assoc. do 2 f_equal. rewrite Hm in H2. destruct (u_use_mutex u).
    - destruct a2 as [|a a2]; [done|]. destruct a; try done. cbn in H2. by apply follow_ret in H2 as [-> _].
    - by apply follow_ret in H2 as [-> _]. }
  unfold trace_acts. destruct (u_use_mutex u); [|apply Hbody]. destruct acts as [|a acts]; [done|]. destruct a; try done.
  cbn [follow next mbind option_bind]. intros (id & outs & -> & Ho & Hid)%Hbody. by exists id, outs.
Qed.

End trace.

(** ** A trace of an interleaved run is one of a run alone *)

(** The system that answers as the calls [ws] were answered. *)
Definition replay_os (ws : list write_call) : os_env :=
  {| os_writev := fun n _ _ => default 0 (wr_ret <$> ws !! n); os_pipe_buf := -1; os_realloc := os_realloc good_os; os_open := os_open good_os;
     os_dup := os_dup good_os; os_gettid := os_gettid good_os; os_timeofday := os_timeofday good_os |}.

Definition fout_at (id : Z) : fout := put_trace_id id fresh_fout.

Lemma replay_writes pre outs f : Forall is_out outs -> fo_writes f = pre ->
  apply_acts (replay_os (pre ++ omap act_write outs)) outs f = Some (put_writes (pre ++ omap act_write outs) f).
Proof.
  intros Ho. revert pre f. induction Ho as [|a outs Ha Ho IH]; intros pre f <-; [cbn; rewrite app_nil_r; by destruct f|].
  destruct a as [| | |fd data piece|w rest]; try done; cbn [omap list_omap act_write apply_acts apply_act replay_os os_writev os_pipe_buf].
  - rewrite bool_decide_true by lia. cbn [mbind option_bind]. by rewrite IH.
  - rewrite bool_decide_true; [|by rewrite list_lookup_middle]. cbn [mbind option_bind].
    replace (fo_writes f ++ w :: omap act_write outs) with ((fo_writes f ++ [w]) ++ omap act_write outs) by (by rewrite <-app_assoc).
    by rewrite IH.
Qed.

Lemma replay_all outs f : Forall is_out outs -> fo_writes f = [] ->
  apply_acts (replay_os (omap act_write outs)) outs f = Some (put_writes (omap act_write outs) f).
Proof. intros Ho. exact (replay_writes [] outs f Ho). Qed.

Lemma apply_acts_app os a b f : apply_acts os (a ++ b) f = apply_acts os a f ≫= apply_acts os b.
Proof. revert f. induction a as [|x a IH]; intros f; [done|]. cbn. destruct (apply_act os x f); [apply IH|done]. Qed.

Lemma apply_lock os acts f : fo_mutex f = false -> apply_acts os (ALock :: acts) f = apply_acts os acts (put_mutex true f).
Proof. intros Hm. cbn. by rewrite Hm. Qed.

Lemma apply_id os id acts f : fo_trace_id f = id -> apply_acts os (AId id :: acts) f = apply_acts os acts (put_trace_id (u64 (id + 1)) f).
Proof. intros <-. cbn. by rewrite bool_decide_true. Qed.

Lemma replay_trace m id outs : Forall is_out outs ->
  apply_acts (replay_os (omap act_write outs)) (trace_acts m id outs) (fout_at (default 0 id))
  = Some (put_writes (omap act_write outs) (put_trace_id (match id with Some i => u64 (i + 1) | None => 0 end) fresh_fout)).
Proof.
  intros Ho. unfold trace_acts. destruct m, id as [i|]; cbn [app];
    rewrite ?apply_lock, ?apply_id, ?app_nil_r, ?apply_acts_app, replay_all by done; done.
Qed.

#[export] Instance fits_whole_dec o rs t : Decision (fits_whole o rs t).
Proof. unfold fits_whole. apply _. Defined.

Lemma whole_fits o u rs t : live o u rs t -> whole o u = bool_decide (fits_whole o rs t).
Proof.
  intros [(Hh & Ht & _) _]. unfold whole, fits_whole. rewrite (h_marker o u _ Hh), <-(h_len o u _ Hh), Ht. fold (marker o). done.
Qed.

Definition ids_ok (acts : list act) : Prop := forall id, AId id ∈ acts -> 0 <= id < 2 ^ 64.

Lemma out_in_trace m id outs a : is_out a -> a ∈ trace_acts m id outs <-> a ∈ outs.
Proof.
  intros Ha. unfold trace_acts. rewrite !elem_of_app. split; [|tauto].
  intros [H|[H|[H|H]]]; [destruct m|destruct id|done|destruct m]; (by apply not_elem_of_nil in H) || (by apply list_elem_of_singleton in H as ->).
Qed.

(** The bytes of a trace are those of its writes. *)
Lemma trace_delivery m id outs : delivery (trace_acts m id outs) -> delivery outs.
Proof.
  assert (omap act_write (trace_acts m id outs) = omap act_write outs) as Hw.
  { unfold trace_acts. rewrite !omap_app. destruct m, id; cbn; by rewrite ?app_nil_r. }
  assert (stream (trace_acts m id outs) = stream outs) as Hs.
  { unfold trace_acts. rewrite !stream_app. destruct m, id; cbn; by rewrite ?app_nil_r. }
  pose proof (out_in_trace m id outs) as Hin.
  intros [H1 H2 H3]. rewrite Hw in H1, H2, H3. rewrite Hs in H1. split; [done| |].
  - intros fd data piece Hp. apply (H2 fd data piece). by apply Hin.
  - intros Hno Hf w rest Hr. apply H3; [|done|by apply Hin]. intros fd data piece Hp. apply (Hno fd data piece). by apply Hin.
Qed.

(** What a thread writes for a trace, whatever the others do meanwhile. *)
Lemma trace_emits o u rs t acts r : live o u rs t -> rs <> [] -> ids_ok acts -> follow (write_prog o u) acts = Some (Ret r) ->
  exists id outs cut id', acts = trace_acts (u_use_mutex u) (if bool_decide (fits_whole o rs t) then None else Some id) outs
    /\ Forall is_out outs /\ delivery outs /\ 0 <= id < 2 ^ 64 /\ emission o id rs t (map wr_data (omap act_write outs)) cut id'.
Proof.
  intros Hl Hne Hids Hf. destruct (follow_write o u acts r Hf) as (id & outs & -> & Hout & Hid). rewrite (whole_fits o u rs t Hl) in Hid.
  assert (0 <= default 0 id < 2 ^ 64) as Hrange.
  { destruct id as [i|]; [|cbn; lia]. apply Hids. unfold trace_acts. rewrite !elem_of_app. right. left. by left. }
  set (ws := omap act_write outs).
  pose proof (run_follow (replay_os ws) _ _ _ _ _ Hf (replay_trace _ id outs Hout)) as Hrun. rewrite run_write_prog in Hrun. cbn in Hrun.
  pose proof (write_wp o (replay_os ws) False u rs t (fout_at (default 0 id)) Hl Hne Hrange eq_refl) as Hw.
  unfold wpx in Hw. rewrite Hrun in Hw. destruct Hw as (datas & cut & id' & ws' & He & Hd & _ & Heq & _).
  apply (f_equal fo_writes) in Heq. cbn in Heq. fold ws in Heq. subst ws'. exists (default 0 id), outs, cut, id'.
  assert (delivery outs) as Hdel by (eapply trace_delivery, follow_delivery; [apply fresh_write|exact Hf]).
  split; [|split_and!; [exact Hout|exact Hdel|apply Hrange|apply Hrange|fold ws; by rewrite Hd]].
  rewrite bool_decide_eq_true in Hid. f_equal. case_bool_decide as Hfit; [by apply Hid|]. destruct id; [done|]. by destruct Hfit; apply Hid.
Qed.

(** ** The reader *)

(** The trace id of an id record. *)
Definition record_id (r : bytes) : option Z :=
  if prefix_of (cs "# trace_id = ") r then Some (fst (strtoull (drop 13 r) 10)) else None.

(** The trace a write belongs to, if it is a chunk. *)
Definition chunk_id (o : options) (data : bytes) : option Z := record_id (snd (read_chunk (opt_frame_delim o) data)).

(** The chunks of a trace among the writes of all threads. *)
Definition chunks_of (o : options) (id : Z) (datas : list bytes) : list bytes := filter (fun d => chunk_id o d = Some id) datas.

Lemma record_id_id id idx s : 0 <= id < 2 ^ 64 -> record_id (id_record id idx s) = Some id.
Proof.
  intros Hid. unfold record_id, id_record. rewrite drop_app_length' by done. rewrite strtoull_fmt_u by done. reflexivity.
Qed.

Lemma chunk_id_groups o id datas recs : 0 <= id < 2 ^ 64 ->
  map (read_chunk (opt_frame_delim o)) datas = recs -> Forall (fun r : list bytes * bytes => exists idx s, r.2 = id_record id idx s) recs ->
  Forall (fun d => chunk_id o d = Some id) datas.
Proof.
  intros Hid <- H. rewrite Forall_map in H. eapply Forall_impl; [exact H|]. intros d (idx & s & Hd). unfold chunk_id. rewrite Hd.
  by apply record_id_id.
Qed.

Lemma chunk_id_emission o id rs t datas cut id' :
  std_delims o -> Forall (fun r => opt_frame_delim o ∉ r) rs -> Forall (fun r => record_id r = None) rs -> rs <> [] -> 0 <= id < 2 ^ 64 ->
  emission o id rs t datas cut id' -> Forall (fun d => chunk_id o d = if bool_decide (fits_whole o rs t) then None else Some id) datas.
Proof.
  intros Ho Hc Hr Hne Hid He. case_bool_decide as Hfit.
  - inversion He; subst; [|done]. constructor; [|constructor]. unfold chunk_id, read_chunk.
    destruct (exists_last Hne) as (rs' & r & ->). rewrite join_snoc.
    set (tl := if cut then _ else []).
    assert (exists rs2 r2, (join (opt_frame_delim o) rs' ++ r ++ [opt_frame_delim o]) ++ tl = join (opt_frame_delim o) (rs2 ++ [r2])
      /\ Forall (fun r => opt_frame_delim o ∉ r) (rs2 ++ [r2]) /\ record_id r2 = None) as (rs2 & r2 & Hj & Hc2 & Hr2).
    { unfold tl, marker. destruct cut.
      - exists (rs' ++ [r]), (cs "# truncated = 1"). split; [by rewrite (join_snoc _ (rs' ++ [r])), join_snoc|]. split; [|done].
        apply Forall_app. split; [done|]. constructor; [|constructor]. destruct Ho as [_ [->| ->]]; by apply not_in_literal.
      - exists rs', r. rewrite app_nil_r. split; [by rewrite join_snoc|]. split; [done|]. apply Forall_app in Hr as [_ Hr].
        by apply Forall_cons in Hr as [? _]. }
    rewrite app_assoc, removelast_last, Hj. replace (join _ _) with (join (opt_frame_delim o) (rs2 ++ [r2]) ++ []) by apply app_nil_r.
    rewrite split_records_join by done. cbn [split_records snd]. by rewrite app_nil_r, last_last.
  - destruct (emission_readable o id rs t datas cut id' Ho Hc He Hfit) as (gs & rest & _ & _ & Hm & _).
    eapply chunk_id_groups; [done|exact Hm|]. apply Forall_app. split.
    + apply Forall_lookup. intros i x. unfold read_groups. rewrite list_lookup_imap. destruct (gs !! i); [|done]. intros [= <-]. by eexists _, _.
    + destruct cut; [|constructor]. constructor; [|constructor]. by eexists _, _.
Qed.

(** ** Records of the tracer are no id records *)

Lemma strip_lookup o r i c : delims_ok o -> strip_delims o r !! i = Some c -> c = "?"%char \/ r !! i = Some c.
Proof.
  intros Ho. rewrite strip_delims_eq by done. set (k := strip_from _ r). change (map ?f ?l) with (f <$> l).
  rewrite <-(take_drop k r) at 3. intros [Hl|[Hge Hl]]%lookup_app_Some; rewrite list_lookup_fmap in Hl.
  - destruct (take k r !! i) as [x|] eqn:Hx; [|done]. injection Hl as <-. unfold subst_char. case_decide; [by left|right].
    rewrite lookup_app_l by (by eapply lookup_lt_Some). exact Hx.
  - rewrite length_fmap in Hge, Hl. destruct (drop k r !! _) as [x|] eqn:Hx; [|done]. injection Hl as <-. unfold subst_char. case_decide; [by left|right].
    by rewrite lookup_app_r.
Qed.

(** A character that differs from the start of an id record. *)
Lemma record_id_none o s i c d : delims_ok o -> s !! i = Some c -> cs "# trace_id = " !! i = Some d -> c <> d -> d <> "?"%char ->
  record_id (strip_delims o s) = None.
Proof.
  intros Ho Hs Hd Hne Hq. unfold record_id. destruct (prefix_of _ _) eqn:Hp; [|done]. exfalso.
  assert (exists t, strip_delims o s = cs "# trace_id = " ++ t) as [t Ht].
  { revert Hp. generalize (strip_delims o s). generalize (cs "# trace_id = "). clear. intros p. induction p as [|x p IH]; intros [|y l] Hp; cbn in Hp; try done;
      [by exists []|by exists (y :: l)|]. apply andb_prop in Hp as [Hxy Hp]. apply bool_decide_eq_true in Hxy as ->. destruct (IH l Hp) as [t ->]. by exists t. }
  destruct (strip_lookup o s i d Ho) as [|Hc]; [|done|congruence]. rewrite Ht. by apply lookup_app_l_Some.
Qed.

Lemma fmt_d_head n : exists c s, fmt_d n = c :: s /\ c <> "#"%char.
Proof.
  unfold fmt_d. destruct (n <? 0); [by eexists _, _|]. pose proof (length_fmt_u_pos n) as Hp. pose proof (fmt_u_digits n) as Hd.
  destruct (fmt_u n) as [|c s]; [cbn in Hp; lia|]. apply Forall_cons in Hd as [Hc _]. exists c, s. split; [done|]. intros ->. destruct Hc as [Hc _]. by apply Hc.
Qed.

Lemma fmt_d_start n : exists c s, fmt_d n = c :: s /\ c <> NL.
Proof.
  unfold fmt_d. destruct (n <? 0); [by eexists _, _|]. pose proof (length_fmt_u_pos n) as Hp. pose proof (fmt_u_digits n) as Hd.
  destruct (fmt_u n) as [|c s]; [cbn in Hp; lia|]. apply Forall_cons in Hd as [Hc _]. exists c, s. split; [done|]. intros ->. destruct Hc as [Hc _]. by apply Hc.
Qed.

(** So the records that the events of a sample and its end leave in a buffer
    meet the condition of [job_ok]. *)
Lemma texts_no_id o os n pid evs : delims_ok o ->
  Forall (fun s => record_id (strip_delims o s) = None) (concat (map event_texts evs) ++ end_texts o os n pid).
Proof.
  intros Ho. apply Forall_app. split.
  - apply Forall_concat. rewrite Forall_map. apply Forall_true. intros ev.
    destruct ev as [| |fr| | | | | | |]; cbn [event_texts]; repeat constructor; try (by eapply (record_id_none o _ 2); [done|reflexivity|reflexivity|done|done]).
    + destruct (fmt_d_head (f_depth fr)) as (c & s & Hd & Hc). eapply (record_id_none o _ 0); [done| |reflexivity|exact Hc|done].
      unfold fmt_frame. by rewrite Hd.
    + by eapply (record_id_none o _ 3); [done|reflexivity|reflexivity|done|done].
  - unfold end_texts. apply Forall_app. split; case_match; repeat constructor.
    + by eapply (record_id_none o _ 8); [done|reflexivity|reflexivity|done|done].
    + by eapply (record_id_none o _ 2); [done|reflexivity|reflexivity|done|done].
Qed.

Lemma strip_start o s c : std_delims o -> s !! 0%nat = Some c -> c <> opt_trace_delim o -> record_start o (strip_delims o s).
Proof.
  intros Ho Hs Hc. destruct (strip_delims o s) as [|d r] eqn:Hr.
  - apply (f_equal length) in Hr. rewrite length_strip_delims in Hr by by apply std_delims_ok. by destruct s.
  - exists d, r. split; [done|]. destruct (strip_lookup o s 0 d (std_delims_ok o Ho)) as [->|Hd]; [by rewrite Hr| |congruence].
    by destruct Ho as [-> _].
Qed.

(** They also differ from the end of a message. *)
Lemma texts_start o os n pid evs : std_delims o ->
  Forall (fun s => record_start o (strip_delims o s)) (concat (map event_texts evs) ++ end_texts o os n pid).
Proof.
  intros Ho. assert (opt_trace_delim o = NL) as Ht by by destruct Ho.
  assert (forall s, record_start o (strip_delims o ("#"%char :: s))) as Hh by (intros s; eapply strip_start; [done|reflexivity|by rewrite Ht]).
  apply Forall_app. split.
  - apply Forall_concat. rewrite Forall_map. apply Forall_true. intros ev. destruct ev as [| |fr| | | | | | |]; cbn [event_texts];
      repeat (apply Forall_cons; split); try apply Forall_nil_2; try apply Hh.
    unfold fmt_frame. destruct (fmt_d_start (f_depth fr)) as (c & s & -> & Hc). eapply strip_start; [done|reflexivity|by rewrite Ht].
  - unfold end_texts. apply Forall_app. split; case_match; rewrite ?Forall_singleton; apply Forall_nil_2 || apply Hh.
Qed.

(** ** Threads *)

(** The actions of thread [i]. *)
Definition acts_of (i : nat) (h : list (nat * act)) : list act := omap (fun l => if decide (l.1 = i) then Some l.2 else None) h.

Lemma acts_of_app i a b : acts_of i (a ++ b) = acts_of i a ++ acts_of i b.
Proof. apply omap_app. Qed.

Lemma follow_snoc {A} (p p' : prog A) acts a q : follow p acts = Some p' -> next p' a = Some q -> follow p (acts ++ [a]) = Some q.
Proof.
  revert p. induction acts as [|b acts IH]; intros p Hf Hn; cbn in *; [injection Hf as ->; by rewrite Hn|].
  destruct (next p b); [by apply IH|done].
Qed.

Lemma csteps_inv os f ts h f' ts' : csteps os (f, ts) h (f', ts') ->
  apply_acts os h.*2 f = Some f' /\ Forall (fun l => l.1 < length ts)%nat h /\ length ts' = length ts
  /\ forall i p, ts !! i = Some p -> exists p', ts' !! i = Some p' /\ follow p (acts_of i h) = Some p'.
Proof.
  intros Hs. remember (f, ts) as c eqn:Hc. remember (f', ts') as c' eqn:Hc'. revert f' ts' Hc'.
  induction Hs as [c|c h c1 l c2 Hs IH Hstep]; intros f' ts' Hc'.
  { rewrite Hc in Hc'. injection Hc' as -> ->. split_and!; [done|constructor|done|]. intros i p Hi. by exists p. }
  subst c. destruct Hstep as [i a p p' f1 f2 ts1 Hi Hn Ha]. injection Hc' as <- <-. destruct (IH eq_refl f1 ts1 eq_refl) as (H1 & H2 & H3 & H4).
  rewrite fmap_app, apply_acts_app, H1. cbn. rewrite Ha. split_and!; [done| |by rewrite length_insert|].
  - apply Forall_app. split; [done|]. constructor; [|constructor]. cbn. apply lookup_lt_Some in Hi. lia.
  - intros j q Hj. destruct (H4 j q Hj) as (q' & Hq & Hf). rewrite acts_of_app. cbn. case_decide as Hij.
    + subst j. exists p'. split; [apply list_lookup_insert_eq; by eapply lookup_lt_Some|]. rewrite Hi in Hq. injection Hq as <-. by eapply follow_snoc.
    + exists q'. rewrite list_lookup_insert_ne by done. by rewrite app_nil_r.
Qed.

Lemma worker_traces o us acts : follow (worker o us) acts = Some (Ret tt) ->
  exists segs, acts = concat segs /\ Forall2 (fun u seg => exists r, follow (write_prog o u) seg = Some (Ret r)) us segs.
Proof.
  revert acts. induction us as [|u us IH]; intros acts Hf; cbn in Hf.
  - apply follow_ret in Hf as [-> _]. exists []. split; [done|constructor].
  - apply follow_bind_ret in Hf as (a1 & r & a2 & -> & H1 & H2). destruct (IH a2 H2) as (segs & -> & H). exists (a1 :: segs).
    split; [done|]. constructor; [by exists r|done].
Qed.

(** ** Trace ids *)

Lemma apply_acts_writes os acts f f' : apply_acts os acts f = Some f' -> fo_writes f' = fo_writes f ++ omap act_write acts.
Proof.
  revert f. induction acts as [|a acts IH]; intros f Hf; cbn in *; [injection Hf as <-; by rewrite app_nil_r|].
  destruct (apply_act os a f) as [f1|] eqn:Ha; [|done]. rewrite (IH f1 Hf). destruct a; cbn in Ha |- *; try case_match; simplify_eq; try done.
  cbn. by rewrite <-app_assoc.
Qed.

(** The ids handed out count up, modulo [2 ^ 64]. *)
Lemma apply_acts_ids os acts f f' : apply_acts os acts f = Some f' -> 0 <= fo_trace_id f < 2 ^ 64 ->
  omap act_id acts = map (fun k => u64 (fo_trace_id f + Z.of_nat k)) (seq 0 (length (omap act_id acts))).
Proof.
  revert f. induction acts as [|a acts IH]; intros f Hf Hid; [done|]. cbn [apply_acts] in Hf.
  destruct (apply_act os a f) as [f1|] eqn:Ha; [|done]. cbn in Hf. specialize (IH f1 Hf).
  destruct a; cbn in Ha; try (cbn; case_match; simplify_eq; by apply IH); try (cbn; simplify_eq; by apply IH).
  case_bool_decide; [|done]. injection Ha as <-. cbn [fo_trace_id put_trace_id] in IH. subst id. cbn [omap list_omap act_id length seq map].
  rewrite Z.add_0_r, wrap_small by lia. f_equal. rewrite <-seq_shift, map_map. etrans; [apply IH, wrap_range; lia|].
  apply map_ext. intros k. unfold wrap. rewrite Zplus_mod_idemp_l. f_equal. lia.
Qed.

(** ** What the threads write *)

(** A trace to write: the buffer, its records and the flag. *)
Record job := { j_udata : fout_udata; j_records : list bytes; j_cut : bool }.

Definition job_ok (o : options) (j : job) : Prop :=
  live o (j_udata j) (j_records j) (j_cut j) /\ j_records j <> [] /\ Forall (fun r => record_id r = None) (j_records j).

(** A trace that was written: its id, if it has chunks, and the actions of its
    [writev]s. *)
Record entry := { e_job : job; e_id : Z; e_outs : list act }.

Definition e_writes (e : entry) : list write_call := omap act_write (e_outs e).

Definition e_chunked (o : options) (e : entry) : Prop := ~ fits_whole o (j_records (e_job e)) (j_cut (e_job e)).
#[export] Instance e_chunked_dec o e : Decision (e_chunked o e).
Proof. unfold e_chunked. apply _. Defined.

Definition e_tag (o : options) (e : entry) : option Z := if bool_decide (e_chunked o e) then Some (e_id e) else None.
Definition e_acts (o : options) (e : entry) : list act := trace_acts (u_use_mutex (j_udata (e_job e))) (e_tag o e) (e_outs e).

(** The writes are those of the trace alone. *)
Definition entry_ok (o : options) (e : entry) : Prop :=
  job_ok o (e_job e) /\ 0 <= e_id e < 2 ^ 64 /\ Forall is_out (e_outs e) /\ delivery (e_outs e)
  /\ exists cut id', emission o (e_id e) (j_records (e_job e)) (j_cut (e_job e)) (map wr_data (e_writes e)) cut id'.

Lemma thread_entries o js acts : Forall (job_ok o) js -> ids_ok acts -> follow (worker o (map j_udata js)) acts = Some (Ret tt) ->
  exists es, map e_job es = js /\ Forall (entry_ok o) es /\ acts = concat (map (e_acts o) es).
Proof.
  intros Hjs Hids (segs & -> & Hsegs)%worker_traces. revert segs Hids Hsegs.
  induction Hjs as [|j js (Hl & Hne & Hr) Hjs IH]; intros segs Hids Hsegs; inversion Hsegs as [|? seg ? segs' (r & Hf) Hrest]; subst; [by exists []|].
  assert (ids_ok seg /\ ids_ok (concat segs')) as [H1 H2] by (split; intros id Hin; apply Hids; cbn; rewrite elem_of_app; auto).
  destruct (IH segs' H2 Hrest) as (es & <- & Hes & Hacts). destruct (trace_emits o _ _ _ _ _ Hl Hne H1 Hf) as (id & outs & cut & id' & -> & Ho & Hd & Hid & He).
  exists ({| e_job := j; e_id := id; e_outs := outs |} :: es). split; [done|].
  split; [constructor; [|done]; split; [done|]; split; [done|]; split; [done|]; split; [done|]; by eexists _, _|].
  cbn [map concat]. rewrite Hacts. f_equal. unfold e_acts, e_tag, e_chunked. cbn [e_job e_id e_outs].
  f_equal. by do 2 case_bool_decide.
Qed.

Lemma acts_writes o es : omap act_write (concat (map (e_acts o) es)) = concat (map e_writes es).
Proof.
  induction es as [|e es IH]; [done|]. cbn [map concat]. rewrite omap_app, IH. f_equal. unfold e_acts, trace_acts, e_writes. rewrite !omap_app.
  destruct (u_use_mutex _), (e_tag o e); cbn; by rewrite ?app_nil_r.
Qed.

Lemma outs_ids outs : Forall is_out outs -> omap act_id outs = [].
Proof. induction 1 as [|a outs Ha Ho IH]; [done|]. by destruct a. Qed.

Lemma acts_ids o es : Forall (entry_ok o) es -> omap act_id (concat (map (e_acts o) es)) = omap (e_tag o) es.
Proof.
  induction 1 as [|e es He Hes IH]; [done|]. cbn [map concat]. rewrite omap_app, IH. unfold e_acts, trace_acts. rewrite !omap_app.
  rewrite (outs_ids (e_outs e)) by apply He.
  cbn [omap list_omap]. destruct (u_use_mutex _), (e_tag o e); done.
Qed.

(** ** Putting the threads together *)

Lemma list_choose {A B} (P : nat -> A -> B -> Prop) (l : list A) : (forall i x, l !! i = Some x -> exists y, P i x y) ->
  exists l', length l' = length l /\ forall i x y, l !! i = Some x -> l' !! i = Some y -> P i x y.
Proof.
  revert P. induction l as [|x l IH]; intros P H; [by exists []|]. destruct (H 0%nat x eq_refl) as [y Hy].
  destruct (IH (fun i => P (S i))) as (l' & Hl & Hl'); [intros i z Hz; by apply (H (S i))|].
  exists (y :: l'). split; [cbn; by rewrite Hl|]. intros [|i] a b Ha Hb; [by simplify_eq/=|by eapply Hl'].
Qed.

Lemma acts_of_cons l h i : acts_of i (l :: h) = if decide (l.1 = i) then l.2 :: acts_of i h else acts_of i h.
Proof. unfold acts_of. cbn. by case_decide. Qed.

Lemma concat_update_perm {A} (g g' : nat -> list A) (k : nat) (x : A) (l : list nat) :
  k ∈ l -> NoDup l -> g' k = x :: g k -> (forall i, i <> k -> g' i = g i) -> concat (map g' l) ≡ₚ x :: concat (map g l).
Proof.
  intros Hk Hn Hx Hg. induction Hn as [|i l Hi Hn IH]; [by apply not_elem_of_nil in Hk|]. cbn. destruct (decide (i = k)) as [->|Hne].
  - rewrite Hx. cbn. f_equiv. f_equiv. apply reflexive_eq. f_equal. apply map_ext_in. intros j Hj. apply Hg. intros ->. by apply Hi, list_elem_of_In.
  - rewrite (Hg i Hne), IH by (apply elem_of_cons in Hk; by destruct Hk). by rewrite Permutation_middle.
Qed.

Lemma acts_perm n h : Forall (fun l : nat * act => l.1 < n)%nat h -> h.*2 ≡ₚ concat (map (fun i => acts_of i h) (seq 0 n)).
Proof.
  induction 1 as [|[k a] h Hk H IH]; cbn [fmap list_fmap].
  - induction (seq 0 n) as [|i l IHl]; [done|exact IHl].
  - rewrite IH. symmetry. apply (concat_update_perm _ _ k).
    + apply elem_of_seq. cbn in Hk. lia.
    + apply NoDup_seq.
    + rewrite acts_of_cons. cbn. by rewrite decide_True.
    + intros i Hi. rewrite acts_of_cons. cbn. by rewrite decide_False.
Qed.

Lemma unique_tag {A B} (f : A -> option B) a x b y : NoDup (omap f (a ++ x :: b)) -> f x = Some y -> forall z, z ∈ a ++ b -> f z <> Some y.
Proof.
  intros Hn Hx z Hz Hy. rewrite omap_app in Hn. cbn in Hn. rewrite Hx in Hn. rewrite <-Permutation_middle in Hn. apply NoDup_cons in Hn as [Hn _].
  apply Hn. rewrite <-omap_app. apply list_elem_of_omap. by exists z.
Qed.

Lemma filter_thread (P : bytes -> Prop) `{!forall d, Decision (P d)} i h :
  (forall k a w, (k, a) ∈ h -> k <> i -> act_write a = Some w -> ~ P (wr_data w)) ->
  filter P (map wr_data (omap act_write h.*2)) = filter P (map wr_data (omap act_write (acts_of i h))).
Proof.
  induction h as [|[k a] h IH]; intros HP; [done|]. rewrite acts_of_cons. cbn [fst snd fmap list_fmap].
  assert (filter P (map wr_data (omap act_write h.*2)) = filter P (map wr_data (omap act_write (acts_of i h)))) as Heq.
  { apply IH. intros k' a' w Hin. eapply HP. by right. }
  cbn [omap list_omap]. case_decide as Hk; cbn [omap list_omap]; destruct (act_write a) as [w|] eqn:Hw; cbn [map].
  - rewrite !filter_cons. by rewrite Heq.
  - done.
  - rewrite filter_cons, decide_False; [done|]. eapply HP; [by left|done|done].
  - done.
Qed.

Lemma concat_map_concat {A B} (f : A -> list B) ll : concat (map (fun l => concat (map f l)) ll) = concat (map f (concat ll)).
Proof. induction ll as [|l ll IH]; [done|]. cbn. by rewrite map_app, concat_app, IH. Qed.

Lemma map_seq_lookup {A B} (g : nat -> B) (f : A -> B) l : (forall i x, l !! i = Some x -> g i = f x) -> map g (seq 0 (length l)) = map f l.
Proof.
  revert g. induction l as [|x l IH]; intros g Hg; [done|]. cbn. f_equal; [by apply Hg|].
  rewrite <-seq_shift, map_map. apply IH. intros i y Hy. by apply Hg.
Qed.

Lemma length_omap_le {A B} (f : A -> option B) l : (length (omap f l) <= length l)%nat.
Proof. induction l as [|x l IH]; [done|]. cbn. destruct (f x); cbn; lia. Qed.

Lemma elem_of_concat_map {A B} (f : A -> list B) l y : y ∈ concat (map f l) -> exists x, x ∈ l /\ y ∈ f x.
Proof.
  induction l as [|x l IH]; cbn; [by intros ?%not_elem_of_nil|]. intros [Hy|Hy]%elem_of_app; [exists x; split; [by left|done]|].
  destruct (IH Hy) as (z & Hz & Hy'). exists z. split; [by right|done].
Qed.

Lemma elem_of_other {A} (ll : list (list A)) i k l l' x : ll !! i = Some l -> ll !! k = Some l' -> k <> i -> x ∈ l' ->
  x ∈ concat (take i ll) \/ x ∈ concat (drop (S i) ll).
Proof.
  intros Hi Hk Hne Hx. assert (i < length ll)%nat by (by eapply lookup_lt_Some). destruct (decide (k < i)%nat); [left|right]; apply list_elem_of_In, in_concat; exists l';
    (split; [apply list_elem_of_In|by apply list_elem_of_In]).
  - apply (list_elem_of_lookup_2 _ k). by rewrite lookup_take_lt.
  - apply (list_elem_of_lookup_2 _ (k - S i)). rewrite lookup_drop. by replace (S i + (k - S i))%nat with k by lia.
Qed.

Section system.
Context (o : options) (os : os_env) (Ho : std_delims o).

Definition start_threads (jobs : list (list job)) : list (prog unit) := map (fun js => worker o (map j_udata js)) jobs.

Lemma start_lookup jobs i js : jobs !! i = Some js -> start_threads jobs !! i = Some (worker o (map j_udata js)).
Proof. intros Hi. change (start_threads jobs) with ((fun js => worker o (map j_udata js)) <$> jobs). by rewrite list_lookup_fmap, Hi. Qed.

(** The traces the threads have written when all of them are done. *)
Record written (jobs : list (list job)) (h : list (nat * act)) (ess : list (list entry)) : Prop := {
  w_jobs : map (map e_job) ess = jobs;
  w_threads : Forall (fun l => l.1 < length ess)%nat h;
  w_ok : Forall (entry_ok o) (concat ess);
  w_acts : forall i es, ess !! i = Some es -> acts_of i h = concat (map (e_acts o) es);
  w_all : h.*2 ≡ₚ concat (map (e_acts o) (concat ess));
  w_ids : NoDup (omap (e_tag o) (concat ess));
}.

Lemma ids_in_range acts f f' : apply_acts os acts f = Some f' -> 0 <= fo_trace_id f < 2 ^ 64 -> ids_ok acts.
Proof.
  intros Ha Hid id Hin. assert (id ∈ omap act_id acts) as Hin2 by (apply list_elem_of_omap; by exists (AId id)).
  rewrite (apply_acts_ids os _ _ _ Ha Hid) in Hin2. apply list_elem_of_In, in_map_iff in Hin2 as (k & <- & _). apply wrap_range. lia.
Qed.

Lemma ids_distinct acts f f' : apply_acts os acts f = Some f' -> 0 <= fo_trace_id f < 2 ^ 64 ->
  Z.of_nat (length (omap act_id acts)) <= 2 ^ 64 -> NoDup (omap act_id acts).
Proof.
  intros Ha Hid Hlen. rewrite (apply_acts_ids os _ _ _ Ha Hid). apply NoDup_fmap_2_strong; [|apply NoDup_seq].
  intros x y Hx%elem_of_seq Hy%elem_of_seq Heq. unfold wrap in Heq.
  assert ((fo_trace_id f + Z.of_nat x - (fo_trace_id f + Z.of_nat y)) mod 2 ^ 64 = 0) as Hm by (rewrite Zminus_mod, Heq, Z.sub_diag; done).
  replace (fo_trace_id f + Z.of_nat x - (fo_trace_id f + Z.of_nat y)) with (Z.of_nat x - Z.of_nat y) in Hm by lia.
  apply Z.mod_divide in Hm as [q Hq]; [|lia]. assert (q = 0) by nia. lia.
Qed.

Lemma threads_written jobs f h f' ts : Forall (Forall (job_ok o)) jobs -> 0 <= fo_trace_id f < 2 ^ 64 -> Z.of_nat (length (concat jobs)) <= 2 ^ 64 ->
  csteps os (f, start_threads jobs) h (f', ts) -> Forall (eq (Ret tt)) ts -> exists ess, written jobs h ess.
Proof.
  intros Hok Hid Hlen Hs Hdone. destruct (csteps_inv _ _ _ _ _ _ Hs) as (Ha & Hlt & Hts & Hf).
  destruct (list_choose (fun i js es => map e_job es = js /\ Forall (entry_ok o) es /\ acts_of i h = concat (map (e_acts o) es)) jobs)
    as (ess & Hl & Hess).
  { intros i js Hi. destruct (Hf i (worker o (map j_udata js))) as (p' & Hp' & Hfol); [by apply start_lookup|].
    rewrite Forall_lookup in Hdone. specialize (Hdone i p' Hp'). subst p'. apply thread_entries; [|  |exact Hfol].
    - rewrite Forall_lookup in Hok. by eapply Hok.
    - intros id Hin. apply (ids_in_range _ _ _ Ha Hid). apply list_elem_of_omap in Hin as ([k a] & Hin & Hk). cbn in Hk. case_decide; [|done].
      injection Hk as ->. apply list_elem_of_fmap. by exists (k, AId id). }
  assert (forall i es, ess !! i = Some es -> exists js, jobs !! i = Some js) as Hj.
  { intros i es Hi. apply lookup_lt_is_Some. rewrite <-Hl. by eapply lookup_lt_Some. }
  assert (h.*2 ≡ₚ concat (map (e_acts o) (concat ess))) as Hall.
  { rewrite (acts_perm (length (start_threads jobs)) h Hlt). unfold start_threads. rewrite length_map, <-Hl.
    rewrite (map_seq_lookup _ (fun es => concat (map (e_acts o) es))); [by rewrite concat_map_concat|].
    intros i es Hi. destruct (Hj i es Hi) as [js Hjs]. apply (Hess i js es Hjs Hi). }
  assert (map (map e_job) ess = jobs) as Hjobs.
  { apply list_eq. intros i. change (map (map e_job) ess) with (map e_job <$> ess). rewrite list_lookup_fmap.
    destruct (ess !! i) as [es|] eqn:Hi; [destruct (Hj i es Hi) as [js Hjs]; rewrite Hjs; cbn; f_equal; by apply (Hess i js es)|].
    cbn. symmetry. apply lookup_ge_None. rewrite <-Hl. by apply lookup_ge_None. }
  assert (Forall (entry_ok o) (concat ess)) as Heok.
  { apply Forall_concat, Forall_lookup. intros i es Hi. destruct (Hj i es Hi) as [js Hjs]. apply (Hess i js es Hjs Hi). }
  exists ess. split; [done| |done| |done|].
  - unfold start_threads in Hlt. by rewrite length_map, <-Hl in Hlt.
  - intros i es Hi. destruct (Hj i es Hi) as [js Hjs]. apply (Hess i js es Hjs Hi).
  - rewrite <-(acts_ids o) by done. rewrite <-Hall. eapply ids_distinct; [exact Ha|done|]. rewrite Hall, acts_ids by done.
    etrans; [|exact Hlen]. apply inj_le. rewrite <-Hjobs. rewrite <-concat_map, length_map. apply length_omap_le.
Qed.
Lemma live_clean u rs t : live o u rs t -> Forall (fun r => opt_frame_delim o ∉ r) rs.
Proof. intros [(_ & _ & Hf) _]. eapply Forall_impl; [exact Hf|]. by intros r []. Qed.

(** The writes of a trace carry its id, if it has chunks. *)
Lemma entry_chunk_id e : entry_ok o e -> Forall (fun w => chunk_id o (wr_data w) = e_tag o e) (e_writes e).
Proof.
  intros ((Hl & Hne & Hr) & Hid & _ & _ & cut & id' & He). pose proof (live_clean _ _ _ Hl) as Hc.
  pose proof (chunk_id_emission o _ _ _ _ _ _ Ho Hc Hr Hne Hid He) as H. rewrite Forall_map in H. eapply Forall_impl; [exact H|].
  intros w ->. unfold e_tag, e_chunked. by do 2 case_bool_decide.
Qed.

Lemma filter_all_none (P : bytes -> Prop) `{!forall d, Decision (P d)} es :
  Forall (fun e => Forall (fun w => ~ P (wr_data w)) (e_writes e)) es -> filter P (map wr_data (concat (map e_writes es))) = [].
Proof.
  induction 1 as [|e es He Hes IH]; [done|]. cbn. rewrite map_app, filter_app, IH, app_nil_r.
  induction He as [|w ws Hw Hws IHw]; [done|]. cbn [map]. by rewrite filter_cons, decide_False.
Qed.

Lemma filter_all (P : bytes -> Prop) `{!forall d, Decision (P d)} ws :
  Forall (fun w => P (wr_data w)) ws -> filter P (map wr_data ws) = map wr_data ws.
Proof. induction 1 as [|w ws Hw Hws IH]; [done|]. cbn [map]. by rewrite filter_cons, decide_True, IH. Qed.

(** The chunks with the id of a trace are its writes. *)
Lemma chunks_of_entry jobs h ess i j es e : written jobs h ess -> ess !! i = Some es -> es !! j = Some e -> e_chunked o e ->
  chunks_of o (e_id e) (map wr_data (omap act_write h.*2)) = map wr_data (e_writes e).
Proof.
  intros [_ Hth Hok Hacts _ Hids] Hi Hj Hc. assert (e_tag o e = Some (e_id e)) as Htag by (unfold e_tag; by rewrite bool_decide_true).
  pose proof (take_drop_middle _ _ _ Hi) as Hess. pose proof (take_drop_middle _ _ _ Hj) as Hes.
  set (L1 := take i ess) in *. set (L2 := drop (S i) ess) in *. set (l1 := take j es) in *. set (l2 := drop (S j) es) in *.
  assert (concat ess = (concat L1 ++ l1) ++ e :: (l2 ++ concat L2)) as Hflat.
  { rewrite <-Hess, <-Hes, concat_app. cbn. by rewrite <-!app_assoc. }
  rewrite Hflat in Hids. pose proof (unique_tag (e_tag o) _ _ _ _ Hids Htag) as Huniq.
  assert (forall e', e' ∈ (concat L1 ++ l1) ++ l2 ++ concat L2 -> Forall (fun w => ~ chunk_id o (wr_data w) = Some (e_id e)) (e_writes e')) as Hno.
  { intros e' He'. rewrite Forall_forall in Hok. assert (e' ∈ concat ess) as Hin by (rewrite Hflat; set_solver).
    eapply Forall_impl; [apply entry_chunk_id, Hok, Hin|]. intros w ->. by apply Huniq. }
  unfold chunks_of. rewrite (filter_thread _ i).
  - rewrite (Hacts i es Hi), acts_writes, <-Hes, map_app, concat_app, map_app, filter_app. cbn [map concat]. rewrite map_app, filter_app.
    rewrite !filter_all_none, filter_all; [by rewrite app_nil_r| | |]; [|apply Forall_forall; intros e' He'; apply Hno; set_solver..].
    rewrite Forall_forall in Hok. eapply Forall_impl; [apply entry_chunk_id, Hok; rewrite Hflat; set_solver|]. by intros w ->.
  - intros k a w Hin Hk Hw. rewrite Forall_forall in Hth. destruct (lookup_lt_is_Some_2 ess k (Hth _ Hin)) as [es' Hk'].
    assert (w ∈ concat (map e_writes es')) as Hw'.
    { rewrite <-(acts_writes o), <-(Hacts k es' Hk'). apply list_elem_of_omap. exists a. split; [|done]. apply list_elem_of_omap. exists (k, a).
      cbn. by rewrite decide_True. }
    apply elem_of_concat_map in Hw' as (e' & He' & Hw'). specialize (Hno e'). rewrite Forall_forall in Hno. apply Hno; [|done].
    pose proof (elem_of_other ess i k es es' e' Hi Hk' Hk He') as [?|?]; set_solver.
Qed.
(** No write is larger than [-b] or the largest unit that is never cut. *)
Lemma entry_small e : entry_ok o e -> Forall (fun d => Z.of_nat (length d) <= Z.max 73 (opt_fout_buffer_size o)) (map wr_data (e_writes e)).
Proof.
  intros (([(Hh & _) _] & _) & Hid & _ & _ & cut & id' & He). pose proof (h_len _ _ _ Hh). pose proof (h_room _ _ _ Hh). pose proof (h_cap _ _ _ Hh) as Hcap.
  unfold PHPSPY_FOUT_MAX_BUFFER in Hcap. eapply emission_bounded; [exact He|exact Hid|lia..].
Qed.

Lemma apply_acts_part acts f f' fd data piece : apply_acts os acts f = Some f' -> APart fd data piece ∈ acts ->
  os_pipe_buf os < Z.of_nat (length data).
Proof.
  revert f. induction acts as [|a acts IH]; intros f Ha Hin; [by apply not_elem_of_nil in Hin|]. cbn [apply_acts] in Ha.
  destruct (apply_act os a f) as [f1|] eqn:Hf; [|done]. cbn [mbind option_bind] in Ha. apply elem_of_cons in Hin as [<-|Hin]; [|by eapply IH].
  cbn in Hf. by case_bool_decide.
Qed.

Lemma stream_whole acts : (forall fd data piece, APart fd data piece ∉ acts) -> (forall w rest, AWrite w rest ∈ acts -> rest = wr_data w) ->
  stream acts = concat (map wr_data (omap act_write acts)).
Proof.
  induction acts as [|a acts IH]; intros Hno Hw; [done|]. change (stream (a :: acts)) with (act_bytes a ++ stream acts). rewrite IH.
  - destruct a as [| |id|fd data piece|w rest]; cbn; try done; [by destruct (Hno fd data piece); left|]. f_equal. apply Hw. by left.
  - intros fd data piece Hin. apply (Hno fd data piece). by right.
  - intros w rest Hin. apply Hw. by right.
Qed.

Lemma written_out jobs h ess a : written jobs h ess -> is_out a -> a ∈ h.*2 -> exists e, e ∈ concat ess /\ entry_ok o e /\ a ∈ e_outs e.
Proof.
  intros Hw Ha Hin. rewrite (w_all _ _ _ Hw) in Hin. apply elem_of_concat_map in Hin as (e & He & Hin). exists e. split; [done|]. split.
  - pose proof (w_ok _ _ _ Hw) as Hok. rewrite Forall_forall in Hok. by apply Hok.
  - by apply out_in_trace in Hin.
Qed.

(** The bytes of the output are the writes, one after the other. *)
Lemma written_stream jobs h ess f f' : written jobs h ess -> apply_acts os h.*2 f = Some f' -> Forall full (omap act_write h.*2) ->
  Z.max 73 (opt_fout_buffer_size o) <= os_pipe_buf os -> stream h.*2 = concat (map wr_data (omap act_write h.*2)).
Proof.
  intros Hw Ha Hfull Hb. assert (forall fd data piece, APart fd data piece ∉ h.*2) as Hno.
  { intros fd data piece Hin. pose proof (apply_acts_part _ _ _ _ _ _ Ha Hin) as Hlt. destruct (written_out _ _ _ (APart fd data piece) Hw I Hin) as (e & _ & He & Hout).
    pose proof (entry_small e He) as Hs. rewrite Forall_forall in Hs. pose proof He as (_ & _ & _ & Hd & _). specialize (Hs data (d_parts _ Hd _ _ _ Hout)).
    cbn in Hs. lia. }
  apply stream_whole; [exact Hno|]. intros w rest Hin. destruct (written_out _ _ _ (AWrite w rest) Hw I Hin) as (e & Hin' & He & Hout). pose proof He as (_ & _ & _ & Hd & _).
  eapply (d_whole _ Hd); [| |exact Hout].
  - intros fd data piece Hp. apply (Hno fd data piece). rewrite (w_all _ _ _ Hw). apply list_elem_of_In, in_concat. exists (e_acts o e).
    split; apply list_elem_of_In; [by apply list_elem_of_fmap_2|by apply out_in_trace].
  - rewrite (w_all _ _ _ Hw), acts_writes in Hfull. rewrite Forall_forall in Hfull |- *. intros w' Hw'. apply Hfull.
    apply list_elem_of_In, in_concat. exists (e_writes e). split; apply list_elem_of_In; [by apply list_elem_of_fmap_2|done].
Qed.

(** Each of them is a message. *)
Lemma written_messages jobs h ess : written jobs h ess -> Forall (Forall (fun j => Forall (record_start o) (j_records j))) jobs ->
  Forall (is_message o) (map wr_data (omap act_write h.*2)).
Proof.
  intros Hw Hst. rewrite (w_all _ _ _ Hw), acts_writes. rewrite <-(w_jobs _ _ _ Hw), Forall_map in Hst. pose proof (w_ok _ _ _ Hw) as Hok.
  rewrite Forall_map. apply Forall_concat. rewrite Forall_map. rewrite Forall_forall in Hok |- *. intros e He.
  destruct (Hok e He) as ((Hl & Hne & _) & _ & _ & _ & cut & id' & Hem). rewrite <-Forall_map. fold (e_writes e).
  eapply emission_messages; [exact Ho|exact Hne| |by eapply live_clean|exact Hem].
  apply list_elem_of_In, in_concat in He as (es & Hes & He). apply list_elem_of_In in Hes, He.
  rewrite Forall_forall in Hst. specialize (Hst es Hes). rewrite Forall_map, Forall_forall in Hst. by apply Hst.
Qed.
End system.

(** ** Theorem *)

(** What a reader finds of a trace: the chunks with its id, in the order of the
    output, decode to groups of its records with ascending indices and one [!] at
    the end, or to such groups and the truncation record. *)
Definition readable (o : options) (datas : list bytes) (e : entry) : Prop :=
  exists gs rest missing, j_records (e_job e) = concat gs ++ rest /\ Forall (fun g => g <> []) gs
    /\ map (read_chunk (opt_frame_delim o)) (chunks_of o (e_id e) datas) = read_groups (e_id e) (negb missing) gs
         ++ (if missing then [([cs "# truncated = 1"], id_record (e_id e) (Z.of_nat (length gs)) "!"%char)] else [])
    /\ (missing = false <-> j_cut (e_job e) = false /\ rest = []).

(** C9. Writers in parallel, on one output: any number of workers write any
    traces, with or without the mutex, and their locks, id increments and
    [writev]s interleave in any order.  A write of more than [PIPE_BUF] bytes may
    come out in parts with the bytes of other workers in between; so, as the help
    text of [-b] says, neither [-b] nor the largest unit that is never cut (73
    bytes) is above [PIPE_BUF] here, and every [writev] of the run writes all it
    is given.  When all workers are done, the bytes they have put out are those of
    their writes, one after the other: a reader of the bytes alone cuts them into
    exactly the messages of the writes; these are the writes that each trace makes
    alone, and nothing else; a trace that fits one write is whole; and of a trace
    in chunks, the reader that collects the chunks with its id finds exactly its
    own, in order: the groups of its records and the end mark.  (A record of the
    tracer looks neither like an id record nor like the end of a message
    ([texts_no_id], [texts_start]), and up to [2 ^ 64] traces are written.) *)
Theorem interleaved_readable o os jobs f h f' ts :
  std_delims o -> Z.max 73 (opt_fout_buffer_size o) <= os_pipe_buf os ->
  Forall (Forall (job_ok o)) jobs -> Forall (Forall (fun j => Forall (record_start o) (j_records j))) jobs ->
  0 <= fo_trace_id f < 2 ^ 64 -> Z.of_nat (length (concat jobs)) <= 2 ^ 64 ->
  csteps os (f, start_threads o jobs) h (f', ts) -> Forall (eq (Ret tt)) ts -> Forall full (omap act_write h.*2) ->
  exists ess log, fo_writes f' = fo_writes f ++ log /\ map (map e_job) ess = jobs /\ log ≡ₚ concat (map e_writes (concat ess))
    /\ Forall (entry_ok o) (concat ess)
    /\ stream h.*2 = concat (map wr_data log) /\ split_messages o (stream h.*2) = map wr_data log
    /\ Forall (fun e => e_chunked o e -> readable o (split_messages o (stream h.*2)) e) (concat ess).
Proof.
  intros Ho Hb Hok Hst Hid Hlen Hs Hdone Hfull. destruct (threads_written o os jobs f h f' ts Hok Hid Hlen Hs Hdone) as (ess & Hw).
  destruct (csteps_inv _ _ _ _ _ _ Hs) as (Ha & _). exists ess, (omap act_write h.*2). pose proof Hw as [Hj _ Heok _ Hall _].
  pose proof (written_stream o os jobs h ess f f' Hw Ha Hfull Hb) as Hstr.
  assert (split_messages o (stream h.*2) = map wr_data (omap act_write h.*2)) as Hsp
    by (rewrite Hstr; apply split_messages_concat; by eapply written_messages).
  split_and!; [by eapply apply_acts_writes|done|by rewrite Hall, acts_writes|done|exact Hstr|exact Hsp|]. rewrite Hsp.
  apply Forall_forall. intros e He Hc. apply list_elem_of_In, in_concat in He as (es & Hes & He). apply list_elem_of_In, list_elem_of_lookup in Hes as [i Hi].
  apply list_elem_of_In, list_elem_of_lookup in He as [j Hj']. unfold readable. rewrite (chunks_of_entry o Ho jobs h ess i j es e Hw Hi Hj' Hc).
  assert (entry_ok o e) as ((Hl & Hne & _) & _ & _ & _ & cut & id' & He).
  { rewrite Forall_forall in Heok. apply Heok, list_elem_of_In, in_concat. exists es. split; apply list_elem_of_In, list_elem_of_lookup; eauto. }
  destruct (emission_readable o _ _ _ _ _ _ Ho (live_clean o _ _ _ Hl) He Hc) as (gs & rest & H). by exists gs, rest, cut.
Qed.

(** ** Witness *)

Definition free_udata : fout_udata := {|
  u_fd := 4; u_buf := join NL two_records ++ [NUL]; u_len := 42; u_cap := 64; u_use_mutex := false; u_truncated := false;
  u_trunc_marker := cs "# truncated = 1" ++ [NL]; u_tail := repeat NUL 64; u_tail_len := 0 |}.

(** The mutex option does not matter for what is in the buffer. *)
Lemma free_udata_live : live tiny_options free_udata two_records false.
Proof. destruct two_udata_live as [([] & Ht & Hf) Hb]. split; [|exact Hb]. split_and!; [|done|done]. by split. Qed.

Definition chunk_jobs (u : fout_udata) : list (list job) := replicate 2 [{| j_udata := u; j_records := two_records; j_cut := false |}].

Lemma chunk_jobs_ok u : live tiny_options u two_records false -> Forall (Forall (job_ok tiny_options)) (chunk_jobs u).
Proof. intros Hl. apply Forall_replicate. constructor; [|constructor]. split; [exact Hl|]. split; [done|]. by repeat constructor. Qed.

(** Two threads with a trace of two chunks each, which take turns. *)
Definition taking_turns : list nat := [0; 1; 1; 0; 0; 1]%nat.

Lemma chunk_jobs_start u : Forall (Forall (fun j => Forall (record_start tiny_options) (j_records j))) (chunk_jobs u).
Proof. apply Forall_replicate. constructor; [|constructor]. repeat constructor; eexists _, _; (split; [reflexivity|done]). Qed.

Lemma interleaved_readable_witness : exists h f' ts ess,
  schedule good_os taking_turns [] (fresh_fout, start_threads tiny_options (chunk_jobs free_udata)) = Some (h, (f', ts))
  /\ length (fo_writes f') = 4%nat /\ map (map e_job) ess = chunk_jobs free_udata
  /\ split_messages tiny_options (stream h.*2) = map wr_data (fo_writes f')
  /\ Forall (fun e => e_chunked tiny_options e -> readable tiny_options (split_messages tiny_options (stream h.*2)) e) (concat ess).
Proof.
  destruct (schedule good_os taking_turns [] (fresh_fout, start_threads tiny_options (chunk_jobs free_udata))) as [[h [f' ts]]|] eqn:Hrun;
    [|vm_compute in Hrun; discriminate].
  destruct (interleaved_readable tiny_options good_os (chunk_jobs free_udata) fresh_fout h f' ts) as (ess & log & Hlog & Hj & _ & _ & _ & Hm & Hr).
  - exact default_std.
  - vm_compute. discriminate.
  - apply chunk_jobs_ok, free_udata_live.
  - apply chunk_jobs_start.
  - vm_compute. split; [discriminate|reflexivity].
  - vm_compute. discriminate.
  - eapply schedule_csteps; [constructor|exact Hrun].
  - vm_compute in Hrun. injection Hrun as _ _ <-. repeat constructor.
  - vm_compute in Hrun. injection Hrun as <- _ _. repeat constructor.
  - cbn [app fresh_fout fo_writes] in Hlog. exists h, f', ts, ess. split; [reflexivity|]. split; [|rewrite Hlog; done].
    clear Hlog Hm Hr. vm_compute in Hrun. injection Hrun as _ <- _. reflexivity.
Defined.

(** ** Larger writes *)

(** A system whose [PIPE_BUF] is 32 bytes. *)
Definition small_pipe : os_env := {|
  os_writev := os_writev good_os; os_pipe_buf := 32; os_realloc := os_realloc good_os; os_open := os_open good_os;
  os_dup := os_dup good_os; os_gettid := os_gettid good_os; os_timeofday := os_timeofday good_os |}.

(** The trace of [free_udata] fits one write of 43 bytes. *)
Definition whole_text : bytes := join NL two_records ++ [NL].
Definition whole_write : write_call := {| wr_fd := 4; wr_data := whole_text; wr_ret := 43 |}.

(** The first 10 bytes of one write, then the other write, then the rest. *)
Definition mixing : list (nat * act) :=
  [(0%nat, APart 4 whole_text (take 10 whole_text)); (1%nat, AWrite whole_write whole_text); (0%nat, AWrite whole_write (drop 10 whole_text))].

(** Without the mutex, a write above [PIPE_BUF] may be torn: both calls return
    their full length and all workers finish, but neither trace can be found in
    the output.  So the bound of [interleaved_readable] is needed, as the help
    text of [-b] warns. *)
Lemma large_writes_mix : exists f' ts,
  csteps small_pipe (fresh_fout, start_threads default_options (chunk_jobs free_udata)) mixing (f', ts)
  /\ Forall (eq (Ret tt)) ts /\ Forall full (fo_writes f') /\ length (fo_writes f') = 2%nat
  /\ whole_text ∉ split_messages default_options (stream mixing.*2).
Proof.
  destruct (play small_pipe mixing (fresh_fout, start_threads default_options (chunk_jobs free_udata))) as [[f' ts]|] eqn:Hp;
    [|vm_compute in Hp; discriminate].
  exists f', ts. split; [by apply play_csteps|]. vm_compute in Hp. injection Hp as <- <-. split; [by repeat constructor|]. split; [by repeat constructor|].
  split; [done|]. by apply (bool_decide_unpack _).
Qed.
