(* ===== verification/FoutSerial.v ===== *)
(** * FoutSerial: parallel writers finish, and the mutex keeps their traces apart

    No interleaving of the writers of FoutThreads.v deadlocks, faults or runs
    for ever.  With the handler option [m] the traces are in the output one
    after the other. *)
From S2P Require Import Prelude CLib Layout Context Fout FoutSpec FoutWrite FoutHandler FoutTheorems FoutThreads FoutStream FoutInterleave.

(** ** Lock discipline *)

(** Programs that take the mutex only when they do not hold it, release it when
    they do, and always return without it; [b] says whether it is held. *)
Inductive disciplined {A} (Q : A -> Prop) : bool -> prog A -> Prop :=
| d_ret a : Q a -> disciplined Q false (Ret a)
| d_lock k : disciplined Q true k -> disciplined Q false (Lock k)
| d_unlock k : disciplined Q false k -> disciplined Q true (Unlock k)
| d_fetch b k : (forall id, 0 <= id < 2 ^ 64 -> disciplined Q b (k id)) -> disciplined Q b (FetchAdd k)
| d_writev b fd data sent k : (forall n, disciplined Q b (k n)) -> disciplined Q b (Writev fd data sent k).

Lemma d_bind {A B} (P : A -> Prop) (Q : B -> Prop) b p k :
  disciplined P b p -> (forall a, P a -> disciplined Q false (k a)) -> disciplined Q b (p ≫= k).
Proof. intros Hp Hk. induction Hp as [a Ha|p Hp IH|p Hp IH|b p Hp IH|b fd data sent p Hp IH]; [by apply Hk|by constructor..]. Qed.

(** Programs that only write, and do not fail. *)
Inductive clean {A} (Q : A -> Prop) : prog A -> Prop :=
| cl_ret a : Q a -> clean Q (Ret a)
| cl_fetch k : (forall id, 0 <= id < 2 ^ 64 -> clean Q (k id)) -> clean Q (FetchAdd k)
| cl_writev fd data sent k : (forall n, clean Q (k n)) -> clean Q (Writev fd data sent k).

Lemma d_clean {A B} (P : A -> Prop) (Q : B -> Prop) b p k :
  clean P p -> (forall a, P a -> disciplined Q b (k a)) -> disciplined Q b (p ≫= k).
Proof. intros Hp Hk. induction Hp as [a Ha|p Hp IH|fd data sent p Hp IH]; [by apply Hk|by constructor..]. Qed.

Definition never_fails {A} (p : prog A) : Prop := forall acts q, ids_ok acts -> follow p acts = Some q -> (forall x, q <> Fail x) /\ q <> Spin.

Lemma clean_writes {A} (Q : A -> Prop) p : writes_only Q p -> never_fails p -> clean Q p.
Proof.
  intros Hp Hn. induction Hp as [a Ha|x| |fd data sent k Hk IH].
  - by constructor.
  - by destruct (Hn [] (Fail x)) as [H _]; [by intros id ?%not_elem_of_nil|done|destruct (H x)].
  - by destruct (Hn [] Spin) as [_ H]; [by intros id ?%not_elem_of_nil|done|].
  - constructor. intros n. apply IH. intros acts q Hids Hf. apply (Hn (AWrite {| wr_fd := fd; wr_data := data; wr_ret := n |} (last_part data sent n) :: acts)).
    + intros id Hin. apply Hids. by apply elem_of_cons in Hin as [?|?].
    + cbn. by rewrite bool_decide_true.
Qed.

Section writer.
Context (o : options).

(** The actions of an unfinished body. *)
Lemma follow_body_prefix u acts q : follow (write_body_prog o u) acts = Some q ->
  exists id outs, acts = match id with Some id => [AId id] | None => [] end ++ outs /\ Forall is_out outs.
Proof.
  unfold write_body_prog. cbv zeta. case_bool_decide.
  - intros Hf. assert (writes_only (fun _ => True) (rv ← write_whole_prog o u; mret (rv, u))) as Hw.
    { eapply wo_bind; [apply wo_writev_prog|]. by constructor. }
    destruct (wo_follow _ _ _ _ Hw Hf) as [_ Ho]. by exists None, acts.
  - destruct acts as [|a acts]; [by exists None, []|]. destruct a; try done. cbn [follow next mbind option_bind]. intros Hf.
    destruct (wo_follow _ _ _ _ (wo_chunks o u id) Hf) as [_ Ho]. by exists (Some id), acts.
Qed.

Lemma body_never_fails j : job_ok o j -> never_fails (write_body_prog o (j_udata j)).
Proof.
  intros (Hl & Hne & _) acts q Hids Hf. destruct (follow_body_prefix _ _ _ Hf) as (id & outs & -> & Ho).
  assert (0 <= default 0 id < 2 ^ 64) as Hr by (destruct id as [i|]; [apply Hids; by left|cbn; lia]).
  pose proof (replay_trace false id outs Ho) as Ha. unfold trace_acts in Ha. cbn [app] in Ha. rewrite app_nil_r in Ha.
  pose proof (run_follow _ _ _ _ _ _ Hf Ha) as Hrun. rewrite same_body in Hrun.
  pose proof (write_locked_wp o (replay_os (omap act_write outs)) False _ _ _ (fout_at (default 0 id)) Hl Hne Hr) as Hw. unfold wpx in Hw. rewrite Hrun in Hw.
  split; [intros x ->|intros ->]; done.
Qed.

Lemma body_clean j : job_ok o j -> clean (fun r => u_use_mutex r.2 = u_use_mutex (j_udata j)) (write_body_prog o (j_udata j)).
Proof.
  intros Hj. pose proof (body_never_fails j Hj) as Hn. revert Hn. unfold write_body_prog. cbv zeta. case_bool_decide; intros Hn.
  - apply clean_writes; [|exact Hn]. eapply wo_bind; [apply wo_writev_prog|]. by constructor.
  - constructor. intros id Hid. apply clean_writes; [apply wo_chunks|]. intros acts q Hids Hf. apply (Hn (AId id :: acts)); [|exact Hf].
    intros i [[= ->]|Hin]%elem_of_cons; [done|by apply Hids].
Qed.

Lemma write_disciplined j : job_ok o j -> disciplined (fun _ => True) false (write_prog o (j_udata j)).
Proof.
  intros Hj. pose proof (body_clean j Hj) as Hc. unfold write_prog. cbv zeta. destruct (u_use_mutex (j_udata j)).
  - constructor. eapply d_clean; [exact Hc|]. intros [rv u'] Hu. cbn in Hu. cbv zeta. rewrite Hu. by repeat constructor.
  - eapply d_clean; [exact Hc|]. intros [rv u'] Hu. cbn in Hu. cbv zeta. rewrite Hu. by constructor.
Qed.

Lemma worker_disciplined js : Forall (job_ok o) js -> disciplined (fun _ => True) false (worker o (map j_udata js)).
Proof.
  induction 1 as [|j js Hj Hjs IH]; cbn; [by constructor|]. eapply d_bind; [by apply write_disciplined|]. by intros r _.
Qed.

End writer.

(** ** All threads *)

Section system.
Context (os : os_env).

(** Every thread keeps the discipline, and the mutex is held by at most one. *)
Record sound (c : config) (bs : list bool) : Prop := {
  so_threads : Forall2 (disciplined (fun _ => True)) bs c.2;
  so_mutex : fo_mutex c.1 = true <-> exists i, bs !! i = Some true;
  so_one : forall i j, bs !! i = Some true -> bs !! j = Some true -> i = j;
  so_id : 0 <= fo_trace_id c.1 < 2 ^ 64;
}.

Lemma sound_keep f ts bs i b p p' f' : sound (f, ts) bs -> bs !! i = Some b -> ts !! i = Some p -> disciplined (fun _ => True) b p' ->
  fo_mutex f' = fo_mutex f -> 0 <= fo_trace_id f' < 2 ^ 64 -> sound (f', <[i := p']> ts) bs.
Proof.
  intros [Ht Hm H1 _] Hb Hp Hd Hf Hid. split; cbn in *; [|by rewrite Hf|done|done].
  rewrite <-(list_insert_id bs i b Hb). by apply Forall2_insert.
Qed.

Lemma sound_flip f ts bs i b p p' f' : sound (f, ts) bs -> bs !! i = Some b -> ts !! i = Some p -> disciplined (fun _ => True) (negb b) p' ->
  fo_mutex f = b -> fo_mutex f' = negb b -> fo_trace_id f' = fo_trace_id f -> sound (f', <[i := p']> ts) (<[i := negb b]> bs).
Proof.
  intros [Ht Hm H1 Hid] Hb Hp Hd Hf Hf' Hid'. pose proof (lookup_lt_Some _ _ _ Hb) as Hlt. cbn in *.
  assert (forall j, bs !! j = Some true -> j = i) as Hother.
  { intros j Hj. destruct b; [by apply H1|]. assert (fo_mutex f = true) by (apply Hm; by exists j). congruence. }
  assert (forall j, <[i := negb b]> bs !! j = Some true -> j = i /\ b = false) as Hins.
  { intros j Hj. destruct (decide (j = i)) as [->|Hne]; [rewrite list_lookup_insert_eq in Hj by done; by destruct b|].
    rewrite list_lookup_insert_ne in Hj by done. by destruct Hne; apply Hother. }
  split; cbn; [by apply Forall2_insert| | |by rewrite Hid'].
  - rewrite Hf'. split; [intros Hn; exists i; rewrite list_lookup_insert_eq by done; by rewrite Hn|].
    intros [j Hj]. by destruct (Hins j Hj) as [_ ->].
  - intros j k Hj Hk. destruct (Hins j Hj), (Hins k Hk). congruence.
Qed.

Lemma sound_step c l c' bs : sound c bs -> cstep os c l c' -> exists bs', sound c' bs'.
Proof.
  intros Hs Hstep. destruct Hstep as [i a p p' f f' ts Hi Hn Ha]. pose proof (so_threads _ _ Hs) as Ht. cbn in Ht.
  destruct (Forall2_lookup_r _ _ _ _ _ Ht Hi) as (b & Hb & Hd). destruct Hd as [x|k Hd|k Hd|b k Hd|b fd data sent k Hd]; destruct a; try discriminate; cbn in Hn, Ha.
  - exists (<[i := true]> bs). injection Hn as <-. destruct (fo_mutex f) eqn:Hm; [done|]. injection Ha as <-. by eapply (sound_flip f ts bs i false).
  - exists (<[i := false]> bs). injection Hn as <-. injection Ha as <-. eapply (sound_flip f ts bs i true); try done. apply (so_mutex _ _ Hs). by exists i.
  - exists bs. injection Hn as <-. case_bool_decide; [|done]. injection Ha as <-. subst id. pose proof (so_id _ _ Hs) as Hid. cbn in Hid.
    eapply sound_keep; [exact Hs|exact Hb|exact Hi|by apply Hd|done|]. apply wrap_range. lia.
  - exists bs. do 2 (case_bool_decide; [|done]). injection Hn as <-. injection Ha as <-. eapply sound_keep; [exact Hs|exact Hb|exact Hi|by constructor|done|apply Hs].
  - exists bs. do 2 (case_bool_decide; [|done]). injection Hn as <-. injection Ha as <-. eapply sound_keep; [exact Hs|exact Hb|exact Hi|apply Hd|done|apply Hs].
Qed.

(** The holder of the mutex can act, and if there is none, everyone can. *)
Lemma sound_progress c bs : sound c bs -> Forall (eq (Ret tt)) c.2 \/ exists l c', cstep os c l c'.
Proof.
  destruct c as [f ts]. intros Hs. pose proof (so_threads _ _ Hs) as Ht. cbn in *.
  assert (forall i p b, ts !! i = Some p -> bs !! i = Some b -> (fo_mutex f = true -> b = true) -> p <> Ret tt -> exists l c', cstep os (f, ts) l c') as Hcan.
  { intros i p b Hi Hb Hm Hp. pose proof (Forall2_lookup_lr _ _ _ _ _ _ Ht Hb Hi) as Hd. enough (exists a p' f', next p a = Some p' /\ apply_act os a f = Some f') as
      (a & p' & f' & Hn & Ha) by (exists (i, a), (f', <[i := p']> ts); by econstructor).
    destruct Hd as [[]|k Hd|k Hd|b k Hd|b fd data sent k Hd]; [done|..].
    - exists ALock, k. cbn. destruct (fo_mutex f); [by discriminate Hm|by eexists].
    - by exists AUnlock, k, (put_mutex false f).
    - exists (AId (fo_trace_id f)), (k (fo_trace_id f)). cbn. rewrite bool_decide_true by done. by eexists.
    - eexists (AWrite {| wr_fd := fd; wr_data := data; wr_ret := _ |} _), _, _. cbn. rewrite !bool_decide_true by done. done. }
  destruct (fo_mutex f) eqn:Hm.
  - right. destruct (proj1 (so_mutex _ _ Hs) Hm) as [i Hb]. destruct (Forall2_lookup_l _ _ _ _ _ Ht Hb) as (p & Hi & Hd).
    apply (Hcan i p true); [done..|]. intros ->. inversion Hd.
  - destruct (decide (Forall (fun p => match p with Ret _ => true | _ => false end = true) ts)) as [Hall|Hall].
    + left. eapply Forall_impl; [exact Hall|]. by intros [[]| | | | | |].
    + right. apply not_Forall_Exists in Hall; [|apply _]. apply Exists_exists in Hall as (p & Hin & Hp).
      apply list_elem_of_lookup in Hin as [i Hi]. destruct (Forall2_lookup_r _ _ _ _ _ Ht Hi) as (b & Hb & _).
      apply (Hcan i p b); [done|done|intros; congruence|]. intros ->. by apply Hp.
Qed.

(** ** Termination *)

(** One action of a program, whatever the answer. *)
Definition prog_lt {A} (p' p : prog A) : Prop := exists a, next p a = Some p'.

Lemma prog_lt_wf {A} : well_founded (@prog_lt A).
Proof.
  intros p. induction p as [x|x| |p IH|p IH|p IH|fd data sent p IH];
    [constructor; intros p' [a Ha]; destruct a; try discriminate; injection Ha as <-; apply IH..|].
  remember (length data - sent)%nat as m eqn:Hm. revert sent Hm. induction (lt_wf m) as [m _ IHm]. intros sent Hm. constructor.
  intros p' [a Ha]. destruct a as [| | |fd' data' piece|w rest]; try discriminate; cbn in Ha; (case_bool_decide as Hc; [|done]); injection Ha as <-; [|apply IH].
  eapply IHm; [|reflexivity]. destruct Hc as (_ & _ & Hne & Hp). apply (f_equal length) in Hp. rewrite length_take, length_drop in Hp.
  destruct piece as [|c piece]; [done|]. cbn [length] in *. lia.
Qed.

Definition threads_lt (ts' ts : list (prog unit)) : Prop := exists i p p', ts !! i = Some p /\ prog_lt p' p /\ ts' = <[i := p']> ts.

Lemma threads_lt_wf : well_founded threads_lt.
Proof.
  intros ts. induction ts as [|p ts IH]; [constructor; by intros ts' (i & q & q' & Hi & _)|].
  revert ts IH. induction (prog_lt_wf p) as [p _ IHp]. intros ts Hts. induction Hts as [ts Hts IHts].
  constructor. intros ts' (i & q & q' & Hi & Hq & ->). destruct i as [|i]; cbn in Hi.
  - injection Hi as ->. apply IHp; [done|by constructor].
  - change (Acc threads_lt (p :: <[i := q']> ts)). apply IHts. by exists i, q, q'.
Qed.

Definition config_lt (c' c : config) : Prop := exists l, cstep os c l c'.

Lemma config_lt_wf : well_founded config_lt.
Proof.
  intros [f ts]. revert f. induction (threads_lt_wf ts) as [ts _ IH]. intros f. constructor. intros [f' ts'] [l Hs].
  inversion Hs as [i a p p' ? ? ? Hi Hn Ha]; subst. apply IH. exists i, p, p'. split; [done|]. split; [by exists a|done].
Qed.

End system.

(** ** Under the mutex *)

Definition inner (o : options) (e : entry) : list act := match e_tag o e with Some id => [AId id] | None => [] end ++ e_outs e.

(** A trace that is written under the mutex. *)
Definition e_locks (e : entry) : Prop := u_use_mutex (j_udata (e_job e)) = true /\ Forall is_out (e_outs e).

Lemma e_acts_locked o e : e_locks e -> e_acts o e = ALock :: inner o e ++ [AUnlock].
Proof. intros [He _]. unfold e_acts, trace_acts, inner. rewrite He. cbn. by rewrite <-app_assoc. Qed.

(** Neither a lock nor an unlock. *)
Definition inside (a : act) : Prop := match a with AId _ | APart _ _ _ | AWrite _ _ => True | _ => False end.

Lemma inner_inside o e : e_locks e -> Forall inside (inner o e).
Proof.
  intros [_ He]. apply Forall_app. split; [destruct (e_tag o e); by repeat constructor|]. eapply Forall_impl; [exact He|]. by intros [].
Qed.

(** What a thread that does not hold the mutex does next. *)
Definition waits (acts : list act) : Prop := acts = [] \/ exists acts', acts = ALock :: acts'.

Lemma acts_waits o es : Forall e_locks es -> waits (concat (map (e_acts o) es)).
Proof. intros [|e es' He Hes]; [by left|]. right. cbn. rewrite (e_acts_locked o e He). by eexists. Qed.

(** The bytes of traces that are written one after the other. *)
Lemma entries_stream o es : Forall (entry_ok o) es -> Forall full (concat (map e_writes es)) ->
  stream (concat (map (e_acts o) es)) = concat (map wr_data (concat (map e_writes es))).
Proof.
  induction 1 as [|e es He Hes IH]; [done|]. cbn [map concat]. intros [Hf Hfs]%Forall_app. rewrite stream_app, IH by done.
  rewrite map_app, concat_app. f_equal. destruct He as (_ & _ & _ & Hd & _). unfold e_writes in Hf |- *. rewrite <-(d_stream _ Hd Hf).
  unfold e_acts, trace_acts. rewrite !stream_app. destruct (u_use_mutex _), (e_tag o e); cbn; by rewrite ?app_nil_r.
Qed.

Section serial.
Context (o : options) (os : os_env).

(** While the thread [i] holds the mutex, no other thread acts. *)
Lemma critical_section i acts rest h f f' : Forall inside acts -> acts_of i h = acts ++ AUnlock :: rest ->
  (forall k, k <> i -> waits (acts_of k h)) -> fo_mutex f = true -> apply_acts os h.*2 f = Some f' ->
  exists h' f1, h = map (pair i) (acts ++ [AUnlock]) ++ h' /\ acts_of i h' = rest /\ (forall k, k <> i -> acts_of k h' = acts_of k h)
    /\ fo_mutex f1 = false /\ apply_acts os h'.*2 f1 = Some f'.
Proof.
  intros Hin. revert h f. induction Hin as [|a acts Ha Hacts IH]; intros h f Hi Hw Hm Hf; (destruct h as [|[k b] h]; [done|]);
    rewrite acts_of_cons in Hi; cbn [fst snd] in Hi; cbn [fmap list_fmap snd apply_acts] in Hf.
  all: destruct (decide (k = i)) as [->|Hk];
    [|destruct (Hw k Hk) as [He|[acts' He]]; rewrite acts_of_cons in He; cbn [fst snd] in He; rewrite decide_True in He by done; [done|];
      injection He as -> _; cbn in Hf; by rewrite Hm in Hf].
  - injection Hi as -> Hi. cbn in Hf. exists h, (put_mutex false f). split_and!; [done|done| |done|done].
    intros k Hk. rewrite acts_of_cons. cbn. by rewrite decide_False.
  - injection Hi as -> Hi. destruct (apply_act os a f) as [f1|] eqn:Hf1; [|done]. cbn in Hf.
    destruct (IH h f1 Hi) as (h' & f2 & -> & H1 & H2 & H3 & H4); [| |exact Hf|].
    + intros k Hk. specialize (Hw k Hk). rewrite acts_of_cons in Hw. cbn in Hw. by rewrite decide_False in Hw.
    + destruct a; cbn in Ha, Hf1; try done; case_bool_decide; simplify_eq; done.
    + exists h', f2. split_and!; [done|done| |done|done]. intros k Hk. rewrite H2 by done. rewrite acts_of_cons. cbn. by rewrite decide_False.
Qed.

Lemma concat_insert_tail {A} (ll : list (list A)) i x l : ll !! i = Some (x :: l) -> concat ll ≡ₚ x :: concat (<[i := l]> ll).
Proof.
  revert i. induction ll as [|y ll IH]; intros [|i] Hi; try done; cbn in Hi.
  - by injection Hi as ->.
  - change (y ++ concat ll ≡ₚ x :: y ++ concat (<[i := l]> ll)). rewrite (IH i Hi). by rewrite Permutation_middle.
Qed.

(** The run is one of whole traces, in some order. *)
Lemma serial_order ess h f f' : (forall i es, ess !! i = Some es -> acts_of i h = concat (map (e_acts o) es)) ->
  Forall (fun l => l.1 < length ess)%nat h -> Forall (Forall e_locks) ess -> fo_mutex f = false -> apply_acts os h.*2 f = Some f' ->
  exists order, order ≡ₚ concat ess /\ h.*2 = concat (map (e_acts o) order).
Proof.
  remember (length (concat ess)) as n eqn:Hn. revert ess h f Hn. induction n as [|n IH]; intros ess h f Hn Hacts Hlt Hlocks Hm Hf;
    (destruct h as [|[i a] h]; [|pose proof (Forall_inv Hlt) as Hi; cbn in Hi; destruct (lookup_lt_is_Some_2 ess i Hi) as [es Hes];
       pose proof (Hacts i es Hes) as Ha; rewrite acts_of_cons in Ha; cbn in Ha; rewrite decide_True in Ha by done;
       destruct es as [|e es]; [done|]]).
  - exists []. split; [|done]. by destruct (concat ess).
  - exfalso. pose proof (concat_insert_tail _ _ _ _ Hes) as Hp. apply Permutation_length in Hp. cbn in Hp. lia.
  - exfalso. destruct (concat ess) as [|e l] eqn:He; [done|]. assert (e ∈ concat ess) as Hin by (rewrite He; by left).
    apply list_elem_of_In, in_concat in Hin as (es & Hin & He'). apply list_elem_of_In, list_elem_of_lookup in Hin as [i Hi].
    specialize (Hacts i es Hi). destruct es as [|e0 es]; [done|]. rewrite Forall_lookup in Hlocks. pose proof (Forall_inv (Hlocks i _ Hi)) as Hl.
    cbn in Hacts. by rewrite (e_acts_locked o e0 Hl) in Hacts.
  - rewrite Forall_lookup in Hlocks. pose proof (Hlocks i _ Hes) as [Hle Hles]%Forall_cons. cbn [map concat] in Ha.
    rewrite (e_acts_locked o e Hle) in Ha. cbn [app] in Ha. injection Ha as -> Ha. rewrite <-app_assoc in Ha. cbn [app] in Ha.
    cbn [fmap list_fmap snd] in Hf. rewrite apply_lock in Hf by done.
    destruct (critical_section i (inner o e) _ h (put_mutex true f) f' (inner_inside o e Hle) Ha) as (h' & f1 & -> & H1 & H2 & H3 & H4); [|done|exact Hf|].
    { intros k Hk. destruct (ess !! k) as [es'|] eqn:Hk'.
      - specialize (Hacts k es' Hk'). rewrite acts_of_cons in Hacts. cbn in Hacts. rewrite decide_False in Hacts by done. rewrite Hacts.
        apply acts_waits. by apply (Hlocks k).
      - left. apply lookup_ge_None in Hk'. apply Forall_cons in Hlt as [_ Hlt]. clear -Hlt Hk'. induction Hlt as [|[j b] h Hj Hh IHh]; [done|].
        rewrite acts_of_cons. cbn in *. rewrite decide_False by lia. exact IHh. }
    destruct (IH (<[i := es]> ess) h' f1) as (order & Hord & Hh).
    + pose proof (Permutation_length (concat_insert_tail _ _ _ _ Hes)) as Hl. cbn in Hl. lia.
    + intros k es' Hk. destruct (decide (k = i)) as [->|Hne].
      * rewrite list_lookup_insert_eq in Hk by done. injection Hk as <-. exact H1.
      * rewrite list_lookup_insert_ne in Hk by done. rewrite (H2 k Hne). specialize (Hacts k es' Hk). rewrite acts_of_cons in Hacts. cbn in Hacts.
        by rewrite decide_False in Hacts.
    + rewrite length_insert. apply Forall_cons in Hlt as [_ Hlt]. by apply Forall_app in Hlt as [_ Hlt].
    + apply Forall_insert; [by apply Forall_lookup|done].
    + done.
    + exact H4.
    + exists (e :: order). split; [by rewrite Hord, <-(concat_insert_tail _ _ _ _ Hes)|]. cbn [map concat]. rewrite (e_acts_locked o e Hle).
      cbn [fmap list_fmap snd app]. f_equal. rewrite fmap_app, Hh. f_equal. change (map (pair i) ?l) with (pair i <$> l).
      rewrite <-list_fmap_compose. apply list_fmap_id.
Qed.

End serial.


(** ** Theorems *)

Section start.
Context (o : options) (os : os_env) (jobs : list (list job)) (f : fout).
Context (Hok : Forall (Forall (job_ok o)) jobs) (Hid : 0 <= fo_trace_id f < 2 ^ 64) (Hm : fo_mutex f = false).

Lemma sound_start : sound (f, start_threads o jobs) (replicate (length jobs) false).
Proof using Hok Hid Hm.
  split; cbn.
  - unfold start_threads. clear -Hok. induction Hok as [|js jobs Hjs Hjobs IH]; cbn; constructor; [by apply worker_disciplined|by apply IH].
  - rewrite Hm. split; [done|]. by intros [i [? _]%lookup_replicate].
  - by intros i j [? _]%lookup_replicate.
  - exact Hid.
Qed.

Lemma reachable_sound h c : csteps os (f, start_threads o jobs) h c -> exists bs, sound c bs.
Proof using Hok Hid Hm.
  intros Hs. remember (f, start_threads o jobs) as c0 eqn:Hc. induction Hs as [c|c h c' l c'' Hs IH Hl]; subst c; [eexists; apply sound_start|].
  destruct IH as [bs Hb]; [done|]. by eapply sound_step.
Qed.

Lemma finished_free h f' ts : csteps os (f, start_threads o jobs) h (f', ts) -> Forall (eq (Ret tt)) ts -> fo_mutex f' = false.
Proof using Hok Hid Hm.
  intros [bs Hb]%reachable_sound Hdone. destruct (fo_mutex f') eqn:Hf; [|done]. destruct (proj1 (so_mutex _ _ Hb) Hf) as [i Hi].
  destruct (Forall2_lookup_l _ _ _ _ _ (so_threads _ _ Hb) Hi) as (p & Hp & Hd). rewrite Forall_lookup in Hdone. rewrite <-(Hdone i p Hp) in Hd.
  inversion Hd.
Qed.

End start.

(** C11. Parallel writers finish.  Any number of workers write any traces, each
    with or without the mutex: whatever the interleaving, the output is not
    waiting for ever (while a worker is unfinished, one can act, so the mutex
    never deadlocks and no worker stops on a fault), and there is no endless run.
    When all are done the mutex is free. *)
Theorem writers_finish o os jobs f : Forall (Forall (job_ok o)) jobs -> 0 <= fo_trace_id f < 2 ^ 64 -> fo_mutex f = false ->
  Acc (config_lt os) (f, start_threads o jobs)
  /\ forall h c, csteps os (f, start_threads o jobs) h c ->
       (Forall (eq (Ret tt)) c.2 /\ fo_mutex c.1 = false) \/ exists l c', cstep os c l c'.
Proof.
  intros Hok Hid Hm. split; [apply config_lt_wf|]. intros h [f' ts] Hs. destruct (reachable_sound o os jobs f Hok Hid Hm h _ Hs) as [bs Hb].
  destruct (sound_progress os _ _ Hb) as [Hdone|Hstep]; [left|by right]. split; [exact Hdone|]. by eapply finished_free.
Qed.

(** C10. The mutex keeps traces apart: when every worker writes with the handler
    option [m], the output of all the workers is one trace after the other,
    whole, in some order: the writes of two traces never mix, however their
    actions interleave.  This holds for any [-b]: even writes above [PIPE_BUF],
    which may come out in parts, leave the bytes of whole traces one after the
    other, if every [writev] of the run writes all it is given. *)
Theorem locked_traces o os jobs f h f' ts :
  Forall (Forall (job_ok o)) jobs -> Forall (Forall (fun j => u_use_mutex (j_udata j) = true)) jobs ->
  0 <= fo_trace_id f < 2 ^ 64 -> Z.of_nat (length (concat jobs)) <= 2 ^ 64 -> fo_mutex f = false ->
  csteps os (f, start_threads o jobs) h (f', ts) -> Forall (eq (Ret tt)) ts ->
  exists order, map e_job order ≡ₚ concat jobs /\ Forall (entry_ok o) order
    /\ fo_writes f' = fo_writes f ++ concat (map e_writes order)
    /\ (Forall full (concat (map e_writes order)) -> stream h.*2 = concat (map wr_data (concat (map e_writes order)))).
Proof.
  intros Hok Hlock Hid Hlen Hm Hs Hdone. destruct (threads_written o os jobs f h f' ts Hok Hid Hlen Hs Hdone) as (ess & [Hj Hth Heok Hacts _ _]).
  destruct (csteps_inv _ _ _ _ _ _ Hs) as (Ha & _).
  destruct (serial_order o os ess h f f') as (order & Hord & Hh); [done|done| |done|done|].
  { rewrite <-Hj in Hlock. change (map (map e_job) ess) with (map e_job <$> ess) in Hlock. rewrite Forall_fmap in Hlock.
    apply Forall_concat in Heok. rewrite Forall_forall in Hlock, Heok |- *. intros es Hes. specialize (Hlock es Hes). specialize (Heok es Hes).
    cbn in Hlock. rewrite Forall_map in Hlock. rewrite Forall_forall in Hlock, Heok |- *. intros e He. split; [by apply Hlock|apply (Heok e He)]. }
  assert (Forall (entry_ok o) order) as Hok' by (by rewrite Hord). exists order. split_and!; [|exact Hok'| |].
  - rewrite <-Hj, <-concat_map. by apply Permutation_map.
  - by rewrite (apply_acts_writes _ _ _ _ Ha), Hh, acts_writes.
  - intros Hfull. rewrite Hh. by apply entries_stream.
Qed.

(** ** Witnesses *)

Lemma writers_finish_witness : Acc (config_lt good_os) (fresh_fout, start_threads tiny_options (chunk_jobs two_udata))
  /\ exists l c', cstep good_os (fresh_fout, start_threads tiny_options (chunk_jobs two_udata)) l c'.
Proof.
  destruct (writers_finish tiny_options good_os (chunk_jobs two_udata) fresh_fout) as [Hacc Hstep].
  - apply chunk_jobs_ok, two_udata_live.
  - vm_compute. split; [discriminate|reflexivity].
  - reflexivity.
  - split; [exact Hacc|]. destruct (Hstep [] _ (csteps_nil _ _)) as [[H _]|H]; [|exact H].
    apply Forall_inv in H. apply (f_equal (fun p => match p with Ret _ => true | _ => false end)) in H. vm_compute in H. discriminate.
Defined.

(** The second thread has to wait: its turn comes after the unlock. *)
Definition locked_turns : list nat := [1; 1; 1; 1; 1; 0; 0; 0; 0; 0]%nat.

Lemma locked_traces_witness : schedule good_os [1; 0]%nat [] (fresh_fout, start_threads tiny_options (chunk_jobs two_udata)) = None
  /\ exists h f' ts order,
       schedule good_os locked_turns [] (fresh_fout, start_threads tiny_options (chunk_jobs two_udata)) = Some (h, (f', ts))
       /\ map e_job order ≡ₚ concat (chunk_jobs two_udata) /\ fo_writes f' = concat (map e_writes order)
       /\ stream h.*2 = concat (map wr_data (fo_writes f')).
Proof.
  split; [reflexivity|].
  destruct (schedule good_os locked_turns [] (fresh_fout, start_threads tiny_options (chunk_jobs two_udata))) as [[h [f' ts]]|] eqn:Hrun;
    [|vm_compute in Hrun; discriminate].
  destruct (locked_traces tiny_options good_os (chunk_jobs two_udata) fresh_fout h f' ts) as (order & Hj & _ & Hlog & Hst).
  - apply chunk_jobs_ok, two_udata_live.
  - repeat constructor.
  - vm_compute. split; [discriminate|reflexivity].
  - vm_compute. discriminate.
  - reflexivity.
  - eapply schedule_csteps; [constructor|exact Hrun].
  - vm_compute in Hrun. injection Hrun as _ _ <-. repeat constructor.
  - cbn [app fresh_fout fo_writes] in Hlog. exists h, f', ts, order. split; [reflexivity|]. split; [exact Hj|]. split; [exact Hlog|].
    rewrite Hlog. apply Hst. rewrite <-Hlog. clear Hlog Hst. vm_compute in Hrun. injection Hrun as _ <- _. by repeat constructor.
Defined.
