(* ===== verification/TraceStable.v ===== *)
(** * TraceStable: what a sample shows when the memory does not change

    The call stack of the target as a list of PHP frames, and the records the
    tracer sends for it: every frame with its function, class, file and line,
    selected by [-n] and [-N]. *)
From Stdlib Require Import Sorted.
From S2P Require Import Prelude CLib Layout Context Zval ZvalSpec Trace TraceSafe Fout FoutSpec FoutWrite FoutHandler.

(** ** PHP frames *)

Record php_frame := {
  pf_func : option bytes;           (* none: top-level code *)
  pf_class : option bytes;
  pf_file : option (bytes * Z);     (* file and line; none: an internal function *)
}.

(** A name as it is shown: cut to the 255 bytes a buffer holds. *)
Definition shown_name (s : bytes) : bytes := take (PHPSPY_STR_SIZE - 1) s.

Definition func_text (pf : php_frame) : bytes :=
  match pf_func pf with Some s => shown_name s | None => cs "<main>" end.
Definition class_text (pf : php_frame) : bytes :=
  match pf_class pf with Some s => shown_name s | None => [] end.
Definition file_text (pf : php_frame) : bytes :=
  match pf_file pf with Some (f, _) => shown_name f | None => cs "<internal>" end.
Definition line_no (pf : php_frame) : Z := match pf_file pf with Some (_, l) => l | None => -1 end.

(** The line of the frame at depth [i] of the trace. *)
Definition frame_line (i : Z) (pf : php_frame) : bytes :=
  fmt_d i ++ " "%char :: class_text pf ++ (match class_text pf with [] => [] | _ => cs "::" end)
  ++ func_text pf ++ " "%char :: file_text pf ++ ":"%char :: fmt_d (line_no pf).

(** The line that stands for [n] elided frames. *)
Definition elided_line (i n : Z) : bytes :=
  fmt_d i ++ cs " <elided:" ++ fmt_d n ++ cs "> <elided>:-1".

(** ** Frames in memory *)

Section memory.
Context (E : target_env) (L : zlayout).

(** The string at [p] is [s]; no string is a null pointer. *)
Definition name_at (p : Z) (s : option bytes) : Prop :=
  match s with
  | None => p = 0
  | Some s => p <> 0 /\ zstr E L p s /\ NUL ∉ s
  end.

Definition class_at (scope : Z) (c : option bytes) : Prop :=
  match c with
  | None => scope = 0
  | Some s => scope <> 0 /\ exists ce, reads_as E scope (sz_ce L) ce
      /\ zstr E L (rd64 ce (o_ce_name L)) s /\ NUL ∉ s
  end.

Definition file_at (ex zfunc : bytes) (f : option (bytes * Z)) : Prop :=
  match f with
  | None => rd8 zfunc (o_fn_type L) <> 2
  | Some (s, line) =>
    rd8 zfunc (o_fn_type L) = 2 /\ zstr E L (rd64 zfunc (o_op_filename L)) s /\ (NUL ∉ s)
    /\ exists zop, reads_as E (rd64 ex (o_ex_opline L)) (sz_op L) zop /\ s32 (rd32 zop (o_op_lineno L)) = line
  end.

(** The [zend_execute_data] at [addr] is the frame [pf], called from the one at
    [next]. *)
Definition frame_at (addr : Z) (pf : php_frame) (next : Z) : Prop :=
  exists ex zfunc, reads_as E addr (sz_ex L) ex /\ reads_as E (rd64 ex (o_ex_func L)) (sz_func L) zfunc
    /\ rd64 ex (o_ex_prev L) = next
    /\ reads_as E (padd addr (o_ex_prev L)) 8 (peek ex (Z.to_nat (o_ex_prev L)) 8)
    /\ name_at (rd64 zfunc (o_fn_name L)) (pf_func pf)
    /\ class_at (rd64 zfunc (o_fn_scope L)) (pf_class pf)
    /\ file_at ex zfunc (pf_file pf).

(** The call stack from [addr] on, innermost frame first. *)
Inductive stack_at : Z -> list (Z * php_frame) -> Prop :=
| Stack_nil : stack_at 0 []
| Stack_cons addr pf next fs :
    addr <> 0 -> frame_at addr pf next -> stack_at next fs -> stack_at addr ((addr, pf) :: fs).
End memory.

(** ** The frames a sample shows *)

(** Without [-N]: the innermost frames, at most [-n] of them. *)
Definition leaf_lines (leaf : Z) (fs : list php_frame) : list bytes :=
  imap (fun i pf => frame_line (Z.of_nat i) pf)
    (take (if leaf <? 0 then length fs else Z.to_nat leaf) fs).

(** With [-N root]: the [leaf] innermost and the [root] outermost ones, and a
    marker in between if any are left out. *)
Definition root_lines (leaf root : Z) (fs : list php_frame) : list bytes :=
  let total := Z.of_nat (length fs) in
  let ki := Z.max 0 leaf in
  concat (imap (fun i pf =>
    let i := Z.of_nat i in
    if (ki <=? i) && (i <? total - root)
    then (if i =? ki then [elided_line i (total - root - ki)] else [])
    else [frame_line i pf]) fs).

(** The handler accepted the events one after the other. *)
Inductive handled {U} {EH : EventHandler U} : list event -> U -> U -> Prop :=
| Handled_nil u : handled [] u u
| Handled_cons ev evs u u1 u' :
    eh_call ev u = Done (PHPSPY_OK, u1) -> handled evs u1 u' -> handled (ev :: evs) u u'.

(** [w'] is [w] after sending records with the texts [ls]. *)
Definition shows {U} {EH : EventHandler U} (w w' : world U) (ls : list bytes) : Prop :=
  fixed_ctx (w_ctx w) (w_ctx w') /\
  exists evs, w_events w' = w_events w ++ evs /\ Forall good_event evs /\ concat (map event_texts evs) = ls
    /\ handled evs (w_udata w) (w_udata w').

(** The handler accepts every record. *)
Definition accepting (U : Type) {EH : EventHandler U} (inv : list event -> U -> Prop) : Prop :=
  forall ev evs u, good_event ev -> inv evs u -> exists u', eh_call ev u = Done (PHPSPY_OK, u') /\ inv (evs ++ [ev]) u'.

(** ** Lemmas *)

Lemma wpx_and {W A} (d : Prop) (m : M W A) (P Q : A -> W -> Prop) w :
  twp m P w -> wpx d m Q w -> twp m (fun a w' => P a w' /\ Q a w') w.
Proof. unfold wpx. destruct (m w) as [[a w']| |]; auto. Qed.

(** A name buffer after [sprint_zstring], read back with its length. *)
Lemma prec_zstring (buf s : bytes) :
  length buf = PHPSPY_STR_SIZE -> NUL ∉ s ->
  let n := Nat.min (length s) (PHPSPY_STR_SIZE - 1) in
  fmt_prec (Z.of_nat n) (poke (poke (poke buf 0 [NUL]) 0 (take n s)) (0 + n) [NUL]) = shown_name s.
Proof.
  intros Hb Hs n. unfold fmt_prec. destruct (Z.ltb_spec (Z.of_nat n) 0); [lia|]. rewrite Nat2Z.id.
  unfold PHPSPY_STR_SIZE in *. assert (length (take n s) = n) as Hn by (rewrite length_take; lia).
  assert (length (poke buf 0 [NUL]) = 256%nat) as H1 by (rewrite length_poke; simpl; lia).
  rewrite Nat.add_0_l, take_poke by (rewrite length_poke; lia).
  rewrite <-Hn at 1. rewrite <-(Nat.add_0_l (length _)), take_poke_end by lia. rewrite take_0, app_nil_l.
  rewrite cstr_id by (intros H'; apply Hs; rewrite <-(take_drop n s); set_solver).
  unfold shown_name, PHPSPY_STR_SIZE. subst n. destruct (decide (length s <= 255)%nat).
  - rewrite !take_ge by lia. done.
  - f_equal. lia.
Qed.

(** A short literal after [put_text]. *)
Lemma prec_literal (buf s : bytes) :
  length buf = PHPSPY_STR_SIZE -> NUL ∉ s -> (length s < PHPSPY_STR_SIZE)%nat ->
  fmt_prec (Z.of_nat (length s)) (poke buf 0 (s ++ [NUL])) = s.
Proof.
  intros Hb Hs Hl. unfold fmt_prec. destruct (Z.ltb_spec (Z.of_nat (length s)) 0); [lia|]. rewrite Nat2Z.id.
  unfold poke. rewrite take_0, app_nil_l, <-app_assoc, take_app_length. by apply cstr_id.
Qed.

Section shows.
Context {U : Type} {EH : EventHandler U} {HS : HandlerSafe U} (Hacc : accepting U eh_inv).
Context (E : target_env) (L : zlayout) (o : options) (fuel : nat).
Implicit Types w : world U.

Lemma handled_app a b u u1 u2 : handled a u u1 -> handled b u1 u2 -> handled (a ++ b) u u2.
Proof. induction 1; [done|]. intros. simpl. econstructor; eauto. Qed.

(** Filling a field of the frame. *)
Definition fills w w' : Prop :=
  fixed_ctx (w_ctx w) (w_ctx w') /\ w_events w' = w_events w /\ w_udata w' = w_udata w.

Lemma shows_nil w w' : fills w w' -> shows w w' [].
Proof. intros (Hf & He & Hu). split; [done|]. exists []. rewrite app_nil_r, Hu. by split_and!; [|constructor|..]; try constructor. Qed.

Lemma fills_refl w : fills w w.
Proof. done. Qed.

Lemma shows_app w w1 w2 a b : shows w w1 a -> shows w1 w2 b -> shows w w2 (a ++ b).
Proof.
  intros ([H1 H2] & e1 & He1 & F1 & <- & Hh1) ([H3 H4] & e2 & He2 & F2 & <- & Hh2). split; [split; congruence|].
  exists (e1 ++ e2). rewrite He2, He1, app_assoc, Forall_app, map_app, concat_app. split_and!; try done.
  by eapply handled_app.
Qed.

Lemma quiet_fills w w' : quiet w w' -> fills w w'.
Proof. intros (Hc & Hu & He). split; [by rewrite Hc|done]. Qed.

Lemma fills_trans w w1 w2 : fills w w1 -> fills w1 w2 -> fills w w2.
Proof. intros ([? ?] & ? & ?) ([? ?] & ? & ?). split; [split|split]; congruence. Qed.

Lemma put_text_wp d buf s (Q : bytes -> world U -> Prop) w :
  length buf = PHPSPY_STR_SIZE -> (length s < PHPSPY_STR_SIZE)%nat ->
  Q (poke buf 0 (s ++ [NUL])) w -> wpx d (put_text buf s) Q w.
Proof.
  intros Hb Hs HQ. change (put_text buf s) with (store (W := world U) buf 0 (take 255 s ++ [NUL])).
  unfold PHPSPY_STR_SIZE in *. rewrite take_ge by lia. apply store_ok; [rewrite length_app; cbn [length]; lia|done].
Qed.

Lemma emit_func_stable zfunc name w :
  loc_sized (loc_of w) -> name_at E L (rd64 zfunc (o_fn_name L)) name ->
  twp (emit_func E L zfunc) (fun rv w' => rv = PHPSPY_OK /\ fills w w'
    /\ fmt_prec (l_func_len (loc_of w')) (l_func (loc_of w'))
       = match name with Some s => shown_name s | None => cs "<main>" end) w.
Proof.
  intros (Hl & _) Hn. unfold emit_func. apply wpx_bind, wpx_intro_done with (loc_of w) w; [done|].
  destruct name as [s|]; simpl in Hn.
  - destruct Hn as (H0 & Hz & Hs). rewrite (proj2 (Z.eqb_neq _ _)) by done. apply wpx_bind.
    eapply sprint_zstring_wp; [done|unfold PHPSPY_STR_SIZE in *; lia|unfold PHPSPY_STR_SIZE; lia|].
    intros w1 Hq. cbv zeta. apply wpx_bind, wpx_modify, wpx_ret. split_and!; [done| |].
    + eapply fills_trans; [by apply quiet_fills|]. done.
    + by apply prec_zstring.
  - rewrite Hn. apply wpx_bind, put_text_wp; [done|by apply (bool_decide_unpack _)|].
    apply wpx_bind, wpx_modify, wpx_ret. split_and!; [done|done|].
    apply (prec_literal _ (cs "<main>")); [done|by apply (bool_decide_unpack _)..].
Qed.

Lemma emit_class_stable zfunc c w :
  loc_sized (loc_of w) -> class_at E L (rd64 zfunc (o_fn_scope L)) c ->
  twp (emit_class E L zfunc) (fun rv w' => rv = PHPSPY_OK /\ fills w w'
    /\ fmt_prec (l_class_len (loc_of w')) (l_class (loc_of w')) = match c with Some s => shown_name s | None => [] end
    /\ l_class_len (loc_of w') = Z.of_nat (length (match c with Some s => shown_name s | None => [] end))) w.
Proof.
  intros (_ & Hl & _) Hn. unfold emit_class. apply wpx_bind, wpx_intro_done with (loc_of w) w; [done|].
  destruct c as [s|]; simpl in Hn.
  - destruct Hn as (H0 & ce & Hce & Hz & Hs). rewrite (proj2 (Z.eqb_neq _ _)) by done.
    apply wpx_bind. eapply copy_proc_mem_reads_wp; [done|]. intros w1 Hq1.
    rewrite bool_decide_false by (intros X; by apply X). apply wpx_bind.
    eapply sprint_zstring_wp; [done|unfold PHPSPY_STR_SIZE in *; lia|unfold PHPSPY_STR_SIZE; lia|].
    intros w2 Hq2. cbv zeta. apply wpx_bind, wpx_modify, wpx_ret. split_and!; [done| | |].
    + eapply fills_trans; [apply quiet_fills; by etrans|]. done.
    + by apply prec_zstring.
    + cbn. unfold shown_name. rewrite length_take. f_equal. lia.
  - rewrite Hn. unfold PHPSPY_STR_SIZE in *. apply wpx_bind, store_ok; [cbn [length]; lia|].
    apply wpx_bind, wpx_modify, wpx_ret. by split_and!.
Qed.

Lemma emit_file_stable zfunc remote ex f w :
  varpeek_map o = [] -> loc_sized (loc_of w) -> file_at E L ex zfunc f ->
  twp (emit_file E L o fuel zfunc remote (rd64 ex (o_ex_opline L))) (fun rv w' => rv = PHPSPY_OK /\ fills w w'
    /\ fmt_prec (l_file_len (loc_of w')) (l_file (loc_of w'))
       = match f with Some (s, _) => shown_name s | None => cs "<internal>" end
    /\ l_lineno (loc_of w') = match f with Some (_, l) => l | None => -1 end) w.
Proof.
  intros Hv (_ & _ & Hl) Hf. unfold emit_file. apply wpx_bind, wpx_intro_done with (loc_of w) w; [done|].
  destruct f as [[s line]|]; simpl in Hf.
  - destruct Hf as (-> & Hz & Hs & zop & Hop & Hline). cbn [Z.eqb Pos.eqb]. apply wpx_bind.
    eapply sprint_zstring_wp; [done|unfold PHPSPY_STR_SIZE in *; lia|unfold PHPSPY_STR_SIZE; lia|].
    intros w1 Hq1. cbv zeta. apply wpx_bind, wpx_modify. rewrite bool_decide_false by (intros X; by apply X).
    apply wpx_bind, wpx_modify, wpx_bind. eapply copy_proc_mem_reads_wp; [done|]. intros w2 (Hc2 & Hu2 & He2).
    rewrite bool_decide_false by (intros X; by apply X). apply wpx_bind, wpx_modify.
    rewrite Hv, bool_decide_true by done. apply wpx_ret. unfold loc_of. cbn [with_ctx w_ctx w_events set_frame c_frame f_loc].
    rewrite Hc2. cbn. split_and!; [done| | |done].
    + destruct Hq1 as (Hc1 & Hu1 & He1). split; [split; cbn; rewrite Hc2; cbn; by rewrite Hc1|]. cbn. rewrite He2, Hu2. by cbn.
    + by apply prec_zstring.
  - rewrite (proj2 (Z.eqb_neq _ _)) by done. apply wpx_bind, put_text_wp; [done|by apply (bool_decide_unpack _)|].
    apply wpx_bind, wpx_modify, wpx_bind, wpx_modify, wpx_ret. split_and!; [done|done| |done].
    apply (prec_literal _ (cs "<internal>")); [done|by apply (bool_decide_unpack _)..].
Qed.

(** A frame as the handler formats it. *)
Lemma fmt_frame_line fr depth pf :
  f_depth fr = depth -> let l := f_loc fr in
  fmt_prec (l_func_len l) (l_func l) = func_text pf -> fmt_prec (l_class_len l) (l_class l) = class_text pf ->
  l_class_len l = Z.of_nat (length (class_text pf)) ->
  fmt_prec (l_file_len l) (l_file l) = file_text pf -> l_lineno l = line_no pf ->
  fmt_frame fr = frame_line depth pf.
Proof.
  intros <- l H1 H2 Hn H3 H4. unfold fmt_frame, frame_line. fold l. rewrite H1, H2, H3, H4, Hn.
  by destruct (class_text pf).
Qed.

Lemma emit_shows d ev (Q : Z -> world U -> Prop) w :
  good_event ev -> world_ok w ->
  (forall w', world_ok w' -> w_ctx w' = w_ctx w -> shows w w' (event_texts ev) -> Q PHPSPY_OK w') ->
  wpx d (emit ev) Q w.
Proof.
  intros Hg [Hi Hc] HQ. destruct (Hacc ev (w_events w) (w_udata w) Hg Hi) as (u & He & Hi').
  eapply emit_wp; [exact He|]. apply HQ; [done|done|]. split; [done|]. exists [ev].
  split_and!; [done|by constructor|cbn; by rewrite app_nil_r|]. econstructor; [exact He|constructor].
Qed.

Lemma stack_emit_frame_stable remote depth pf next w :
  varpeek_map o = [] -> opt_peek_pdo o = false -> peeks_ok o -> 0 <= depth < 2 ^ 31 ->
  frame_at E L remote pf next -> world_ok w ->
  twp (stack_emit_frame E L o fuel remote depth) (fun r w' =>
    r = (PHPSPY_OK, next) /\ world_ok w' /\ shows w w' [frame_line depth pf]) w.
Proof.
  intros Hv Hpdo Hp Hd (ex & zfunc & Hex & Hzf & Hnext & _ & Hname & Hclass & Hfile) Hw. unfold stack_emit_frame.
  apply wpx_bind. eapply copy_proc_mem_reads_wp; [done|]. intros w1 Hq1.
  rewrite bool_decide_false by (intros X; by apply X).
  apply wpx_bind. eapply copy_proc_mem_reads_wp; [done|]. intros w2 Hq2.
  rewrite bool_decide_false by (intros X; by apply X).
  assert (quiet w w2) as Hq by by etrans.
  assert (world_ok w2) as Hw2 by (destruct Hw, Hq as (Hqc & Hqu & Hqe); split; [by rewrite Hqu, Hqe|by rewrite Hqc]).
  apply wpx_bind. eapply wpx_mono; [eapply wpx_and; [apply emit_func_stable; [apply Hw2|done]|by apply (safely_emit_func E L True 0)]|].
  intros rv3 w3 ((-> & F3 & T3) & Hw3 & _ & (fb & fn & H3 & Hf)). rewrite bool_decide_false by (intros X; by apply X).
  apply wpx_bind. eapply wpx_mono; [eapply wpx_and; [apply emit_class_stable; [apply Hw3|done]|by apply (safely_emit_class E L True 0)]|].
  intros rv4 w4 ((-> & F4 & T4 & N4) & Hw4 & _ & (cb & cn & [[H4 Hc]|[? _]])); [|done].
  rewrite bool_decide_false by (intros X; by apply X).
  apply wpx_bind. eapply wpx_mono; [eapply wpx_and; [apply emit_file_stable; [done|apply Hw4|done]|
    by apply (safely_emit_file E L o fuel True 0)]|].
  intros rv5 w5 ((-> & F5 & T5 & N5) & Hw5 & _ & (b & n & line & H5 & Hfi)).
  rewrite bool_decide_false by (intros X; by apply X).
  assert (fills w w5) as F.
  { eapply fills_trans; [by apply quiet_fills|]. eapply fills_trans; [done|]. by eapply fills_trans. }
  apply wpx_bind, wpx_modify. set (w6 := with_ctx _ w5). apply wpx_bind, wpx_intro_done with (c_frame (w_ctx w6)) w6; [done|].
  assert (wf_loc (loc_of w6)) as Hwf.
  { change (loc_of w6) with (loc_of w5). apply wf_loc_parts; [| |by apply Hfi].
    - rewrite H5, H4. rewrite H3 in Hf |- *. by apply Hf.
    - rewrite H5. rewrite H4 in Hc |- *. by apply Hc. }
  apply wpx_bind, emit_shows; [by split|done|]. intros w7 Hw7 Hc7 Hs7. rewrite bool_decide_false by (intros X; by apply X).
  rewrite Hpdo. apply wpx_bind, wpx_ret, wpx_ret. split_and!; [by rewrite Hnext|done|].
  replace [frame_line depth pf] with (event_texts (EvFrame (c_frame (w_ctx w6)))).
  - change (event_texts ?e) with ([] ++ event_texts e). eapply shows_app; [|exact Hs7]. by apply shows_nil.
  - cbn [event_texts]. f_equal. apply fmt_frame_line; [done|..]; fold (loc_of w6); change (loc_of w6) with (loc_of w5).
    + rewrite H5, H4 in *. done.
    + rewrite H5. rewrite H4 in *. done.
    + rewrite H5. rewrite H4 in *. done.
    + done.
    + done.
Qed.

(** ** Lemmas: walking the stack *)

Section walk.
Context (Hv : varpeek_map o = []) (Hpdo : opt_peek_pdo o = false) (Hp : peeks_ok o).

Lemma leaf_loop_stable n remote fs i w :
  stack_at E L remote fs -> 0 <= i -> i + Z.of_nat (length fs) <= PHPSPY_MAX_STACK_WALK -> (length fs < n)%nat ->
  (0 <= opt_max_stack_depth_from_leaf o -> i <= opt_max_stack_depth_from_leaf o) -> world_ok w ->
  let leaf := opt_max_stack_depth_from_leaf o in
  let m := if leaf <? 0 then length fs else Z.to_nat (leaf - i) in
  twp (leaf_loop E L o fuel n remote i) (fun r w' =>
    r = (PHPSPY_OK, i + Z.of_nat (length (take m fs))) /\ world_ok w'
    /\ shows w w' (imap (fun j pf => frame_line (i + Z.of_nat j) pf) (take m (map snd fs)))) w.
Proof.
  intros Hst. revert n i w. induction Hst as [|addr pf next fs Ha Hfr Hst IH]; intros n i w Hi Hmax Hn Hleaf Hw leaf m;
    (destruct n as [|n]; [simpl in Hn; lia|]); cbn [leaf_loop].
  { apply wpx_ret. cbn [map]. rewrite !take_nil. cbn [length]. rewrite Z.add_0_r. split_and!; [done|done|by apply shows_nil]. }
  rewrite (proj2 (Z.eqb_neq _ _)) by done. cbn [orb length] in *. fold leaf.
  destruct (Z.eqb_spec i leaf) as [He|Hne].
  { assert (m = 0%nat) as -> by (subst m; destruct (Z.ltb_spec leaf 0); lia). apply wpx_ret. rewrite !take_0.
    cbn [length]. rewrite Z.add_0_r. split_and!; [done|done|by apply shows_nil]. }
  unfold PHPSPY_MAX_STACK_WALK in *. destruct (Z.leb_spec 1024 i); [lia|].
  apply wpx_bind. eapply wpx_mono; [apply stack_emit_frame_stable; try done; lia|].
  intros r w1 (-> & Hw1 & Hs1). rewrite bool_decide_false by (intros X; by apply X).
  eapply wpx_mono; [apply (IH n (i + 1)); [lia|lia|lia|unfold leaf in *; lia|done]|].
  intros r w2 (-> & Hw2 & Hs2).
  assert (exists m', m = S m' /\ m' = if leaf <? 0 then length fs else Z.to_nat (leaf - (i + 1))) as (m' & -> & ->).
  { subst m. destruct (Z.ltb_spec leaf 0); [by eexists|]. exists (Z.to_nat (leaf - (i + 1))). split; lia. }
  cbn [map take length]. fold leaf in Hs2. split_and!; [f_equal; unfold leaf; lia|done|]. rewrite imap_cons.
  replace (i + Z.of_nat 0) with i by lia. change (?x :: ?l) with ([x] ++ l). eapply shows_app; [exact Hs1|].
  erewrite imap_ext; [exact Hs2|]. intros j x _. cbn. f_equal. lia.
Qed.

Lemma collect_stable n remote fs w :
  stack_at E L remote fs -> (length fs < n)%nat ->
  Z.of_nat (length (c_stack_ptrs (w_ctx w)) + length fs) <= PHPSPY_MAX_STACK_WALK -> world_ok w ->
  twp (collect_loop E L n remote) (fun rv w' => rv = PHPSPY_OK /\ world_ok w'
    /\ c_target (w_ctx w') = c_target (w_ctx w) /\ w_events w' = w_events w
    /\ w_udata w' = w_udata w /\ c_stack_ptrs (w_ctx w') = c_stack_ptrs (w_ctx w) ++ map fst fs) w.
Proof.
  intros Hst. revert n w. induction Hst as [|addr pf next fs Ha Hfr Hst IH]; intros n w Hn Hmax Hw;
    (destruct n as [|n]; [simpl in Hn; lia|]); cbn [collect_loop].
  { apply wpx_ret. by rewrite app_nil_r. }
  rewrite (proj2 (Z.eqb_neq _ _)) by done. cbn [length] in *. apply wpx_bind, wpx_get.
  unfold PHPSPY_MAX_STACK_WALK in *. destruct (Z.leb_spec 1024 (Z.of_nat (length (c_stack_ptrs (w_ctx w))))); [lia|].
  destruct Hfr as (ex & zfunc & _ & _ & Hnext & Hprev & _).
  apply wpx_bind, wpx_modify, wpx_bind. eapply copy_proc_mem_reads_wp; [done|]. intros w1 (Hc & Hu & He).
  rewrite bool_decide_false by (intros X; by apply X).
  fold (rd64 ex (o_ex_prev L)). rewrite Hnext.
  eapply wpx_mono; [apply (IH n w1); [lia| |]|].
  - rewrite Hc. cbn. rewrite length_app. cbn [length]. lia.
  - destruct Hw as [Hi Hctx]. split; [by rewrite Hu, He|by rewrite Hc].
  - intros rv w2 (-> & Hw2 & Ht & He2 & Hu2 & Hptrs). split_and!; [done|done|by rewrite Ht, Hc|by rewrite He2, He|by rewrite Hu2, Hu|].
    rewrite Hptrs, Hc. cbn. by rewrite <-app_assoc.
Qed.

End walk.

(** [int] arithmetic of the elision against plain arithmetic. *)
Lemma elision_spec total ki ko ne i :
  limits_ok o -> 0 <= opt_max_stack_depth_from_root o -> 0 <= i < total -> total <= PHPSPY_MAX_STACK_WALK ->
  elision o total = (ki, ko, ne) ->
  let k := Z.max 0 (opt_max_stack_depth_from_leaf o) in
  let out := total - opt_max_stack_depth_from_root o in
  ((ki <=? i) && (i <? ko)) = ((k <=? i) && (i <? out))
  /\ ((i =? ki) && (0 <? ne)) = ((i =? k) && (i <? out))
  /\ (i = k -> i < out -> ne = out - k).
Proof.
  intros [Hl Hr] Hr0 Hi Ht. unfold elision, PHPSPY_MAX_STACK_WALK in *. cbv zeta.
  set (leaf := opt_max_stack_depth_from_leaf o) in *. set (root := opt_max_stack_depth_from_root o) in *.
  replace (if 0 <=? leaf then leaf else 0) with (Z.max 0 leaf) by (destruct (Z.leb_spec 0 leaf); lia).
  set (k := Z.max 0 leaf) in *. assert (0 <= k < 2 ^ 31) as Hk by lia. clearbody k.
  destruct (Z.ltb_spec (s32 (k + root)) total) as [Hlt|Hge]; intros [= <- <- <-].
  - rewrite (swrap_small 32 (total - root)) by lia. split_and!; [done| |].
    + destruct (Z.eqb_spec i k) as [->|]; [|done]. cbn [andb]. rewrite swrap_small by lia.
      destruct (Z.ltb_spec 0 (total - root - k)), (Z.ltb_spec k (total - root)); lia.
    + intros -> H. rewrite swrap_small by lia. lia.
  - assert (k + root >= total) as Hs.
    { destruct (decide (k + root < 2 ^ 31)); [rewrite swrap_small in Hge by lia; lia|]. lia. }
    split_and!; [|destruct (Z.eqb_spec i k), (Z.ltb_spec i (total - root)); cbn; lia|lia].
    destruct (Z.leb_spec k i), (Z.ltb_spec i k), (Z.ltb_spec i (total - root)); cbn; lia.
Qed.

Lemma emit_elided_stable n i w :
  - 2 ^ 31 <= n < 2 ^ 31 -> 0 <= i < 2 ^ 31 -> world_ok w ->
  twp (emit_elided n i) (fun rv w' => rv = PHPSPY_OK /\ world_ok w' /\ shows w w' [elided_line i n]) w.
Proof.
  intros Hn Hi Hw. pose proof Hw as [Hinv [[Hf [Hc Hfi]] Hrest]]. unfold emit_elided. fold (loc_of w) in *.
  apply wpx_bind, wpx_intro_done with (loc_of w) w; [done|]. cbv zeta. set (s := cs "<elided:" ++ fmt_d n ++ cs ">").
  assert (length s <= 20)%nat as Hs by (pose proof (length_fmt_d n Hn); subst s; rewrite !length_app; simpl; lia).
  assert (NUL ∉ s) as Hnn by (subst s; solve_nn).
  assert (forall b t, length b = PHPSPY_STR_SIZE -> (length t <= 20)%nat -> str_buf (poke b 0 (t ++ [NUL]))) as Hsb.
  { intros b t Hb Ht. unfold str_buf, PHPSPY_STR_SIZE in *. split; [rewrite length_poke; rewrite ?length_app; simpl; lia|].
    unfold poke. set_solver. }
  apply wpx_bind, put_text_wp; [done|unfold PHPSPY_STR_SIZE; lia|]. apply wpx_bind, wpx_modify, wpx_bind.
  unfold PHPSPY_STR_SIZE in *. apply store_ok; [cbn [length]; lia|]. apply wpx_bind, wpx_modify, wpx_bind.
  apply put_text_wp; [done|by apply (bool_decide_unpack _)|].
  apply wpx_bind, wpx_modify, wpx_bind, wpx_modify, wpx_bind, wpx_modify. set (w6 := with_ctx _ _).
  apply wpx_bind, wpx_intro_done with (c_frame (w_ctx w6)) w6; [done|].
  set (l := loc_of w6). assert (wf_loc l) as Hwf.
  { split; [by apply Hsb; [|lia]|]. split; [by apply (Hsb _ []); [|simpl; lia]|].
    split; [by apply (Hsb _ (cs "<elided>")); [|apply (bool_decide_unpack _)]|].
    change (l_func_len l) with (Z.of_nat (length s)). change (l_class_len l) with 0. change (l_file_len l) with 8.
    change (l_lineno l) with (-1). lia. }
  apply emit_shows; [by split|split; [done|]|].
  { split; [|done]. destruct Hwf as ([? _] & [? _] & [? _] & _). by split_and!. }
  intros w' Hw' _ Hsh. split_and!; [done|done|]. replace [elided_line i n] with (event_texts (EvFrame (c_frame (w_ctx w6)))).
  - change (event_texts ?e) with ([] ++ event_texts e). eapply shows_app; [|exact Hsh]. by apply shows_nil.
  - cbn [event_texts]. f_equal. unfold fmt_frame. cbn [w6 w_ctx with_ctx set_frame c_frame f_loc f_depth l_func l_class
      l_file l_func_len l_class_len l_file_len l_lineno set_func set_class set_file set_lineno].
    rewrite prec_literal by (done || unfold PHPSPY_STR_SIZE; lia).
    pose proof (prec_literal (l_file (loc_of w)) (cs "<elided>") Hfi ltac:(by apply (bool_decide_unpack _))
      ltac:(by apply (bool_decide_unpack _))) as Hfile. change (Z.of_nat (length (cs "<elided>"))) with 8 in Hfile.
    rewrite Hfile. unfold elided_line. subst s. cbn. by rewrite <-!app_assoc.
Qed.

(** The part of [root_lines] for the frames from [i] on. *)
Definition root_from (total i : Z) (fs : list php_frame) : list bytes :=
  let ki := Z.max 0 (opt_max_stack_depth_from_leaf o) in
  let out := total - opt_max_stack_depth_from_root o in
  concat (imap (fun j pf =>
    let i := i + Z.of_nat j in
    if (ki <=? i) && (i <? out) then (if i =? ki then [elided_line i (out - ki)] else []) else [frame_line i pf]) fs).

Lemma root_from_cons total i pf fs :
  root_from total i (pf :: fs) =
    (let ki := Z.max 0 (opt_max_stack_depth_from_leaf o) in
     let out := total - opt_max_stack_depth_from_root o in
     if (ki <=? i) && (i <? out) then (if i =? ki then [elided_line i (out - ki)] else []) else [frame_line i pf])
    ++ root_from total (i + 1) fs.
Proof.
  unfold root_from. rewrite imap_cons. cbn [concat]. replace (i + Z.of_nat 0) with i by lia. f_equal. f_equal.
  apply imap_ext. intros j x _. cbn. by replace (i + Z.of_nat (S j)) with (i + 1 + Z.of_nat j) by lia.
Qed.

Lemma outer_loop_stable total ki ko ne fs i w :
  varpeek_map o = [] -> opt_peek_pdo o = false -> peeks_ok o -> limits_ok o ->
  0 <= opt_max_stack_depth_from_root o -> total <= PHPSPY_MAX_STACK_WALK -> elision o total = (ki, ko, ne) ->
  0 <= i -> i + Z.of_nat (length fs) = total ->
  drop (Z.to_nat i) (c_stack_ptrs (w_ctx w)) = map fst fs ->
  Forall (fun f => exists next, frame_at E L (fst f) (snd f) next) fs -> world_ok w ->
  twp (outer_loop E L o fuel (length fs) i ki ko ne) (fun rv w' =>
    rv = PHPSPY_OK /\ world_ok w' /\ shows w w' (root_from total i (map snd fs))) w.
Proof.
  intros Hv Hpdo Hp Hlim Hr Hmax Hel. revert i w. induction fs as [|[addr pf] fs IH]; intros i w Hi Htot Hptrs Hfs Hw.
  { apply wpx_ret. split_and!; [done|done|by apply shows_nil]. }
  apply Forall_cons in Hfs as [[next Hfr] Hfs]. cbn [length map fst snd] in *. cbn [outer_loop].
  destruct (elision_spec total ki ko ne i Hlim Hr ltac:(lia) Hmax Hel) as (Hskip & Hmark & Hne).
  destruct (elision_marker o total ki ko ne Hlim Hr ltac:(lia) Hel) as (_ & Hner & _).
  rewrite Hskip, Hmark, root_from_cons. set (k := Z.max 0 _) in *. set (out := total - _) in *.
  unfold PHPSPY_MAX_STACK_WALK in *.
  assert (drop (Z.to_nat (i + 1)) (c_stack_ptrs (w_ctx w)) = map fst fs) as Hptrs'.
  { apply (f_equal (drop 1)) in Hptrs. rewrite drop_drop in Hptrs.
    change (drop 1 (addr :: map fst fs)) with (map fst fs) in Hptrs. rewrite <-Hptrs. f_equal. lia. }
  assert (forall w1 ls, world_ok w1 -> shows w w1 ls ->
    twp (outer_loop E L o fuel (length fs) (i + 1) ki ko ne) (fun rv w' =>
      rv = PHPSPY_OK /\ world_ok w' /\ shows w w' (ls ++ root_from total (i + 1) (map snd fs))) w1) as Hrest.
  { intros w1 ls Hw1 Hs1. pose proof Hs1 as [[_ Hst] _].
    eapply wpx_mono; [apply (IH (i + 1) w1); [lia|lia|by rewrite Hst|done|done]|].
    intros rv w2 (-> & Hw2 & Hs2). split_and!; [done|done|by eapply shows_app]. }
  assert (twp (w ← get;
      match c_stack_ptrs (w_ctx w) !! Z.to_nat i with
      | None => raise OutOfBounds
      | Some p =>
        '(rv, _) ← stack_emit_frame E L o fuel p i;
        try rv else_return rv ;;;
        outer_loop E L o fuel (length fs) (i + 1) ki ko ne
      end) (fun rv w' => rv = PHPSPY_OK /\ world_ok w'
        /\ shows w w' ([frame_line i pf] ++ root_from total (i + 1) (map snd fs))) w) as Hframe.
  { apply wpx_bind, wpx_get. assert (c_stack_ptrs (w_ctx w) !! Z.to_nat i = Some addr) as ->.
    { replace (Z.to_nat i) with (Z.to_nat i + 0)%nat by lia. rewrite <-lookup_drop, Hptrs. done. }
    apply wpx_bind. eapply wpx_mono; [by apply stack_emit_frame_stable; try done; lia|].
    intros r w1 (-> & Hw1 & Hs1). rewrite bool_decide_false by (intros X; by apply X). by apply Hrest. }
  destruct (Z.eqb_spec i k) as [Hik|Hik], (Z.ltb_spec i out) as [Hio|Hio], (Z.leb_spec k i) as [Hki|Hki]; try lia;
    cbn [andb]; apply wpx_bind;
    try (apply wpx_ret; rewrite bool_decide_false by (intros X; by apply X); exact Hframe).
  - eapply wpx_mono; [apply emit_elided_stable; [done|lia|done]|]. intros rv w1 (-> & Hw1 & Hs1).
    rewrite bool_decide_false by (intros X; by apply X). rewrite <-(Hne Hik Hio). by apply Hrest.
  - apply wpx_ret. rewrite bool_decide_false by (intros X; by apply X). apply Hrest; [done|by apply shows_nil].
Qed.

(** The whole stack. *)
Lemma stack_at_frames remote fs :
  stack_at E L remote fs -> Forall (fun f => exists next, frame_at E L (fst f) (snd f) next) fs.
Proof. induction 1; constructor; eauto. Qed.

Lemma trace_stack_stable remote fs w :
  varpeek_map o = [] -> opt_peek_pdo o = false -> peeks_ok o -> limits_ok o ->
  stack_at E L remote fs -> Z.of_nat (length fs) <= PHPSPY_MAX_STACK_WALK -> world_ok w ->
  twp (trace_stack E L o fuel remote) (fun r w' => fst r = PHPSPY_OK /\ world_ok w'
    /\ c_target (w_ctx w') = c_target (w_ctx w)
    /\ snd r = (if 0 <=? opt_max_stack_depth_from_root o then Z.of_nat (length fs)
                else Z.of_nat (length (leaf_lines (opt_max_stack_depth_from_leaf o) (map snd fs))))
    /\ exists evs, w_events w' = w_events w ++ evs /\ Forall good_event evs
      /\ concat (map event_texts evs) =
        (if 0 <=? opt_max_stack_depth_from_root o
         then root_lines (opt_max_stack_depth_from_leaf o) (opt_max_stack_depth_from_root o) (map snd fs)
         else leaf_lines (opt_max_stack_depth_from_leaf o) (map snd fs))
      /\ handled evs (w_udata w) (w_udata w')) w.
Proof.
  intros Hv Hpdo Hp Hlim Hst Hmax Hw. unfold trace_stack. destruct (Z.leb_spec 0 (opt_max_stack_depth_from_root o)) as [Hr|Hr].
  - apply wpx_bind. unfold stack_collect. apply wpx_bind, wpx_modify. set (w0 := with_ctx (set_stack []) w).
    eapply wpx_mono; [apply (collect_stable WALK_FUEL remote fs w0); [done| |done|done]|].
    { unfold WALK_FUEL, PHPSPY_MAX_STACK_WALK in *. lia. }
    intros rv w1 (-> & Hw1 & Ht1 & He1 & Hu1 & Hptrs). rewrite bool_decide_false by (intros X; by apply X).
    apply wpx_bind, wpx_get. cbn [w0 with_ctx w_ctx set_stack c_stack_ptrs app] in Hptrs. rewrite Hptrs, length_map.
    destruct (elision o (Z.of_nat (length fs))) as [[ki ko] ne] eqn:Hel. rewrite Nat2Z.id. apply wpx_bind.
    eapply wpx_mono; [apply (outer_loop_stable (Z.of_nat (length fs)) ki ko ne fs 0 w1); try done|].
    { by apply (stack_at_frames remote). }
    intros rv w2 (-> & Hw2 & [[Ht2 _] (evs & He2 & Hg2 & Hl2 & Hh2)]). rewrite bool_decide_false by (intros X; by apply X).
    apply wpx_ret. split_and!; [done|done|by rewrite Ht2, Ht1|done|]. exists evs. rewrite He2, He1. split_and!; [done|done| |by rewrite Hu1 in Hh2].
    rewrite Hl2. unfold root_from, root_lines. by rewrite length_map.
  - eapply wpx_mono; [apply (leaf_loop_stable Hv Hpdo Hp WALK_FUEL remote fs 0 w); try done|].
    { unfold WALK_FUEL, PHPSPY_MAX_STACK_WALK in *. lia. }
    intros r w1 (-> & Hw1 & [[Ht1 _] (evs & He1 & Hg1 & Hl1 & Hh1)]). rewrite Z.sub_0_r in Hl1 |- *.
    split_and!; [done|done|done| |].
    + cbn [snd]. unfold leaf_lines. rewrite length_imap, !length_take, !length_map. lia.
    + exists evs. split_and!; [done|done| |done]. rewrite Hl1. unfold leaf_lines. by rewrite length_map.
Qed.

End shows.
