(* ===== verification/TraceTheorems.v ===== *)
(** * TraceTheorems: correctness of a sample

    The tracer against any target and any handler that keeps its contract, the
    records of a sample of stable memory, and the two put together with the
    trace writer. *)
From S2P Require Import Prelude CLib Layout StructsX86 Context Zval ZvalSpec ZvalTheorems Trace TraceSafe.
From S2P Require Import Fout FoutSpec FoutWrite FoutHandler FoutTheorems TraceStable.

(** ** A concrete target: one PHP frame [main] in [/a.php:7] *)

Definition demo_ex (func : Z) (prev : Z) : bytes :=
  build (sz_ex layout_80) [(o_ex_opline layout_80, enc 8 20480); (o_ex_func layout_80, enc 8 func);
    (o_ex_prev layout_80, enc 8 prev)].
Definition demo_func (name file : Z) : bytes :=
  build (sz_func layout_80) [(o_fn_type layout_80, enc 1 2); (o_fn_name layout_80, enc 8 name);
    (o_op_filename layout_80, enc 8 file)].
Definition stack_image : list (Z * bytes) := [
  (4096, build (sz_eg layout_80) [(o_eg_current layout_80, enc 8 12288)]);
  (12288, demo_ex 16384 0);
  (16384, demo_func 24576 28672);
  (20480, build (sz_op layout_80) [(o_op_lineno layout_80, enc 4 7)]);
  (24576, mem_string (cs "main")); (28672, mem_string (cs "/a.php"))].
Definition stack_env : target_env := image_env stack_image.
Definition demo_frame : php_frame := {| pf_func := Some (cs "main"); pf_class := None; pf_file := Some (cs "/a.php", 7) |}.

Definition demo_world {U} (u : U) : world U := {|
  w_reads := 0;
  w_ctx := {| c_target := {| t_pid := 9; t_executor_globals_addr := 4096; t_sapi_globals_addr := 8192;
                t_alloc_globals_addr := 0; t_basic_functions_module_addr := 0 |};
              c_frame := c_frame null_ctx; c_request := c_request null_ctx; c_buf := c_buf null_ctx;
              c_buf_len := 0; c_stack_ptrs := [] |};
  w_udata := u; w_events := [] |}.

(** ** Lemmas *)

(** What the handler makes of the records, on live user data. *)
Lemma handled_fout o os evs f f' u rs t :
  delims_ok o -> handled (EH := fout_handler o os) evs f f' -> fo_udata f = ULive u -> live o u rs t ->
  Forall good_event evs ->
  exists u' rs' t', f' = put_udata (ULive u') f /\ accepts o os rs t (concat (map event_texts evs)) rs' t'
    /\ live o u' rs' t' /\ u_fd u' = u_fd u.
Proof.
  intros Ho Hh. revert u rs t. induction Hh as [f|ev evs f f1 f' Hev Hh IH]; intros u rs t Hu Hl Hg.
  { exists u, rs, t. split_and!; [by destruct f; simpl in *; subst|constructor|done|done]. }
  apply Forall_cons in Hg as [[Hrec Hwf] Hg].
  pose proof (record_event_wp o os Ho False ev u rs t f Hu Hl Hrec Hwf) as Hw.
  apply (wpx_done _ _ _ _ _ _ Hev) in Hw as (_ & u1 & rs1 & t1 & -> & Ha1 & Hl1 & Hfd1).
  destruct (IH u1 rs1 t1 eq_refl Hl1 Hg) as (u' & rs' & t' & -> & Ha & Hl' & Hfd).
  exists u', rs', t'. split_and!; [done|by eapply accepts_app|done|congruence].
Qed.

Lemma fout_accepting o os (Ho : delims_ok o) :
  accepting fout (EH := fout_handler o os) (eh_inv (HandlerSafe := fout_safe o os Ho)).
Proof. intros ev evs f [Hrec Hwf] Hf. by apply fout_accepts_record. Qed.

(** The records of a sample that captures nothing but the stack. *)
Definition stack_lines (o : options) (fs : list php_frame) : list bytes :=
  if 0 <=? opt_max_stack_depth_from_root o
  then root_lines (opt_max_stack_depth_from_leaf o) (opt_max_stack_depth_from_root o) fs
  else leaf_lines (opt_max_stack_depth_from_leaf o) fs.

(** Options that capture only the stack and write every sample. *)
Definition stack_only (o : options) : Prop :=
  varpeek_map o = [] /\ glopeek_map o = [] /\ opt_peek_pdo o = false /\ opt_capture_req o = false
  /\ opt_capture_mem o = false /\ opt_filter_re o = None
  /\ opt_verbose_fields_ts o = false /\ opt_verbose_fields_pid o = false.

(** The end of a sample on live user data whose records fit one write. *)
Lemma sample_end_whole o os pid n k id rs rv rs' t' ws id' :
  stack_only o -> rs <> [] -> fits_whole o rs false ->
  sample_end o os pid n k id rs false rv rs' t' ws id' ->
  map wr_data ws = [join (opt_frame_delim o) rs ++ [opt_trace_delim o]] /\ (Forall full ws -> rv = PHPSPY_OK).
Proof.
  intros (_ & _ & _ & _ & _ & Hfi & Hts & Hpid) Hne Hfit He. inversion He as [|? Hsk|rs2 t2 ? ? ? ? _ _ Ha Hem Hd]; subst.
  - done.
  - unfold skips in Hsk. by rewrite Hfi in Hsk.
  - unfold end_texts in Ha. rewrite Hts, Hpid in Ha. simpl in Ha. inversion Ha; subst.
    inversion Hem as [Hw|]; subst; [|done]. split; [done|]. intros Hf. unfold write_code. by rewrite decide_True.
Qed.

Lemma sample_end_fd o os pid n k id rs t rv rs' t' ws id' :
  sample_end o os pid n k id rs t rv rs' t' ws id' -> Forall (issued os n) ws.
Proof. by destruct 1. Qed.

Lemma part_off {U} (o : options) m r (Q : Z * bool -> world U -> Prop) d w :
  Q r w -> wpx d (part o false m r) Q w.
Proof. destruct r as [rv go]. unfold part. by rewrite andb_false_r. Qed.

(** [do_trace] when only the stack is captured: begin, the stack, end. *)
Lemma do_trace_stack_wp {U} {EH : EventHandler U} E L o fuel eg (w : world U) (Q : Z -> world U -> Prop) :
  stack_only o -> reads_as E (t_executor_globals_addr (c_target (w_ctx w))) (sz_eg L) eg ->
  (forall w1, quiet w w1 -> twp (emit EvStackBegin) (fun rv w2 => rv = PHPSPY_OK /\
     twp (trace_stack E L o fuel (rd64 eg (o_eg_current L))) (fun r w3 => fst r = PHPSPY_OK /\
       twp (emit (EvStackEnd (t_pid (c_target (w_ctx w3))))) Q w3) w2) w1) ->
  twp (do_trace E L o fuel) Q w.
Proof.
  intros (_ & Hg & _ & Hr & Hm & _) Heg HQ. unfold do_trace, copy_executor_globals. apply wpx_bind, wpx_bind, wpx_get.
  eapply copy_proc_mem_reads_wp; [done|]. intros w1 Hq. rewrite bool_decide_false by (intros X; by apply X).
  apply wpx_bind. eapply wpx_mono; [by apply HQ|]. intros rv w2 [-> H2]. rewrite bool_decide_false by (intros X; by apply X).
  apply wpx_bind. eapply wpx_mono; [exact H2|]. intros [r depth] w3 [Hrv H3]. cbn [fst] in Hrv. subst r.
  rewrite Hr, Hm, Hg, bool_decide_false by (intros X; by apply X).
  apply wpx_bind, part_off, wpx_bind, part_off, wpx_bind, part_off. apply wpx_bind, wpx_get. exact H3.
Qed.

(** An event sent to the trace writer. *)
Lemma emit_fout_wp o os ev (Q : Z -> world fout -> Prop) w :
  twp (event_handler_fout o os ev) (fun rv f => Q rv {| w_reads := w_reads w; w_ctx := w_ctx w; w_udata := f;
    w_events := w_events w ++ [ev] |}) (w_udata w) ->
  twp (emit (H := fout_handler o os) ev) Q w.
Proof.
  intros H. destruct (twp_done _ _ _ H) as (rv & f & Hrun & HQ).
  eapply (emit_wp (EventHandler0 := fout_handler o os)); [exact Hrun|exact HQ].
Qed.

Lemma map_single {A B} (f : A -> B) l y : map f l = [y] -> exists x, l = [x] /\ f x = y.
Proof. destruct l as [|x [|]]; intros [=]. by exists x. Qed.

Lemma fits_whole_strip o ss t : delims_ok o -> fits_whole o ss t -> fits_whole o (map (strip_delims o) ss) t.
Proof. intros Ho. unfold fits_whole. by rewrite length_join_strip. Qed.

(** A sample of a stable stack through the trace writer: what it writes, and
    that everything is ready for the next sample. *)
Definition wrote_sample (o : options) (os : os_env) (lines : list bytes) (w : world fout) (rv : Z) (w' : world fout) : Prop :=
  fout_inv o (w_udata w') /\ ctx_ok (w_ctx w') /\ c_target (w_ctx w') = c_target (w_ctx w)
  /\ exists u u' wr, fo_udata (w_udata w) = ULive u /\ fo_udata (w_udata w') = ULive u' /\ u_fd u' = u_fd u
    /\ fo_writes (w_udata w') = fo_writes (w_udata w) ++ [wr] /\ issued os (u_fd u) wr
    /\ wr_data wr = join (opt_frame_delim o) (map (strip_delims o) lines) ++ [opt_trace_delim o]
    /\ (full wr -> rv = PHPSPY_OK).

Lemma sample_stable_wp o os E L fuel eg fs (w : world fout) (Ho : std_delims o) :
  stack_only o -> limits_ok o -> (forall c, os_realloc os c = true) ->
  world_ok (HS := fout_safe o os (std_delims_ok o Ho)) w ->
  reads_as E (t_executor_globals_addr (c_target (w_ctx w))) (sz_eg L) eg ->
  stack_at E L (rd64 eg (o_eg_current L)) fs -> Z.of_nat (length fs) <= PHPSPY_MAX_STACK_WALK ->
  let lines := stack_lines o (map snd fs) in
  lines <> [] -> fits_whole o lines false -> opt_fout_buffer_size o <= PHPSPY_FOUT_MAX_BUFFER ->
  twp (do_trace (EH := fout_handler o os) E L o fuel) (wrote_sample o os lines w) w.
Proof.
  intros Honly Hl Hos Hw Heg Hst Hmax lines Hne Hfit Hbuf. pose proof (std_delims_ok o Ho) as Hd.
  set (Hsafe := fout_safe o os (std_delims_ok o Ho)) in *. pose proof Honly as (Hv & Hg & Hpdo & _).
  destruct Hw as [(Hm & Hid & Hlive) Hctx]. destruct (fo_udata (w_udata w)) as [|u|] eqn:Hu; [done| |done].
  destruct Hlive as (rs0 & t0 & Hlive).
  eapply do_trace_stack_wp; [done|done|]. intros w1 (Hc1 & Hu1 & _).
  apply emit_fout_wp. rewrite Hu1. eapply wpx_mono; [by apply (begin_event_wp o os False u rs0 t0)|].
  intros rv2 f2 (-> & u2 & -> & Hl2 & Hfd2). split; [done|]. set (w2 := Build_world _ _ _ _).
  assert (world_ok (HS := Hsafe) w2) as Hw2.
  { split; [by eapply fout_inv_live|]. cbn. by rewrite Hc1. }
  eapply wpx_mono; [apply (trace_stack_stable (HS := Hsafe) (fout_accepting o os (std_delims_ok o Ho)) E L o fuel _ fs w2);
    try done; split; [by rewrite Hv|by rewrite Hg]|].
  intros r w3 (Hr & Hw3 & Ht3 & _ & evs & _ & Hgood & Htexts & Hh). split; [done|].
  destruct (handled_fout o os evs _ _ u2 [] false Hd Hh eq_refl Hl2 Hgood) as (u3 & rs3 & t3 & Hf3 & Ha3 & Hl3 & Hfd3).
  rewrite Htexts in Ha3. fold (stack_lines o (map snd fs)) in Ha3. fold lines in Ha3.
  apply accepts_all in Ha3 as [-> ->]; [|done|done|unfold fits_whole in Hfit; simpl; lia]. cbn [app] in Hl3.
  apply emit_fout_wp. rewrite Hf3. eapply wpx_mono; [by apply (end_event_wp o os Hd False _ u3 (map (strip_delims o) lines) false)|].
  intros rv4 f4 (u4 & rs4 & t4 & ws & id' & -> & Hl4 & Hfd4 & He).
  pose proof He as He'. pose proof He as Hid'. apply sample_end_id in Hid'; [|done].
  apply sample_end_whole in He as [Hdata Hok]; [|done|by destruct lines|by apply fits_whole_strip].
  apply map_single in Hdata as (wr & -> & Hdata). split_and!; [by eapply fout_inv_live|apply Hw3|cbn; by rewrite Ht3; cbn; rewrite Hc1|].
  exists u, u4, wr. split_and!; [done|done| |done| |done|].
  - by rewrite Hfd4, Hfd3.
  - apply sample_end_fd in He'. apply Forall_inv in He'. cbn beta in He'. by rewrite Hfd3, Hfd2 in He'.
  - intros Hfull. apply Hok. by constructor.
Qed.

(** ** Theorems *)

(** C4. Protocol and memory safety of a sample, against any target (the
    memory may be arbitrary, inconsistent or change between any two reads) and
    any handler with the contract [HandlerSafe]: [do_trace] never faults, and
    when it returns, the handler has received nothing, or a [STACK_BEGIN],
    well-formed records whose frame depths strictly increase below 1024, and
    then possibly [STACK_END]; its invariant and the sizes of the context's
    buffers are intact.  (Request strings and globals are excluded: see the
    theorems on them.) *)
Theorem do_trace_protocol {U} {EH : EventHandler U} {HS : HandlerSafe U} E L o fuel (w : world U) :
  peeks_ok o -> limits_ok o -> (opt_capture_req o = true -> no_request_fields o) -> glopeek_map o = [] ->
  - 2 ^ 31 <= t_pid (c_target (w_ctx w)) < 2 ^ 31 -> world_ok w ->
  match do_trace E L o fuel w with
  | Done (_, w') => world_ok w' /\ protocol w w' /\ c_target (w_ctx w') = c_target (w_ctx w)
  | Fault _ => False
  | Diverge => True
  end.
Proof.
  intros Hp Hl Hr Hg Hpid Hw.
  pose proof (do_trace_wp E L o fuel True w ltac:(done) ltac:(done) Hp Hl Hr Hg Hpid Hw) as H. exact H.
Qed.

(** C15. Termination: without variable and PDO peeking a sample always
    returns, whatever the target's memory holds: a cyclic or endless chain of
    frames is cut at 1024. *)
Theorem do_trace_returns {U} {EH : EventHandler U} {HS : HandlerSafe U} E L o fuel (w : world U) :
  varpeek_map o = [] -> opt_peek_pdo o = false -> glopeek_map o = [] -> limits_ok o ->
  (opt_capture_req o = true -> no_request_fields o) ->
  - 2 ^ 31 <= t_pid (c_target (w_ctx w)) < 2 ^ 31 -> world_ok w ->
  exists rv w', do_trace E L o fuel w = Done (rv, w') /\ world_ok w'.
Proof.
  intros Hv Hpdo Hg Hl Hr Hpid Hw.
  destruct (twp_done (do_trace E L o fuel) (fun _ w' => world_ok w' /\ protocol w w'
    /\ c_target (w_ctx w') = c_target (w_ctx w)) w) as (rv & w' & Hrun & Hw' & _); [|by exists rv, w'].
  apply do_trace_wp; try done; [by rewrite Hpdo|].
  split; [by rewrite Hv|by rewrite Hg].
Qed.

(** C6. The stack walk shows the call stack: on stable memory that holds a
    stack of at most 1024 frames, [trace_stack] returns and sends exactly one
    record per selected frame, in order, with its depth, class, function, file
    and line; with [-N] the elided frames are replaced by one marker with their
    number.  The [int] arithmetic of the limits may wrap without changing this. *)
Theorem trace_stack_shows {U} {EH : EventHandler U} {HS : HandlerSafe U} E L o fuel remote fs (w : world U) :
  accepting U eh_inv -> varpeek_map o = [] -> opt_peek_pdo o = false -> peeks_ok o -> limits_ok o ->
  stack_at E L remote fs -> Z.of_nat (length fs) <= PHPSPY_MAX_STACK_WALK -> world_ok w ->
  exists depth w' evs, trace_stack E L o fuel remote w = Done (PHPSPY_OK, depth, w')
    /\ w_events w' = w_events w ++ evs
    /\ concat (map event_texts evs) = stack_lines o (map snd fs) /\ world_ok w'.
Proof.
  intros Hacc Hv Hpdo Hp Hl Hst Hmax Hw.
  destruct (twp_done _ _ _ (trace_stack_stable Hacc E L o fuel remote fs w Hv Hpdo Hp Hl Hst Hmax Hw))
    as ([rv depth] & w' & Hrun & Hrv & Hw' & _ & _ & evs & He & _ & Ht & _).
  cbn [fst] in Hrv. subst rv. exists depth, w', evs. done.
Qed.

(** C3. End to end: [do_trace] with the trace writer, on stable memory whose
    records fit one write, issues exactly one [writev] with one line per
    selected frame of the stack and the trace delimiter, and reports success if
    all of it was written. *)
Theorem sample_end_to_end o os E L fuel eg fs u (w : world fout) (Ho : std_delims o) :
  stack_only o -> limits_ok o -> (forall c, os_realloc os c = true) ->
  world_ok (HS := fout_safe o os (std_delims_ok o Ho)) w -> fo_udata (w_udata w) = ULive u ->
  reads_as E (t_executor_globals_addr (c_target (w_ctx w))) (sz_eg L) eg ->
  stack_at E L (rd64 eg (o_eg_current L)) fs -> Z.of_nat (length fs) <= PHPSPY_MAX_STACK_WALK ->
  let lines := stack_lines o (map snd fs) in
  lines <> [] -> fits_whole o lines false -> opt_fout_buffer_size o <= PHPSPY_FOUT_MAX_BUFFER ->
  exists rv w' wr, do_trace (EH := fout_handler o os) E L o fuel w = Done (rv, w')
    /\ fo_writes (w_udata w') = fo_writes (w_udata w) ++ [wr] /\ wr_fd wr = u_fd u
    /\ wr_data wr = join (opt_frame_delim o) (map (strip_delims o) lines) ++ [opt_trace_delim o]
    /\ (full wr -> rv = PHPSPY_OK).
Proof.
  intros Honly Hl Hos Hw Hu Heg Hst Hmax lines Hne Hfit Hbuf.
  destruct (twp_done _ _ _ (sample_stable_wp o os E L fuel eg fs w Ho Honly Hl Hos Hw Heg Hst Hmax Hne Hfit Hbuf))
    as (rv & w' & Hrun & _ & _ & _ & u0 & u' & wr & Hu0 & _ & _ & Hwr). rewrite Hu in Hu0. injection Hu0 as <-.
  destruct Hwr as (? & [? _] & ? & ?). by exists rv, w', wr.
Qed.

(** C40. Request strings are copied as 256 raw bytes: when the request URI in
    the target has no NUL within 256 bytes, sending it to the trace writer reads
    past the field. *)
Theorem request_uri_overread o os E L sapi bs u (w : world fout) :
  opt_capture_req_qstring o = false -> opt_capture_req_cookie o = false ->
  opt_capture_req_path o = false -> opt_capture_req_uri o = true ->
  reads_as E (t_sapi_globals_addr (c_target (w_ctx w))) (sz_sapi L) sapi ->
  reads_as E (rd64 sapi (o_sapi_uri L)) 256 bs -> NUL ∉ bs ->
  ctx_ok (w_ctx w) -> fo_udata (w_udata w) = ULive u ->
  trace_request_info (EH := fout_handler o os) E L o w = Fault OverRead.
Proof.
  intros Hq Hc Hp Hu Hs Huri Hn (_ & (L1 & L2 & L3 & L4) & _) Hlive. unfold PHPSPY_STR_SIZE in *.
  unfold trace_request_info. rewrite Hq, Hc, Hp, Hu. rewrite (bind_done get _ _ _ _ eq_refl).
  destruct (copy_proc_mem_reads E _ _ sapi w Hs) as (w1 & H1 & Hc1 & Hu1 & _). rewrite (bind_done _ _ _ _ _ H1).
  rewrite bool_decide_false by (intros X; by apply X). cbv zeta.
  assert (forall (v : world fout) ptr b, length b = 256%nat ->
    copy_sapi_field E false ptr b v = Done ((PHPSPY_OK, poke b 0 ["-"%char; NUL]), v)) as Hoff.
  { intros v ptr b Hb. unfold copy_sapi_field, store. cbn [andb]. rewrite bool_decide_true by (cbn [length]; lia). done. }
  rewrite (bind_done _ _ _ _ _ (Hoff w1 _ _ L3)). rewrite (bind_done _ _ _ _ _ eq_refl).
  rewrite bool_decide_false by (intros X; by apply X).
  rewrite (bind_done _ _ _ _ _ (Hoff _ _ _ L4)). rewrite (bind_done _ _ _ _ _ eq_refl).
  rewrite bool_decide_false by (intros X; by apply X). set (w3 := with_ctx _ (with_ctx _ w1)).
  destruct (copy_proc_mem_reads E _ _ bs w3 Huri) as (w4 & H4 & Hc4 & Hu4 & _). destruct Huri as (Hp0 & Hlen & _).
  assert (copy_sapi_field E true (rd64 sapi (o_sapi_uri L)) (r_uri (c_request (w_ctx w))) w3 = Done ((PHPSPY_OK, bs), w4)) as Hf.
  { unfold copy_sapi_field. rewrite (proj2 (Z.eqb_neq _ _)) by done. cbn [andb negb]. rewrite (bind_done _ _ _ _ _ H4).
    unfold store. rewrite bool_decide_true by lia. rewrite (bind_done _ _ _ _ _ eq_refl). unfold poke.
    rewrite drop_ge, app_nil_r by lia. done. }
  rewrite (bind_done _ _ _ _ _ Hf). rewrite (bind_done _ _ _ _ _ eq_refl).
  rewrite bool_decide_false by (intros X; by apply X).
  rewrite (bind_done _ _ _ _ _ (Hoff _ _ _ L2)). rewrite (bind_done _ _ _ _ _ eq_refl).
  rewrite bool_decide_false by (intros X; by apply X). rewrite (bind_done _ _ _ _ _ eq_refl).
  unfold emit. set (f := w_udata _). assert (fo_udata f = ULive u) as Hf' by (subst f; cbn; rewrite Hu4; cbn; by rewrite Hu1).
  change (eh_call ?e f) with (event_handler_fout o os e f). unfold event_handler_fout.
  rewrite (bind_done get _ _ _ _ eq_refl), Hf'. rewrite (bind_fault _ _ _ OverRead); [done|].
  cbn [fout_event r_uri]. apply bind_fault. unfold c_str, terminated. by rewrite bool_decide_false.
Qed.

(** PDO arguments are read from frame slot 5 whatever the layout says:
    if that slot holds no string, [PDO::query] and [PDO::exec] are traced
    without their SQL, also on PHP 7.0 where the first argument is in slot 6. *)
Theorem trace_pdo_query_slot {U} {EH : EventHandler U} E L entry ex remote zv (w : world U) :
  reads_as E (padd remote (sz_zval L * 5)) (sz_zval L) zv -> zv_type L zv <> PHPSPY_ZVAL_TYPE_STRING ->
  exists w', trace_pdo_query E L entry ex remote w = Done (1, w') /\ w_events w' = w_events w.
Proof.
  intros Hr Hty. unfold trace_pdo_query. cbv zeta. case_match; [by exists w|].
  destruct (copy_proc_mem_reads E _ _ zv w Hr) as (w1 & H1 & _ & _ & He). exists w1. split; [|done].
  rewrite (bind_done _ _ _ _ _ H1). rewrite bool_decide_false by (intros X; by apply X).
  unfold zv_type in Hty. by rewrite (proj2 (Z.eqb_neq _ _)) by done.
Qed.

(** ** Witnesses *)

Definition demo_fout : world fout := demo_world (ready default_options).
Definition demo_safe : @HandlerSafe fout (fout_handler default_options good_os) :=
  fout_safe default_options good_os (std_delims_ok default_options default_std).

Lemma null_ctx_ok : ctx_ok null_ctx.
Proof. by repeat split. Qed.

Lemma demo_world_ok : world_ok (HS := demo_safe) demo_fout.
Proof. split; [apply ready_inv; by vm_compute|]. apply null_ctx_ok. Qed.

Lemma default_limits : limits_ok default_options.
Proof. by vm_compute. Qed.

Lemma default_peeks : peeks_ok default_options.
Proof. split; constructor. Qed.

Lemma default_stack_only : stack_only default_options.
Proof. by split_and!. Qed.

Lemma demo_stack : stack_at stack_env layout_80 12288 [(12288, demo_frame)].
Proof.
  apply Stack_cons with 0; [done| |constructor].
  exists (demo_ex 16384 0), (demo_func 24576 28672). split; [solve_read|].
  split; [solve_read|]. split; [by vm_compute|]. split; [solve_read|]. split; [|split; [by vm_compute|]].
  - split_and!; [by vm_compute| |by apply (bool_decide_unpack _)]. eexists. split_and!; [solve_read|by vm_compute|].
    intros n Hn. do 5 (destruct n as [|n]; [solve_read|]). simpl in Hn. lia.
  - split_and!; [by vm_compute| |by apply (bool_decide_unpack _)|].
    + eexists. split_and!; [solve_read|by vm_compute|].
      intros n Hn. do 7 (destruct n as [|n]; [solve_read|]). simpl in Hn. lia.
    + eexists. split; [solve_read|by vm_compute].
Qed.

Lemma do_trace_protocol_witness :
  match do_trace (EH := fout_handler default_options good_os) stack_env layout_80 default_options 3 demo_fout with
  | Done (_, w') => world_ok (HS := demo_safe) w' /\ protocol demo_fout w'
      /\ c_target (w_ctx w') = c_target (w_ctx demo_fout)
  | Fault _ => False
  | Diverge => True
  end.
Proof.
  apply (do_trace_protocol (HS := demo_safe) stack_env layout_80 default_options 3 demo_fout default_peeks default_limits);
    [discriminate|reflexivity|split; [discriminate|reflexivity]|exact demo_world_ok].
Defined.

Lemma do_trace_returns_witness : exists rv w',
  do_trace (EH := fout_handler default_options good_os) stack_env layout_80 default_options 3 demo_fout = Done (rv, w')
  /\ world_ok (HS := demo_safe) w'.
Proof.
  apply (do_trace_returns (HS := demo_safe) stack_env layout_80 default_options 3 demo_fout);
    [reflexivity|reflexivity|reflexivity|exact default_limits|discriminate|split; [discriminate|reflexivity]|exact demo_world_ok].
Defined.

Lemma trace_stack_shows_witness : exists depth w' evs,
  trace_stack (EH := fout_handler default_options good_os) stack_env layout_80 default_options 3 12288 demo_fout
    = Done (PHPSPY_OK, depth, w')
  /\ w_events w' = [] ++ evs /\ concat (map event_texts evs) = [cs "0 main /a.php:7"]
  /\ world_ok (HS := demo_safe) w'.
Proof.
  apply (trace_stack_shows (HS := demo_safe) stack_env layout_80 default_options 3 12288 [(12288, demo_frame)] demo_fout);
    [apply fout_accepting|reflexivity|reflexivity|exact default_peeks|exact default_limits|exact demo_stack|discriminate|
     exact demo_world_ok].
Defined.

Lemma sample_end_to_end_witness : exists rv w' wr,
  do_trace (EH := fout_handler default_options good_os) stack_env layout_80 default_options 3 demo_fout = Done (rv, w')
  /\ fo_writes (w_udata w') = [] ++ [wr] /\ wr_fd wr = 4
  /\ wr_data wr = cs "0 main /a.php:7" ++ [NL; NL] /\ (full wr -> rv = PHPSPY_OK).
Proof.
  apply (sample_end_to_end default_options good_os stack_env layout_80 3
    (build (sz_eg layout_80) [(o_eg_current layout_80, enc 8 12288)]) [(12288, demo_frame)]
    (fresh_udata default_options 4 true) demo_fout default_std default_stack_only default_limits).
  - reflexivity.
  - exact demo_world_ok.
  - reflexivity.
  - solve_read.
  - exact demo_stack.
  - discriminate.
  - vm_compute. discriminate.
  - vm_compute. discriminate.
  - vm_compute. discriminate.
Defined.

Definition uri_options : options := {|
  opt_pid := 9; opt_pgrep_args := None; opt_num_workers := 16; opt_frame_delim := NL; opt_trace_delim := NL;
  opt_time_limit_ms := 0; opt_path_output := cs "-"; opt_filter_re := None; opt_filter_negate := false;
  opt_verbose_fields_pid := false; opt_verbose_fields_ts := false; opt_fout_buffer_size := 4096;
  opt_libname_awk_patt := []; opt_quiet := false; opt_peek_pdo := false; opt_top_mode := false; opt_sleep_ns := 10101010;
  opt_executor_globals_addr := 0; opt_sapi_globals_addr := 0; opt_capture_req := true;
  opt_capture_req_qstring := false; opt_capture_req_cookie := false; opt_capture_req_uri := true;
  opt_capture_req_path := false; opt_capture_mem := false; opt_max_stack_depth_from_leaf := -1;
  opt_max_stack_depth_from_root := -1; opt_trace_limit := 0; opt_path_child_out := []; opt_path_child_err := [];
  opt_phpv := cs "auto"; opt_pause := false; opt_event_handler := HandlerFout; opt_event_handler_opts := None;
  opt_continue_on_error := false; varpeek_map := []; glopeek_map := [] |}.

(** A URI of more than 255 bytes. *)
Definition uri_image : list (Z * bytes) := [
  (8192, build (sz_sapi layout_80) [(o_sapi_uri layout_80, enc 8 16384)]); (16384, repeat "/"%char 300)].

Lemma request_uri_overread_witness :
  trace_request_info (EH := fout_handler uri_options good_os) (image_env uri_image) layout_80 uri_options
    (demo_world (ready uri_options)) = Fault OverRead.
Proof.
  apply (request_uri_overread uri_options good_os (image_env uri_image) layout_80
    (build (sz_sapi layout_80) [(o_sapi_uri layout_80, enc 8 16384)]) (repeat "/"%char 256)
    (fresh_udata uri_options 4 true) (demo_world (ready uri_options)));
    [reflexivity|reflexivity|reflexivity|reflexivity|solve_read|solve_read| |exact null_ctx_ok|reflexivity].
  apply repeat_nn. discriminate.
Defined.

Definition layout_70 : zlayout := default no_layout (mk_layout php_structs_70_x86 70).

(** A PHP 7.0 frame whose first argument, in slot 6, is a string. *)
Definition pdo_image : list (Z * bytes) :=
  [(4096, repeat NUL 96 ++ mem_zval 6 16384 0); (16384, mem_string (cs "SELECT 1"))].

Lemma trace_pdo_query_slot_witness :
  frame_slot layout_70 = 6 /\ reads_as (image_env pdo_image) (4096 + 16 * frame_slot layout_70) 16 (mem_zval 6 16384 0)
  /\ exists w', trace_pdo_query (EH := fout_handler default_options good_os) (image_env pdo_image) layout_70 (cs "PDO::query")
       (build (sz_ex layout_70) [(o_ex_this layout_70 + o_zv_next layout_70, enc 4 1)]) 4096 demo_fout = Done (1, w')
     /\ w_events w' = [].
Proof.
  split; [by vm_compute|]. split; [solve_read|].
  apply (trace_pdo_query_slot (EH := fout_handler default_options good_os) (image_env pdo_image) layout_70 _ _ 4096
    (repeat NUL 16) demo_fout); [solve_read|by vm_compute].
Defined.
