(* ===== verification/AddrObjdump.v ===== *)
(** * AddrObjdump: finding symbol addresses (addr_objdump.c)

    Shell quoting, reading a line from a command, and the three commands whose
    results add up to the address of a symbol.  The shell ([popen]) and the file
    system ([access]) are parameters. *)
From S2P Require Import Prelude CLib Context.

Definition QUOTE : ascii := "039"%char.
Definition BACKSLASH : ascii := "\"%char.

(** ** Quoting *)

(** Appends to the bytes written so far to an object of [size] bytes. *)
Definition push {W} (size : nat) (out bs : bytes) : M W bytes :=
  if bool_decide (length out + length bs <= size)%nat then mret (out ++ bs) else raise OutOfBounds.

Fixpoint shell_escape_loop {W} (size : nat) (arg out : bytes) : M W (Z * bytes) :=
  match arg with
  | [] =>
    if bool_decide (size - length out < 2)%nat then mret (1, out) else
    out ← push size out [QUOTE; NUL];
    mret (0, out)
  | c :: arg' =>
    if bool_decide (c = QUOTE) then
      if bool_decide (size - length out < 4)%nat then mret (1, out) else
      out ← push size out [QUOTE; BACKSLASH; QUOTE; QUOTE];
      shell_escape_loop size arg' out
    else
      if bool_decide (size - length out < 1)%nat then mret (1, out) else
      out ← push size out [c];
      shell_escape_loop size arg' out
  end.

(** The code and the bytes written to [buf]. *)
Definition shell_escape {W} (arg : bytes) (buf_size : nat) : M W (Z * bytes) :=
  if bool_decide (buf_size < 1)%nat then raise AssertFailed else
  out ← push buf_size [] [QUOTE];
  shell_escape_loop buf_size (cstr arg) out.

(** ** Commands

    The state is the list of shell commands run so far.  The environment
    answers a command with its standard output ([None] when [popen] fails); the
    answer may depend on what ran before. *)

Abbreviation shlog := (list bytes).

Record shell_env := { sh : shlog -> bytes -> option bytes; sh_access : shlog -> bytes -> bool }.

(** [if (call != 0) return 1;] for a call with a result. *)
Notation "x '←?' m ';' k" := (m ≫= fun r => match r with None => mret None | Some x => k end)
  (at level 20, m at level 100, k at level 200, only parsing).

(** [fgets] with room for [n] characters. *)
Fixpoint fgets (n : nat) (s : bytes) : bytes :=
  match n, s with
  | S n', c :: s' => if decide (c = NL) then [c] else c :: fgets n' s'
  | _, _ => []
  end.

(** [while (buf_len > 0 && buf[buf_len-1] == '\n') --buf_len;] *)
Fixpoint drop_newlines (s : bytes) : bytes :=
  match s with
  | [] => []
  | c :: s' => match drop_newlines s' with
               | [] => if decide (c = NL) then [] else [c]
               | r => c :: r
               end
  end.

Section commands.
Context (V : shell_env) (quiet : bool) (patt : bytes).

Definition popen (cmd : bytes) : M shlog (option bytes) := fun h => Done (sh V h cmd, h ++ [cmd]).
Definition access (path : bytes) : M shlog bool := fun h => Done (sh_access V h path, h).

(** [None] for a non-zero code. *)
Definition popen_read_line (cmd : bytes) : M shlog (option bytes) :=
  if bool_decide (PHPSPY_STR_SIZE <= length cmd)%nat then mret None else
  let cmd_quiet := cs "{ " ++ cmd ++ cs "; } 2>/dev/null" in
  if quiet && bool_decide (PHPSPY_STR_SIZE <= length cmd_quiet)%nat then mret None else
  out ←? popen (if quiet then cmd_quiet else cmd);
  let buf := cstr (fgets (PHPSPY_STR_SIZE - 2) out) in
  match drop_newlines buf with
  | [] => mret None
  | line => mret (Some line)
  end.

(** [shell_escape] into an array of [PHPSPY_STR_SIZE], read as a C string. *)
Definition escaped (arg : bytes) : M shlog (option bytes) :=
  '(rv, out) ← shell_escape arg PHPSPY_STR_SIZE;
  mret (if rv =? 0 then Some (cstr out) else None).

Record addr_memo := { php_bin_path : bytes; php_bin_path_root : bytes; php_base_addr : Z }.

Definition bin_path_cmd (libname : bytes) (pid : Z) : bytes :=
  cs "awk -ve=1 -vp=" ++ libname ++ cs " '$0~p{print $NF; e=0; exit} END{exit e}' /proc/" ++ fmt_d pid
  ++ cs "/maps || readlink /proc/" ++ fmt_d pid ++ cs "/exe".

(** Whether it succeeded, [path_root] and [path]. *)
Definition get_php_bin_path (pid : Z) (path_root path : bytes) : M shlog (bool * bytes * bytes) :=
  libname ← escaped patt;
  match libname with
  | None => mret (false, path_root, path)
  | Some libname =>
    buf ← popen_read_line (bin_path_cmd libname pid);
    match buf with
    | None => mret (false, path_root, path)
    | Some buf =>
      let text := cs "/proc/" ++ fmt_d pid ++ cs "/root/" ++ buf in
      if bool_decide (PHPSPY_STR_SIZE <= length text)%nat
      then mret (false, snprintf_cstr PHPSPY_STR_SIZE text, path)
      else
        found ← access text;
        mret (true, (if found : bool then text else cs "/proc/" ++ fmt_d pid ++ cs "/exe"), buf)
    end
  end.

(** The commands are built with a double quote character written out. *)
Definition DQUOTE : ascii := "034"%char.

Definition start_addr_cmd (arg : bytes) (pid : Z) : bytes :=
  cs "awk -vp=" ++ arg ++ cs " '$NF==p{if(index($2," ++ DQUOTE :: "x"%char :: DQUOTE :: cs ")){print $1;exit}}' /proc/"
  ++ fmt_d pid ++ cs "/maps".

Definition virt_addr_cmd (arg : bytes) : bytes :=
  cs "objdump -p " ++ arg ++ cs " | awk -va=0 '$1==" ++ DQUOTE :: cs "LOAD" ++ DQUOTE :: cs "{a=$5} $5=="
  ++ DQUOTE :: cs "flags" ++ DQUOTE :: cs "{if(index($6," ++ DQUOTE :: "x"%char :: DQUOTE :: cs ")){print a;exit}}'".

Definition get_php_base_addr (pid : Z) (path_root path : bytes) : M shlog (option Z) :=
  arg ←? escaped path;
  line ←? popen_read_line (start_addr_cmd arg pid);
  let start_addr := fst (strtoull line 16) in
  arg ←? escaped path_root;
  line ←? popen_read_line (virt_addr_cmd arg);
  let virt_addr := fst (strtoull line 16) in
  mret (Some (u64 (start_addr - virt_addr))).

Definition symbol_cmd (arg symbol : bytes) : bytes :=
  cs "objdump -Tt " ++ arg ++ cs " | awk '/ " ++ symbol ++ cs "$/{print $1; exit}'".

Definition get_symbol_offset (path_root symbol : bytes) : M shlog (option Z) :=
  arg ←? escaped path_root;
  line ←? popen_read_line (symbol_cmd arg symbol);
  mret (Some (fst (strtoull line 16))).

(** The address, if found, and the memo afterwards. *)
Definition get_symbol_addr (memo : addr_memo) (pid : Z) (symbol : bytes) : M shlog (option Z * addr_memo) :=
  '(ok, root, path) ←
    match php_bin_path memo with
    | [] => get_php_bin_path pid (php_bin_path_root memo) (php_bin_path memo)
    | path => mret (true, php_bin_path_root memo, path)
    end;
  let memo := {| php_bin_path := path; php_bin_path_root := root; php_base_addr := php_base_addr memo |} in
  if negb ok then mret (None, memo) else
  base ← (if php_base_addr memo =? 0 then get_php_base_addr pid root path else mret (Some (php_base_addr memo)));
  match base with
  | None => mret (None, memo)
  | Some base =>
    let memo := {| php_bin_path := path; php_bin_path_root := root; php_base_addr := base |} in
    offset ← get_symbol_offset root symbol;
    match offset with
    | None => mret (None, memo)
    | Some offset => mret (Some (u64 (base + offset)), memo)
    end
  end.

End commands.

(** ** Specification of the quoting *)

(** How a POSIX shell reads a word without unquoted special characters: [q]
    says whether a single quote is open. *)
Fixpoint sh_word (q : bool) (s : bytes) : option bytes :=
  match q, s with
  | false, [] => Some []
  | true, [] => None
  | true, c :: r => if decide (c = QUOTE) then sh_word false r else cons c <$> sh_word true r
  | false, c :: r =>
    if decide (c = QUOTE) then sh_word true r
    else if decide (c = BACKSLASH) then
      match r with
      | e :: r' => cons e <$> sh_word false r'
      | [] => None
      end
    else None (* an unquoted character *)
  end.

Definition quote_char (c : ascii) : bytes :=
  if decide (c = QUOTE) then [QUOTE; BACKSLASH; QUOTE; QUOTE] else [c].
Definition quoted (arg : bytes) : bytes := QUOTE :: concat (map quote_char arg) ++ [QUOTE].

(** ** Lemmas *)

Lemma push_ok {W} d size out bs (Q : bytes -> W -> Prop) w :
  (length out + length bs <= size)%nat -> Q (out ++ bs) w -> wpx d (push size out bs) Q w.
Proof. intros. unfold push. rewrite bool_decide_true by done. by apply wpx_ret. Qed.

Lemma shell_escape_loop_wp {W} d size arg out (w : W) :
  (length out <= size)%nat ->
  wpx d (shell_escape_loop size arg out) (fun r w' => w' = w /\
    (if decide (length (out ++ concat (map quote_char arg)) + 2 <= size)%nat
     then r = (0, out ++ concat (map quote_char arg) ++ [QUOTE; NUL])
     else fst r = 1 /\ (length (snd r) <= size)%nat)) w.
Proof.
  revert out. induction arg as [|c arg IH]; intros out Hout; cbn [shell_escape_loop map concat].
  - rewrite app_nil_r. case_bool_decide.
    + apply wpx_ret. split; [done|]. rewrite decide_False by lia. done.
    + apply wpx_bind, push_ok; [cbn [length]; lia|]. apply wpx_ret. split; [done|]. by rewrite decide_True by lia.
  - assert (quote_char c = if bool_decide (c = QUOTE) then [QUOTE; BACKSLASH; QUOTE; QUOTE] else [c]) as ->
      by (unfold quote_char; case_decide; case_bool_decide; done).
    case_bool_decide as Hc; case_bool_decide.
    1,3: apply wpx_ret; split; [done|]; rewrite decide_False; [done|]; rewrite !length_app; cbn [length]; lia.
    all: apply wpx_bind, push_ok; [cbn [length]; lia|].
    all: eapply wpx_mono; [apply IH; rewrite length_app; cbn [length]; lia|]; intros r w' Hr.
    all: rewrite <-?app_assoc in Hr; rewrite <-?app_assoc; exact Hr.
Qed.

Lemma sh_word_quoted_tail arg : sh_word true (concat (map quote_char arg) ++ [QUOTE]) = Some arg.
Proof.
  induction arg as [|c arg IH]; [done|]. cbn [map concat]. unfold quote_char at 1. destruct (decide (c = QUOTE)) as [->|Hc].
  - cbn. by rewrite IH.
  - cbn. rewrite decide_False by done. by rewrite IH.
Qed.

Lemma shell_escape_wp {W} d arg size (w : W) :
  NUL ∉ arg -> (1 <= size)%nat ->
  wpx d (shell_escape arg size) (fun r w' => w' = w /\
    (if decide (length (quoted arg) + 1 <= size)%nat then r = (0, quoted arg ++ [NUL])
     else fst r = 1 /\ (length (snd r) <= size)%nat)) w.
Proof.
  intros Hn Hs. unfold shell_escape. rewrite bool_decide_false by lia.
  apply wpx_bind, push_ok; [cbn [length]; lia|]. rewrite cstr_id by done.
  eapply wpx_mono; [apply shell_escape_loop_wp; cbn [app length]; lia|].
  intros r w' [-> Hr]. split; [done|].
  assert (length (quoted arg) = length ([QUOTE] ++ concat (map quote_char arg)) + 1)%nat as Hq.
  { unfold quoted. cbn [length app]. rewrite length_app. cbn [length]. lia. }
  cbn [app] in Hr, Hq. destruct (decide (_ + 2 <= _)%nat); [rewrite decide_True by lia|rewrite decide_False by lia; done].
  rewrite Hr. unfold quoted. cbn [app]. by rewrite <-app_assoc.
Qed.

Lemma quote_char_nn c : c <> NUL -> NUL ∉ quote_char c.
Proof. intros Hc. unfold quote_char. case_decide; repeat (apply cs_nn_cons; [done|]); apply nn_nil. Qed.

Lemma quoted_nn arg : NUL ∉ arg -> NUL ∉ quoted arg.
Proof.
  intros Hn. unfold quoted. apply cs_nn_cons; [done|]. apply cs_nn_app; [|apply cs_nn_cons; [done|apply nn_nil]].
  induction arg as [|c arg IH]; [apply nn_nil|]. cbn [map concat].
  apply cs_nn_app; [apply quote_char_nn|apply IH]; set_solver.
Qed.

Lemma escaped_fits arg h : NUL ∉ arg -> (length (quoted arg) < PHPSPY_STR_SIZE)%nat -> escaped arg h = Done (Some (quoted arg), h).
Proof.
  intros Hn Hl. unfold escaped.
  destruct (twp_done _ _ _ (shell_escape_wp False arg PHPSPY_STR_SIZE h Hn ltac:(unfold PHPSPY_STR_SIZE; lia)))
    as ([rv out] & w' & Hrun & -> & Hr).
  rewrite decide_True in Hr by lia. assert (rv = 0 /\ out = quoted arg ++ [NUL]) as [-> ->] by by inversion Hr.
  rewrite (bind_done _ _ _ _ _ Hrun). cbn [Z.eqb]. by rewrite cstr_app_nul by by apply quoted_nn.
Qed.

Lemma fgets_line n line : NL ∉ line -> (length line < n)%nat -> fgets n (line ++ [NL]) = line ++ [NL].
Proof.
  revert n. induction line as [|c line IH]; intros [|n] Hn Hl; cbn [length] in Hl; try lia; cbn.
  - by try rewrite decide_True by done.
  - rewrite decide_False by set_solver. rewrite IH; [done|set_solver|lia].
Qed.

Lemma drop_newlines_id line : NL ∉ line -> drop_newlines line = line.
Proof.
  induction line as [|c line IH]; intros Hn; [done|]. cbn. rewrite IH by set_solver.
  destruct line; [|done]. by rewrite decide_False by set_solver.
Qed.

Lemma drop_newlines_snoc line : drop_newlines (line ++ [NL]) = drop_newlines line.
Proof. induction line as [|c line IH]; cbn; [by try rewrite decide_True by done|by rewrite IH]. Qed.

Lemma drop_newlines_nn s : NUL ∉ s -> NUL ∉ drop_newlines s.
Proof.
  induction s as [|c s IH]; cbn; [done|]. intros Hn. specialize (IH ltac:(set_solver)).
  destruct (drop_newlines s); [case_decide|]; set_solver.
Qed.

Section lookup.
Context (V : shell_env) (quiet : bool) (patt : bytes) (pid : Z).

(** The command a call of [popen_read_line] really runs. *)
Definition actual (cmd : bytes) : bytes := if quiet then cs "{ " ++ cmd ++ cs "; } 2>/dev/null" else cmd.

(** A command that fits its buffers and prints one line. *)
Definition prints_line (cmd line : bytes) : Prop :=
  (length (actual cmd) < PHPSPY_STR_SIZE)%nat /\ line <> [] /\ (NUL ∉ line) /\ (NL ∉ line)
  /\ (length line < 254)%nat /\ forall h, sh V h (actual cmd) = Some (line ++ [NL]).

Lemma popen_read_line_prints cmd line h :
  prints_line cmd line -> popen_read_line V quiet cmd h = Done (Some line, h ++ [actual cmd]).
Proof.
  intros (Hl & Hne & Hn & Hnl & Hlen & Hsh). unfold popen_read_line.
  assert (length cmd <= length (actual cmd))%nat by (unfold actual; destruct quiet; [rewrite !length_app; lia|done]).
  rewrite bool_decide_false by lia.
  replace (quiet && _) with false by (clear -Hl; unfold actual in Hl; destruct quiet; cbv match in Hl; [symmetry; apply bool_decide_false; lia|done]).
  rewrite (bind_done _ _ h (Some (line ++ [NL])) (h ++ [actual cmd])) by (unfold popen; fold (actual cmd); by rewrite Hsh).
  rewrite fgets_line by (done || (unfold PHPSPY_STR_SIZE; lia)).
  rewrite cstr_id by (apply cs_nn_app; [done|by apply cs_nn_cons; [|apply nn_nil]]).
  rewrite drop_newlines_snoc, drop_newlines_id by done. by destruct line.
Qed.

Lemma popen_read_line_done cmd h :
  exists r h', popen_read_line V quiet cmd h = Done (r, h') /\ (length h' <= length h + 1)%nat /\ r <> Some []
    /\ forall line, r = Some line -> NUL ∉ line.
Proof.
  unfold popen_read_line. case_bool_decide; [eexists None, h; split_and!; [done|lia|done|done]|].
  destruct (quiet && _); [eexists None, h; split_and!; [done|lia|done|done]|].
  unfold mbind, M_bind, popen. destruct (sh V h _) as [out|].
  - pose proof (drop_newlines_nn _ (cstr_no_nul (fgets (PHPSPY_STR_SIZE - 2) out))) as Hn.
    destruct (drop_newlines _) eqn:?; eexists _, _; (split; [done|]); rewrite length_app; cbn; split_and!;
      first [lia | done | by intros ? [= <-]].
  - eexists None, _. split; [done|]. rewrite length_app. cbn. split_and!; [lia|done|done].
Qed.

(** [opt_libname_awk_patt] and paths are C strings. *)
Lemma escaped_done arg h : NUL ∉ arg -> exists r, escaped arg h = Done (r, h).
Proof.
  intros Hn. unfold escaped.
  destruct (twp_done _ _ _ (shell_escape_wp False arg PHPSPY_STR_SIZE h Hn ltac:(unfold PHPSPY_STR_SIZE; lia)))
    as ([rv out] & w' & Hrun & -> & Hr).
  rewrite (bind_done _ _ _ _ _ Hrun). eexists. done.
Qed.

Lemma symbol_offset_done root symbol h : NUL ∉ root ->
  exists r h', get_symbol_offset V quiet root symbol h = Done (r, h') /\ (length h' <= length h + 1)%nat.
Proof.
  intros Hn. unfold get_symbol_offset. destruct (escaped_done root h Hn) as [[arg|] He]; rewrite (bind_done _ _ _ _ _ He).
  - destruct (popen_read_line_done (symbol_cmd arg symbol) h) as (r & h' & Hp & Hl & _ & _).
    rewrite (bind_done _ _ _ _ _ Hp). destruct r; eexists _, h'; done.
  - eexists None, h. split; [done|lia].
Qed.

(** The memo of a successful lookup names a binary. *)
Lemma symbol_addr_memo_path memo memo' symbol addr h h' :
  get_symbol_addr V quiet patt memo pid symbol h = Done ((Some addr, memo'), h') -> NUL ∉ patt ->
  php_bin_path memo' <> [].
Proof.
  intros Hrun Hpatt. unfold get_symbol_addr in Hrun.
  assert (exists ok root path h1,
    (match php_bin_path memo with
     | [] => get_php_bin_path V quiet patt pid (php_bin_path_root memo) (php_bin_path memo)
     | path => mret (true, php_bin_path_root memo, path)
     end) h = Done ((ok, root, path), h1) /\ (ok = true -> path <> [])) as (ok & root & path & h1 & He & Hp).
  { destruct (php_bin_path memo); [|by eexists _, _, _, _].
    unfold get_php_bin_path. destruct (escaped_done patt h Hpatt) as [[arg|] He]; rewrite (bind_done _ _ _ _ _ He);
      [|by eexists _, _, _, _].
    destruct (popen_read_line_done (bin_path_cmd arg pid) h) as (r & h2 & Hp & _ & Hr & _). rewrite (bind_done _ _ _ _ _ Hp).
    destruct r as [line|]; [|by eexists _, _, _, _]. case_bool_decide; [by eexists _, _, _, _|].
    eexists _, _, _, _. split; [done|congruence]. }
  rewrite (bind_done _ _ _ _ _ He) in Hrun. destruct ok; [|done]. cbn [negb php_bin_path php_base_addr] in Hrun.
  unfold mbind, M_bind, mret, M_ret in Hrun. repeat case_match; simplify_eq/=; auto.
Qed.

(** The paths of the memo are C strings. *)
Definition memo_ok (memo : addr_memo) : Prop := (NUL ∉ php_bin_path memo) /\ (NUL ∉ php_bin_path_root memo).

Lemma php_bin_path_done root path h : NUL ∉ patt -> NUL ∉ root -> NUL ∉ path ->
  exists ok root' path' h', get_php_bin_path V quiet patt pid root path h = Done ((ok, root', path'), h')
    /\ (NUL ∉ root') /\ (NUL ∉ path').
Proof.
  intros Hp Hr Hpa. unfold get_php_bin_path.
  destruct (escaped_done patt h Hp) as [[arg|] He]; rewrite (bind_done _ _ _ _ _ He); [|by eexists _, _, _, _].
  destruct (popen_read_line_done (bin_path_cmd arg pid) h) as (r & h2 & Hrun & _ & _ & Hn). rewrite (bind_done _ _ _ _ _ Hrun).
  destruct r as [line|]; [|by eexists _, _, _, _]. specialize (Hn line eq_refl).
  case_bool_decide; eexists _, _, _, _; (split; [done|]); split; try done; [apply cstr_no_nul|]. apply if_nn; solve_nn.
Qed.

Lemma php_base_addr_done root path h : NUL ∉ root -> NUL ∉ path ->
  exists r h', get_php_base_addr V quiet pid root path h = Done (r, h').
Proof.
  intros Hr Hpa. unfold get_php_base_addr.
  destruct (escaped_done path h Hpa) as [[arg|] He]; rewrite (bind_done _ _ _ _ _ He); [|by eexists _, _].
  destruct (popen_read_line_done (start_addr_cmd arg pid) h) as (r1 & h1 & H1 & _). rewrite (bind_done _ _ _ _ _ H1).
  destruct r1; [|by eexists _, _].
  destruct (escaped_done root h1 Hr) as [[arg2|] He2]; rewrite (bind_done _ _ _ _ _ He2); [|by eexists _, _].
  destruct (popen_read_line_done (virt_addr_cmd arg2) h1) as (r2 & h2 & H2 & _). rewrite (bind_done _ _ _ _ _ H2).
  destruct r2; by eexists _, _.
Qed.

Lemma symbol_addr_done memo symbol h : NUL ∉ patt -> memo_ok memo ->
  exists r memo' h', get_symbol_addr V quiet patt memo pid symbol h = Done ((r, memo'), h') /\ memo_ok memo'.
Proof.
  intros Hp [Hpa Hr]. unfold get_symbol_addr.
  assert (exists ok root path h1,
    (match php_bin_path memo with
     | [] => get_php_bin_path V quiet patt pid (php_bin_path_root memo) (php_bin_path memo)
     | path => mret (true, php_bin_path_root memo, path)
     end) h = Done ((ok, root, path), h1) /\ (NUL ∉ root) /\ (NUL ∉ path)) as (ok & root & path & h1 & H1 & Hro & Hpo).
  { destruct (php_bin_path memo) eqn:Hpath; [|by eexists _, _, _, _]. by apply php_bin_path_done. }
  rewrite (bind_done _ _ _ _ _ H1).
  assert (memo_ok {| php_bin_path := path; php_bin_path_root := root; php_base_addr := php_base_addr memo |}) as Hm by done.
  destruct ok; cbn [negb]; [|by eexists _, _, _]. cbn [php_base_addr].
  assert (exists r h2, (if php_base_addr memo =? 0 then get_php_base_addr V quiet pid root path
    else mret (Some (php_base_addr memo))) h1 = Done (r, h2)) as (r & h2 & H2).
  { destruct (_ =? 0); [by apply php_base_addr_done|by eexists _, _]. }
  rewrite (bind_done _ _ _ _ _ H2).
  destruct r as [base|]; [|by eexists _, _, _].
  destruct (symbol_offset_done root symbol h2 Hro) as (off & h3 & H3 & _). rewrite (bind_done _ _ _ _ _ H3).
  by destruct off; eexists _, _, _.
Qed.

End lookup.

Definition fresh_memo : addr_memo := {| php_bin_path := []; php_bin_path_root := []; php_base_addr := 0 |}.

(** ** Theorems *)

(** C19. [shell_escape] quotes: it never writes outside its buffer, succeeds
    exactly when the quoted argument and its NUL fit, and what it writes is read
    back by a shell as one word equal to the argument, whatever the argument
    contains. *)
Theorem shell_escape_roundtrip {W} arg size (w : W) :
  NUL ∉ arg -> (1 <= size)%nat ->
  exists rv out, shell_escape arg size w = Done ((rv, out), w) /\ (length out <= size)%nat
    /\ (rv = 0 <-> (length (quoted arg) + 1 <= size)%nat)
    /\ (rv = 0 -> out = quoted arg ++ [NUL] /\ sh_word false (quoted arg) = Some arg).
Proof.
  intros Hn Hs. destruct (twp_done _ _ _ (shell_escape_wp False arg size w Hn Hs)) as ([rv out] & w' & Hrun & -> & Hr).
  exists rv, out. split; [done|]. destruct (decide (length (quoted arg) + 1 <= size)%nat).
  - assert (rv = 0 /\ out = quoted arg ++ [NUL]) as [-> ->] by by inversion Hr.
    split_and!; [rewrite length_app; cbn [length]; lia|done|]. intros _. split; [done|].
    unfold quoted. cbn. apply sh_word_quoted_tail.
  - destruct Hr as [Hrv Hl]. cbn in Hrv, Hl. subst rv. split_and!; [done|split; [done|lia]|done].
Qed.

(** C18. A first lookup runs four commands: the path of the PHP binary or
    library, the start of its executable mapping, the virtual address of its
    executable segment, and the symbol's value.  When each prints a line, the
    address found is start - segment + value in 64-bit arithmetic, and the memo
    keeps path, path below the target's root (or /proc/PID/exe when that does
    not exist) and base. *)
Theorem get_symbol_addr_value V quiet patt pid symbol path start virt off h :
  let root0 := cs "/proc/" ++ fmt_d pid ++ cs "/root/" ++ path in
  let cmd1 := bin_path_cmd (quoted patt) pid in
  let root := if sh_access V (h ++ [actual quiet cmd1]) root0 then root0 else cs "/proc/" ++ fmt_d pid ++ cs "/exe" in
  let cmd2 := start_addr_cmd (quoted path) pid in
  let cmd3 := virt_addr_cmd (quoted root) in
  let cmd4 := symbol_cmd (quoted root) symbol in
  NUL ∉ patt -> (length (quoted patt) < PHPSPY_STR_SIZE)%nat ->
  (length root0 < PHPSPY_STR_SIZE)%nat -> (length (quoted path) < PHPSPY_STR_SIZE)%nat ->
  (length (quoted root) < PHPSPY_STR_SIZE)%nat ->
  prints_line V quiet cmd1 path -> prints_line V quiet cmd2 start ->
  prints_line V quiet cmd3 virt -> prints_line V quiet cmd4 off ->
  let base := u64 (fst (strtoull start 16) - fst (strtoull virt 16)) in
  get_symbol_addr V quiet patt fresh_memo pid symbol h =
    Done ((Some (u64 (base + fst (strtoull off 16))),
           {| php_bin_path := path; php_bin_path_root := root; php_base_addr := base |}),
          h ++ map (actual quiet) [cmd1; cmd2; cmd3; cmd4]).
Proof.
  intros root0 cmd1 root cmd2 cmd3 cmd4 Hn Hl1 Hl2 Hl3 Hl4 H1 H2 H3 H4 base.
  assert (NUL ∉ path) as Hpn by apply H1. assert (NUL ∉ root) as Hrn by (apply if_nn; unfold root0; solve_nn).
  unfold get_symbol_addr. cbn [php_bin_path php_bin_path_root php_base_addr fresh_memo].
  rewrite (bind_done _ _ h (true, root, path) (h ++ [actual quiet cmd1])).
  2:{ unfold get_php_bin_path. rewrite (bind_done _ _ _ _ _ (escaped_fits patt h Hn Hl1)).
      rewrite (bind_done _ _ _ _ _ (popen_read_line_prints V quiet cmd1 path h H1)).
      rewrite bool_decide_false by (fold root0; lia). done. }
  cbn [negb]. rewrite (proj2 (Z.eqb_eq 0 0)) by done.
  rewrite (bind_done _ _ _ (Some base) (h ++ map (actual quiet) [cmd1; cmd2; cmd3])).
  2:{ unfold get_php_base_addr. rewrite (bind_done _ _ _ _ _ (escaped_fits path _ Hpn Hl3)).
      rewrite (bind_done _ _ _ _ _ (popen_read_line_prints V quiet cmd2 start _ H2)).
      rewrite (bind_done _ _ _ _ _ (escaped_fits root _ Hrn Hl4)).
      rewrite (bind_done _ _ _ _ _ (popen_read_line_prints V quiet cmd3 virt _ H3)).
      unfold mret, M_ret. by rewrite <-!app_assoc. }
  unfold get_symbol_offset at 1.
  assert (get_symbol_offset V quiet root symbol (h ++ map (actual quiet) [cmd1; cmd2; cmd3]) =
          Done (Some (fst (strtoull off 16)), h ++ map (actual quiet) [cmd1; cmd2; cmd3; cmd4])) as Hoff.
  { unfold get_symbol_offset. rewrite (bind_done _ _ _ _ _ (escaped_fits root _ Hrn Hl4)).
    rewrite (bind_done _ _ _ _ _ (popen_read_line_prints V quiet cmd4 off _ H4)).
    unfold mret, M_ret. by rewrite <-!app_assoc. }
  by rewrite (bind_done _ _ _ _ _ Hoff).
Qed.

(** The memo is filled once and used: after a symbol was found, looking
    up another one runs at most one further command, that of
    [get_symbol_offset], never fails otherwise, leaves the memo as it is, and
    adds the offset to the memoised base in 64-bit arithmetic. *)
Theorem get_symbol_addr_memo V quiet patt memo memo' pid symbol symbol' addr h h' :
  NUL ∉ patt -> NUL ∉ php_bin_path_root memo' ->
  get_symbol_addr V quiet patt memo pid symbol h = Done ((Some addr, memo'), h') -> php_base_addr memo' <> 0 ->
  exists offset h'', get_symbol_offset V quiet (php_bin_path_root memo') symbol' h' = Done (offset, h'')
    /\ (length h'' <= length h' + 1)%nat
    /\ get_symbol_addr V quiet patt memo' pid symbol' h' =
         Done (((fun o => u64 (php_base_addr memo' + o)) <$> offset, memo'), h'').
Proof.
  intros Hn Hroot Hrun Hb. pose proof (symbol_addr_memo_path _ _ _ _ _ _ _ _ _ _ Hrun Hn) as Hp.
  destruct (symbol_offset_done V quiet (php_bin_path_root memo') symbol' h' Hroot) as (r & h'' & Ho & Hlen).
  exists r, h''. split_and!; [done|done|]. unfold get_symbol_addr.
  destruct memo' as [path root base]; cbn [php_bin_path php_bin_path_root php_base_addr] in *. destruct path; [done|].
  rewrite (bind_done _ _ h' (true, root, a :: path) h') by done. cbn [negb].
  rewrite (proj2 (Z.eqb_neq base 0)) by done. rewrite (bind_done _ _ h' (Some base) h') by done.
  rewrite (bind_done _ _ _ _ _ Ho). by destruct r.
Qed.

(** ** Witnesses *)

Lemma shell_escape_roundtrip_witness :
  exists rv out, shell_escape (cs "it's $x") 13 tt = Done ((rv, out), tt) /\ rv = 0 /\ sh_word false (cstr out) = Some (cs "it's $x").
Proof.
  destruct (shell_escape_roundtrip (cs "it's $x") 13 tt) as (rv & out & Hrun & _ & [_ Hfit] & Hok).
  - unfold cs. cbn. solve_nn.
  - lia.
  - exists 0, out. destruct (Hok (Hfit ltac:(vm_compute; lia))) as [-> Hw]. split_and!; [vm_compute; reflexivity|done|].
    rewrite cstr_app_nul; [done|]. apply quoted_nn. unfold cs. cbn. solve_nn.
Defined.

(** A machine on which PHP is /bin/php, mapped at 0x55d0 with its code at 0x10. *)
Definition demo_shell : shell_env := {|
  sh := fun _ cmd =>
    if bool_decide (cmd = bin_path_cmd (quoted (cs "libphp")) 7) then Some (cs "/bin/php" ++ [NL])
    else if bool_decide (cmd = start_addr_cmd (quoted (cs "/bin/php")) 7) then Some (cs "55d0-66d0" ++ [NL])
    else if bool_decide (cmd = virt_addr_cmd (quoted (cs "/proc/7/root//bin/php"))) then Some (cs "0x10" ++ [NL])
    else Some (cs "0a00" ++ [NL]);
  sh_access := fun _ _ => true |}.

Ltac solve_prints :=
  split_and!; [apply Nat.ltb_lt; vm_compute; reflexivity|done|unfold cs; cbn; solve_nn
              |apply (bool_decide_unpack _); vm_compute; exact I
              |apply Nat.ltb_lt; vm_compute; reflexivity|intros ?; vm_compute; reflexivity].

Lemma get_symbol_addr_value_witness :
  exists memo h, get_symbol_addr demo_shell false (cs "libphp") fresh_memo 7 (cs "executor_globals") [] =
    Done ((Some (0x55d0 - 0x10 + 0xa00), memo), h) /\ length h = 4%nat.
Proof.
  eexists _, _. split.
  - apply (get_symbol_addr_value demo_shell false (cs "libphp") 7 (cs "executor_globals") (cs "/bin/php")
      (cs "55d0-66d0") (cs "0x10") (cs "0a00") []).
    + unfold cs. cbn. solve_nn.
    + apply Nat.ltb_lt. vm_compute. reflexivity.
    + apply Nat.ltb_lt. vm_compute. reflexivity.
    + apply Nat.ltb_lt. vm_compute. reflexivity.
    + apply Nat.ltb_lt. vm_compute. reflexivity.
    + solve_prints.
    + solve_prints.
    + solve_prints.
    + solve_prints.
  - done.
Defined.

Lemma get_symbol_addr_memo_witness :
  exists memo h h', get_symbol_addr demo_shell false (cs "libphp") memo 7 (cs "sapi_globals") h =
    Done ((Some (0x55d0 - 0x10 + 0xa00), memo), h') /\ (length h' <= length h + 1)%nat.
Proof.
  destruct (get_symbol_addr_memo demo_shell false (cs "libphp") fresh_memo
    {| php_bin_path := cs "/bin/php"; php_bin_path_root := cs "/proc/7/root//bin/php"; php_base_addr := 0x55c0 |} 7
    (cs "executor_globals") (cs "sapi_globals") (0x55c0 + 0xa00) []
    (map (actual false) [bin_path_cmd (quoted (cs "libphp")) 7; start_addr_cmd (quoted (cs "/bin/php")) 7;
         virt_addr_cmd (quoted (cs "/proc/7/root//bin/php")); symbol_cmd (quoted (cs "/proc/7/root//bin/php")) (cs "executor_globals")]))
    as (off & h'' & Ho & Hl & Hr).
  - unfold cs. cbn. solve_nn.
  - unfold cs. cbn. solve_nn.
  - vm_compute. reflexivity.
  - done.
  - eexists _, _, h''. split; [|exact Hl]. rewrite Hr. vm_compute in Ho. injection Ho as <- _. reflexivity.
Defined.
