(* ===== verification/Clock.v ===== *)
(** * Clock: time arithmetic of the sampling loop (phpspy.c)

    [clock_add], [clock_diff] and [calc_sleep_time] on [struct timespec], at the
    width of [long]. *)
From S2P Require Import Prelude CLib Context.

Record timespec := { tv_sec : Z; tv_nsec : Z }.

Definition NSEC : Z := 1000000000.

(** The result is written field by field; [res] may be [a]. *)
Definition clock_add (a b : timespec) : timespec :=
  let sec := s64 (tv_sec a + tv_sec b) in
  let nsec := s64 (tv_nsec a + tv_nsec b) in
  if NSEC <=? nsec
  then {| tv_sec := s64 (sec + Z.quot nsec NSEC); tv_nsec := Z.rem nsec NSEC |}
  else {| tv_sec := sec; tv_nsec := nsec |}.

Definition clock_diff (a b : timespec) : Z :=
  if tv_sec a =? tv_sec b then
    if tv_nsec a =? tv_nsec b then 0
    else if tv_nsec b <? tv_nsec a then 1 else -1
  else if tv_sec b <? tv_sec a then 1 else -1.

(** The multiplications are in [unsigned long], the result is a [long]. *)
Definition total_ns (t : timespec) : Z := s64 (u64 (u64 (tv_sec t * NSEC) + u64 (tv_nsec t * 1))).

Definition calc_sleep_time (opt_sleep_ns : Z) (end_ start : timespec) : timespec :=
  let sleep_ns :=
    if tv_sec end_ =? tv_sec start
    then s64 (opt_sleep_ns - s64 (tv_nsec end_ - tv_nsec start))
    else s64 (opt_sleep_ns - s64 (total_ns end_ - total_ns start)) in
  let sleep_ns := if sleep_ns <? 0 then 0 else sleep_ns in
  if sleep_ns <? NSEC then {| tv_sec := 0; tv_nsec := sleep_ns |}
  else let sec := Z.quot sleep_ns NSEC in
       {| tv_sec := sec; tv_nsec := s64 (sleep_ns - s64 (sec * NSEC)) |}.

(** ** Specification *)

(** The instant in nanoseconds, and the times a clock returns. *)
Definition to_ns (t : timespec) : Z := tv_sec t * NSEC + tv_nsec t.
Definition normal (t : timespec) : Prop := 0 <= tv_nsec t < NSEC.
(** Within 136 years of the clock's origin. *)
Definition clock_time (t : timespec) : Prop := normal t /\ 0 <= tv_sec t < 2 ^ 32.

Lemma s64_small z : - 2 ^ 63 <= z < 2 ^ 63 -> s64 z = z.
Proof. intros. by apply swrap_small. Qed.

Lemma total_ns_exact t : clock_time t -> total_ns t = to_ns t.
Proof.
  unfold clock_time, normal, total_ns, to_ns, NSEC. intros [? ?].
  rewrite (wrap_small 64 (tv_sec t * _)) by lia. rewrite (wrap_small 64 (tv_nsec t * 1)) by lia.
  rewrite wrap_small by lia. rewrite s64_small; lia.
Qed.

Lemma clock_add_exact a b : clock_time a -> clock_time b ->
  to_ns (clock_add a b) = to_ns a + to_ns b /\ normal (clock_add a b).
Proof.
  unfold clock_time, normal, clock_add, to_ns, NSEC. intros [? ?] [? ?].
  rewrite (s64_small (tv_sec a + tv_sec b)), (s64_small (tv_nsec a + tv_nsec b)) by lia.
  destruct (Z.leb_spec 1000000000 (tv_nsec a + tv_nsec b)); cbn [tv_sec tv_nsec]; [|lia].
  rewrite Z.quot_div_nonneg, Z.rem_mod_nonneg, Z.mod_eq by lia.
  assert ((tv_nsec a + tv_nsec b) / 1000000000 = 1) as ->
    by (symmetry; apply Z.div_unique with (tv_nsec a + tv_nsec b - 1000000000); lia).
  rewrite s64_small by lia. lia.
Qed.

Lemma clock_diff_sign a b : normal a -> normal b -> clock_diff a b = Z.sgn (to_ns a - to_ns b).
Proof.
  unfold normal, clock_diff, to_ns, NSEC. intros Ha Hb.
  destruct (Z.eqb_spec (tv_sec a) (tv_sec b)) as [He|He].
  - rewrite He. destruct (Z.eqb_spec (tv_nsec a) (tv_nsec b)); [by rewrite Z.sgn_null by lia|].
    destruct (Z.ltb_spec (tv_nsec b) (tv_nsec a)); [by rewrite Z.sgn_pos by lia|by rewrite Z.sgn_neg by lia].
  - destruct (Z.ltb_spec (tv_sec b) (tv_sec a)); [by rewrite Z.sgn_pos by lia|by rewrite Z.sgn_neg by lia].
Qed.

(** ** Theorems *)

(** The stop test of the sampling loop is exact: a sample that started at
    [t] is the last one exactly when [t] is later than the start of the run plus
    the time limit. *)
Theorem stop_time_exact t start limit :
  clock_time t -> clock_time start -> clock_time limit ->
  (1 <= clock_diff t (clock_add start limit) <-> to_ns start + to_ns limit < to_ns t).
Proof.
  intros [Ht _] Hs Hl. destruct (clock_add_exact start limit Hs Hl) as [He Hn].
  rewrite (clock_diff_sign t _ Ht Hn), He.
  destruct (Z.sgn_spec (to_ns t - (to_ns start + to_ns limit))) as [[? ->]|[[? ->]|[? ->]]]; lia.
Qed.

(** The pause between two samples is the sampling period minus the time
    the sample took, or none if it took longer, as a valid argument of
    [nanosleep], whether or not the second changed meanwhile. *)
Theorem calc_sleep_time_exact opt_sleep_ns end_ start :
  0 <= opt_sleep_ns < 2 ^ 62 -> clock_time end_ -> clock_time start ->
  let r := calc_sleep_time opt_sleep_ns end_ start in
  to_ns r = Z.max 0 (opt_sleep_ns - (to_ns end_ - to_ns start)) /\ normal r /\ 0 <= tv_sec r.
Proof.
  intros Ho He Hs. unfold calc_sleep_time. rewrite !total_ns_exact by done.
  unfold clock_time, normal, to_ns, NSEC in *. destruct He as [? ?], Hs as [? ?].
  set (s := if tv_sec end_ =? tv_sec start then _ else _).
  assert (s = opt_sleep_ns - (tv_sec end_ * 1000000000 + tv_nsec end_ - (tv_sec start * 1000000000 + tv_nsec start))) as ->.
  { subst s. destruct (Z.eqb_spec (tv_sec end_) (tv_sec start)) as [E|E].
    - rewrite E, (s64_small (_ - tv_nsec start)), s64_small by lia. lia.
    - rewrite (s64_small (tv_sec end_ * _ + _ - _)), s64_small by lia. lia. }
  set (s := opt_sleep_ns - _). cbv zeta. replace (if s <? 0 then 0 else s) with (Z.max 0 s) by (destruct (Z.ltb_spec s 0); lia).
  assert (0 <= Z.max 0 s < 2 ^ 63) as Hr by lia. generalize (Z.max 0 s) Hr. clear. intros s Hs.
  destruct (Z.ltb_spec s 1000000000); cbn [tv_sec tv_nsec]; [lia|].
  rewrite Z.quot_div_nonneg by lia. pose proof (Z.div_mod s 1000000000). pose proof (Z.mod_pos_bound s 1000000000).
  rewrite (s64_small (_ * _)), s64_small by lia. lia.
Qed.

(** ** Witnesses *)

Definition at_time (s n : Z) : timespec := {| tv_sec := s; tv_nsec := n |}.

Ltac solve_time := split; unfold normal, NSEC, at_time; cbn [tv_sec tv_nsec]; lia.

Lemma stop_time_exact_witness : 1 <= clock_diff (at_time 12 5) (clock_add (at_time 10 999999999) (at_time 1 5)).
Proof.
  apply (stop_time_exact (at_time 12 5) (at_time 10 999999999) (at_time 1 5)); [solve_time..|].
  unfold to_ns, NSEC. cbn. lia.
Defined.

Lemma calc_sleep_time_exact_witness : to_ns (calc_sleep_time 10101010 (at_time 8 3) (at_time 7 999999999)) = 10101006.
Proof.
  rewrite (proj1 (calc_sleep_time_exact 10101010 (at_time 8 3) (at_time 7 999999999) ltac:(lia) ltac:(solve_time) ltac:(solve_time))).
  reflexivity.
Defined.
