(* ===== verification/Session.v ===== *)
(** * Session: sampling one process (main_pid and its helpers, phpspy.c)

    Address and version lookup, pausing the target, and the sampling loop.  The
    state [session] holds the tracer's world, the log of shell commands, and
    what [main_pid] itself changes; the clock, [ptrace], [waitpid] and the flag
    [done], which other threads set, are parameters. *)
From S2P Require Import Prelude CLib Layout Context Versions Zval Trace AddrObjdump Clock.

(** ** State *)

Inductive ptrace_call := Attach (pid : Z) | Detach (pid : Z).

Record session (U : Type) := {
  s_world : world U;
  s_shell : shlog;
  s_phpv : bytes;                  (* opt_phpv, which get_php_version assigns *)
  s_ticks : nat;                   (* clock_gettime calls so far *)
  s_polls : nat;                   (* tests of done so far *)
  s_ptrace : list ptrace_call;
  s_trace_count : Z;               (* what this thread added to trace_count *)
  s_codes : list Z;                (* the code of every sample, oldest first *)
  s_sleeps : list timespec;
  s_done_pipe : nat;               (* write_done_pipe calls *)
}.
Arguments Build_session {U} _ _ _ _ _ _ _ _ _ _.
Arguments s_world {U} _.
Arguments s_shell {U} _.
Arguments s_phpv {U} _.
Arguments s_ticks {U} _.
Arguments s_polls {U} _.
Arguments s_ptrace {U} _.
Arguments s_trace_count {U} _.
Arguments s_codes {U} _.
Arguments s_sleeps {U} _.
Arguments s_done_pipe {U} _.

(** The environment.  [sys_ptrace n] is the [errno] of the [n]-th [ptrace], 0
    for success; [sys_others n] what other threads have added to [trace_count]
    when [done] was tested [n] times. *)
Record sys_env := {
  sys_shell : shell_env;
  sys_clock : nat -> option timespec;
  sys_done : nat -> bool;
  sys_ptrace : nat -> Z;
  sys_waitpid : nat -> bool;
  sys_others : nat -> Z;
}.

Section session.
Context {U : Type} `{EH : !EventHandler U}.
Context (E : target_env) (V : sys_env) (ar : arch) (o : options) (fuel : nat).
(** Whether [main_pgrep] runs this function in a worker thread. *)
Context (in_pgrep_mode : bool).
Abbreviation SM := (M (session U)).

Definition put_world (w : world U) (s : session U) : session U :=
  Build_session w (s_shell s) (s_phpv s) (s_ticks s) (s_polls s) (s_ptrace s) (s_trace_count s) (s_codes s)
    (s_sleeps s) (s_done_pipe s).
Definition put_shell (h : shlog) (s : session U) : session U :=
  Build_session (s_world s) h (s_phpv s) (s_ticks s) (s_polls s) (s_ptrace s) (s_trace_count s) (s_codes s)
    (s_sleeps s) (s_done_pipe s).

(** Calls of the tracer and of the symbol lookup. *)
Definition in_world {A} (m : M (world U) A) : SM A := fun s =>
  match m (s_world s) with
  | Done (a, w) => Done (a, put_world w s)
  | Fault f => Fault f
  | Diverge => Diverge
  end.
Definition in_shell {A} (m : M shlog A) : SM A := fun s =>
  match m (s_shell s) with
  | Done (a, h) => Done (a, put_shell h s)
  | Fault f => Fault f
  | Diverge => Diverge
  end.

Definition set_phpv (v : bytes) (s : session U) : session U :=
  Build_session (s_world s) (s_shell s) v (s_ticks s) (s_polls s) (s_ptrace s) (s_trace_count s) (s_codes s)
    (s_sleeps s) (s_done_pipe s).
Definition log_ptrace (c : ptrace_call) (s : session U) : session U :=
  Build_session (s_world s) (s_shell s) (s_phpv s) (s_ticks s) (s_polls s) (s_ptrace s ++ [c]) (s_trace_count s)
    (s_codes s) (s_sleeps s) (s_done_pipe s).
Definition count_trace (s : session U) : session U :=
  Build_session (s_world s) (s_shell s) (s_phpv s) (s_ticks s) (s_polls s) (s_ptrace s) (u64 (s_trace_count s + 1))
    (s_codes s) (s_sleeps s) (s_done_pipe s).
Definition log_code (rv : Z) (s : session U) : session U :=
  Build_session (s_world s) (s_shell s) (s_phpv s) (s_ticks s) (s_polls s) (s_ptrace s) (s_trace_count s)
    (s_codes s ++ [rv]) (s_sleeps s) (s_done_pipe s).
Definition log_sleep (t : timespec) (s : session U) : session U :=
  Build_session (s_world s) (s_shell s) (s_phpv s) (s_ticks s) (s_polls s) (s_ptrace s) (s_trace_count s)
    (s_codes s) (s_sleeps s ++ [t]) (s_done_pipe s).
Definition write_done_pipe (s : session U) : session U :=
  Build_session (s_world s) (s_shell s) (s_phpv s) (s_ticks s) (s_polls s) (s_ptrace s) (s_trace_count s)
    (s_codes s) (s_sleeps s) (S (s_done_pipe s)).

(** ** Clock, [done], [trace_count] *)

Definition clock_get : SM timespec := fun s =>
  Done (default {| tv_sec := 0; tv_nsec := 0 |} (sys_clock V (s_ticks s)),
        Build_session (s_world s) (s_shell s) (s_phpv s) (S (s_ticks s)) (s_polls s) (s_ptrace s)
          (s_trace_count s) (s_codes s) (s_sleeps s) (s_done_pipe s)).

Definition poll_done : SM bool := fun s =>
  Done (sys_done V (s_polls s),
        Build_session (s_world s) (s_shell s) (s_phpv s) (s_ticks s) (S (s_polls s)) (s_ptrace s)
          (s_trace_count s) (s_codes s) (s_sleeps s) (s_done_pipe s)).

Definition trace_count (s : session U) : Z :=
  if in_pgrep_mode then u64 (s_trace_count s + sys_others V (s_polls s)) else s_trace_count s.

(** ** Pausing *)

Definition ptrace_rv (errno : Z) : Z := PHPSPY_ERR + (if errno =? ESRCH then PHPSPY_ERR_PID_DEAD else 0).

Definition pause_pid (pid : Z) : SM Z :=
  s ← get;
  let n := length (s_ptrace s) in
  modify (log_ptrace (Attach pid));;
  let errno := sys_ptrace V n in
  if negb (errno =? 0) then mret (ptrace_rv errno)
  else mret (if sys_waitpid V n then PHPSPY_OK else PHPSPY_ERR).

Definition unpause_pid (pid : Z) : SM Z :=
  s ← get;
  let n := length (s_ptrace s) in
  modify (log_ptrace (Detach pid));;
  let errno := sys_ptrace V n in
  mret (if negb (errno =? 0) then ptrace_rv errno else PHPSPY_OK).

(** ** Addresses *)

Definition set_target (f : trace_target -> trace_target) : SM unit :=
  in_world (modify (with_ctx (fun c =>
    {| c_target := f (c_target c); c_frame := c_frame c; c_request := c_request c; c_buf := c_buf c;
       c_buf_len := c_buf_len c; c_stack_ptrs := c_stack_ptrs c |}))).

Definition put_executor (a : Z) (t : trace_target) : trace_target :=
  {| t_pid := t_pid t; t_executor_globals_addr := a; t_sapi_globals_addr := t_sapi_globals_addr t;
     t_alloc_globals_addr := t_alloc_globals_addr t; t_basic_functions_module_addr := t_basic_functions_module_addr t |}.
Definition put_sapi (a : Z) (t : trace_target) : trace_target :=
  {| t_pid := t_pid t; t_executor_globals_addr := t_executor_globals_addr t; t_sapi_globals_addr := a;
     t_alloc_globals_addr := t_alloc_globals_addr t; t_basic_functions_module_addr := t_basic_functions_module_addr t |}.
Definition put_alloc (a : Z) (t : trace_target) : trace_target :=
  {| t_pid := t_pid t; t_executor_globals_addr := t_executor_globals_addr t; t_sapi_globals_addr := t_sapi_globals_addr t;
     t_alloc_globals_addr := a; t_basic_functions_module_addr := t_basic_functions_module_addr t |}.
Definition put_module (a : Z) (t : trace_target) : trace_target :=
  {| t_pid := t_pid t; t_executor_globals_addr := t_executor_globals_addr t; t_sapi_globals_addr := t_sapi_globals_addr t;
     t_alloc_globals_addr := t_alloc_globals_addr t; t_basic_functions_module_addr := a |}.

(** [try(rv, get_symbol_addr(&memo, target->pid, symbol, &target->...))]. *)
Definition lookup_symbol (quiet : bool) (memo : addr_memo) (pid : Z) (symbol : string)
    (put : Z -> trace_target -> trace_target) : SM (Z * addr_memo) :=
  '(addr, memo) ← in_shell (get_symbol_addr (sys_shell V) quiet (opt_libname_awk_patt o) memo pid (cs symbol));
  match addr with
  | Some a => set_target (put a);; mret (0, memo)
  | None => mret (1, memo)
  end.

Definition find_addresses (pid : Z) : SM Z :=
  let quiet := opt_quiet o in
  '(rv, memo) ← (if negb (opt_executor_globals_addr o =? 0)
                 then set_target (put_executor (opt_executor_globals_addr o));; mret (0, fresh_memo)
                 else lookup_symbol quiet fresh_memo pid "executor_globals" put_executor);
  try rv else_return rv ;;;
  '(rv, memo) ← (if negb (opt_sapi_globals_addr o =? 0)
                 then set_target (put_sapi (opt_sapi_globals_addr o));; mret (0, memo)
                 else if opt_capture_req o then lookup_symbol quiet memo pid "sapi_globals" put_sapi
                 else mret (0, memo));
  try rv else_return rv ;;;
  '(rv, memo) ← (if opt_capture_mem o then lookup_symbol quiet memo pid "alloc_globals" put_alloc
                 else mret (0, memo));
  try rv else_return rv ;;;
  '(rv, _) ← lookup_symbol true memo pid "basic_functions_module" put_module;
  (if bool_decide (rv <> 0) then set_target (put_module 0) else mret tt);;
  mret PHPSPY_OK.

(** ** Version *)

(** [struct _zend_module_entry]: [version] at 88. *)
Definition MODULE_SIZE : Z := 96.
Definition O_MODULE_VERSION : Z := 88.

Definition version_cmd (libname : bytes) (pid : Z) : bytes :=
  cs "{ { echo -n /proc/" ++ fmt_d pid ++ cs "/root/;   awk -ve=1 -vp=" ++ libname
  ++ cs " '$0~p{print $NF; e=0; exit} END{exit e}' /proc/" ++ fmt_d pid ++ cs "/maps   || readlink /proc/" ++ fmt_d pid
  ++ cs "/exe; } | { xargs stat --printf=%n 2>/dev/null || echo /proc/" ++ fmt_d pid
  ++ cs "/exe; } | xargs strings | grep -Eo 'X-Powered-By: PHP/[0-9]+\.[0-9]+' | grep -Eo '[0-9]+\.[0-9]+'; }"
  ++ (if opt_quiet o then cs " 2>/dev/null" else []).

(** [char phpv[4]] after the attempt to read [basic_functions_module]. *)
Definition version_from_module (phpv : bytes) : SM bytes :=
  s ← get;
  let addr := t_basic_functions_module_addr (c_target (w_ctx (s_world s))) in
  if addr =? 0 then mret phpv else
  '(rv, bs) ← in_world (copy_proc_mem E addr MODULE_SIZE);
  if bool_decide (rv = 0) then
    '(_, bs) ← in_world (copy_proc_mem E (rd64 bs O_MODULE_VERSION) 3);
    mret (poke phpv 0 bs)
  else mret phpv.

(** The first three bytes the shell pipeline prints. *)
Definition version_from_binary (pid : Z) : SM (option bytes) :=
  libname ←? in_shell (escaped (opt_libname_awk_patt o));
  let cmd := version_cmd libname pid in
  if bool_decide (1024 <= length cmd)%nat then mret None else
  out ←? in_shell (popen (sys_shell V) cmd);
  let phpv := take 3 out in
  mret (if bool_decide (length phpv = 3%nat) then Some phpv else None).

Definition get_php_version (pid : Z) : SM Z :=
  phpv ← version_from_module (NUL :: uninit E 3);
  phpv ← (if bool_decide (head phpv = Some NUL) then version_from_binary pid else mret (Some phpv));
  match phpv with
  | None => mret PHPSPY_ERR
  | Some phpv =>
    match detect_version phpv with
    | Some v => modify (set_phpv v);; mret PHPSPY_OK
    | None => mret PHPSPY_ERR
    end
  end.

(** ** The loop *)

Definition limit_time : timespec :=
  {| tv_sec := Z.quot (opt_time_limit_ms o) 1000; tv_nsec := Z.rem (opt_time_limit_ms o) 1000 * 1000000 |}.

Definition counted (rv : Z) : bool := (rv =? PHPSPY_OK) || (rv =? PHPSPY_ERR_TRUNCATED).

(** One sample, maybe with the target stopped: the codes of the three calls. *)
Definition trace_once (L : zlayout) (pid : Z) : SM Z :=
  rv1 ← (if opt_pause o then pause_pid pid else mret 0);
  rv2 ← in_world (do_trace E L o fuel);
  rv3 ← (if opt_pause o then unpause_pid pid else mret 0);
  mret (Z.lor (Z.lor rv1 rv2) rv3).

(** The rest of a turn, after a sample with the code [rv]; [false] is [break]. *)
Definition end_turn (stop_time : option timespec) (start_time : timespec) (rv : Z) : SM bool :=
  if negb (Z.land rv PHPSPY_ERR_PID_DEAD =? 0) then mret false else
  (if (0 <? opt_trace_limit o) && counted rv then modify count_trace else mret tt);;
  s ← get;
  if (0 <? opt_trace_limit o) && counted rv && (opt_trace_limit o <=? trace_count s) then mret false else
  if (match stop_time with Some t => 1 <=? clock_diff start_time t | None => false end) then mret false else
  end_time ← clock_get;
  modify (log_sleep (calc_sleep_time (opt_sleep_ns o) end_time start_time));;
  mret true.

(** One turn of [while (!done)], after the test. *)
Definition sample_once (L : zlayout) (pid : Z) (stop_time : option timespec) : SM bool :=
  start_time ← clock_get;
  rv ← trace_once L pid;
  modify (log_code rv);;
  end_turn stop_time start_time rv.

(** [turns] bounds the turns of the loop, which by itself may run for ever. *)
Fixpoint sample_loop (turns : nat) (L : zlayout) (pid : Z) (stop_time : option timespec) : SM unit :=
  match turns with
  | O => diverge
  | S n =>
    d ← poll_done;
    if (d : bool) then mret tt else
    go ← sample_once L pid stop_time;
    if (go : bool) then sample_loop n L pid stop_time else mret tt
  end.

Definition calc_stop_time : SM (option timespec) :=
  if in_pgrep_mode then mret None
  else if 0 <? opt_time_limit_ms o then
    now ← clock_get;
    mret (Some (clock_add now limit_time))
  else mret None.

(** From the point where [do_trace_ptr] is known. *)
Definition run_samples (turns : nat) (L : zlayout) (pid : Z) : SM Z :=
  stop_time ← calc_stop_time;
  sample_loop turns L pid stop_time;;
  in_world (emit EvDeinit);;
  s ← get;
  (if in_pgrep_mode && (0 <? opt_trace_limit o) && (opt_trace_limit o <=? trace_count s)
   then modify write_done_pipe else mret tt);;
  mret PHPSPY_OK.

Definition main_pid (turns : nat) (pid : Z) : SM Z :=
  rv ← find_addresses pid;
  try rv else_return rv ;;;
  rv ← in_world (emit (EvInit (opt_event_handler_opts o)));
  try rv else_return rv ;;;
  s ← get;
  rv ← (if strcmp_eq (s_phpv s) (cs "auto") then get_php_version pid else mret 0);
  try rv else_return rv ;;;
  s ← get;
  match dispatch (s_phpv s) with
  | Some v =>
    match layout_for ar v with
    | Some L => run_samples turns L pid
    | None => mret PHPSPY_ERR (* not reached: every instance has a layout *)
    end
  | None => mret PHPSPY_ERR
  end.

End session.

(** The context [main_pid] starts with: all zero but the pid. *)
Definition zero_context (pid : Z) : trace_context :=
  let z := repeat NUL PHPSPY_STR_SIZE in
  {| c_target := {| t_pid := pid; t_executor_globals_addr := 0; t_sapi_globals_addr := 0; t_alloc_globals_addr := 0;
                    t_basic_functions_module_addr := 0 |};
     c_frame := {| f_loc := {| l_func := z; l_class := z; l_file := z; l_func_len := 0; l_class_len := 0;
                               l_file_len := 0; l_lineno := 0 |}; f_depth := 0 |};
     c_request := {| r_uri := z; r_path := z; r_qstring := z; r_cookie := z; r_ts := 0 |};
     c_buf := z; c_buf_len := 0; c_stack_ptrs := [] |}.

Definition start_session {U} (o : options) (pid : Z) (u : U) : session U :=
  Build_session {| w_reads := 0; w_ctx := zero_context pid; w_udata := u; w_events := [] |} [] (opt_phpv o) 0 0 [] 0 [] [] 0.
