(* ===== verification/SessionTheorems.v ===== *)
(** * SessionTheorems: correctness of the sampling loop

    The life of a handler over one run of [main_pid], the trace limit, pausing
    the target, and version detection. *)
From S2P Require Import Prelude CLib Layout StructsX86 Context Versions Zval ZvalSpec ZvalTheorems Trace TraceSafe.
From S2P Require Import Fout FoutSpec FoutWrite FoutHandler FoutTheorems TraceStable TraceTheorems AddrObjdump Clock OptionFields Session.

(** ** The handler's life

    What [main_pid] needs beyond [HandlerSafe]: [INIT] on fresh user data
    establishes the invariant when it succeeds, [DEINIT] takes it. *)
Class HandlerLife (U : Type) {H : EventHandler U} {HS : HandlerSafe U} := {
  eh_start : U -> Prop;
  eh_init : forall opts u, eh_start u ->
    exists rv u', eh_call (EvInit opts) u = Done (rv, u') /\ (rv = 0 -> eh_inv [EvInit opts] u');
  eh_deinit : forall evs u, eh_inv evs u -> exists rv u', eh_call EvDeinit u = Done (rv, u');
}.

(** The events of a series of samples. *)
Inductive samples (pid : Z) : list event -> Prop :=
| samples_nil : samples pid []
| samples_next evs recs tail :
    samples pid evs -> Forall good_event recs -> depths_in 0 PHPSPY_MAX_STACK_WALK recs ->
    tail = [] \/ tail = [EvStackEnd pid] ->
    samples pid (evs ++ EvStackBegin :: recs ++ tail).

(** What the lookups before the loop leave alone. *)
Record kept {U} (s s' : session U) : Prop := {
  k_ptrace : s_ptrace s' = s_ptrace s;
  k_codes : s_codes s' = s_codes s;
  k_count : s_trace_count s' = s_trace_count s;
  k_polls : s_polls s' = s_polls s;
  k_sleeps : s_sleeps s' = s_sleeps s;
  k_udata : w_udata (s_world s') = w_udata (s_world s);
  k_events : w_events (s_world s') = w_events (s_world s);
  k_pid : t_pid (c_target (w_ctx (s_world s'))) = t_pid (c_target (w_ctx (s_world s)));
  k_ctx : ctx_ok (w_ctx (s_world s)) -> ctx_ok (w_ctx (s_world s'));
}.

#[export] Instance kept_preorder {U} : PreOrder (@kept U).
Proof.
  split; [done|]. intros s1 s2 s3 [] []. split; try congruence. auto.
Qed.

Definition tgt {U} (s : session U) : trace_target := c_target (w_ctx (s_world s)).

Section lemmas.
Context {U : Type} {EH : EventHandler U}.
Implicit Types s : session U.

Lemma in_world_wp {A} d (m : M (world U) A) (Q : A -> session U -> Prop) s :
  wpx d m (fun a w => Q a (put_world w s)) (s_world s) -> wpx d (in_world m) Q s.
Proof. unfold wpx, in_world. by destruct (m (s_world s)) as [[a w]| |]. Qed.

Lemma in_shell_wp {A} d (m : M shlog A) (Q : A -> session U -> Prop) s a h :
  m (s_shell s) = Done (a, h) -> Q a (put_shell h s) -> wpx d (in_shell m) Q s.
Proof. unfold wpx, in_shell. by intros ->. Qed.

Context (E : target_env) (V : sys_env) (ar : arch) (o : options) (fuel : nat) (in_pgrep_mode : bool) (pid : Z).
Context (Hpatt : NUL ∉ opt_libname_awk_patt o).

Lemma set_target_wp d f (Q : unit -> session U -> Prop) s :
  (forall t, t_pid (f t) = t_pid t) -> (forall s', kept s s' -> tgt s' = f (tgt s) -> s_phpv s' = s_phpv s -> Q tt s') -> wpx d (set_target f) Q s.
Proof. intros Hf HQ. apply in_world_wp, wpx_modify, HQ; [|done|done]. split; try done. cbn. apply Hf. Qed.

Lemma lookup_symbol_wp d quiet memo symbol put (Q : Z * addr_memo -> session U -> Prop) s :
  memo_ok memo -> (forall a t, t_pid (put a t) = t_pid t) ->
  (forall r s', kept s s' -> memo_ok (snd r) -> (tgt s' = tgt s \/ exists a, tgt s' = put a (tgt s)) ->
     s_phpv s' = s_phpv s -> Q r s') -> wpx d (lookup_symbol V o quiet memo pid symbol put) Q s.
Proof.
  intros Hm Hput HQ. unfold lookup_symbol. apply wpx_bind.
  destruct (symbol_addr_done (sys_shell V) quiet (opt_libname_awk_patt o) pid memo (cs symbol) (s_shell s) Hpatt Hm)
    as (r & memo' & h & Hrun & Hm'). eapply in_shell_wp; [exact Hrun|].
  assert (kept s (put_shell h s)) as Hk by done. destruct r as [a|]; [|by apply HQ; auto].
  apply wpx_bind, set_target_wp; [apply Hput|]. intros s' Hs' Ht Hv. apply wpx_ret, HQ; [by etrans|done|eauto|done].
Qed.

Lemma find_addresses_wp d (Q : Z -> session U -> Prop) s :
  (forall rv s', kept s s' -> Q rv s') -> wpx d (find_addresses V o pid) Q s.
Proof.
  intros HQ. unfold find_addresses. assert (memo_ok fresh_memo) as Hfresh by (split; apply nn_nil).
  assert (forall (b1 b2 : bool) a quiet memo sym put (Q' : Z * addr_memo -> session U -> Prop) s1, memo_ok memo ->
    (forall a t, t_pid (put a t) = t_pid t) ->
    (forall r s', kept s1 s' -> memo_ok (snd r) -> Q' r s') ->
    wpx d (if b1 then set_target (put a);; mret (0, memo)
           else if b2 then lookup_symbol V o quiet memo pid sym put else mret (0, memo)) Q' s1) as Hstep.
  { intros b1 b2 a quiet memo sym put Q' s1 Hm Hput HQ'. destruct b1.
    - apply wpx_bind, set_target_wp; [apply Hput|]. intros s' Hs' _ _. by apply wpx_ret, HQ'.
    - destruct b2; [apply lookup_symbol_wp; [done|done|]; intros r s' ????; by apply HQ'|]. by apply wpx_ret, HQ'. }
  apply wpx_bind, (Hstep _ true _ _ fresh_memo "executor_globals" put_executor); [done|done|]. intros [rv memo] s1 K1 Hm1.
  case_bool_decide; [by apply wpx_ret, HQ|].
  apply wpx_bind, (Hstep _ (opt_capture_req o) _ _ memo "sapi_globals" put_sapi); [done|done|]. intros [rv2 memo2] s2 K2 Hm2.
  assert (kept s s2) as K02 by by etrans. case_bool_decide; [by apply wpx_ret, HQ|].
  apply wpx_bind, (Hstep false (opt_capture_mem o) 0 _ memo2 "alloc_globals" put_alloc); [done|done|]. intros [rv3 memo3] s3 K3 Hm3.
  assert (kept s s3) as K03 by by etrans. case_bool_decide; [by apply wpx_ret, HQ|].
  apply wpx_bind, lookup_symbol_wp; [done|done|]. intros [rv4 memo4] s4 K4 _ _ _.
  assert (kept s s4) as K04 by by etrans. apply wpx_bind. case_bool_decide.
  - apply set_target_wp; [done|]. intros s5 K5 _ _. apply wpx_ret, HQ. by etrans.
  - by apply wpx_ret, wpx_ret, HQ.
Qed.

(** With a given address and nothing else to look up, the lookup succeeds. *)
Lemma find_addresses_given_wp d (Q : Z -> session U -> Prop) s :
  opt_executor_globals_addr o <> 0 -> opt_capture_req o = false -> opt_capture_mem o = false ->
  (forall s', kept s s' -> t_executor_globals_addr (tgt s') = opt_executor_globals_addr o -> s_phpv s' = s_phpv s -> Q PHPSPY_OK s') ->
  wpx d (find_addresses V o pid) Q s.
Proof.
  intros Ha Hr Hm HQ. unfold find_addresses. rewrite Hr, Hm, (proj2 (Z.eqb_neq (opt_executor_globals_addr o) 0) Ha). cbn [negb].
  apply wpx_bind, wpx_bind, set_target_wp; [done|]. intros s1 K1 T1 V1. apply wpx_ret. rewrite bool_decide_false by lia.
  assert (forall s2, kept s s2 -> t_executor_globals_addr (tgt s2) = opt_executor_globals_addr o -> s_phpv s2 = s_phpv s ->
    wpx d ('(rv, memo) ← mret (0, fresh_memo); try rv else_return rv ;;;
           '(rv, _) ← lookup_symbol V o true memo pid "basic_functions_module" put_module;
           (if bool_decide (rv <> 0) then set_target (put_module 0) else mret tt);; mret PHPSPY_OK) Q s2) as Hrest.
  { intros s2 K2 T2 V2. apply wpx_bind, wpx_ret. rewrite bool_decide_false by lia.
    apply wpx_bind, lookup_symbol_wp; [split; apply nn_nil|done|]. intros [rv memo] s3 K3 _ T3 V3. rewrite V2 in V3.
    assert (kept s s3 /\ t_executor_globals_addr (tgt s3) = opt_executor_globals_addr o) as [K03 T03]
      by (split; [by etrans|destruct T3 as [-> |[a ->]]; done]).
    apply wpx_bind. case_bool_decide; [|by apply wpx_ret, wpx_ret, HQ].
    apply set_target_wp; [done|]. intros s4 K4 T4 V4. apply wpx_ret, HQ; [by etrans|by rewrite T4|by rewrite V4]. }
  apply wpx_bind. destruct (negb _).
  - apply wpx_bind, set_target_wp; [done|]. intros s2 K2 T2 V2. apply wpx_ret. rewrite bool_decide_false by lia.
    apply Hrest; [by etrans|by rewrite T2, T1|by rewrite V2].
  - apply wpx_ret. rewrite bool_decide_false by lia. apply Hrest; [done|by rewrite T1|done].
Qed.

Lemma copy_kept d addr n (Q : Z * bytes -> session U -> Prop) s :
  (forall r s', kept s s' -> Q r s') -> wpx d (in_world (copy_proc_mem E addr n)) Q s.
Proof.
  intros HQ. apply in_world_wp, copy_proc_mem_wp. intros rv bs w' (Hc & Hu & He) _ _ _. apply HQ.
  split; cbn; try done; by rewrite ?Hc.
Qed.

Lemma get_php_version_wp d (Q : Z -> session U -> Prop) s :
  (forall rv s', kept s s' -> Q rv s') -> wpx d (get_php_version E V o pid) Q s.
Proof.
  intros HQ. unfold get_php_version. apply wpx_bind.
  assert (forall phpv (Q' : bytes -> session U -> Prop), (forall r s', kept s s' -> Q' r s') ->
    wpx d (version_from_module E phpv) Q' s) as Hmod.
  { intros phpv Q' HQ'. unfold version_from_module. apply wpx_bind, wpx_get. case_match; [by apply wpx_ret, HQ'|].
    apply wpx_bind, copy_kept. intros [rv bs] s1 K1. case_bool_decide; [|by apply wpx_ret, HQ'].
    apply wpx_bind, copy_kept. intros [rv2 bs2] s2 K2. apply wpx_ret, HQ'. by etrans. }
  apply Hmod. intros phpv s1 K1.
  assert (forall r s2, kept s s2 -> wpx d (match r with
    | None => mret PHPSPY_ERR
    | Some phpv => match detect_version phpv with
                   | Some v => modify (set_phpv v);; mret PHPSPY_OK
                   | None => mret PHPSPY_ERR
                   end end) Q s2) as Hfin.
  { intros r s2 K2. destruct r as [v|]; [|by apply wpx_ret, HQ]. destruct (detect_version v); [|by apply wpx_ret, HQ].
    apply wpx_bind, wpx_modify, wpx_ret, HQ. etrans; [exact K2|]. done. }
  apply wpx_bind. case_bool_decide; [|by apply wpx_ret, (Hfin (Some phpv))]. unfold version_from_binary. apply wpx_bind.
  destruct (escaped_done (opt_libname_awk_patt o) (s_shell s1) Hpatt) as [r He]. eapply in_shell_wp; [exact He|].
  assert (kept s (put_shell (s_shell s1) s1)) as K1' by (etrans; [exact K1|done]).
  destruct r as [arg|]; [|by apply wpx_ret, (Hfin None)]. case_bool_decide; [by apply wpx_ret, (Hfin None)|].
  assert (forall h, kept s (put_shell h (put_shell (s_shell s1) s1))) as K3 by (intros h; etrans; [exact K1'|done]).
  apply wpx_bind. eapply in_shell_wp; [done|]. destruct (sh _ _ _); [|apply wpx_ret, (Hfin None), K3].
  case_bool_decide; apply wpx_ret; [apply (Hfin (Some _)), K3|apply (Hfin None), K3].
Qed.

(** ** The loop *)

Context {HS : HandlerSafe U} (L : zlayout) (evs0 : list event).
Context (Hlim : limits_ok o) (Hp : peeks_ok o) (Hglo : glopeek_map o = []).
Context (Hreq : opt_capture_req o = true -> no_request_fields o).
Context (Hpid : - 2 ^ 31 <= pid < 2 ^ 31) (Hmax : 0 <= opt_trace_limit o < 2 ^ 64).

(** Samples that count towards the limit. *)
Definition num_counted s : Z := Z.of_nat (length (List.filter counted (s_codes s))).

Record looping s : Prop := {
  l_world : world_ok (s_world s);
  l_pid : t_pid (c_target (w_ctx (s_world s))) = pid;
  l_events : exists evs, samples pid evs /\ w_events (s_world s) = evs0 ++ evs;
  l_ptrace : s_ptrace s = if opt_pause o then concat (replicate (length (s_codes s)) [Attach pid; Detach pid]) else [];
  l_count : in_pgrep_mode = false -> 0 < opt_trace_limit o ->
            s_trace_count s = num_counted s /\ num_counted s <= opt_trace_limit o;
}.

Definition below_limit s : Prop := in_pgrep_mode = false -> 0 < opt_trace_limit o -> num_counted s < opt_trace_limit o.

Lemma counted_not_dead rv : counted rv = true -> Z.land rv PHPSPY_ERR_PID_DEAD = 0.
Proof. unfold counted. intros [H|H]%orb_true_iff; apply Z.eqb_eq in H; by subst. Qed.

Lemma num_counted_snoc codes rv :
  length (List.filter counted (codes ++ [rv])) = (length (List.filter counted codes) + if counted rv then 1 else 0)%nat.
Proof. rewrite List.filter_app, length_app. cbn. by destruct (counted rv). Qed.

Lemma replicate_snoc {A} n (x : list A) : concat (replicate (n + 1) x) = concat (replicate n x) ++ x.
Proof. rewrite replicate_add, concat_app. cbn. by rewrite app_nil_r. Qed.

Lemma trace_once_wp (d : Prop) (Q : Z -> session U -> Prop) s :
  (varpeek_map o <> [] -> d) -> (opt_peek_pdo o = true -> d) -> looping s ->
  (forall rv s', s_codes s' = s_codes s -> s_polls s' = s_polls s -> s_trace_count s' = s_trace_count s ->
     world_ok (s_world s') -> t_pid (c_target (w_ctx (s_world s'))) = pid ->
     (exists evs, samples pid evs /\ w_events (s_world s') = evs0 ++ evs) ->
     s_ptrace s' = s_ptrace s ++ (if opt_pause o then [Attach pid; Detach pid] else []) -> Q rv s') ->
  wpx d (trace_once E V o fuel L pid) Q s.
Proof.
  intros Hv Hpdo [Hw Ht (evs & Hs & He) Hpt Hc] HQ.
  assert (forall rv1 s1, s_world s1 = s_world s -> s_codes s1 = s_codes s -> s_polls s1 = s_polls s ->
    s_trace_count s1 = s_trace_count s -> s_ptrace s1 = s_ptrace s ++ (if opt_pause o then [Attach pid] else []) ->
    wpx d (rv2 ← in_world (do_trace E L o fuel);
           rv3 ← (if opt_pause o then unpause_pid V pid else mret 0);
           mret (Z.lor (Z.lor rv1 rv2) rv3)) Q s1) as Hrest.
  { intros rv1 s1 Hw1 Hc1 Hp1 Hn1 Ht1. apply wpx_bind, in_world_wp. rewrite Hw1.
    eapply wpx_mono; [apply (do_trace_wp E L o fuel d (s_world s)); try done; by rewrite Ht|].
    intros rv2 w2 (Hw2 & Hpr & Ht2).
    assert (exists evs, samples pid evs /\ w_events w2 = evs0 ++ evs) as He2.
    { destruct Hpr as [->|(recs & tail & -> & Hg & Hd & Htl)]; [by exists evs|].
      rewrite Ht in Htl. exists (evs ++ EvStackBegin :: recs ++ tail). split; [by constructor|].
      by rewrite He, <-app_assoc. }
    apply wpx_bind. destruct (opt_pause o).
    - unfold unpause_pid. apply wpx_bind, wpx_get, wpx_bind, wpx_modify, wpx_ret, wpx_ret, HQ; cbn; try done.
      + by rewrite Ht2.
      + by rewrite Ht1, <-app_assoc.
    - apply wpx_ret, wpx_ret, HQ; cbn; try done. by rewrite Ht2. }
  unfold trace_once. apply wpx_bind. destruct (opt_pause o) eqn:Hpause.
  - unfold pause_pid. apply wpx_bind, wpx_get, wpx_bind, wpx_modify. case_match; apply wpx_ret, Hrest; done.
  - apply wpx_ret, Hrest; try done. by rewrite app_nil_r.
Qed.

Lemma clock_get_wp d (Q : timespec -> session U -> Prop) s :
  (forall t s', s_world s' = s_world s -> s_codes s' = s_codes s -> s_polls s' = s_polls s ->
     s_trace_count s' = s_trace_count s -> s_ptrace s' = s_ptrace s -> Q t s') -> wpx d (clock_get V) Q s.
Proof. intros HQ. unfold wpx, clock_get. by apply HQ. Qed.

(** [looping] only reads the world, codes, counts and [ptrace] calls. *)
Lemma looping_same s s' :
  s_world s' = s_world s -> s_codes s' = s_codes s -> s_trace_count s' = s_trace_count s -> s_ptrace s' = s_ptrace s ->
  looping s -> looping s'.
Proof. intros Hw Hc Hn Hpt []. split; rewrite ?Hw, ?Hn, ?Hpt, ?Hc; try done. unfold num_counted. by rewrite Hc. Qed.

(** A turn between the sample and its accounting. *)
Record traced rv s : Prop := {
  tr_world : world_ok (s_world s);
  tr_pid : t_pid (c_target (w_ctx (s_world s))) = pid;
  tr_events : exists evs, samples pid evs /\ w_events (s_world s) = evs0 ++ evs;
  tr_ptrace : s_ptrace s = if opt_pause o then concat (replicate (length (s_codes s)) [Attach pid; Detach pid]) else [];
  tr_count : in_pgrep_mode = false -> 0 < opt_trace_limit o ->
             s_trace_count s + (if counted rv then 1 else 0) = num_counted s /\ 0 <= s_trace_count s < opt_trace_limit o;
}.

Lemma traced_looping rv s s' :
  traced rv s -> s_world s' = s_world s -> s_codes s' = s_codes s -> s_ptrace s' = s_ptrace s ->
  (in_pgrep_mode = false -> 0 < opt_trace_limit o -> s_trace_count s' = num_counted s) -> looping s'.
Proof.
  intros [Hw Ht He Hpt Hc] Ew Ec Ep En. split; rewrite ?Ew, ?Ep, ?Ec; try done. intros Hg H0.
  unfold num_counted at 1 2. rewrite Ec. fold (num_counted s). destruct (Hc Hg H0) as [<- ?].
  split; [by rewrite En, (proj1 (Hc Hg H0))|]. destruct (counted rv); lia.
Qed.

Lemma log_code_traced rv s s2 :
  looping s -> below_limit s -> s_codes s2 = s_codes s -> s_trace_count s2 = s_trace_count s -> world_ok (s_world s2) ->
  t_pid (c_target (w_ctx (s_world s2))) = pid -> (exists evs, samples pid evs /\ w_events (s_world s2) = evs0 ++ evs) ->
  s_ptrace s2 = s_ptrace s ++ (if opt_pause o then [Attach pid; Detach pid] else []) -> traced rv (log_code rv s2).
Proof.
  intros Hl Hb Hc Hn Hw Ht He Hpt. split; cbn; try done.
  - rewrite Hpt, Hc, (l_ptrace _ Hl), length_app. cbn [length]. destruct (opt_pause o); [|done]. by rewrite replicate_snoc.
  - intros Hg H0. specialize (Hb Hg H0). destruct (l_count _ Hl Hg H0) as [Hn0 _]. unfold num_counted in *.
    cbn [s_codes log_code]. rewrite Hc, num_counted_snoc, Hn, Hn0. destruct (counted rv); lia.
Qed.

Lemma end_turn_wp (d : Prop) stop start rv s :
  traced rv s ->
  wpx d (end_turn V o in_pgrep_mode stop start rv)
    (fun go s' => looping s' /\ s_polls s' = s_polls s /\ (go = true -> below_limit s')) s.
Proof.
  intros Htr. unfold end_turn. destruct (negb (Z.land rv PHPSPY_ERR_PID_DEAD =? 0)) eqn:Hdead.
  { apply wpx_ret. split_and!; [|done|done]. eapply traced_looping; try done. intros Hg H0.
    destruct (tr_count _ _ Htr Hg H0) as [<- _]. destruct (counted rv) eqn:Hrv; [|lia].
    by rewrite (counted_not_dead _ Hrv) in Hdead. }
  apply wpx_bind. set (s1 := if (0 <? opt_trace_limit o) && counted rv then count_trace s else s).
  assert (wpx d (if (0 <? opt_trace_limit o) && counted rv then modify count_trace else mret tt) (fun _ s' => s' = s1) s) as Hcount
    by (subst s1; by destruct (_ && _)).
  eapply wpx_mono; [exact Hcount|]. intros _ s' ->.
  assert (s_world s1 = s_world s /\ s_codes s1 = s_codes s /\ s_ptrace s1 = s_ptrace s /\ s_polls s1 = s_polls s)
    as (Hw1 & Hc1 & Hpt1 & Hp1) by (subst s1; by destruct (_ && _)).
  assert (in_pgrep_mode = false -> 0 < opt_trace_limit o -> s_trace_count s1 = num_counted s) as Hn1.
  { intros Hg H0. destruct (tr_count _ _ Htr Hg H0) as [<- ?]. subst s1. rewrite (proj2 (Z.ltb_lt 0 _)) by done. cbn [andb].
    destruct (counted rv); cbn [s_trace_count count_trace]; [rewrite wrap_small|]; lia. }
  pose proof (traced_looping rv s s1 Htr Hw1 Hc1 Hpt1 Hn1) as Hl1. apply wpx_bind, wpx_get.
  destruct ((0 <? opt_trace_limit o) && counted rv && _) eqn:Hstop; [by apply wpx_ret|].
  assert (below_limit s1) as Hb1.
  { intros Hg H0. unfold num_counted. rewrite Hc1. fold (num_counted s). rewrite <-Hn1 by done.
    rewrite (proj2 (Z.ltb_lt 0 _)) in Hstop by done. unfold trace_count in Hstop. rewrite Hg in Hstop.
    destruct (tr_count _ _ Htr Hg H0) as [He ?]. rewrite Hn1, <-He in * by done. destruct (counted rv); cbn [andb] in Hstop; lia. }
  destruct (match stop with Some _ => _ | None => _ end); [by apply wpx_ret|].
  apply wpx_bind, clock_get_wp. intros t2 s5 Hw5 Hc5 Hp5 Hn5 Hpt5. apply wpx_bind, wpx_modify, wpx_ret. split_and!.
  - by apply (looping_same s1).
  - cbn. congruence.
  - intros _ Hg H0. specialize (Hb1 Hg H0). unfold num_counted in *. cbn. by rewrite Hc5.
Qed.

Lemma sample_once_wp (d : Prop) stop s :
  (varpeek_map o <> [] -> d) -> (opt_peek_pdo o = true -> d) -> looping s -> below_limit s ->
  wpx d (sample_once E V o fuel in_pgrep_mode L pid stop)
    (fun go s' => looping s' /\ s_polls s' = s_polls s /\ (go = true -> below_limit s')) s.
Proof.
  intros Hv Hpdo Hl Hb. unfold sample_once. apply wpx_bind, clock_get_wp. intros t s1 Hw1 Hc1 Hp1 Hn1 Ht1.
  pose proof (looping_same s s1 Hw1 Hc1 Hn1 Ht1 Hl) as Hl1.
  apply wpx_bind, trace_once_wp; [done|done|done|]. intros rv s2 Hc2 Hp2 Hn2 Hw2 Hpid2 He2 Hpt2.
  apply wpx_bind, wpx_modify. eapply wpx_mono; [apply end_turn_wp, (log_code_traced rv s1); try done|].
  - intros Hg H0. specialize (Hb Hg H0). unfold num_counted in *. by rewrite Hc1.
  - intros go s' (Hl' & Hp' & Hb'). split_and!; [done| |done]. rewrite Hp'. cbn. congruence.
Qed.

Lemma sample_loop_wp (d : Prop) turns stop s :
  (varpeek_map o <> [] -> d) -> (opt_peek_pdo o = true -> d) ->
  d \/ (exists k, (s_polls s <= k < s_polls s + turns)%nat /\ sys_done V k = true) ->
  looping s -> below_limit s -> wpx d (sample_loop E V o fuel in_pgrep_mode turns L pid stop) (fun _ => looping) s.
Proof.
  intros Hv Hpdo. revert s. induction turns as [|n IH]; intros s Hend Hl Hb; cbn [sample_loop].
  { apply wpx_diverge. destruct Hend as [?|(k & ? & _)]; [done|lia]. }
  apply wpx_bind. unfold wpx at 1, poll_done. set (s1 := Build_session _ _ _ _ _ _ _ _ _ _).
  assert (looping s1) as Hl1 by by apply (looping_same s). destruct (sys_done V (s_polls s)) eqn:Hd; [by apply wpx_ret|].
  apply wpx_bind. eapply wpx_mono; [apply sample_once_wp; try done|]. intros go s2 (Hl2 & Hp2 & Hb2).
  destruct go; [|by apply wpx_ret]. apply IH; [|done|by apply Hb2].
  destruct Hend as [?|(k & Hk & Hdk)]; [by left|right]. exists k. split; [|done]. rewrite Hp2. cbn.
  destruct (decide (k = s_polls s)) as [->|]; [congruence|lia].
Qed.

End lemmas.

(** ** A whole run *)

(** The options and the target that the guarantees cover: no value peeking (its
    printers may not end) and no captured request strings. *)
Record run_ok (o : options) (pid : Z) : Prop := {
  ro_limits : limits_ok o;
  ro_vars : varpeek_map o = [];
  ro_globals : glopeek_map o = [];
  ro_pdo : opt_peek_pdo o = false;
  ro_req : opt_capture_req o = true -> no_request_fields o;
  ro_patt : NUL ∉ opt_libname_awk_patt o;
  ro_pid : - 2 ^ 31 <= pid < 2 ^ 31;
  ro_limit : 0 <= opt_trace_limit o < 2 ^ 64;
}.

Section run.
Context {U : Type} {EH : EventHandler U} {HS : HandlerSafe U} {HL : HandlerLife U}.
Context (E : target_env) (V : sys_env) (ar : arch) (o : options) (fuel : nat) (in_pgrep_mode : bool) (pid : Z).
Context (Ho : run_ok o pid).
Implicit Types s : session U.

(** What every run leaves behind, whether or not it got as far as sampling. *)
Record run_post (rv : Z) s : Prop := {
  rp_events :
    (rv = PHPSPY_OK /\ exists evs, samples pid evs
       /\ w_events (s_world s) = EvInit (opt_event_handler_opts o) :: evs ++ [EvDeinit])
    \/ (rv <> PHPSPY_OK /\ s_codes s = []
        /\ (w_events (s_world s) = [] \/ w_events (s_world s) = [EvInit (opt_event_handler_opts o)]));
  rp_ptrace : s_ptrace s = if opt_pause o then concat (replicate (length (s_codes s)) [Attach pid; Detach pid]) else [];
  rp_count : in_pgrep_mode = false -> 0 < opt_trace_limit o ->
             s_trace_count s = num_counted s /\ num_counted s <= opt_trace_limit o;
  rp_final : rv = PHPSPY_OK -> exists evs u rv', w_events (s_world s) = evs ++ [EvDeinit] /\ eh_inv evs u
             /\ eh_call EvDeinit u = Done (rv', w_udata (s_world s));
}.

Lemma run_samples_wp (d : Prop) turns L s :
  d \/ (exists k, (s_polls s <= k < s_polls s + turns)%nat /\ sys_done V k = true) ->
  looping o in_pgrep_mode pid [EvInit (opt_event_handler_opts o)] s -> below_limit o in_pgrep_mode s ->
  wpx d (run_samples E V o fuel in_pgrep_mode turns L pid) run_post s.
Proof.
  intros Hend Hl Hb. destruct Ho as [H1 H2 H3 H4 H5 H6 H7 H8]. unfold run_samples. apply wpx_bind.
  assert (forall stop s1, s_polls s1 = s_polls s -> looping o in_pgrep_mode pid [EvInit (opt_event_handler_opts o)] s1 ->
    below_limit o in_pgrep_mode s1 ->
    wpx d (sample_loop E V o fuel in_pgrep_mode turns L pid stop;; in_world (emit EvDeinit);; s ← get;
      (if in_pgrep_mode && (0 <? opt_trace_limit o) && (opt_trace_limit o <=? trace_count V in_pgrep_mode s)
       then modify write_done_pipe else mret tt);; mret PHPSPY_OK) run_post s1) as Hrest.
  { intros stop s1 Hp1 Hl1 Hb1. apply wpx_bind. eapply wpx_mono.
    - apply sample_loop_wp; first [done | by split; rewrite ?H2, ?H3 | by rewrite H2 | by rewrite H4 | by rewrite Hp1].
    - intros x s2 Hl2. cbn beta in Hl2. apply wpx_bind, in_world_wp. destruct (l_world _ _ _ _ _ Hl2) as [Hi _].
      destruct (eh_deinit _ _ Hi) as (rv & u & Hrun). eapply emit_wp; [exact Hrun|].
      apply wpx_bind, wpx_get. set (s3 := put_world _ s2).
      assert (run_post PHPSPY_OK s3) as Hpost.
      { split; cbn; [left; split; [done|]|apply (l_ptrace _ _ _ _ _ Hl2)|apply (l_count _ _ _ _ _ Hl2)|intros _; eauto 10].
        destruct (l_events _ _ _ _ _ Hl2) as (evs & Hs & ->). by exists evs. }
      apply wpx_bind. destruct (_ && _ && _); [apply wpx_modify|]; apply wpx_ret; [|done]. by destruct Hpost; split. }
  unfold calc_stop_time. destruct in_pgrep_mode eqn:Hg; [by apply wpx_ret, Hrest|].
  case_match; [|by apply wpx_ret, Hrest]. apply wpx_bind, clock_get_wp. intros t s1 Hw1 Hc1 Hp1 Hn1 Ht1.
  apply wpx_ret, Hrest; [done|by apply (looping_same _ _ _ _ s)|].
  intros _ H0. specialize (Hb eq_refl H0). unfold num_counted in *. by rewrite Hc1.
Qed.

Lemma zero_context_ok : ctx_ok (zero_context pid).
Proof. done. Qed.

(** A run that ends before its first sample. *)
Lemma early_post rv s s' evs :
  rv <> PHPSPY_OK -> evs = [] \/ evs = [EvInit (opt_event_handler_opts o)] -> w_events (s_world s) = evs ->
  s_codes s = [] -> s_ptrace s = [] -> s_trace_count s = 0 -> kept s s' -> run_post rv s'.
Proof.
  intros Hrv Hevs He Hc Hp Hn [K1 K2 K3 K4 _ K5 K6 K7 K8]. split.
  - right. rewrite K2, K6, He. by destruct Hevs as [->| ->]; auto.
  - rewrite K1, K2, Hp, Hc. by destruct (opt_pause o).
  - intros _ H0. rewrite K3, Hn. unfold num_counted. rewrite K2, Hc. cbn. lia.
  - done.
Qed.

Lemma main_pid_wp (d : Prop) turns u :
  d \/ (exists k, (k < turns)%nat /\ sys_done V k = true) -> eh_start u ->
  wpx d (main_pid E V ar o fuel in_pgrep_mode turns pid) run_post (start_session o pid u).
Proof.
  intros Hend Hu. pose proof (ro_patt _ _ Ho) as Hpatt. unfold main_pid. set (s0 := start_session o pid u).
  apply wpx_bind, find_addresses_wp; [done|]. intros rv s1 K1.
  case_bool_decide; [apply wpx_ret; by apply (early_post rv s0 s1 []); auto|].
  apply wpx_bind, in_world_wp.
  destruct (eh_init (opt_event_handler_opts o) (w_udata (s_world s1))) as (rv2 & u2 & Hrun & Hinv); [by rewrite (k_udata _ _ K1)|].
  eapply emit_wp; [exact Hrun|]. set (s2 := put_world _ s1).
  destruct K1 as [K1 K2 K3 K4 _ K5 K6 K7 K8].
  assert (w_events (s_world s2) = [EvInit (opt_event_handler_opts o)] /\ s_codes s2 = [] /\ s_ptrace s2 = []
    /\ s_trace_count s2 = 0 /\ s_polls s2 = 0%nat) as (E2 & C2 & P2 & N2 & D2) by (cbn; by rewrite K6).
  case_bool_decide; [apply wpx_ret; eapply early_post; eauto; done|]. apply wpx_bind, wpx_get.
  assert (forall rv3 s3, kept s2 s3 -> wpx d (if bool_decide (rv3 <> 0) then mret rv3 else
    s ← get;
    match dispatch (s_phpv s) with
    | Some v => match layout_for ar v with Some L => run_samples E V o fuel in_pgrep_mode turns L pid | None => mret PHPSPY_ERR end
    | None => mret PHPSPY_ERR
    end) run_post s3) as Hrest.
  { intros rv3 s3 K. case_bool_decide; [apply wpx_ret; eapply early_post; eauto; done|]. apply wpx_bind, wpx_get.
    destruct (dispatch (s_phpv s3)) as [v|]; [|apply wpx_ret; eapply early_post; eauto; done].
    destruct (layout_for ar v) as [L|]; [|apply wpx_ret; eapply early_post; eauto; done].
    destruct K as [Q1 Q2 Q3 Q4 _ Q5 Q6 Q7 Q8]. apply run_samples_wp.
    - destruct Hend as [?|(k & Hk & Hdk)]; [by left|right]. exists k. rewrite Q4, D2. split; [lia|done].
    - split; rewrite ?Q1, ?Q2, ?Q6, ?E2, ?P2, ?C2.
      + split; [rewrite Q5, Q6, E2; apply Hinv; lia|]. apply Q8. cbn. apply K8, zero_context_ok.
      + rewrite Q7. cbn. by rewrite K7.
      + exists []. split; [constructor|done].
      + by destruct (opt_pause o).
      + intros _ H0'. unfold num_counted. rewrite Q3, Q2, N2, C2. cbn. lia.
    - intros _ H0'. unfold num_counted. rewrite Q2, C2. cbn. lia. }
  apply wpx_bind. destruct (strcmp_eq _ _); [by apply get_php_version_wp|]. by apply wpx_ret, Hrest.
Qed.

End run.

(** ** The trace writer has this life *)

Definition fout_life (o : options) (os : os_env) (Ho : delims_ok o) (Hp : path_ok o) (Hb : 1 <= opt_fout_buffer_size o) :
  @HandlerLife fout (fout_handler o os) (fout_safe o os Ho).
Proof.
  refine {| eh_start := fun f => fo_mutex f = false /\ 0 <= fo_trace_id f < 2 ^ 64 |}.
  - intros opts f [Hm Hid]. destruct (twp_done _ _ _ (fout_init_wp o os False opts f Hp Hb Hm)) as (rv & f' & Hrun & Hpost).
    exists rv, f'. split; [exact Hrun|]. intros ->. destruct Hpost as (_ & Hm' & Hid' & _ & _ & Hok & _).
    destruct (Hok eq_refl) as (Hu & Hl). split_and!; [done|rewrite Hid'; apply Hid..|]. rewrite Hu. by eexists _, _.
  - intros evs f (_ & _ & Hu). unfold eh_call, fout_handler, event_handler_fout, mbind, M_bind, get.
    destruct (fo_udata f) as [|u|]; [done| |done]. by eexists _, _.
Defined.

(** ** Theorems *)

(** C23. The life of a run without [-e], [-g] and PDO peeking (their value
    printers may not return) and with no captured request strings (they may be
    over-read): [main_pid] never faults and, once [done] is set, returns.
    Either it reports success, and the handler has received one [INIT], the
    events of its samples and one [DEINIT]; or it reports an error, took no
    sample, and the handler has received nothing or only [INIT] (then nobody
    sends it [DEINIT]). This holds for every target, shell, clock and handler
    with the contracts [HandlerSafe] and [HandlerLife], in both modes.  The
    pattern for the library name has no NUL, and the pid and the limits of [-n],
    [-N] and [-l] are in the ranges of their C types. *)
Theorem main_pid_lifecycle {U} {EH : EventHandler U} {HS : HandlerSafe U} {HL : HandlerLife U}
    E V ar o fuel in_pgrep_mode turns k pid (u : U) :
  run_ok o pid -> eh_start u -> (k < turns)%nat -> sys_done V k = true ->
  exists rv s, main_pid E V ar o fuel in_pgrep_mode turns pid (start_session o pid u) = Done (rv, s)
    /\ ((rv = PHPSPY_OK /\ exists evs, samples pid evs
           /\ w_events (s_world s) = EvInit (opt_event_handler_opts o) :: evs ++ [EvDeinit])
        \/ (rv <> PHPSPY_OK /\ s_codes s = []
            /\ (w_events (s_world s) = [] \/ w_events (s_world s) = [EvInit (opt_event_handler_opts o)]))).
Proof.
  intros Ho Hu Hk Hd.
  destruct (twp_done _ _ _ (main_pid_wp E V ar o fuel in_pgrep_mode pid Ho False turns u (or_intror (ex_intro _ k (conj Hk Hd))) Hu))
    as (rv & s & Hrun & Hpost). exists rv, s. split; [exact Hrun|apply Hpost].
Qed.

(** C32. The trace limit: outside pgrep mode, a run with [-l n], without [-e],
    [-g] and PDO peeking (their value printers may not return) and with no
    captured request strings (they may be over-read), takes at most [n]
    samples that count, complete or truncated ones, and [trace_count] is their
    number. *)
Theorem main_pid_limit {U} {EH : EventHandler U} {HS : HandlerSafe U} {HL : HandlerLife U}
    E V ar o fuel turns k pid (u : U) :
  run_ok o pid -> eh_start u -> (k < turns)%nat -> sys_done V k = true -> 0 < opt_trace_limit o ->
  exists rv s, main_pid E V ar o fuel false turns pid (start_session o pid u) = Done (rv, s)
    /\ s_trace_count s = Z.of_nat (length (List.filter counted (s_codes s)))
    /\ Z.of_nat (length (List.filter counted (s_codes s))) <= opt_trace_limit o.
Proof.
  intros Ho Hu Hk Hd H0.
  destruct (twp_done _ _ _ (main_pid_wp E V ar o fuel false pid Ho False turns u (or_intror (ex_intro _ k (conj Hk Hd))) Hu))
    as (rv & s & Hrun & Hpost). exists rv, s. split; [exact Hrun|by apply Hpost].
Qed.

(** C33. Pausing is balanced: with [-S] every sample is taken between one
    [PTRACE_ATTACH] and one [PTRACE_DETACH] of the target, whatever they and
    the sample return, so no way out of the loop leaves the target attached;
    without [-S] the target is never attached. The run is without [-e], [-g]
    and PDO peeking (their value printers may not return) and with no captured
    request strings (they may be over-read). *)
Theorem main_pid_pauses {U} {EH : EventHandler U} {HS : HandlerSafe U} {HL : HandlerLife U}
    E V ar o fuel in_pgrep_mode turns k pid (u : U) :
  run_ok o pid -> eh_start u -> (k < turns)%nat -> sys_done V k = true ->
  exists rv s, main_pid E V ar o fuel in_pgrep_mode turns pid (start_session o pid u) = Done (rv, s)
    /\ s_ptrace s = if opt_pause o then concat (replicate (length (s_codes s)) [Attach pid; Detach pid]) else [].
Proof.
  intros Ho Hu Hk Hd.
  destruct (twp_done _ _ _ (main_pid_wp E V ar o fuel in_pgrep_mode pid Ho False turns u (or_intror (ex_intro _ k (conj Hk Hd))) Hu))
    as (rv & s & Hrun & Hpost). exists rv, s. split; [exact Hrun|apply Hpost].
Qed.

(** Version detection from memory: if the target's module entry can be
    read and its version string starts with three bytes that are recognised,
    [get_php_version] assigns that version and runs no shell command. *)
Theorem get_php_version_module {U} E V o pid (s : session U) entry c text v :
  reads_as E (t_basic_functions_module_addr (c_target (w_ctx (s_world s)))) MODULE_SIZE entry ->
  reads_as E (rd64 entry O_MODULE_VERSION) 3 (c :: text) -> c <> NUL ->
  detect_version (c :: text) = Some v ->
  exists s', get_php_version E V o pid s = Done (PHPSPY_OK, s') /\ s_phpv s' = v /\ s_shell s' = s_shell s
    /\ w_events (s_world s') = w_events (s_world s).
Proof.
  intros Hm Hv Hc Hdet.
  destruct (copy_proc_mem_reads E _ _ entry (s_world s) Hm) as (w1 & H1 & Hq1).
  destruct (copy_proc_mem_reads E _ _ (c :: text) w1 Hv) as (w2 & H2 & Hq2).
  set (s2 := put_world w2 (put_world w1 s)). set (phpv := poke (NUL :: uninit E 3) 0 (c :: text)).
  assert (version_from_module E (NUL :: uninit E 3) s = Done (phpv, s2)) as Hmod.
  { unfold version_from_module. rewrite (bind_done get _ s s s eq_refl). cbv zeta.
    rewrite (proj2 (Z.eqb_neq _ _)) by apply Hm.
    assert (in_world (copy_proc_mem E (t_basic_functions_module_addr (c_target (w_ctx (s_world s)))) MODULE_SIZE) s
      = Done ((PHPSPY_OK, entry), put_world w1 s)) as Hr1 by (unfold in_world; by rewrite H1).
    rewrite (bind_done _ _ _ _ _ Hr1). rewrite bool_decide_true by done.
    assert (in_world (copy_proc_mem E (rd64 entry O_MODULE_VERSION) 3) (put_world w1 s) = Done ((PHPSPY_OK, c :: text), s2)) as Hr2
      by (unfold in_world; cbn [s_world put_world]; by rewrite H2).
    by rewrite (bind_done _ _ _ _ _ Hr2). }
  destruct Hv as (_ & Hlen & _). destruct text as [|c2 [|c3 [|]]]; cbn [length] in Hlen; try lia.
  assert (phpv = [c; c2; c3] ++ drop 2 (uninit E 3)) as Hphpv by done.
  assert (detect_version phpv = Some v) as Hd2.
  { rewrite <-Hdet, Hphpv. unfold detect_version, strncmp_eq.
    assert (take 3 (cstr ([c; c2; c3] ++ drop 2 (uninit E 3))) = take 3 (cstr [c; c2; c3])) as ->; [|done].
    cbn. repeat (case_decide; [done|]). done. }
  exists (set_phpv v s2). split_and!; [|done|done|].
  - unfold get_php_version. rewrite (bind_done _ _ _ _ _ Hmod). rewrite bool_decide_false by (rewrite Hphpv; cbn; congruence).
    rewrite (bind_done _ _ s2 (Some phpv) s2 eq_refl). by rewrite Hd2.
  - cbn. destruct Hq1 as (_ & _ & <-), Hq2 as (_ & _ & ->). done.
Qed.

(** ** Witnesses *)

Definition demo_sys : sys_env := {|
  sys_shell := demo_shell; sys_clock := fun n => Some (at_time (Z.of_nat n) 0); sys_done := fun n => (5 <=? n)%nat;
  sys_ptrace := fun _ => 0; sys_waitpid := fun _ => true; sys_others := fun _ => 0 |}.

(** [-S -l 2 -V 80 --addr-executor-globals=1000]. *)
Definition run_options : options :=
  set_opt_pause true (set_opt_trace_limit 2 (set_opt_phpv (cs "80") (set_opt_executor_globals_addr 4096 default_options))).

Lemma run_options_ok : run_ok run_options 7.
Proof. split; first [done | by split; vm_compute | by apply (bool_decide_unpack _)]. Qed.

Definition run_life : @HandlerLife fout (fout_handler run_options good_os) (fout_safe run_options good_os (std_delims_ok run_options (conj eq_refl (or_introl eq_refl)))) :=
  fout_life run_options good_os _ (path_ok_plain run_options eq_refl) ltac:(by vm_compute).

Definition demo_run : outcome (Z * session fout) :=
  main_pid (EH := fout_handler run_options good_os) stack_env demo_sys X86_64 run_options 9 false 10 7
    (start_session run_options 7 fresh_fout).

Lemma main_pid_lifecycle_witness : exists rv s, demo_run = Done (rv, s) /\ rv = PHPSPY_OK
  /\ exists evs, samples 7 evs /\ w_events (s_world s) = EvInit None :: evs ++ [EvDeinit].
Proof.
  destruct (main_pid_lifecycle (HL := run_life) stack_env demo_sys X86_64 run_options 9 false 10 5 7 fresh_fout run_options_ok)
    as (rv & s & Hrun & Hev); [done|lia|done|].
  exists rv, s. split; [exact Hrun|]. destruct Hev as [[Hrv Hev]|[Hrv _]]; [by split|].
  exfalso. apply Hrv. vm_compute in Hrun. by injection Hrun.
Defined.

Lemma main_pid_limit_witness : exists rv s, demo_run = Done (rv, s) /\ s_trace_count s <= 2.
Proof.
  destruct (main_pid_limit (HL := run_life) stack_env demo_sys X86_64 run_options 9 10 5 7 fresh_fout run_options_ok)
    as (rv & s & Hrun & Hn & Hle); [done|lia|done|done|].
  exists rv, s. split; [exact Hrun|]. rewrite Hn. exact Hle.
Defined.

Lemma main_pid_pauses_witness : exists rv s, demo_run = Done (rv, s)
  /\ s_ptrace s = concat (replicate (length (s_codes s)) [Attach 7; Detach 7]).
Proof.
  apply (main_pid_pauses (HL := run_life) stack_env demo_sys X86_64 run_options 9 false 10 5 7 fresh_fout run_options_ok); [done|lia|done].
Defined.

(** A target whose module entry names PHP 8.3.0. *)
Definition version_image : list (Z * bytes) :=
  [(4096, repeat NUL 88 ++ enc 8 8192); (8192, cs "8.3.0")].

Definition version_session : session unit :=
  put_world {| w_reads := 0; w_ctx := {| c_target := put_module 4096 (c_target null_ctx); c_frame := c_frame null_ctx;
    c_request := c_request null_ctx; c_buf := c_buf null_ctx; c_buf_len := 0; c_stack_ptrs := [] |}; w_udata := tt; w_events := [] |}
    (start_session run_options 1 tt).

Lemma get_php_version_module_witness : exists s',
  get_php_version (image_env version_image) demo_sys run_options 1 version_session = Done (PHPSPY_OK, s')
  /\ s_phpv s' = cs "83".
Proof.
  destruct (get_php_version_module (image_env version_image) demo_sys run_options 1 version_session
    (repeat NUL 88 ++ enc 8 8192) "8"%char (cs ".3") (cs "83")) as (s' & H1 & H2 & _).
  - by apply image_reads; [vm_compute|done|done].
  - by apply image_reads; [vm_compute|done|done].
  - done.
  - reflexivity.
  - by exists s'.
Defined.
