(* ===== verification/Usage.v ===== *)
(** * Usage: the help text and the version line (phpspy.c)

    [usage_lines] is the text [usage] prints, a line per [fprintf], with the
    current values of the options as the defaults; [version_line] is what [-v]
    prints in a build without [USE_ZEND] and [COMMIT]. *)
From S2P Require Import Prelude CLib Context.

Definition usage_lines (o : options) : list bytes := [
  cs "Usage:";
  cs "  phpspy [options] -p <pid>";
  cs "  phpspy [options] -P <pgrep-args>";
  cs "  phpspy [options] [--] <cmd>";
  cs "";
  cs "Options:";
  cs "  -h, --help                         Show this help";
  cs "  -p, --pid=<pid>                    Trace PHP process at `pid`";
  cs "  -P, --pgrep=<args>                 Concurrently trace processes that";
  cs "                                       match pgrep `args` (see also `-T`)";
  cs "  -T, --threads=<num>                Set number of threads to use with `-P`";
  cs "                                       (default: " ++ fmt_d (opt_num_workers o) ++ cs ")";
  cs "  -s, --sleep-ns=<ns>                Sleep `ns` nanoseconds between traces";
  cs "                                       (see also `-H`) (default: " ++ fmt_d (opt_sleep_ns o) ++ cs ")";
  cs "  -H, --rate-hz=<hz>                 Trace `hz` times per second";
  cs "                                       (see also `-s`) (default: " ++ fmt_u (1000000000 / u64 (opt_sleep_ns o)) ++ cs ")";
  cs "  -V, --php-version=<ver>            Set PHP version";
  cs "                                       (default: " ++ opt_phpv o ++ cs ";";
  cs "                                       supported: 70 71 72 73 74 80 81 82 83";
  cs "                                       84 85 86)";
  cs "  -l, --limit=<num>                  Limit total number of traces to capture";
  cs "                                       (approximate limit in pgrep mode)";
  cs "                                       (default: " ++ fmt_u (opt_trace_limit o) ++ cs "; 0=unlimited)";
  cs "  -i, --time-limit-ms=<ms>           Stop tracing after `ms` milliseconds";
  cs "                                       (second granularity in pgrep mode)";
  cs "                                       (default: " ++ fmt_u (u64 (opt_time_limit_ms o)) ++ cs "; 0=unlimited)";
  cs "  -n, --max-depth=<max>              Keep <max> frames from the";
  cs "                                       leaf stack frame";
  cs "                                       (default: " ++ fmt_d (opt_max_stack_depth_from_leaf o) ++ cs "; -1=off)";
  cs "  -N, --max-depth-outer=<max>        Keep <max> frames from the";
  cs "                                       root stack frame";
  cs "                                       (default: " ++ fmt_d (opt_max_stack_depth_from_root o) ++ cs "; -1=off)";
  cs "  -r, --request-info=<opts>          Set request info parts to capture";
  cs "                                       (q=query c=cookie u=uri p=path";
  cs "                                       capital=negation)";
  cs "                                       (default: QCUP; none)";
  cs "  -m, --memory-usage                 Capture peak and current memory usage";
  cs "                                       with each trace (requires target PHP";
  cs "                                       process to have debug symbols)";
  cs "  -o, --output=<path>                Write phpspy output to `path`. If a";
  cs "                                       `%d` is present, replace it with a";
  cs "                                       thread id. Useful in `-P` mode.";
  cs "                                       (default: " ++ opt_path_output o ++ cs "; -=stdout)";
  cs "  -O, --child-stdout=<path>          Write child stdout to `path`.";
  cs "                                       Replace `%d` with child pid.";
  cs "                                       (default: " ++ opt_path_child_out o ++ cs "; -=stdout)";
  cs "  -E, --child-stderr=<path>          Write child stderr to `path`";
  cs "                                       Replace `%d` with child pid.";
  cs "                                       (default: " ++ opt_path_child_err o ++ cs "; -=stderr)";
  cs "      --addr-executor-globals=<hex>  Set address of executor_globals in hex";
  cs "                                       (default: " ++ fmt_u (opt_sapi_globals_addr o) ++ cs "; 0=find dynamically)";
  cs "      --addr-sapi-globals=<hex>      Set address of sapi_globals in hex";
  cs "                                       (default: " ++ fmt_u (opt_executor_globals_addr o) ++ cs "; 0=find dynamically)";
  cs "  -1, --single-line                  Output in single-line mode";
  cs "  -b, --buffer-size=<size>           Set max bytes per write to `size`.";
  cs "                                       Traces larger than this are split";
  cs "                                       into chunks, each ending with a";
  cs "                                       `# trace_id = <id>.<chunk>` record.";
  cs "                                       In `-P` mode, if writing to stdout,";
  cs "                                       setting this above `PIPE_BUF` (4096)";
  cs "                                       may lead to interleaved writes,";
  cs "                                       unless `--event-handler-opts m` is";
  cs "                                       specified.";
  cs "                                       (default: " ++ fmt_d (opt_fout_buffer_size o) ++ cs ")";
  cs "  -f, --filter=<regex>               Filter output by POSIX regex";
  cs "                                       (default: none)";
  cs "  -F, --filter-negate=<regex>        Same as `-f` except negated";
  cs "  -d, --verbose-fields=<opts>        Set verbose output fields";
  cs "                                       (p=pid t=timestamp";
  cs "                                       capital=negation)";
  cs "                                       (default: PT; none)";
  cs "  -c, --continue-on-error            Attempt to continue tracing after";
  cs "                                       encountering an error";
  cs "  -q, --quiet                        Suppress errors and warnings on stderr";
  cs "      --libname-awk-patt=<patt>      Awk pattern to match name of PHP lib";
  cs "                                       (default: " ++ opt_libname_awk_patt o ++ cs ")";
  cs "  -#, --comment=<any>                Ignored; intended for self-documenting";
  cs "                                       commands";
  cs "  -@, --nothing                      Ignored";
  cs "  -v, --version                      Print phpspy version and exit";
  cs "";
  cs "Experimental options:";
  cs "      --event-handler=<handler>      Set event handler (fout, callgrind)";
  cs "                                       (default: fout)";
  cs "      --event-handler-opts=<opts>    Set event handler options";
  cs "                                       (fout: m=use mutex to prevent";
  cs "                                       interlaced writes on stdout in `-P`";
  cs "                                       mode)";
  cs "  -S, --pause-process                Pause process while reading stacktrace";
  cs "                                       (unsafe for production!)";
  cs "  -e, --peek-var=<varspec>           Peek at the contents of the var located";
  cs "                                       at `varspec`, which has the format:";
  cs "                                       <varname>@<path>:<lineno>";
  cs "                                       <varname>@<path>:<start>-<end>";
  cs "                                       e.g., xyz@/path/to.php:10-20";
  cs "  -D, --peek-pdo                     Peek at the SQL and arguments of PDO";
  cs "                                       queries. Emits varpeek events.";
  cs "  -g, --peek-global=<glospec>        Peek at the contents of a global var";
  cs "                                       located at `glospec`, which has";
  cs "                                       the format: <global>.<key>";
  cs "                                       where <global> is one of:";
  cs "                                       post|get|cookie|server|files|globals";
  cs "                                       e.g., server.REQUEST_TIME";
  cs "  -t, --top                          Show dynamic top-like output"].

Definition usage_text (o : options) : bytes := concat (map (fun l => l ++ [NL]) (usage_lines o)).

Definition PHPSPY_VERSION : bytes := cs "0.8.0".

Definition version_line : bytes := cs "phpspy v" ++ PHPSPY_VERSION ++ cs " USE_ZEND=n COMMIT=-" ++ [NL].
