(* ===== verification/Options.v ===== *)
(** * Options: the command line (parse_opts and what it calls, phpspy.c)

    A parser action runs on the option globals.  [usage] ends the program, and
    so may leave a parser action without a result; a division by zero on the way
    is a [Crash], a loop that never ends a [Hang].  [Exit] has the text that [usage]
    or [-v] printed; messages of [log_error] are not part of it.  [getopt_long] is modelled
    with its permutation of the argument vector. *)
From S2P Require Import Prelude CLib Context OptionFields Usage.

(** ** Actions *)

Inductive ended (A : Type) : Type :=
| Exit (status : Z) (text : bytes)
| Crash (f : fault)
| Hang
| Go (a : A).
Arguments Exit {A} _ _.
Arguments Crash {A} _.
Arguments Hang {A}.
Arguments Go {A} _.

Definition PM (A : Type) : Type := options -> ended (A * options).

#[export] Instance PM_ret : MRet PM := fun A a o => Go (a, o).
#[export] Instance PM_bind : MBind PM := fun A B k m o =>
  match m o with
  | Go (a, o') => k a o'
  | Exit n s => Exit n s
  | Crash f => Crash f
  | Hang => Hang
  end.

(** Assignment to option globals. *)
Definition assign (f : options -> options) : PM unit := fun o => Go (tt, f o).

(** Prints the help unless [-q] silences it; the text has the quotient
    [1000000000UL/opt_sleep_ns]. *)
Definition usage {A} (to_stderr : bool) (exit_code : Z) : PM A := fun o =>
  if opt_quiet o && to_stderr then Exit exit_code []
  else if opt_sleep_ns o =? 0 then Crash DivByZero
  else Exit exit_code (usage_text o).

(** ** Numbers *)

Definition strtol_with_min_or_exit (str : bytes) (min : Z) : PM Z :=
  let '(result, consumed) := strtol str 10 in
  if (consumed =? 0)%nat || negb (consumed =? length str)%nat then usage true 1
  else if result <? min then usage true 1
  else mret result.

Definition atoi_with_min_or_exit (str : bytes) (min : Z) : PM Z :=
  result ← strtol_with_min_or_exit str min;
  if INT_MAX <? result then usage true 1 else mret (s32 result).

(** ** Peek specifications *)

(** [HASH_FIND_STR] and [HASH_ADD_STR] on an insertion-ordered table. *)
Definition find_entry (key : bytes) (m : list varpeek_entry) : option varpeek_entry :=
  List.find (fun e => bool_decide (ve_filename_lineno e = key)) m.

Fixpoint add_var (key name : bytes) (m : list varpeek_entry) : list varpeek_entry :=
  match m with
  | [] => [{| ve_filename_lineno := key; ve_varmap := [name] |}]
  | e :: m' =>
    if bool_decide (ve_filename_lineno e = key)
    then {| ve_filename_lineno := ve_filename_lineno e; ve_varmap := ve_varmap e ++ [name] |} :: m'
    else e :: add_var key name m'
  end.

Definition varpeek_key (file : bytes) (lineno : Z) : bytes :=
  snprintf_cstr PHPSPY_STR_SIZE (file ++ ":"%char :: fmt_d (s32 lineno)).

(** [for (lineno = line_start; lineno <= line_end; lineno++)] on [uint32_t]. *)
Fixpoint varpeek_loop (n : nat) (file name : bytes) (lineno line_end : Z) (m : list varpeek_entry)
    : option (list varpeek_entry) :=
  if line_end <? lineno then Some m else
  match n with
  | O => None
  | S n' => varpeek_loop n' file name (u32 (lineno + 1)) line_end (add_var (varpeek_key file lineno) name m)
  end.

(** File, variable, first and last line of [var@file:line] or [var@file:start-end]. *)
Definition varpeek_spec (varspec : bytes) : option (bytes * bytes * Z * Z) :=
  match strchr varspec "@"%char, strrchr varspec ":"%char with
  | Some at_sign, Some colon =>
    let dash := strrchr (drop colon varspec) "-"%char in
    let line_start := u32 (fst (strtoull (drop (colon + 1) varspec) 10)) in
    let line_end := match dash with
                    | Some d => u32 (fst (strtoull (drop (colon + d + 1) varspec) 10))
                    | None => line_start
                    end in
    let file := fmt_prec (Z.of_nat colon - Z.of_nat at_sign - 1) (drop (at_sign + 1) varspec) in
    let name := snprintf_cstr PHPSPY_STR_SIZE (take at_sign varspec) in
    Some (file, name, line_start, line_end)
  | _, _ => None
  end.

Definition varpeek_add (varspec : bytes) : PM unit :=
  match varpeek_spec varspec with
  | Some (file, name, line_start, line_end) => fun o =>
    match varpeek_loop (Z.to_nat (line_end - line_start + 1)) file name line_start line_end (varpeek_map o) with
    | Some m => Go (tt, set_varpeek_map m o)
    | None => Hang
    end
  | None => usage true 1
  end.

(** The superglobal that the part before the dot names. *)
Definition gloname_of (glospec : bytes) (dot : nat) : option bytes :=
  let named s := strncmp_eq (cs s) glospec dot in
  if named "post."%string then Some (cs "_POST")
  else if named "get."%string then Some (cs "_GET")
  else if named "cookie."%string then Some (cs "_COOKIE")
  else if named "server."%string then Some (cs "_SERVER")
  else if named "files."%string then Some (cs "_FILES")
  else if named "globals."%string then Some (cs "")
  else None.

Definition new_glopeek (glospec : bytes) (dot : nat) (gloname : bytes) : glopeek_entry :=
  {| ge_key := snprintf_cstr PHPSPY_STR_SIZE glospec; ge_gloname := gloname;
     ge_varname := snprintf_cstr PHPSPY_STR_SIZE (drop (dot + 1) glospec) |}.

Definition glopeek_add (glospec : bytes) : PM unit :=
  match strchr glospec "."%char with
  | None => usage true 1
  | Some dot => fun o =>
    if existsb (fun g => bool_decide (ge_key g = glospec)) (glopeek_map o) then Go (tt, o) else
    match gloname_of glospec dot with
    | Some gloname => Go (tt, set_glopeek_map (glopeek_map o ++ [new_glopeek glospec dot gloname]) o)
    | None => usage true 1 o
    end
  end.

(** ** The switch of [parse_opts] *)

Definition PHPSPY_LONGOPT_ADDR_EXECUTOR_GLOBALS : Z := 256.
Definition PHPSPY_LONGOPT_ADDR_SAPI_GLOBALS : Z := 257.
Definition PHPSPY_LONGOPT_LIBNAME_AWK_PATT : Z := 258.
Definition PHPSPY_LONGOPT_EVENT_HANDLER : Z := 259.
Definition PHPSPY_LONGOPT_EVENT_HANDLER_OPTS : Z := 260.

(** [-r]: one letter of the request fields. *)
Definition request_field (o : options) (c : ascii) : options :=
  if bool_decide (c = "q"%char) then set_opt_capture_req_qstring true o
  else if bool_decide (c = "c"%char) then set_opt_capture_req_cookie true o
  else if bool_decide (c = "u"%char) then set_opt_capture_req_uri true o
  else if bool_decide (c = "p"%char) then set_opt_capture_req_path true o
  else if bool_decide (c = "Q"%char) then set_opt_capture_req_qstring false o
  else if bool_decide (c = "C"%char) then set_opt_capture_req_cookie false o
  else if bool_decide (c = "U"%char) then set_opt_capture_req_uri false o
  else if bool_decide (c = "P"%char) then set_opt_capture_req_path false o
  else o.

(** [-d]: one letter of the verbose fields. *)
Definition verbose_field (o : options) (c : ascii) : options :=
  if bool_decide (c = "p"%char) then set_opt_verbose_fields_pid true o
  else if bool_decide (c = "t"%char) then set_opt_verbose_fields_ts true o
  else if bool_decide (c = "P"%char) then set_opt_verbose_fields_pid false o
  else if bool_decide (c = "T"%char) then set_opt_verbose_fields_ts false o
  else o.

Section switch.
(** [regcomp] with the flags of the source, and the matcher it compiles. *)
Context (regcomp : bytes -> option (bytes -> bool)).

Definition opt_filter (negate : bool) (optarg : bytes) : PM unit :=
  match regcomp optarg with
  | Some re => assign (fun o => set_opt_filter_negate negate (set_opt_filter_re (Some re) o))
  | None => usage true 1
  end.

Definition opt_event_handler_case (optarg : bytes) : PM unit :=
  if strcmp_eq optarg (cs "fout") then assign (set_opt_event_handler HandlerFout)
  else if strcmp_eq optarg (cs "callgrind") then assign (set_opt_event_handler HandlerCallgrind)
  else usage true 1.

(** The cases by the value [getopt_long] returns, each given [optarg]. *)
Definition opt_cases : list (Z * (bytes -> PM unit)) := [
  (code "h", fun _ => usage false 0);
  (code "p", fun a => v ← atoi_with_min_or_exit a 1; assign (set_opt_pid v));
  (code "P", fun a => assign (set_opt_pgrep_args (Some a)));
  (code "T", fun a => v ← atoi_with_min_or_exit a 1; assign (set_opt_num_workers v));
  (code "s", fun a => v ← strtol_with_min_or_exit a 1; assign (set_opt_sleep_ns v));
  (code "H", fun a => v ← strtol_with_min_or_exit a 1; assign (set_opt_sleep_ns (1000000000 / v)));
  (code "V", fun a => assign (set_opt_phpv a));
  (code "l", fun a => assign (set_opt_trace_limit (fst (strtoull a 10))));
  (code "i", fun a => v ← strtol_with_min_or_exit a 0; assign (set_opt_time_limit_ms v));
  (code "n", fun a => v ← atoi_with_min_or_exit a (-1); assign (set_opt_max_stack_depth_from_leaf v));
  (code "N", fun a => v ← atoi_with_min_or_exit a 0; assign (set_opt_max_stack_depth_from_root v));
  (code "r", fun a => assign (fun o =>
     let o := fold_left request_field a o in
     set_opt_capture_req (opt_capture_req_qstring o || opt_capture_req_cookie o
                          || opt_capture_req_uri o || opt_capture_req_path o) o));
  (code "m", fun _ => assign (set_opt_capture_mem true));
  (code "o", fun a => assign (set_opt_path_output a));
  (code "O", fun a => assign (set_opt_path_child_out a));
  (code "E", fun a => assign (set_opt_path_child_err a));
  (PHPSPY_LONGOPT_ADDR_EXECUTOR_GLOBALS, fun a => assign (set_opt_executor_globals_addr (fst (strtoull a 16))));
  (PHPSPY_LONGOPT_ADDR_SAPI_GLOBALS, fun a => assign (set_opt_sapi_globals_addr (fst (strtoull a 16))));
  (code "1", fun _ => assign (fun o => set_opt_trace_delim NL (set_opt_frame_delim TAB o)));
  (code "b", fun a => v ← atoi_with_min_or_exit a 1; assign (set_opt_fout_buffer_size v));
  (code "f", opt_filter false);
  (code "F", opt_filter true);
  (code "d", fun a => assign (fun o => fold_left verbose_field a o));
  (code "c", fun _ => assign (set_opt_continue_on_error true));
  (code "q", fun _ => assign (set_opt_quiet true));
  (PHPSPY_LONGOPT_EVENT_HANDLER, opt_event_handler_case);
  (PHPSPY_LONGOPT_EVENT_HANDLER_OPTS, fun a => assign (set_opt_event_handler_opts (Some a)));
  (code "#", fun _ => mret tt);
  (code "@", fun _ => mret tt);
  (code "v", fun _ _ => Exit 0 version_line);
  (code "S", fun _ => assign (set_opt_pause true));
  (code "e", varpeek_add);
  (code "g", glopeek_add);
  (code "t", fun _ => assign (set_opt_top_mode true));
  (PHPSPY_LONGOPT_LIBNAME_AWK_PATT, fun a => assign (set_opt_libname_awk_patt a));
  (code "D", fun _ => assign (set_opt_peek_pdo true))].

Fixpoint run_case (cases : list (Z * (bytes -> PM unit))) (c : Z) (optarg : bytes) : PM unit :=
  match cases with
  | [] => mret tt
  | (n, h) :: cases' => if n =? c then h optarg else run_case cases' c optarg
  end.

End switch.

(** ** [getopt_long]

    GNU [getopt_long] in its default (permuting) order: [g_argv] is the
    argument vector as permuted so far, [g_next] the rest of the cluster of
    short options being read, and [g_first .. g_last] the operands skipped so
    far. *)

Record getopt_state := {
  g_argv : list bytes; g_optind : nat; g_next : bytes; g_first : nat; g_last : nat;
}.

(** [?], for an unknown or incomplete option. *)
Definition GETOPT_ERR : Z := 63.

Definition optstring : bytes := cs "hp:P:T:te:s:H:V:l:i:n:N:r:mo:O:E:1b:f:F:d:cq#:@vSe:g:Dt".

(** Name, whether it takes an argument, value. *)
Definition long_opts : list (bytes * bool * Z) := [
  (cs "help", false, code "h"); (cs "pid", true, code "p"); (cs "pgrep", true, code "P");
  (cs "threads", true, code "T"); (cs "sleep-ns", true, code "s"); (cs "rate-hz", true, code "H");
  (cs "php-version", true, code "V"); (cs "limit", true, code "l"); (cs "time-limit-ms", true, code "i");
  (cs "max-depth", true, code "n"); (cs "max-depth-outer", true, code "N"); (cs "request-info", true, code "r");
  (cs "memory-usage", false, code "m"); (cs "output", true, code "o"); (cs "child-stdout", true, code "O");
  (cs "child-stderr", true, code "E");
  (cs "addr-executor-globals", true, PHPSPY_LONGOPT_ADDR_EXECUTOR_GLOBALS);
  (cs "addr-sapi-globals", true, PHPSPY_LONGOPT_ADDR_SAPI_GLOBALS);
  (cs "single-line", false, code "1"); (cs "buffer-size", true, code "b"); (cs "filter", true, code "f");
  (cs "filter-negate", true, code "F"); (cs "verbose-fields", true, code "d");
  (cs "continue-on-error", false, code "c"); (cs "quiet", false, code "q");
  (cs "event-handler", true, PHPSPY_LONGOPT_EVENT_HANDLER);
  (cs "event-handler-opts", true, PHPSPY_LONGOPT_EVENT_HANDLER_OPTS);
  (cs "comment", true, code "#"); (cs "nothing", false, code "@"); (cs "version", false, code "v");
  (cs "pause-process", false, code "S"); (cs "peek-var", true, code "e"); (cs "peek-global", true, code "g");
  (cs "peek-pdo", false, code "D"); (cs "top", false, code "t");
  (cs "libname-awk-patt", true, PHPSPY_LONGOPT_LIBNAME_AWK_PATT)].

(** An operand: does not start with a dash, or is a lone dash. *)
Definition operand (a : bytes) : bool :=
  match a with
  | "-"%char :: _ :: _ => false
  | _ => true
  end.

(** Moves the operands of [g_first .. g_last] behind the options read since. *)
Definition exchange (s : getopt_state) : getopt_state :=
  let skipped := peek (g_argv s) (g_first s) (g_last s - g_first s) in
  let options := peek (g_argv s) (g_last s) (g_optind s - g_last s) in
  {| g_argv := take (g_first s) (g_argv s) ++ options ++ skipped ++ drop (g_optind s) (g_argv s);
     g_optind := g_optind s; g_next := g_next s;
     g_first := g_first s + (g_optind s - g_last s); g_last := g_optind s |}.

Definition settle (s : getopt_state) : getopt_state :=
  if bool_decide (g_first s <> g_last s) && bool_decide (g_last s <> g_optind s) then exchange s
  else if bool_decide (g_last s <> g_optind s)
  then {| g_argv := g_argv s; g_optind := g_optind s; g_next := g_next s; g_first := g_optind s; g_last := g_last s |}
  else s.

Fixpoint skip_operands (args : list bytes) : nat :=
  match args with
  | a :: args' => if operand a then S (skip_operands args') else 0
  | [] => 0
  end.

Definition at_optind (n : nat) (s : getopt_state) : getopt_state :=
  {| g_argv := g_argv s; g_optind := n; g_next := []; g_first := g_first s; g_last := g_last s |}.

(** One character of a cluster; [s] has it at the head of [g_next]. *)
Definition short_option (c : ascii) (rest : bytes) (s : getopt_state) : Z * bytes * getopt_state :=
  let s := {| g_argv := g_argv s; g_optind := (match rest with [] => S (g_optind s) | _ => g_optind s end);
              g_next := rest; g_first := g_first s; g_last := g_last s |} in
  match strchr optstring c with
  | None => (GETOPT_ERR, [], s)
  | Some i =>
    if bool_decide (c = ":"%char) then (GETOPT_ERR, [], s)
    else if bool_decide (optstring !! S i = Some ":"%char) then
      match rest with
      | _ :: _ => (code c, rest, at_optind (S (g_optind s)) s)
      | [] =>
        match g_argv s !! g_optind s with
        | Some a => (code c, a, at_optind (S (g_optind s)) s)
        | None => (GETOPT_ERR, [], s)
        end
      end
    else (code c, [], s)
  end.

Definition find_long (name : bytes) : option (bool * Z) :=
  match List.filter (fun l => bool_decide (fst (fst l) = name)) long_opts with
  | (_, arg, v) :: _ => Some (arg, v)
  | [] =>
    match List.filter (fun l => prefix_of name (fst (fst l))) long_opts with
    | [(_, arg, v)] => Some (arg, v)
    | _ => None
    end
  end.

Definition long_option (text : bytes) (s : getopt_state) : Z * bytes * getopt_state :=
  let eq := memchr "="%char text in
  let name := match eq with Some i => take i text | None => text end in
  let s := at_optind (S (g_optind s)) s in
  match find_long name, eq with
  | None, _ => (GETOPT_ERR, [], s)
  | Some (true, v), Some i => (v, drop (i + 1) text, s)
  | Some (false, _), Some _ => (GETOPT_ERR, [], s)
  | Some (false, v), None => (v, [], s)
  | Some (true, v), None =>
    match g_argv s !! g_optind s with
    | Some a => (v, a, at_optind (S (g_optind s)) s)
    | None => (GETOPT_ERR, [], s)
    end
  end.

(** The value ([-1] at the end of the options), [optarg], the state. *)
Definition getopt_long (s : getopt_state) : Z * bytes * getopt_state :=
  match g_next s with
  | c :: rest => short_option c rest s
  | [] =>
    let s := settle s in
    let optind := (g_optind s + skip_operands (drop (g_optind s) (g_argv s)))%nat in
    let s := {| g_argv := g_argv s; g_optind := optind; g_next := []; g_first := g_first s; g_last := optind |} in
    match g_argv s !! optind with
    | None => (-1, [], if bool_decide (g_first s <> g_last s) then at_optind (g_first s) s else s)
    | Some a =>
      if bool_decide (a = cs "--") then
        let s := at_optind (S optind) s in
        let s := if bool_decide (g_first s <> g_last s) then exchange s
                 else {| g_argv := g_argv s; g_optind := g_optind s; g_next := []; g_first := g_optind s; g_last := g_last s |} in
        (-1, [], if bool_decide (g_first s <> length (g_argv s)) then at_optind (g_first s) s
                 else at_optind (length (g_argv s)) s)
      else match a with
           | _ :: "-"%char :: text => long_option text s
           | _ :: c :: rest => short_option c rest s
           | _ => (-1, [], s) (* not an option *)
           end
    end
  end.

(** ** [parse_opts] *)

Section parse.
Context (regcomp : bytes -> option (bytes -> bool)).

Fixpoint parse_loop (fuel : nat) (s : getopt_state) : PM getopt_state :=
  match fuel with
  | O => fun _ => Hang
  | S f =>
    match g_argv s !! g_optind s with
    | Some ("-"%char :: _) =>
      let '(c, optarg, s') := getopt_long s in
      if c =? -1 then mret s' else run_case (opt_cases regcomp) c optarg;; parse_loop f s'
    | _ => mret s
    end
  end.

(** Every call of [getopt_long] consumes a byte of the vector. *)
Definition parse_fuel (argv : list bytes) : nat := S (S (sum_list (map (fun a => S (length a)) argv))).

Definition parse_opts (argv : list bytes) : PM getopt_state :=
  parse_loop (parse_fuel argv) {| g_argv := argv; g_optind := 1; g_next := []; g_first := 1; g_last := 1 |}.

End parse.
