(* ===== verification/OptionsTheorems.v ===== *)
(** * OptionsTheorems: what the command line parser guarantees

    The ranges the other components rely on, termination, and the line ranges of
    peek specifications. *)
From S2P Require Import Prelude CLib Layout Context Zval Trace TraceSafe Fout FoutSpec FoutWrite FoutHandler FoutTheorems.
From S2P Require Import OptionFields Options.

(** ** The invariant of the option globals *)

Record opts_core (o : options) : Prop := {
  oi_limits : limits_ok o;
  oi_delims : std_delims o;
  oi_buffer : 1 <= opt_fout_buffer_size o <= INT_MAX;
  oi_peeks : peeks_ok o;
  oi_workers : 1 <= opt_num_workers o <= INT_MAX;
  oi_sleep : 0 <= opt_sleep_ns o <= LONG_MAX;
  oi_time : 0 <= opt_time_limit_ms o <= LONG_MAX;
  oi_pid : opt_pid o = -1 \/ 1 <= opt_pid o <= INT_MAX;
}.

(** [opt_capture_req] summarises the request fields. *)
Definition req_fields (o : options) : bool :=
  opt_capture_req_qstring o || opt_capture_req_cookie o || opt_capture_req_uri o || opt_capture_req_path o.
Definition opts_inv (o : options) : Prop := opts_core o /\ opt_capture_req o = req_fields o.

Definition preserves {A} (m : PM A) : Prop :=
  forall o o' a, opts_inv o -> m o = Go (a, o') -> opts_inv o'.

Lemma default_inv : opts_inv default_options.
Proof. split; [split|done]; first [by vm_compute | by (split; vm_compute; auto) | by left | by repeat constructor]. Qed.

(** ** Actions *)

Lemma usage_never {A} b n o (r : A * options) : usage b n o <> Go r.
Proof. unfold usage. by repeat case_match. Qed.

Lemma strtol_range s base : - 2 ^ 63 <= fst (strtol s base) <= LONG_MAX.
Proof. unfold strtol, LONG_MAX. destruct (scan_number base s) as [[neg v] n]. cbn [fst]. lia. Qed.

Lemma strtol_with_min_go s min o v o' :
  strtol_with_min_or_exit s min o = Go (v, o') -> o' = o /\ min <= v <= LONG_MAX /\ strtol s 10 = (v, length s).
Proof.
  unfold strtol_with_min_or_exit. pose proof (strtol_range s 10) as Hr. destruct (strtol s 10) as [r n]. cbn [fst] in Hr.
  destruct ((n =? 0)%nat || _) eqn:Hn; [by intros ?%usage_never|]. destruct (Z.ltb_spec r min); [by intros ?%usage_never|].
  intros [= <- <-]. apply orb_false_iff in Hn as [_ Hn]. apply negb_false_iff, Nat.eqb_eq in Hn. subst n. split_and!; [done|lia..|done].
Qed.

Lemma atoi_with_min_go s min o v o' : -1 <= min ->
  atoi_with_min_or_exit s min o = Go (v, o') -> o' = o /\ min <= v <= INT_MAX.
Proof.
  intros Hmin. unfold atoi_with_min_or_exit, mbind, PM_bind.
  destruct (strtol_with_min_or_exit s min o) as [| | |[r o1]] eqn:H; [done..|].
  apply strtol_with_min_go in H as (-> & Hr & _). unfold INT_MAX in *.
  destruct (Z.ltb_spec (2 ^ 31 - 1) r); [by intros ?%usage_never|]. intros [= <- <-].
  rewrite swrap_small by lia. split; [done|lia].
Qed.

Lemma preserves_assign f : (forall o, opts_inv o -> opts_inv (f o)) -> preserves (assign f).
Proof. intros Hf o o' a Ho [= <- <-]. by apply Hf. Qed.

Lemma preserves_usage {A} b n : preserves (usage (A := A) b n).
Proof. intros o o' a _ H. by apply usage_never in H. Qed.

Lemma preserves_long s min f :
  (forall v o, min <= v <= LONG_MAX -> opts_inv o -> opts_inv (f v o)) ->
  preserves (v ← strtol_with_min_or_exit s min; assign (f v)).
Proof.
  intros Hf o o' a Ho. unfold mbind, PM_bind.
  destruct (strtol_with_min_or_exit s min o) as [| | |[v o1]] eqn:H; [done..|].
  apply strtol_with_min_go in H as (-> & Hv & _). intros [= <- <-]. by apply Hf.
Qed.

Lemma preserves_int s min f : -1 <= min ->
  (forall v o, min <= v <= INT_MAX -> opts_inv o -> opts_inv (f v o)) ->
  preserves (v ← atoi_with_min_or_exit s min; assign (f v)).
Proof.
  intros Hmin Hf o o' a Ho. unfold mbind, PM_bind.
  destruct (atoi_with_min_or_exit s min o) as [| | |[v o1]] eqn:H; [done..|].
  apply atoi_with_min_go in H as (-> & Hv); [|done]. intros [= <- <-]. by apply Hf.
Qed.

(** Closes an [opts_inv] goal for an update: each field is kept or in range. *)
Ltac solve_core :=
  match goal with H : opts_core _ |- opts_core _ => destruct H; split; try assumption end.
Ltac solve_inv :=
  match goal with
  | H : opts_inv ?o |- opts_inv _ => let H1 := fresh in destruct H as [H1 ?]; split; [solve_core|try assumption]
  end.

(** ** Peek maps *)

Definition entry_ok (e : varpeek_entry) : Prop := (NUL ∉ ve_filename_lineno e) /\ Forall (fun v => NUL ∉ v) (ve_varmap e).

Lemma add_var_ok key name m : NUL ∉ key -> NUL ∉ name -> Forall entry_ok m -> Forall entry_ok (add_var key name m).
Proof.
  intros Hk Hn. induction 1 as [|e m [He1 He2] Hm IH]; cbn [add_var].
  - by repeat constructor.
  - case_bool_decide; constructor; try done. split; [done|]. cbn. apply Forall_app. split; [done|by constructor].
Qed.

Lemma varpeek_loop_ok n file name a b m m' :
  NUL ∉ name -> Forall entry_ok m -> varpeek_loop n file name a b m = Some m' -> Forall entry_ok m'.
Proof.
  intros Hn. revert a m. induction n as [|n IH]; intros a m Hm; cbn [varpeek_loop]; destruct (b <? a); try done; [by intros [= <-]..|].
  apply IH, add_var_ok; [apply cstr_no_nul|done|done].
Qed.

Lemma preserves_varpeek spec : preserves (varpeek_add spec).
Proof.
  intros o o' a Ho. unfold varpeek_add, varpeek_spec. destruct (strchr spec "@") as [i|]; [|by intros ?%usage_never].
  destruct (strrchr spec ":") as [j|]; [|by intros ?%usage_never]. cbv zeta.
  destruct (varpeek_loop _ _ _ _ _ _) as [m|] eqn:Hm; [|done]. intros [= <- <-].
  apply varpeek_loop_ok in Hm; [|apply cstr_no_nul|apply (oi_peeks o (proj1 Ho))]. solve_inv. by destruct oi_peeks0.
Qed.

Lemma preserves_glopeek spec : preserves (glopeek_add spec).
Proof.
  intros o o' a Ho. unfold glopeek_add, new_glopeek. destruct (strchr spec ".") as [i|]; [|by intros ?%usage_never].
  destruct (existsb _ _); [by intros [= <- <-]|]. cbv zeta.
  assert (forall g, opts_inv (set_glopeek_map (glopeek_map o ++ [{| ge_key := snprintf_cstr PHPSPY_STR_SIZE spec;
    ge_gloname := g; ge_varname := snprintf_cstr PHPSPY_STR_SIZE (drop (i + 1) spec) |}]) o)) as Hg.
  { intros g. solve_inv. destruct oi_peeks0. split; [done|]. apply Forall_app. split; [done|].
    constructor; [apply cstr_no_nul|done]. }
  repeat case_match; try (intros [= <- <-]; apply Hg). by intros ?%usage_never.
Qed.

(** ** The switch *)

Lemma request_field_core o c : opts_core o -> opts_core (request_field o c).
Proof. intros Ho. unfold request_field. repeat (case_bool_decide; [solve_core|]). done. Qed.

Lemma request_fields_core cs o : opts_core o -> opts_core (fold_left request_field cs o).
Proof. revert o. induction cs as [|c cs IH]; intros o Ho; cbn; [done|]. by apply IH, request_field_core. Qed.

Lemma verbose_fields_inv cs o : opts_inv o -> opts_inv (fold_left verbose_field cs o).
Proof.
  revert o. induction cs as [|c cs IH]; intros o Ho; cbn; [done|]. apply IH. unfold verbose_field.
  repeat (case_bool_decide; [by solve_inv|]). done.
Qed.

Lemma rate_range v : 1 <= v -> 0 <= 1000000000 / v <= LONG_MAX.
Proof.
  intros Hv. unfold LONG_MAX. split; [apply Z.div_pos; lia|].
  apply Z.le_trans with 1000000000; [|lia]. apply Z.div_le_upper_bound; nia.
Qed.

Lemma cases_preserve regcomp :
  Forall (fun c => forall a, preserves (snd c a)) (opt_cases regcomp).
Proof.
  unfold opt_cases. repeat (apply List.Forall_cons; [cbn [snd]; intros a|]); [..|apply List.Forall_nil].
  all: try apply preserves_usage; try apply preserves_varpeek; try apply preserves_glopeek.
  all: try (apply preserves_assign; intros o Ho; by solve_inv).
  all: try (apply preserves_int; [lia|]; intros v o Hv Ho; solve_inv; unfold limits_ok, INT_MAX, LONG_MAX in *; cbn -[Z.pow]; lia).
  all: try (apply preserves_long; intros v o Hv Ho; solve_inv; unfold limits_ok, INT_MAX, LONG_MAX in *; cbn -[Z.pow]; lia).
  - apply preserves_long. intros v o Hv Ho. pose proof (rate_range v ltac:(lia)). by solve_inv.
  - apply preserves_assign. intros o Ho. destruct Ho as [Ho _].
    pose proof (request_fields_core a o Ho) as Hc. generalize dependent (fold_left request_field a o). intros o1 Hc.
    split; [solve_core|done].
  - apply preserves_assign. intros o Ho. solve_inv. split; [done|by right].
  - unfold opt_filter. destruct (regcomp a); [|apply preserves_usage]. apply preserves_assign. intros o Ho. by solve_inv.
  - unfold opt_filter. destruct (regcomp a); [|apply preserves_usage]. apply preserves_assign. intros o Ho. by solve_inv.
  - apply preserves_assign. intros o Ho. by apply verbose_fields_inv.
  - unfold opt_event_handler_case. repeat case_match; [..|apply preserves_usage]; apply preserves_assign; intros o Ho; by solve_inv.
  - by intros o o' x Ho [= <- <-].
Qed.

Lemma run_case_preserves cases c a :
  Forall (fun c => forall a, preserves (snd c a)) cases -> preserves (run_case cases c a).
Proof.
  induction 1 as [|[n h] cases H Hs IH]; cbn [run_case].
  - intros o o' x Ho [= <- <-]. done.
  - case_match; [apply H|apply IH].
Qed.

(** One turn of the loop. *)
Lemma parse_loop_step regcomp f s o :
  parse_loop regcomp (S f) s o = Go (s, o) \/
  exists a c arg s1, g_argv s !! g_optind s = Some ("-"%char :: a) /\ getopt_long s = (c, arg, s1)
    /\ parse_loop regcomp (S f) s o =
         (if c =? -1 then mret s1 else run_case (opt_cases regcomp) c arg;; parse_loop regcomp f s1) o.
Proof.
  cbn [parse_loop]. destruct (g_argv s !! g_optind s) as [[|x a]|] eqn:Ha; [by left| |by left].
  destruct (getopt_long s) as [[c arg] s1] eqn:Hg.
  destruct (decide (x = "-"%char)) as [->|Hx]; [right; by exists a, c, arg, s1|left].
  destruct x as [[] [] [] [] [] [] [] []]; done.
Qed.

Lemma parse_loop_preserves regcomp fuel s : preserves (parse_loop regcomp fuel s).
Proof.
  revert s. induction fuel as [|f IH]; intros s o o' s' Ho; [done|].
  destruct (parse_loop_step regcomp f s o) as [->|(a & c & arg & s1 & _ & _ & ->)]; [by intros [= <- <-]|].
  destruct (c =? -1); [by intros [= <- <-]|]. unfold mbind, PM_bind.
  destruct (run_case _ c arg o) as [| | |[[] o1]] eqn:H1; [done..|]. apply IH.
  by eapply run_case_preserves; [apply cases_preserve| |exact H1].
Qed.

(** ** Termination

    The bytes that [getopt_long] has not read yet. *)

Definition remaining (args : list bytes) : nat := sum_list (map (fun a => S (length a)) args).

Definition unread (s : getopt_state) : nat :=
  match g_next s with
  | [] => remaining (drop (g_optind s) (g_argv s))
  | next => length next + remaining (drop (S (g_optind s)) (g_argv s))
  end.

Lemma remaining_lookup args i a : args !! i = Some a -> remaining (drop i args) = (S (length a) + remaining (drop (S i) args))%nat.
Proof. intros H. by rewrite (drop_S _ _ _ H). Qed.

Lemma remaining_step args i : (remaining (drop (S i) args) <= remaining (drop i args))%nat.
Proof.
  destruct (args !! i) as [a|] eqn:Ha; [rewrite (remaining_lookup _ _ _ Ha); lia|].
  apply lookup_ge_None in Ha. rewrite !drop_ge by lia. done.
Qed.

Lemma remaining_skip args n : (remaining (drop n args) <= remaining args)%nat.
Proof.
  induction n as [|n IH]; [by rewrite drop_0|]. etrans; [apply remaining_step|done].
Qed.

Lemma short_option_unread c rest s r arg s' :
  short_option c rest s = (r, arg, s') ->
  (unread s' <= length rest + remaining (drop (S (g_optind s)) (g_argv s)))%nat.
Proof.
  unfold short_option. set (args := g_argv s). set (i := g_optind s).
  assert (unread {| g_argv := args; g_optind := match rest with [] => S i | _ => i end; g_next := rest;
                    g_first := g_first s; g_last := g_last s |} <= length rest + remaining (drop (S i) args))%nat as H0
    by (unfold unread; by destruct rest).
  destruct (strchr optstring c) as [k|]; [|by intros [= <- <- <-]].
  case_bool_decide; [by intros [= <- <- <-]|]. case_bool_decide; [|by intros [= <- <- <-]]. destruct rest as [|x rest].
  - cbn [g_argv g_optind]. fold args i. destruct (args !! S i) eqn:Ha; intros [= <- <- <-]; [|done].
    unfold unread, at_optind. cbn. apply remaining_step.
  - intros [= <- <- <-]. unfold unread, at_optind. cbn [g_next g_argv g_optind length]. lia.
Qed.

Lemma long_option_unread text s r arg s' :
  long_option text s = (r, arg, s') -> (unread s' <= remaining (drop (S (g_optind s)) (g_argv s)))%nat.
Proof.
  unfold long_option. cbn [g_argv g_optind at_optind].
  intros H. repeat case_match; simplify_eq; unfold unread, at_optind; cbn [g_next g_argv g_optind]; first [apply remaining_step|done].
Qed.

(** Settling the operands keeps the arguments still to come. *)
Lemma settle_rest s :
  (g_first s <= g_last s <= g_optind s)%nat -> (g_optind s <= length (g_argv s))%nat ->
  drop (g_optind s) (g_argv (settle s)) = drop (g_optind s) (g_argv s) /\ g_optind (settle s) = g_optind s
  /\ length (g_argv (settle s)) = length (g_argv s) /\ (g_first (settle s) <= g_optind s)%nat.
Proof.
  intros Hb Hl. unfold settle. destruct (bool_decide (g_first s <> g_last s) && _); [|case_bool_decide; cbn; split_and!; done || lia].
  unfold exchange. cbn [g_argv g_optind g_first].
  set (mid := peek (g_argv s) (g_last s) _ ++ _ ++ _).
  assert (length (take (g_first s) (g_argv s) ++ peek (g_argv s) (g_last s) (g_optind s - g_last s) ++
    peek (g_argv s) (g_first s) (g_last s - g_first s)) = g_optind s) as Hlen.
  { rewrite !length_app, length_take, !length_peek by lia. lia. }
  subst mid. rewrite !app_assoc, <-(app_assoc (take _ _)). split_and!; [|done| |lia].
  - by rewrite drop_app_length' by done.
  - rewrite length_app, Hlen, length_drop. lia.
Qed.

(** A string that lies in the argument vector: the end of one of its words. *)
Definition from_argv (argv : list bytes) (a : bytes) : Prop := a = [] \/ exists w n, w ∈ argv /\ a = drop n w.

Record scanning (argv : list bytes) (s : getopt_state) : Prop := {
  sc_words : Forall (fun w => w ∈ argv) (g_argv s);
  sc_next : from_argv argv (g_next s);
  sc_order : (g_first s <= g_last s <= g_optind s)%nat;
  sc_optind : (g_optind s <= length (g_argv s))%nat;
  sc_cluster : g_next s <> [] -> (g_optind s < length (g_argv s))%nat;
}.

Lemma from_argv_tail argv c rest : from_argv argv (c :: rest) -> from_argv argv rest.
Proof.
  intros [?|(w & n & Hw & He)]; [done|]. right. exists w, (S n). split; [done|].
  replace (S n) with (n + 1)%nat by lia. by rewrite <-(drop_drop w 1 n), <-He.
Qed.

Lemma from_argv_word argv (ws : list bytes) i w n :
  Forall (fun w => w ∈ argv) ws -> ws !! i = Some w -> from_argv argv (drop n w).
Proof. intros Hf Hi. right. exists w, n. split; [|done]. exact (Forall_lookup_1 _ _ _ _ Hf Hi). Qed.

Lemma short_option_scanning argv c rest s r arg s' :
  scanning argv s -> from_argv argv rest -> (g_optind s < length (g_argv s))%nat ->
  short_option c rest s = (r, arg, s') -> scanning argv s' /\ from_argv argv arg.
Proof.
  intros [Hw Hn Ho Hi Hc] Hr Hlt. unfold short_option.
  set (s1 := {| g_argv := _; g_optind := _; g_next := rest; g_first := _; g_last := _ |}).
  assert (scanning argv s1) as H1.
  { split; cbn; [done|done|destruct rest; lia|destruct rest; lia|destruct rest; [done|lia]]. }
  destruct (strchr optstring c) as [k|]; [|intros [= <- <- <-]; by split; [|left]].
  case_bool_decide; [intros [= <- <- <-]; by split; [|left]|].
  case_bool_decide; [|intros [= <- <- <-]; by split; [|left]]. destruct rest as [|x rest].
  - destruct (g_argv s1 !! g_optind s1) as [w|] eqn:Hl; intros [= <- <- <-]; [|by split; [|left]].
    split; [|exact (from_argv_word _ _ _ _ 0 Hw Hl)]. apply lookup_lt_Some in Hl. cbn in Hl.
    split; cbn; [done|by left|lia|lia|done].
  - intros [= <- <- <-]. split; [|done]. split; cbn; [done|by left|lia|lia|done].
Qed.

Lemma long_option_scanning argv text s r arg s' :
  scanning argv s -> from_argv argv text -> (g_optind s < length (g_argv s))%nat ->
  long_option text s = (r, arg, s') -> scanning argv s' /\ from_argv argv arg.
Proof.
  intros [Hw Hn Ho Hi Hc] Ht Hlt. unfold long_option. set (s1 := at_optind _ s).
  assert (scanning argv s1) as H1 by (split; cbn; [done|by left|lia|lia|done]).
  destruct (find_long _) as [[[] v]|]; [..|intros [= <- <- <-]; by split; [|left]].
  - destruct (memchr "=" text) as [i|].
    + intros [= <- <- <-]. split; [done|]. destruct Ht as [->|(w & n & Hin & ->)]; [left; by rewrite drop_nil|].
      right. exists w, (n + (i + 1))%nat. by rewrite drop_drop.
    + destruct (g_argv s1 !! g_optind s1) as [w|] eqn:Hl; intros [= <- <- <-]; [|by split; [|left]].
      split; [|exact (from_argv_word _ _ _ _ 0 Hw Hl)]. apply lookup_lt_Some in Hl. cbn in Hl.
      split; cbn; [done|by left|lia|lia|done].
  - destruct (memchr "=" text); intros [= <- <- <-]; by split; [|left].
Qed.

Lemma settle_words argv s : scanning argv s -> Forall (fun w => w ∈ argv) (g_argv (settle s)).
Proof.
  intros [Hw _ _ _ _]. unfold settle. destruct (_ && _); [|by case_bool_decide]. cbn. unfold peek.
  repeat (apply Forall_app; split); eauto using Forall_take, Forall_drop.
Qed.

(** One call: it stays within the vector and reads at least one byte. *)
Lemma getopt_long_reads argv s a c arg s' :
  scanning argv s -> g_argv s !! g_optind s = Some ("-"%char :: a) -> getopt_long s = (c, arg, s') -> c <> -1 ->
  scanning argv s' /\ from_argv argv arg /\ (unread s' < unread s)%nat.
Proof.
  intros Hs Ha. pose proof (lookup_lt_Some _ _ _ Ha) as Hlt. unfold getopt_long.
  destruct (g_next s) as [|x rest] eqn:Hn; cbv zeta.
  - destruct (settle_rest s (sc_order _ _ Hs) (sc_optind _ _ Hs)) as (Hd & Ho & Hl & Hf). rewrite Ho.
    set (k := skip_operands _). set (args := g_argv (settle s)) in *. set (i := (g_optind s + k)%nat).
    assert (Forall (fun w => w ∈ argv) args) as Hw by apply settle_words, Hs.
    assert (unread s = remaining (drop (g_optind s) args)) as Hu by (unfold unread; by rewrite Hn, Hd).
    assert (remaining (drop i args) <= unread s)%nat as Hr.
    { rewrite Hu. subst i. rewrite <-drop_drop. apply remaining_skip. }
    cbn [g_argv g_first g_last]. destruct (args !! i) as [w|] eqn:Hi; [|by intros [= <- <- <-]].
    pose proof (remaining_lookup _ _ _ Hi) as Hrem. pose proof (lookup_lt_Some _ _ _ Hi) as Hil.
    case_bool_decide; [by intros [= <- <- <-]|].
    set (s1 := {| g_argv := args; g_optind := i; g_next := []; g_first := g_first (settle s); g_last := i |}).
    assert (scanning argv s1) as H1 by (split; cbn; [done|by left|lia|lia|done]).
    assert (forall n, from_argv argv (drop n w)) as Hfrom by (intros n; by eapply from_argv_word).
    destruct w as [|w1 [|w2 w]]; [by intros [= <- <- <-]..|].
    destruct (decide (w2 = "-"%char)) as [->|Hw2].
    + intros Hrun Hc. destruct (long_option_scanning _ _ _ _ _ _ H1 (Hfrom 2%nat) Hil Hrun).
      apply long_option_unread in Hrun. subst s1. cbn [g_optind g_argv length] in Hrun, Hrem. split_and!; [done|done|lia].
    + intros Hrun Hc. assert (short_option w2 w s1 = (c, arg, s')) as Hrun'.
      { destruct w2 as [[] [] [] [] [] [] [] []]; done. }
      destruct (short_option_scanning _ _ _ _ _ _ _ H1 (Hfrom 2%nat) Hil Hrun').
      apply short_option_unread in Hrun'. subst s1. cbn [g_optind g_argv length] in Hrun', Hrem. split_and!; [done|done|lia].
  - intros Hrun Hc. pose proof (sc_next _ _ Hs) as Hnext. rewrite Hn in Hnext.
    destruct (short_option_scanning _ _ _ _ _ _ _ Hs (from_argv_tail _ _ _ Hnext) Hlt Hrun).
    apply short_option_unread in Hrun. unfold unread at 2. rewrite Hn. cbn [length]. split_and!; [done|done|lia].
Qed.

(** Only a peek specification can keep the switch from ending. *)
Lemma cases_end regcomp :
  Forall (fun c => forall a o, varpeek_add a o <> Hang -> snd c a o <> Hang) (opt_cases regcomp).
Proof.
  unfold opt_cases. repeat (apply List.Forall_cons; [cbn [snd]; intros a o Hv|]); [..|apply List.Forall_nil].
  all: try done; try (by unfold usage; repeat case_match).
  all: try (unfold atoi_with_min_or_exit, strtol_with_min_or_exit, usage, assign, mbind, PM_bind, mret, PM_ret;
    by repeat case_match).
  - unfold opt_filter, usage. by repeat case_match.
  - unfold opt_filter, usage. by repeat case_match.
  - unfold opt_event_handler_case, usage. by repeat case_match.
  - unfold glopeek_add, usage. by repeat case_match.
Qed.

Lemma run_case_ends cases c a o :
  Forall (fun c => forall a o, varpeek_add a o <> Hang -> snd c a o <> Hang) cases ->
  varpeek_add a o <> Hang -> run_case cases c a o <> Hang.
Proof.
  intros Hf Hv. induction Hf as [|[n h] cases H Hs IH]; cbn [run_case]; [done|]. case_match; [by apply H|done].
Qed.

Lemma parse_loop_ends regcomp argv fuel s o :
  (forall a o, from_argv argv a -> varpeek_add a o <> Hang) -> scanning argv s -> (unread s < fuel)%nat ->
  parse_loop regcomp fuel s o <> Hang.
Proof.
  intros Hv. revert s o. induction fuel as [|f IH]; intros s o Hs Hf; [lia|].
  destruct (parse_loop_step regcomp f s o) as [->|(a & c & arg & s1 & Ha & Hg & ->)]; [done|].
  destruct (Z.eqb_spec c (-1)) as [->|Hc]; [done|].
  destruct (getopt_long_reads _ _ _ _ _ _ Hs Ha Hg Hc) as (Hs1 & Harg & Hu). unfold mbind, PM_bind.
  pose proof (run_case_ends (opt_cases regcomp) c arg o (cases_end regcomp) (Hv arg o Harg)) as Hrun.
  destruct (run_case _ c arg o) as [| | |[[] o1]]; [done..|]. apply IH; [done|lia].
Qed.

(** ** Line ranges *)

Lemma add_var_lookup key name m :
  exists e, find_entry key (add_var key name m) = Some e /\ name ∈ ve_varmap e
    /\ forall e0, find_entry key m = Some e0 -> ve_varmap e0 ⊆ ve_varmap e.
Proof.
  unfold find_entry. induction m as [|e m IH]; cbn.
  - rewrite bool_decide_true by done. eexists. split_and!; [done|left|done].
  - destruct (bool_decide (ve_filename_lineno e = key)) eqn:He; cbn; rewrite He.
    + eexists. split_and!; [done|cbn; set_solver|]. intros e0 [= <-]. cbn. set_solver.
    + apply IH.
Qed.

Lemma add_var_other key key' name m : key <> key' -> find_entry key' (add_var key name m) = find_entry key' m.
Proof.
  intros Hne. unfold find_entry. induction m as [|e m IH]; cbn.
  - by rewrite bool_decide_false.
  - case_bool_decide as He; cbn.
    + rewrite !bool_decide_false by congruence. done.
    + case_bool_decide; [done|]. apply IH.
Qed.

Lemma varpeek_loop_covers n file name a b m :
  0 <= a -> b < 2 ^ 32 - 1 -> b - a + 1 <= Z.of_nat n ->
  exists m', varpeek_loop n file name a b m = Some m'
    /\ (forall l e, find_entry (varpeek_key file l) m = Some e -> name ∈ ve_varmap e ->
          exists e', find_entry (varpeek_key file l) m' = Some e' /\ name ∈ ve_varmap e')
    /\ (forall l, a <= l <= b -> exists e, find_entry (varpeek_key file l) m' = Some e /\ name ∈ ve_varmap e)
    /\ (forall key, (forall l, a <= l <= b -> key <> varpeek_key file l) -> find_entry key m' = find_entry key m).
Proof.
  intros Ha Hb. revert a m Ha. induction n as [|n IH]; intros a m Ha Hn; cbn [varpeek_loop]; destruct (Z.ltb_spec b a).
  1,3: exists m; split_and!; [done|by eauto|intros l ?; lia|done]. { lia. }
  rewrite wrap_small by lia. destruct (IH (a + 1) (add_var (varpeek_key file a) name m)) as (m' & -> & Hk & Hc & Ho); [lia|lia|].
  destruct (add_var_lookup (varpeek_key file a) name m) as (e & He & Hin & Hsub). exists m'. split_and!; [done|..].
  - intros l e0 He0 Hin0. destruct (decide (varpeek_key file a = varpeek_key file l)) as [Heq|Hne].
    + rewrite <-Heq. by eapply Hk.
    + eapply Hk; [|exact Hin0]. by rewrite add_var_other.
  - intros l Hl. destruct (decide (l = a)) as [->|]; [by eapply Hk|]. apply Hc. lia.
  - intros key Hkey. rewrite Ho; [|intros l Hl; apply Hkey; lia]. apply add_var_other. intros <-. by apply (Hkey a); [lia|].
Qed.

(** [var@file:start-end], as a user writes it. *)
Definition varspec (v f : bytes) (a b : Z) : bytes :=
  v ++ "@"%char :: f ++ ":"%char :: fmt_u a ++ "-"%char :: fmt_u b.

Lemma varpeek_add_range v f a b o :
  NUL ∉ v -> NUL ∉ f -> "@"%char ∉ v -> 0 <= a < 2 ^ 32 -> 0 <= b < 2 ^ 32 ->
  varpeek_add (varspec v f a b) o =
    match varpeek_loop (Z.to_nat (b - a + 1)) f (snprintf_cstr PHPSPY_STR_SIZE v) a b (varpeek_map o) with
    | Some m => Go (tt, set_varpeek_map m o)
    | None => Hang
    end.
Proof.
  intros Hv Hf Hat Ha Hb. set (rest := fmt_u a ++ "-"%char :: fmt_u b).
  assert (NUL ∉ varspec v f a b) as Hn by (unfold varspec; solve_nn).
  assert (forall c, ~ is_digit c -> c <> "-"%char -> c ∉ rest) as Hrest.
  { intros c Hc Hd. unfold rest. rewrite elem_of_app, elem_of_cons. intros [H|[H|H]]; [|done|]; by eapply fmt_u_not in H. }
  unfold varpeek_add, varpeek_spec, strchr, strrchr. rewrite (cstr_id _ Hn).
  assert (memchr "@" (varspec v f a b) = Some (length v)) as -> by by apply memchr_app.
  assert (memrchr ":" (varspec v f a b) = Some (length v + 1 + length f)%nat) as ->.
  { unfold varspec. rewrite app_comm_cons, app_assoc. rewrite memrchr_app.
    - f_equal. rewrite length_app. cbn [length]. lia.
    - apply Hrest; [unfold is_digit; change (code ":") with 58; lia|done]. }
  assert (drop (length v + 1 + length f) (varspec v f a b) = ":"%char :: rest) as Hdrop.
  { unfold varspec. rewrite app_comm_cons, app_assoc, drop_app_length'; [done|]. rewrite length_app. cbn [length]. lia. }
  assert (forall k, drop (length v + 1 + length f + 1 + k) (varspec v f a b) = drop k rest) as Hdrop1.
  { intros k. rewrite <-Nat.add_assoc, <-drop_drop, Hdrop. done. }
  rewrite Hdrop, cstr_id by (unfold rest; solve_nn).
  assert (memrchr "-" (":"%char :: rest) = Some (S (length (fmt_u a)))) as ->.
  { unfold rest. rewrite app_comm_cons. rewrite memrchr_app; [done|]. apply fmt_u_not. unfold is_digit. change (code "-") with 45. lia. }
  assert (drop (length v + 1 + length f + 1) (varspec v f a b) = rest) as ->
    by (rewrite <-(Nat.add_0_r (_ + 1)), Hdrop1; apply drop_0).
  replace (length v + 1 + length f + S (length (fmt_u a)) + 1)%nat
    with (length v + 1 + length f + 1 + S (length (fmt_u a)))%nat by lia.
  assert (drop (S (length (fmt_u a))) rest = fmt_u b) as Hb'.
  { unfold rest. rewrite (app_assoc _ ["-"%char] (fmt_u b) : fmt_u a ++ "-"%char :: fmt_u b = _).
    apply drop_app_length'. rewrite length_app. cbn. lia. }
  rewrite Hdrop1, Hb'. unfold rest. rewrite strtoull_fmt_u by first [lia | by vm_compute].
  assert (strtoull (fmt_u b) 10 = (b, length (fmt_u b))) as -> by (rewrite <-(app_nil_r (fmt_u b)) at 1; by rewrite strtoull_fmt_u by first [lia | by vm_compute]).
  cbn [fst]. rewrite !wrap_small by lia. cbv zeta.
  replace (Z.of_nat (length v + 1 + length f) - Z.of_nat (length v) - 1) with (Z.of_nat (length f)) by lia.
  assert (fmt_prec (Z.of_nat (length f)) (drop (length v + 1) (varspec v f a b)) = f) as ->.
  { unfold fmt_prec, varspec. rewrite (proj2 (Z.ltb_ge _ _)), Nat2Z.id by lia.
    rewrite (app_assoc v ["@"%char] _ : v ++ "@"%char :: _ = _), drop_app_length' by (rewrite length_app; done).
    rewrite take_app_length. by apply cstr_id. }
  assert (take (length v) (varspec v f a b) = v) as -> by apply take_app_length. done.
Qed.

Lemma varpeek_loop_endless n file name a m :
  0 <= a < 2 ^ 32 -> varpeek_loop n file name a (2 ^ 32 - 1) m = None.
Proof.
  revert a m. induction n as [|n IH]; intros a m Ha; cbn [varpeek_loop]; rewrite (proj2 (Z.ltb_ge _ _)) by lia; [done|].
  apply IH. pose proof (wrap_range 32 (a + 1)). lia.
Qed.

(** ** Theorems *)

(** C34. What the other components rely on: whatever the command line and the
    regular expression compiler, if parsing comes to an end, the stack limits
    are [int]s, the delimiters are newlines or tab and newline, the buffer size,
    worker count, period and time limit are in range, the peek maps hold C
    strings, and [opt_capture_req] summarises the request fields. *)
Theorem parse_opts_inv regcomp argv s o :
  parse_opts regcomp argv default_options = Go (s, o) -> opts_inv o.
Proof. intros H. eapply parse_loop_preserves; [apply default_inv|exact H]. Qed.

(** C36. Parsing ends: the loop around [getopt_long] cannot run forever, for
    any argument vector (also with operands it permutes), unless a peek
    specification taken from that vector keeps [varpeek_add] busy. *)
Theorem parse_opts_ends regcomp argv o :
  argv <> [] -> (forall a o, from_argv argv a -> varpeek_add a o <> Hang) ->
  parse_opts regcomp argv o <> Hang.
Proof.
  intros Hne Hv. apply (parse_loop_ends regcomp argv); [done| |].
  - split; cbn; [by apply Forall_forall|by left|lia|destruct argv; cbn; [done|lia]|done].
  - unfold unread, parse_fuel. cbn [g_next g_optind g_argv]. pose proof (remaining_skip argv 1) as H.
    unfold remaining in *. lia.
Qed.

(** Line ranges: [-e var@file:start-end] makes the variable known to the
    lookup of [trace_locals] on exactly the lines of the range, in every file
    name (colons included), and changes no other entry. *)
Theorem varpeek_add_covers v f a b o :
  NUL ∉ v -> NUL ∉ f -> "@"%char ∉ v -> 0 <= a -> a <= b -> b < 2 ^ 32 - 1 ->
  exists o', varpeek_add (varspec v f a b) o = Go (tt, o')
    /\ (forall l, a <= l <= b -> exists e,
          find_varpeek o' (varpeek_key f l) = Some e /\ snprintf_cstr PHPSPY_STR_SIZE v ∈ ve_varmap e)
    /\ (forall key, (forall l, a <= l <= b -> key <> varpeek_key f l) -> find_varpeek o' key = find_varpeek o key).
Proof.
  intros Hv Hf Hat Ha Hab Hb. rewrite varpeek_add_range by (done || lia).
  destruct (varpeek_loop_covers (Z.to_nat (b - a + 1)) f (snprintf_cstr PHPSPY_STR_SIZE v) a b (varpeek_map o))
    as (m & -> & _ & Hc & Ho); [lia..|].
  eexists. split_and!; [done|exact Hc|exact Ho].
Qed.

(** A range that ends at the largest line number never ends: the counter
    is a [uint32_t] and wraps, so the loop adds entries for ever. *)
Theorem varpeek_add_endless v f a o :
  NUL ∉ v -> NUL ∉ f -> "@"%char ∉ v -> 0 <= a < 2 ^ 32 ->
  varpeek_add (varspec v f a (2 ^ 32 - 1)) o = Hang
  /\ forall n m, varpeek_loop n f v a (2 ^ 32 - 1) m = None.
Proof.
  intros Hv Hf Hat Ha. rewrite varpeek_add_range by (done || lia).
  split; [by rewrite varpeek_loop_endless|]. intros n m. by apply varpeek_loop_endless.
Qed.

(** Global peeks are recognised by a prefix: whatever part of [post]
    stands before the dot, even nothing, the specification is taken as a
    request for $_POST. *)
Theorem glopeek_add_prefix n key o :
  (n <= 4)%nat -> NUL ∉ key -> let spec := take n (cs "post") ++ "."%char :: key in
  existsb (fun g => bool_decide (ge_key g = spec)) (glopeek_map o) = false ->
  glopeek_add spec o = Go (tt, set_glopeek_map (glopeek_map o ++ [
    {| ge_key := snprintf_cstr PHPSPY_STR_SIZE spec; ge_gloname := cs "_POST";
       ge_varname := snprintf_cstr PHPSPY_STR_SIZE key |}]) o).
Proof.
  intros Hn Hk spec Hnew. unfold glopeek_add, gloname_of, new_glopeek, strchr.
  assert (NUL ∉ spec) as Hs. { unfold spec. do 5 (destruct n as [|n]; [cbn; solve_nn|]). lia. }
  assert ("."%char ∉ take n (cs "post")) as Hdot. { do 5 (destruct n as [|n]; [apply (bool_decide_unpack _); by vm_compute|]). lia. }
  assert (length (take n (cs "post")) = n) as Hlen by (rewrite length_take; cbn; lia).
  rewrite cstr_id by done. unfold spec at 1. rewrite memchr_app, Hlen by done. rewrite Hnew. cbv zeta.
  assert (strncmp_eq (cs "post.") spec n = true) as ->.
  { unfold strncmp_eq. rewrite (cstr_id spec Hs). apply bool_decide_true. unfold spec.
    rewrite take_app_length' by done. do 5 (destruct n as [|n]; [done|]). lia. }
  assert (drop (n + 1) spec = key) as ->; [|done].
  unfold spec. rewrite (app_assoc _ ["."%char] key : _ ++ "."%char :: key = _), drop_app_length'; [done|].
  rewrite length_app, Hlen. done.
Qed.

(** ** Witnesses *)

Definition any_regex (_ : bytes) : option (bytes -> bool) := Some (fun _ => true).
Definition demo_argv : list bytes := map cs ["phpspy"; "-H2"; "--max-depth=5"; "-rqU"; "-1"; "php"; "-v"]%string.

Lemma parse_opts_inv_witness : exists s o, parse_opts any_regex demo_argv default_options = Go (s, o) /\ opts_inv o.
Proof. eexists _, _. split; [vm_compute; reflexivity|]. eapply (parse_opts_inv any_regex demo_argv). vm_compute. reflexivity. Defined.

Lemma parse_opts_ends_witness : parse_opts any_regex [cs "phpspy"; cs "-q"] default_options <> Hang.
Proof.
  apply (parse_opts_ends any_regex [cs "phpspy"; cs "-q"] default_options); [done|].
  assert (forall a o, "@"%char ∉ a -> varpeek_add a o <> Hang) as H.
  { intros a o Ha. unfold varpeek_add, varpeek_spec, strchr. replace (memchr "@" (cstr a)) with (@None nat); [unfold usage; by repeat case_match|].
    symmetry. apply memchr_None. intros Hin. by apply Ha, elem_of_cstr. }
  intros a o [->|(w & n & Hw & ->)]; apply H; [set_solver|].
  intros Hin. assert ("@"%char ∈ w) as Hi by (rewrite <-(take_drop n w); apply elem_of_app; by right).
  apply elem_of_cons in Hw as [->|Hw]; [revert Hi; by apply (bool_decide_unpack _)|].
  apply list_elem_of_singleton in Hw as ->. revert Hi. by apply (bool_decide_unpack _).
Defined.

Lemma varpeek_add_covers_witness : exists o', varpeek_add (cs "x@/a.php:10-12") default_options = Go (tt, o')
  /\ exists e, find_varpeek o' (cs "/a.php:11") = Some e /\ cs "x" ∈ ve_varmap e.
Proof.
  destruct (varpeek_add_covers (cs "x") (cs "/a.php") 10 12 default_options) as (o' & H1 & H2 & _);
    [by apply (bool_decide_unpack _)..|lia|lia|lia|].
  exists o'. split; [exact H1|]. apply (H2 11). lia.
Defined.

Lemma varpeek_add_endless_witness : varpeek_add (cs "x@/a.php:10-4294967295") default_options = Hang.
Proof. apply (varpeek_add_endless (cs "x") (cs "/a.php") 10 default_options); [by apply (bool_decide_unpack _)..|lia]. Defined.

Lemma glopeek_add_prefix_witness : exists o', glopeek_add (cs "po.id") default_options = Go (tt, o')
  /\ map ge_gloname (glopeek_map o') = [cs "_POST"].
Proof.
  eexists. split; [apply (glopeek_add_prefix 2 (cs "id") default_options)|]; [lia|by apply (bool_decide_unpack _)|reflexivity|reflexivity].
Defined.
