(* ===== verification/UsageTheorems.v ===== *)
(** * UsageTheorems: the help text agrees with the program

    A reader of the help text: which options it documents, with or without an
    argument, and which versions of PHP it lists.  Whatever the option values
    printed in it, these are the options [parse_opts] accepts and the versions
    [main_pid] can dispatch to. *)
From S2P Require Import Prelude CLib Context Versions Usage Options.

(** ** Reading the text *)

(** The name up to a blank or [=], and whether [=] follows. *)
Fixpoint doc_name (l : bytes) : bytes * bool :=
  match l with
  | [] => ([], false)
  | c :: l' =>
    if bool_decide (c = " "%char) then ([], false)
    else if bool_decide (c = "="%char) then ([], true)
    else let '(name, arg) := doc_name l' in (c :: name, arg)
  end.

(** The option a line introduces: [  -c, --name] or [      --name]. *)
Definition doc_option (l : bytes) : option (option ascii * bytes * bool) :=
  match l with
  | " "%char :: " "%char :: "-"%char :: c :: ","%char :: " "%char :: "-"%char :: "-"%char :: r =>
    let '(name, arg) := doc_name r in Some (Some c, name, arg)
  | " "%char :: " "%char :: " "%char :: " "%char :: " "%char :: " "%char :: "-"%char :: "-"%char :: r =>
    let '(name, arg) := doc_name r in Some (None, name, arg)
  | _ => None
  end.

Definition documented (ls : list bytes) : list (option ascii * bytes * bool) := omap doc_option ls.

(** The numbers of a line. *)
Fixpoint numbers (l acc : bytes) : list bytes :=
  match l with
  | [] => match acc with [] => [] | _ => [acc] end
  | c :: l' =>
    if bool_decide (48 <= code c < 58) then numbers l' (acc ++ [c])
    else match acc with [] => numbers l' [] | _ => acc :: numbers l' [] end
  end.

Fixpoint skip_blanks (l : bytes) : bytes :=
  match l with
  | " "%char :: l' => skip_blanks l'
  | _ => l
  end.

(** The versions listed: the numbers of the line [supported: ...] and of the
    next one. *)
Fixpoint doc_versions (ls : list bytes) : list bytes :=
  match ls with
  | l1 :: ((l2 :: _) as r) =>
    if prefix_of (cs "supported:") (skip_blanks l1) then numbers l1 [] ++ numbers l2 [] else doc_versions r
  | _ => []
  end.

(** ** What the parser accepts *)

(** The letter of a long option, when its value is one. *)
Definition long_letter (v : Z) : option ascii :=
  if v <? 256 then Some (ascii_of_N (Z.to_N v)) else None.

(** Whether getopt takes [-c], and whether with an argument. *)
Definition takes (c : ascii) : option bool :=
  if bool_decide (c = ":"%char) then None else
  match strchr optstring c with
  | Some i => Some (bool_decide (optstring !! S i = Some ":"%char))
  | None => None
  end.

(** ** Lemmas *)

(** The defaults are printed on lines that introduce nothing. *)
Lemma documented_default o : documented (usage_lines o) = documented (usage_lines default_options).
Proof. vm_compute. reflexivity. Qed.

Abbreviation docs := (documented (usage_lines default_options)).

Lemma docs_taken : forallb (fun '(c, _, arg) => match c with Some c => bool_decide (takes c = Some arg) | None => true end) docs = true.
Proof. vm_compute. reflexivity. Qed.

Lemma letters_documented :
  forallb (fun c => bool_decide (c = ":"%char) || existsb (fun d => bool_decide (fst (fst d) = Some c)) docs) optstring = true.
Proof. vm_compute. reflexivity. Qed.

Lemma docs_long_opts : docs ≡ₚ map (fun '(name, arg, v) => (long_letter v, name, arg)) long_opts.
Proof. apply (bool_decide_unpack _). vm_compute. exact I. Qed.

Lemma doc_versions_instances o : doc_versions (usage_lines o) = map fmt_d instances.
Proof. vm_compute. reflexivity. Qed.

(** getopt takes only letters of [optstring]. *)
Lemma takes_elem c : is_Some (takes c) -> c <> ":"%char /\ c ∈ optstring.
Proof.
  unfold takes. case_bool_decide as Hc; [by intros [? ?]|]. intros H. split; [done|].
  destruct (strchr optstring c) as [i|] eqn:Hi; [|by destruct H].
  apply memchr_Some in Hi as [Hi _]. by eapply list_elem_of_lookup_2.
Qed.

(** Dispatch compares with the names of the instances. *)
Lemma dispatch_is_Some v : NUL ∉ v -> is_Some (dispatch v) <-> v ∈ map fmt_d instances.
Proof.
  intros Hv. unfold dispatch, strcmp_eq. rewrite (cstr_id v Hv). cbn [map instances].
  repeat (let Hc := fresh in case_bool_decide as Hc; [rewrite <-Hc; split; [intros _; apply (bool_decide_unpack _); by vm_compute|by eexists]|]).
  split; [by intros [? ?]|]. intros Hin. exfalso.
  repeat (apply elem_of_cons in Hin as [->|Hin]; [vm_compute in *; congruence|]). by apply elem_of_nil in Hin.
Qed.

Lemma letter_takes (ds : list (option ascii * bytes * bool)) c name arg :
  forallb (fun '(c, _, arg) => match c with Some c => bool_decide (takes c = Some arg) | None => true end) ds = true ->
  (Some c, name, arg) ∈ ds -> takes c = Some arg.
Proof.
  rewrite forallb_forall. intros H Hin. apply list_elem_of_In, H in Hin. by apply bool_decide_eq_true_1 in Hin.
Qed.

Lemma letter_has_doc (ds : list (option ascii * bytes * bool)) (l : bytes) c :
  forallb (fun c => bool_decide (c = ":"%char) || existsb (fun d => bool_decide (fst (fst d) = Some c)) ds) l = true ->
  c <> ":"%char -> c ∈ l -> exists name arg, (Some c, name, arg) ∈ ds.
Proof.
  rewrite forallb_forall. intros H Hc Hin. apply list_elem_of_In, H in Hin. rewrite bool_decide_false in Hin by done.
  cbn [orb] in Hin. apply existsb_exists in Hin as ([[c' name] arg] & Hd & Hc'%bool_decide_eq_true_1). cbn in Hc'. subst c'.
  exists name, arg. by apply list_elem_of_In.
Qed.

(** ** Theorem *)

(** C37. The help text and the program agree, whatever option values the text
    prints as defaults: it documents each long option once, with its letter and
    with an argument exactly when the parser wants one; every documented letter is
    one getopt accepts in that form, and every letter getopt accepts is
    documented; the PHP versions listed are exactly those there is a tracer
    for. *)
Theorem usage_agrees o :
  documented (usage_lines o) ≡ₚ map (fun '(name, arg, v) => (long_letter v, name, arg)) long_opts
  /\ (forall c name arg, (Some c, name, arg) ∈ documented (usage_lines o) -> takes c = Some arg)
  /\ (forall c, is_Some (takes c) -> exists name arg, (Some c, name, arg) ∈ documented (usage_lines o))
  /\ (forall v, NUL ∉ v -> v ∈ doc_versions (usage_lines o) <-> is_Some (dispatch v)).
Proof.
  rewrite documented_default. split; [apply docs_long_opts|]. split; [|split].
  - intros c name arg. apply letter_takes, docs_taken.
  - intros c [Hc Hin]%takes_elem. exact (letter_has_doc _ _ c letters_documented Hc Hin).
  - intros v Hv. rewrite doc_versions_instances. symmetry. by apply dispatch_is_Some.
Qed.
