(* ===== verification/Uthash.v ===== *)
(** * Uthash: string-keyed hash tables

    What the sources use of uthash: [HASH_FIND_STR], [HASH_ADD_STR] and
    iteration in the order of insertion.  A table is the list of its entries;
    entries are only ever added, so a pointer to an entry is its position. *)
From S2P Require Import Prelude.

Section table.
Context {A : Type} (key : A -> bytes).

Fixpoint hash_find (k : bytes) (t : list A) : option nat :=
  match t with
  | [] => None
  | e :: t' => if bool_decide (key e = k) then Some 0%nat else S <$> hash_find k t'
  end.

(** The entry with the key of [fresh], which is added if there is none. *)
Definition hash_get (fresh : A) (t : list A) : nat * list A :=
  match hash_find (key fresh) t with
  | Some i => (i, t)
  | None => (length t, t ++ [fresh])
  end.

End table.

(** ** Lemmas *)

Section lemmas.
Context {A : Type} (key : A -> bytes).
Implicit Types t : list A.

Definition look (k : bytes) t : option A := hash_find key k t ≫= fun i => t !! i.
Definition keys t : list bytes := key <$> t.

Lemma look_cons k e t : look k (e :: t) = if decide (key e = k) then Some e else look k t.
Proof.
  unfold look. cbn. case_bool_decide; case_decide; try done. by destruct (hash_find key k t).
Qed.

Lemma look_Some k e t : look k t = Some e -> e ∈ t /\ key e = k.
Proof.
  induction t as [|x t IH]; [done|]. rewrite look_cons. case_decide.
  - intros [= ->]. split; [left|done].
  - intros Hl. destruct (IH Hl). split; [by right|done].
Qed.

Lemma look_None k t : look k t = None <-> k ∉ keys t.
Proof.
  unfold keys. induction t as [|x t IH]; [split; [intros _; apply not_elem_of_nil|done]|]. rewrite look_cons, fmap_cons, not_elem_of_cons.
  case_decide; [naive_solver|]. rewrite IH. naive_solver.
Qed.

Lemma look_elem k e t : NoDup (keys t) -> e ∈ t -> key e = k -> look k t = Some e.
Proof.
  unfold keys. induction t as [|x t IH]; [by intros ? ?%elem_of_nil|]. rewrite fmap_cons, NoDup_cons, elem_of_cons, look_cons.
  intros [Hx Hn] [->|He] Hk; [by rewrite decide_True|]. rewrite decide_False; [by apply IH|].
  intros Hk'. apply Hx. apply list_elem_of_fmap. exists e. split; [by rewrite Hk, Hk'|done].
Qed.

Lemma look_app_r k t e : look k (t ++ [e]) = match look k t with Some x => Some x | None => if decide (key e = k) then Some e else None end.
Proof.
  induction t as [|x t IH]; cbn [app]; [by rewrite look_cons|]. rewrite !look_cons, IH. by destruct (decide (key x = k)).
Qed.

Lemma hash_find_lookup k t i : hash_find key k t = Some i -> exists e, t !! i = Some e /\ key e = k.
Proof.
  revert i. induction t as [|x t IH]; intros i; cbn; [done|]. case_bool_decide; [intros [= <-]; eauto|].
  destruct (hash_find key k t) as [j|]; [|done]. intros [= <-]. by apply IH.
Qed.

Lemma hash_find_None k t : hash_find key k t = None <-> k ∉ keys t.
Proof. rewrite <-look_None. unfold look. destruct (hash_find key k t) as [i|] eqn:Hi; [|done]. destruct (hash_find_lookup _ _ _ Hi) as (e & He & _). by cbn; rewrite He. Qed.

(** The two cases of "find or add". *)
Lemma hash_get_new fresh t : key fresh ∉ keys t -> hash_get key fresh t = (length t, t ++ [fresh]).
Proof. unfold hash_get. by intros ->%hash_find_None. Qed.

Lemma hash_get_found fresh t i e : NoDup (keys t) -> t !! i = Some e -> key e = key fresh -> hash_get key fresh t = (i, t).
Proof.
  intros Hn Hi Hk. unfold hash_get. destruct (hash_find key (key fresh) t) as [j|] eqn:Hj.
  - destruct (hash_find_lookup _ _ _ Hj) as (e' & He' & Hk'). assert (j = i) as ->; [|done].
    eapply NoDup_lookup; [exact Hn|unfold keys; by rewrite list_lookup_fmap, He'|]. unfold keys. rewrite list_lookup_fmap, Hi. cbn. by rewrite Hk, Hk'.
  - exfalso. apply (proj1 (hash_find_None _ _) Hj). rewrite <-Hk. apply list_elem_of_fmap. exists e. split; [done|]. by eapply list_elem_of_lookup_2.
Qed.

(** Updating an entry in place. *)
Lemma keys_alter f i t : (forall e, key (f e) = key e) -> keys (alter f i t) = keys t.
Proof.
  intros Hf. unfold keys. revert i. induction t as [|x t IH]; intros [|i]; cbn; [done..|by rewrite Hf|].
  by rewrite IH.
Qed.

Lemma look_alter f i t e k :
  (forall e, key (f e) = key e) -> NoDup (keys t) -> t !! i = Some e ->
  look k (alter f i t) = if decide (k = key e) then Some (f e) else look k t.
Proof.
  intros Hf. unfold keys. revert i. induction t as [|x t IH]; intros i; [done|]. rewrite fmap_cons, NoDup_cons. intros [Hx Hn].
  destruct i as [|i].
  - intros [= ->]. change (alter f 0%nat (e :: t)) with (f e :: t). rewrite !look_cons, Hf. repeat case_decide; congruence.
  - intros Hi. change (alter f (S i) (x :: t)) with (x :: alter f i t). cbn in Hi. rewrite !look_cons, IH by done. repeat case_decide; try done. subst. exfalso. apply Hx.
    apply list_elem_of_fmap. exists e. split; [done|]. by eapply list_elem_of_lookup_2.
Qed.

Lemma hash_get_spec fresh t i t' :
  NoDup (keys t) -> hash_get key fresh t = (i, t') ->
  NoDup (keys t') /\ (exists r, t' = t ++ r)
  /\ (exists e, t' !! i = Some e /\ key e = key fresh /\ e = default fresh (look (key fresh) t))
  /\ forall k, look k t' = if decide (k = key fresh) then Some (default fresh (look k t)) else look k t.
Proof.
  intros Hn. unfold hash_get. destruct (hash_find key (key fresh) t) as [j|] eqn:Hj; intros [= <- <-].
  - assert (look (key fresh) t = t !! j) as Hl by (unfold look; by rewrite Hj).
    destruct (hash_find_lookup _ _ _ Hj) as (e & He & Hk). rewrite He in Hl. split_and!; [done|by exists []; rewrite app_nil_r| |].
    + exists e. by rewrite Hl.
    + intros k. case_decide as Hd; [rewrite Hd, Hl; done|done].
  - assert (look (key fresh) t = None) as Hl by (unfold look; by rewrite Hj). pose proof Hl as Hk. apply look_None in Hk.
    split_and!; [|by eexists| |].
    + unfold keys. rewrite fmap_app. apply NoDup_app. split_and!; [done| |apply NoDup_singleton].
      intros k Hk1 ->%list_elem_of_singleton. done.
    + exists fresh. rewrite lookup_app_r, Nat.sub_diag by done. by rewrite Hl.
    + intros k. rewrite look_app_r. destruct (decide (k = key fresh)) as [->|]; [rewrite Hl; by rewrite decide_True|].
      destruct (look k t); [done|]. by rewrite decide_False.
Qed.

End lemmas.

Lemma keys_perm {A} (key : A -> bytes) (a b : list A) k : a ≡ₚ b -> k ∈ keys key a <-> k ∈ keys key b.
Proof. intros Hab. unfold keys. by rewrite Hab. Qed.

Lemma look_is_Some {A} (key : A -> bytes) k t : k ∈ keys key t <-> is_Some (look key k t).
Proof.
  destruct (look key k t) as [e|] eqn:He.
  - apply look_Some in He as [He <-]. split; [eauto|]. intros _. apply list_elem_of_fmap. by exists e.
  - apply look_None in He. split; [done|]. by intros [? ?].
Qed.
