(* ===== verification/Callgrind.v ===== *)
(** * Callgrind: the profile writer (event_callgrind.c)

    [event_handler_callgrind] keeps the stack of the sample being read and of
    the one before, counts costs per location and per call in tables keyed by
    the printed location, and prints the tables in callgrind's format at
    [DEINIT].  The state [callgrind] holds the handler's user data and the text
    printed to its file; opening the file is a parameter [cg_env]. *)
From stdpp Require Import sorting.
From S2P Require Import Prelude CLib Layout Context Uthash.

Definition MAX_STACK_DEPTH : nat := 128.

(** ** State *)

Record callgrind_callee := {
  ce_loc_str : bytes; ce_loc : trace_loc; ce_inclusive : Z; ce_count : Z;
}.

Record callgrind_caller := {
  cr_loc_str : bytes; cr_loc : trace_loc; cr_exclusive : Z; cr_callees : list callgrind_callee;
}.

(** [self] with [self_str], and [prev] with [prev_str], which are indexed
    together: a location and its printed form per element. *)
Abbreviation slot := (trace_loc * bytes)%type.

Record callgrind_udata := {
  cu_self : list slot; cu_prev : list slot;
  cu_self_len : nat; cu_prev_len : nat;
  cu_callers : list callgrind_caller;
}.

Inductive callgrind_ptr := CNull | CLive (u : callgrind_udata) | CFreed.

Record callgrind := {
  cg_udata : callgrind_ptr;
  cg_text : bytes;            (* what was printed to [fout] *)
  cg_closed : list Z;
}.

Record cg_env := {
  cg_dup : Z -> Z;
  cg_fdopen : Z -> bool;      (* whether a stream was returned *)
  cg_fopen : bytes -> bool;
}.

Section callgrind.
Context (o : options) (env : cg_env).
Abbreviation CM := (M callgrind).

Definition put_ptr (p : callgrind_ptr) (g : callgrind) : callgrind :=
  {| cg_udata := p; cg_text := cg_text g; cg_closed := cg_closed g |}.
Definition fprintf (s : bytes) (g : callgrind) : callgrind :=
  {| cg_udata := cg_udata g; cg_text := cg_text g ++ s; cg_closed := cg_closed g |}.
Definition close_fd (fd : Z) (g : callgrind) : callgrind :=
  {| cg_udata := cg_udata g; cg_text := cg_text g; cg_closed := cg_closed g ++ [fd] |}.

Definition set_self (s : list slot) (n : nat) (u : callgrind_udata) : callgrind_udata :=
  {| cu_self := s; cu_prev := cu_prev u; cu_self_len := n; cu_prev_len := cu_prev_len u; cu_callers := cu_callers u |}.
Definition set_prev (s : list slot) (n : nat) (u : callgrind_udata) : callgrind_udata :=
  {| cu_self := cu_self u; cu_prev := s; cu_self_len := cu_self_len u; cu_prev_len := n; cu_callers := cu_callers u |}.
Definition set_callers (t : list callgrind_caller) (u : callgrind_udata) : callgrind_udata :=
  {| cu_self := cu_self u; cu_prev := cu_prev u; cu_self_len := cu_self_len u; cu_prev_len := cu_prev_len u; cu_callers := t |}.

(** ** Opening *)

(** The result of [callgrind_open]: its code; the stream is not modelled
    further. *)
Definition callgrind_open : CM Z :=
  let '(tfd, opened) :=
    if strcmp_eq (opt_path_output o) (cs "-")
    then let tfd := cg_dup env 1 in (tfd, cg_fdopen env tfd)
    else (-1, cg_fopen env (opt_path_output o)) in
  if opened then mret 0 else
  (if negb (tfd =? -1) then modify (close_fd tfd) else mret tt);;
  mret 1.

(** ** Reading a stack *)

Definition callgrind_sprint_loc (l : trace_loc) : bytes :=
  snprintf_cstr PHPSPY_STR_SIZE
    (fmt_prec (l_class_len l) (l_class l) ++ (if 0 <? l_class_len l then cs "::" else [])
     ++ fmt_prec (l_func_len l) (l_func l) ++ " "%char :: fmt_prec (l_file_len l) (l_file l)
     ++ ":"%char :: fmt_d (l_lineno l)).

Definition callgrind_ingest_frame {W} (f : trace_frame) (u : callgrind_udata) : M W callgrind_udata :=
  let n := cu_self_len u in
  if bool_decide (MAX_STACK_DEPTH <= n)%nat then mret u else
  if bool_decide (length (cu_self u) <= n)%nat then raise OutOfBounds else
  mret (set_self (<[n := (f_loc f, callgrind_sprint_loc (f_loc f))]> (cu_self u)) (S n) u).

(** ** Counting *)

(** "Find or add", of a caller and of a callee. *)
Definition get_caller (s : slot) (t : list callgrind_caller) : nat * list callgrind_caller :=
  hash_get cr_loc_str {| cr_loc_str := snd s; cr_loc := fst s; cr_exclusive := 0; cr_callees := [] |} t.
Definition get_callee (s : slot) (t : list callgrind_callee) : nat * list callgrind_callee :=
  hash_get ce_loc_str {| ce_loc_str := snd s; ce_loc := fst s; ce_inclusive := 0; ce_count := 0 |} t.

Definition add_exclusive (c : callgrind_caller) : callgrind_caller :=
  {| cr_loc_str := cr_loc_str c; cr_loc := cr_loc c; cr_exclusive := u64 (cr_exclusive c + 1); cr_callees := cr_callees c |}.

(** [callee->inclusive += 1], and [callee->count += 1] when the frame is new. *)
Definition add_call (is_new : bool) (c : callgrind_callee) : callgrind_callee :=
  {| ce_loc_str := ce_loc_str c; ce_loc := ce_loc c; ce_inclusive := u64 (ce_inclusive c + 1);
     ce_count := if is_new then u64 (ce_count c + 1) else ce_count c |}.

Definition count_call (s : slot) (is_new : bool) (c : callgrind_caller) : callgrind_caller :=
  let '(i, t) := get_callee s (cr_callees c) in
  {| cr_loc_str := cr_loc_str c; cr_loc := cr_loc c; cr_exclusive := cr_exclusive c; cr_callees := alter (add_call is_new) i t |}.

(** [i >= udata->prev_len || strcmp(self_str[i], prev_str[i]) != 0] *)
Definition looks_new {W} (u : callgrind_udata) (i : nat) (s : slot) : M W bool :=
  if bool_decide (cu_prev_len u <= i)%nat then mret true else
  match cu_prev u !! i with
  | Some p => mret (negb (strcmp_eq (snd s) (snd p)))
  | None => raise OverRead
  end.

(** The body of the loop at [i = n - 1], down to [i = 0]. *)
Fixpoint digest_loop (u : callgrind_udata) (n : nat) (prev_caller : option nat) (callers : list callgrind_caller)
    : CM (list callgrind_caller) :=
  match n with
  | O => mret callers
  | S i =>
    match cu_self u !! i with
    | None => raise OverRead
    | Some s =>
      let '(caller, callers) := get_caller s callers in
      let callers := if bool_decide (i = 0%nat) then alter add_exclusive caller callers else callers in
      callers ← (match prev_caller with
                 | Some p => is_new ← looks_new u i s; mret (alter (count_call s is_new) p callers)
                 | None => mret callers
                 end);
      digest_loop u i (Some caller) callers
    end
  end.

Definition callgrind_digest_stack (u : callgrind_udata) : CM callgrind_udata :=
  callers ← digest_loop u (cu_self_len u) None (cu_callers u);
  mret (set_callers callers u).

(** ** Printing *)

(** [strcmp] on C strings: the sign of the first difference. *)
Fixpoint strcmp (a b : bytes) : Z :=
  match a, b with
  | [], [] => 0
  | [], _ :: _ => -1
  | _ :: _, [] => 1
  | x :: a', y :: b' => if code x <? code y then -1 else if code y <? code x then 1 else strcmp a' b'
  end.

Definition callgrind_sort_callers (a b : callgrind_caller) : Z := strcmp (cr_loc_str a) (cr_loc_str b).
Definition callgrind_sort_callees (a b : callgrind_callee) : Z := strcmp (ce_loc_str a) (ce_loc_str b).

(** [HASH_SORT]: a stable merge sort. *)
Definition caller_le (a b : callgrind_caller) : Prop := callgrind_sort_callers a b <= 0.
Definition callee_le (a b : callgrind_callee) : Prop := callgrind_sort_callees a b <= 0.
#[export] Instance caller_le_dec : RelDecision caller_le.
Proof. intros a b. unfold caller_le. apply _. Defined.
#[export] Instance callee_le_dec : RelDecision callee_le.
Proof. intros a b. unfold callee_le. apply _. Defined.

Definition fmt_fn (l : trace_loc) : bytes :=
  fmt_prec (l_class_len l) (l_class l) ++ (if 0 <? l_class_len l then cs "::" else []) ++ fmt_prec (l_func_len l) (l_func l).

Definition callee_text (caller : callgrind_caller) (e : callgrind_callee) : bytes :=
  [NL] ++ cs "cfl=" ++ fmt_prec (l_file_len (ce_loc e)) (l_file (ce_loc e)) ++ [NL]
  ++ cs "cfn=" ++ fmt_fn (ce_loc e) ++ [NL]
  ++ cs "calls=" ++ fmt_d (s64 (ce_count e)) ++ " "%char :: fmt_d (l_lineno (ce_loc e)) ++ [NL]
  ++ fmt_d (l_lineno (cr_loc caller)) ++ " "%char :: fmt_d (s64 (ce_inclusive e)) ++ [NL].

Definition caller_text (c : callgrind_caller) : bytes :=
  [NL] ++ cs "fl=" ++ fmt_prec (l_file_len (cr_loc c)) (l_file (cr_loc c)) ++ [NL]
  ++ cs "fn=" ++ fmt_fn (cr_loc c) ++ [NL]
  ++ fmt_d (l_lineno (cr_loc c)) ++ " "%char :: fmt_d (s64 (cr_exclusive c)) ++ [NL]
  ++ concat (map (callee_text c) (cr_callees c)).

Definition dump_header : bytes :=
  cs "# callgrind format" ++ [NL] ++ cs "version: 1" ++ [NL] ++ cs "creator: phpspy" ++ [NL] ++ cs "events: Samples" ++ [NL].

(** The tables in the order they are printed, which is the order the sorts
    leave them in. *)
Definition with_sorted_callees (c : callgrind_caller) : callgrind_caller :=
  {| cr_loc_str := cr_loc_str c; cr_loc := cr_loc c; cr_exclusive := cr_exclusive c; cr_callees := merge_sort callee_le (cr_callees c) |}.

Definition callgrind_dump (u : callgrind_udata) : CM callgrind_udata :=
  let callers := map with_sorted_callees (merge_sort caller_le (cu_callers u)) in
  modify (fprintf (dump_header ++ concat (map caller_text callers)));;
  mret (set_callers callers u).

(** ** The handler *)

Definition zero_loc : trace_loc :=
  let z := repeat NUL PHPSPY_STR_SIZE in
  {| l_func := z; l_class := z; l_file := z; l_func_len := 0; l_class_len := 0; l_file_len := 0; l_lineno := 0 |}.

(** [calloc(1, sizeof(callgrind_udata_t))] *)
Definition new_udata : callgrind_udata :=
  {| cu_self := repeat (zero_loc, []) MAX_STACK_DEPTH; cu_prev := repeat (zero_loc, []) MAX_STACK_DEPTH;
     cu_self_len := 0; cu_prev_len := 0; cu_callers := [] |}.

(** The two [memcpy] of [STACK_END]. *)
Definition remember_stack (u : callgrind_udata) : callgrind_udata :=
  set_self (cu_self u) 0 (set_prev (poke (cu_prev u) 0 (take (cu_self_len u) (cu_self u))) (cu_self_len u) u).

Definition callgrind_init : CM Z :=
  rv ← callgrind_open;
  if bool_decide (rv <> 0) then mret 1 else
  modify (put_ptr (CLive new_udata));;
  mret 0.

Definition callgrind_event (ev : event) (u : callgrind_udata) : CM callgrind_ptr :=
  match ev with
  | EvStackBegin => mret (CLive (set_self (cu_self u) 0 u))
  | EvFrame f => u ← callgrind_ingest_frame f u; mret (CLive u)
  | EvStackEnd _ => u ← callgrind_digest_stack u; mret (CLive (remember_stack u))
  | EvDeinit => _ ← callgrind_dump u; mret CFreed (* callgrind_free and free; the pointer stays *)
  | _ => mret (CLive u)
  end.

(** Whether the event's case uses the user data. *)
Definition uses_udata (ev : event) : bool :=
  match ev with EvStackBegin | EvFrame _ | EvStackEnd _ | EvDeinit => true | _ => false end.

Definition event_handler_callgrind (ev : event) : CM Z :=
  match ev with
  | EvInit _ => callgrind_init
  | _ =>
    g ← get;
    match cg_udata g with
    | CNull => mret 1
    | CFreed => if uses_udata ev then raise UseAfterFree else mret 0
    | CLive u => p ← callgrind_event ev u; modify (put_ptr p);; mret 0
    end
  end.

#[export] Instance callgrind_handler : EventHandler callgrind := event_handler_callgrind.

End callgrind.
