(* ===== verification/CallgrindSpec.v ===== *)
(** * CallgrindSpec: what a callgrind profile should count

    The stacks of a run as an event list describes them, the leaves and calls
    they contain, and the invariant that relates the handler's tables to them;
    the lemmas show that each step of the digest loop maintains it. *)
From stdpp Require Import sorting.
From S2P Require Import Prelude CLib Layout Context Uthash Callgrind.

(** ** Specification *)

(** A stack, innermost frame first. *)
Abbreviation stack := (list slot).

Definition frame_slot (f : trace_frame) : slot := (f_loc f, callgrind_sprint_loc (f_loc f)).

(** The stacks of the samples that were completed, each cut to the depth the
    handler keeps; [cur] are the frames of the current sample so far. *)
Fixpoint stacks_of (cur : stack) (evs : list event) : list stack :=
  match evs with
  | [] => []
  | EvStackBegin :: r => stacks_of [] r
  | EvFrame f :: r => stacks_of (cur ++ [frame_slot f]) r
  | EvStackEnd _ :: r => take MAX_STACK_DEPTH cur :: stacks_of [] r
  | _ :: r => stacks_of cur r
  end.

(** The innermost frames. *)
Definition leaves (ss : list stack) : list bytes := omap (fun s => snd <$> head s) ss.

(** A call: the caller, the callee, and whether the callee differs from what
    the stack before had at that position, counted from the leaf. *)
Abbreviation call := (bytes * bytes * bool)%type.

Definition calls_in (s prev : stack) : list call :=
  imap (fun i '(caller, callee) => (snd caller, snd callee, bool_decide (snd <$> prev !! i <> Some (snd callee))))
       (zip (tail s) s).

Fixpoint calls_of (prev : stack) (ss : list stack) : list call :=
  match ss with
  | [] => []
  | s :: r => calls_in s prev ++ calls_of s r
  end.

(** How often a leaf, a call, a new call occurs. *)
Definition times (k : bytes) (l : list bytes) : Z := Z.of_nat (length (filter (fun x => x = k) l)).
Definition call_times (k k' : bytes) (l : list call) : Z := Z.of_nat (length (filter (fun x => fst x = (k, k')) l)).
Definition new_times (k k' : bytes) (l : list call) : Z := Z.of_nat (length (filter (fun x => x = (k, k', true)) l)).

(** ** The invariant *)

Definition callee_ok (k : bytes) (calls : list call) (seen : list slot) (k' : bytes) (r : option callgrind_callee) : Prop :=
  match r with
  | None => call_times k k' calls = 0
  | Some e => ce_inclusive e = u64 (call_times k k' calls) /\ ce_count e = u64 (new_times k k' calls)
              /\ 0 < call_times k k' calls /\ (ce_loc e, k') ∈ seen
  end.

Definition caller_ok (lvs : list bytes) (calls : list call) (seen : list slot) (k : bytes) (r : option callgrind_caller) : Prop :=
  match r with
  | None => k ∉ snd <$> seen
  | Some c => cr_exclusive c = u64 (times k lvs) /\ (cr_loc c, k) ∈ seen
              /\ NoDup (keys ce_loc_str (cr_callees c))
              /\ forall k', callee_ok k calls seen k' (look ce_loc_str k' (cr_callees c))
  end.

(** The tables hold what was counted of the leaves [lvs] and the calls
    [calls], with an entry for each frame of [seen]. *)
Record tallied (t : list callgrind_caller) (lvs : list bytes) (calls : list call) (seen : list slot) : Prop := {
  ta_keys : NoDup (keys cr_loc_str t);
  ta_callers : forall k, caller_ok lvs calls seen k (look cr_loc_str k t);
  ta_leaves : forall k, k ∈ lvs -> k ∈ snd <$> seen;
  ta_calls : forall x, x ∈ calls -> x.1.1 ∈ snd <$> seen;
}.

(** ** Counting lemmas *)

Lemma times_app k a b : times k (a ++ b) = times k a + times k b.
Proof. unfold times. rewrite filter_app, length_app. lia. Qed.
Lemma call_times_app k k' a b : call_times k k' (a ++ b) = call_times k k' a + call_times k k' b.
Proof. unfold call_times. rewrite filter_app, length_app. lia. Qed.
Lemma new_times_app k k' a b : new_times k k' (a ++ b) = new_times k k' a + new_times k k' b.
Proof. unfold new_times. rewrite filter_app, length_app. lia. Qed.

Lemma times_0 k l : k ∉ l -> times k l = 0.
Proof. intros Hk. unfold times. rewrite filter_none; [done|]. by intros x Hx ->. Qed.
Lemma call_times_0 k k' l : (forall x, x ∈ l -> x.1.1 <> k) -> call_times k k' l = 0.
Proof. intros Hk. unfold call_times. rewrite filter_none; [done|]. intros x Hx He. by apply (Hk x Hx); rewrite He. Qed.

Lemma new_times_le k k' l : 0 <= new_times k k' l <= call_times k k' l.
Proof.
  induction l as [|[e b] l IH]; [done|]. change ((e, b) :: l) with ([(e, b)] ++ l). rewrite new_times_app, call_times_app.
  assert (0 <= new_times k k' [(e, b)] <= call_times k k' [(e, b)]); [|lia]. unfold new_times, call_times. rewrite !filter_cons, !filter_nil.
  repeat case_decide; cbn in *; try lia. naive_solver.
Qed.

#[export] Instance tallied_perm t : Proper ((≡ₚ) ==> (≡ₚ) ==> (≡ₚ) ==> impl) (tallied t).
Proof.
  assert (forall (P : call -> Prop) `{!forall x, Decision (P x)} a b, a ≡ₚ b -> length (filter P a) = length (filter P b)) as Hc.
  { intros P ? a b Hab. by rewrite Hab. }
  intros l1 l2 Hl c1 c2 Hcalls s1 s2 Hs [H1 H2 H3 H4].
  split; [done| | |].
  - intros k. specialize (H2 k). destruct (look cr_loc_str k t) as [c|]; cbn in *; [|by rewrite <-Hs].
    destruct H2 as (E1 & E2 & E3 & E4). split_and!; [|by rewrite <-Hs|done|].
    + rewrite E1. unfold times. by rewrite Hl.
    + intros k'. specialize (E4 k'). unfold callee_ok, call_times, new_times in *.
      destruct (look ce_loc_str k' (cr_callees c)) as [e|]; [|by rewrite <-(Hc _ _ _ _ Hcalls)].
      rewrite <-!(Hc _ _ _ _ Hcalls). by rewrite <-Hs.
  - intros k. rewrite <-Hl, <-Hs. apply H3.
  - intros x. rewrite <-Hcalls, <-Hs. apply H4.
Qed.

Lemma times_cons k x l : times k (x :: l) = (if decide (x = k) then 1 else 0) + times k l.
Proof. unfold times. rewrite filter_cons. case_decide; cbn [length]; lia. Qed.
Lemma call_times_cons k k' e b l : call_times k k' ((e, b) :: l) = (if decide (e = (k, k')) then 1 else 0) + call_times k k' l.
Proof. unfold call_times. rewrite filter_cons. cbn [fst]. repeat case_decide; cbn [length]; try lia; done. Qed.
Lemma new_times_cons k k' e b l :
  new_times k k' ((e, b) :: l) = (if decide (e = (k, k')) then if b : bool then 1 else 0 else 0) + new_times k k' l.
Proof.
  unfold new_times. rewrite filter_cons. repeat case_decide; cbn [length]; try destruct b; try lia; naive_solver.
Qed.

(** ** The steps of the digest loop *)

Section steps.
Context (t : list callgrind_caller) (lvs : list bytes) (calls : list call) (seen : list slot).
Context (Ht : tallied t lvs calls seen).

Lemma elem_of_keys s (l : list slot) : s ∈ l -> snd s ∈ snd <$> l.
Proof. intros Hs. apply list_elem_of_fmap. by exists s. Qed.

(** An entry knows its table. *)
Lemma tallied_entry i c : t !! i = Some c -> caller_ok lvs calls seen (cr_loc_str c) (Some c).
Proof.
  intros Hi. rewrite <-(look_elem cr_loc_str (cr_loc_str c) c t) by (apply Ht || by eapply list_elem_of_lookup_2 || done). apply Ht.
Qed.

Lemma tallied_caller s i t' : get_caller s t = (i, t') ->
  tallied t' lvs calls (s :: seen) /\ (exists r, t' = t ++ r) /\ exists c, t' !! i = Some c /\ cr_loc_str c = snd s.
Proof.
  intros Hg. destruct (hash_get_spec _ _ _ _ _ (ta_keys _ _ _ _ Ht) Hg) as (Hn & Happ & (c & Hc & Hk & _) & Hl).
  split_and!; [|done|by exists c]. cbn in Hl. split; [done| | |].
  - intros k. rewrite Hl. pose proof (ta_callers _ _ _ _ Ht k) as Hold. case_decide as Hks.
    + subst k. destruct (look cr_loc_str (snd s) t) as [c0|]; cbn in *.
      * destruct Hold as (E1 & E2 & E3 & E4). split_and!; [done|by right|done|]. intros k'. specialize (E4 k').
        unfold callee_ok in *. case_match; [|done]. destruct E4 as (?&?&?&?). split_and!; try done. by right.
      * rewrite times_0 by (intros Hin; by apply Hold, (ta_leaves _ _ _ _ Ht)). split_and!; [done|destruct s; left|apply NoDup_nil_2|].
        intros k'. apply call_times_0. intros x Hx Hxk. apply Hold. rewrite <-Hxk. by apply (ta_calls _ _ _ _ Ht).
    + destruct (look cr_loc_str k t) as [c0|]; cbn in *; [|rewrite not_elem_of_cons; done].
      destruct Hold as (E1 & E2 & E3 & E4). split_and!; [done|by right|done|]. intros k'. specialize (E4 k').
      unfold callee_ok in *. case_match; [|done]. destruct E4 as (?&?&?&?). split_and!; try done. by right.
  - intros k Hin. right. by apply (ta_leaves _ _ _ _ Ht).
  - intros x Hin. right. by apply (ta_calls _ _ _ _ Ht).
Qed.

Lemma tallied_leaf i c : t !! i = Some c -> tallied (alter add_exclusive i t) (cr_loc_str c :: lvs) calls seen.
Proof.
  intros Hi. pose proof (tallied_entry i c Hi) as (E1 & E2 & E3 & E4). split.
  - by rewrite keys_alter; [apply Ht|].
  - intros k. rewrite (look_alter _ _ _ _ c) by (done || apply Ht). case_decide as Hk.
    + subst k. cbn. split_and!; try done. rewrite times_cons, decide_True by done.
      rewrite E1, wrap_add_idemp. f_equal. lia.
    + pose proof (ta_callers _ _ _ _ Ht k) as Hold. destruct (look cr_loc_str k t); [|done]. cbn in *.
      by rewrite times_cons, decide_False, Z.add_0_l.
  - intros k [->|Hin]%elem_of_cons; [by apply elem_of_keys in E2|]. by apply (ta_leaves _ _ _ _ Ht).
  - apply Ht.
Qed.

Lemma count_call_ok s b c : (fst s, snd s) ∈ seen -> caller_ok lvs calls seen (cr_loc_str c) (Some c) ->
  caller_ok lvs ((cr_loc_str c, snd s, b) :: calls) seen (cr_loc_str c) (Some (count_call s b c)).
Proof.
  intros Hs (E1 & E2 & E3 & E4). unfold count_call. destruct (get_callee s (cr_callees c)) as [j t1] eqn:Hg.
  destruct (hash_get_spec _ _ _ _ _ E3 Hg) as (Hn & _ & (e & He & Hk & Hdef) & Hl).
  cbn [ce_loc_str] in Hk, Hdef, Hl. unfold caller_ok. cbn [cr_loc_str cr_loc cr_exclusive cr_callees].
  split_and!; [done|done|by rewrite keys_alter|]. intros k'. rewrite (look_alter _ _ _ _ e) by done. rewrite Hl, Hk.
  specialize (E4 k'). pose proof (new_times_le (cr_loc_str c) k' calls). case_decide as Hk'.
  - subst k'. unfold callee_ok. rewrite call_times_cons, new_times_cons, !decide_True by done.
    destruct (look ce_loc_str (snd s) (cr_callees c)) as [e0|]; cbn in *; subst e; cbn.
    + destruct E4 as (I1 & I2 & I3 & I4). rewrite I1, I2, wrap_add_idemp. split_and!; [f_equal; lia| |lia|done].
      destruct b; [rewrite wrap_add_idemp; f_equal; lia|f_equal; lia].
    + rewrite E4 in *. assert (new_times (cr_loc_str c) (snd s) calls = 0) as -> by lia. by destruct b.
  - unfold callee_ok in *. rewrite call_times_cons, new_times_cons, !decide_False by congruence. by rewrite !Z.add_0_l.
Qed.

Lemma tallied_call p c s b : t !! p = Some c -> s ∈ seen ->
  tallied (alter (count_call s b) p t) lvs ((cr_loc_str c, snd s, b) :: calls) seen.
Proof.
  intros Hp Hs. pose proof (tallied_entry p c Hp) as Hc.
  assert (forall e, cr_loc_str (count_call s b e) = cr_loc_str e) as Hkey.
  { intros e. unfold count_call. by destruct (get_callee s (cr_callees e)). }
  split.
  - by rewrite keys_alter; [apply Ht|].
  - intros k. rewrite (look_alter _ _ _ _ c) by (done || apply Ht). case_decide as Hk.
    + subst k. apply count_call_ok; [by destruct s|done].
    + pose proof (ta_callers _ _ _ _ Ht k) as Hold. destruct (look cr_loc_str k t) as [c0|]; [|done].
      destruct Hold as (E1 & E2 & E3 & E4). split_and!; try done. intros k'. specialize (E4 k'). unfold callee_ok in *.
      by rewrite call_times_cons, new_times_cons, !decide_False, !Z.add_0_l by congruence.
  - apply Ht.
  - intros x [->|Hin]%elem_of_cons; [|by apply (ta_calls _ _ _ _ Ht)]. cbn. destruct Hc as (_ & Hin & _). by apply elem_of_keys in Hin.
Qed.

End steps.
