(* ===== verification/CallgrindTheorems.v ===== *)
(** * CallgrindTheorems: the profile is what the samples contain

    The digest loop and the event handler maintain the counts of
    [CallgrindSpec]; the text written at the end is the sorted profile.  The
    handler also satisfies the contracts of the tracer and the sampling loop. *)
From stdpp Require Import sorting.
From S2P Require Import Prelude CLib Layout Context TraceSafe Uthash Callgrind CallgrindSpec SessionTheorems.

(** ** The order of the tables *)

Lemma strcmp_refl a : strcmp a a = 0.
Proof. induction a as [|x a IH]; cbn; [done|]. by rewrite Z.ltb_irrefl. Qed.

Lemma strcmp_opp a b : strcmp b a = - strcmp a b.
Proof.
  revert b. induction a as [|x a IH]; intros [|y b]; cbn; try done.
  destruct (Z.ltb_spec (code x) (code y)), (Z.ltb_spec (code y) (code x)); try lia. apply IH.
Qed.

Lemma code_inj x y : code x = code y -> x = y.
Proof.
  unfold code. intros H%N2Z.inj. by rewrite <-(ascii_N_embedding x), <-(ascii_N_embedding y), H.
Qed.

Lemma strcmp_0 a b : strcmp a b = 0 -> a = b.
Proof.
  revert b. induction a as [|x a IH]; intros [|y b]; cbn; try done.
  destruct (Z.ltb_spec (code x) (code y)), (Z.ltb_spec (code y) (code x)); try lia. intros ->%IH. f_equal. apply code_inj. lia.
Qed.

Lemma strcmp_trans a b c : strcmp a b <= 0 -> strcmp b c <= 0 -> strcmp a c <= 0.
Proof.
  revert b c. induction a as [|x a IH]; intros [|y b] [|z c]; cbn; try lia.
  destruct (Z.ltb_spec (code x) (code y)), (Z.ltb_spec (code y) (code z)), (Z.ltb_spec (code x) (code z)),
    (Z.ltb_spec (code y) (code x)), (Z.ltb_spec (code z) (code y)), (Z.ltb_spec (code z) (code x)); try lia. apply IH.
Qed.

(** A table with distinct keys, sorted by them. *)
Lemma sort_by_key {A} (key : A -> bytes) (R : relation A) `{!RelDecision R} (t : list A) :
  (forall a b, R a b <-> strcmp (key a) (key b) <= 0) -> NoDup (keys key t) ->
  StronglySorted (fun a b => strcmp (key a) (key b) < 0) (merge_sort R t).
Proof.
  intros HR Hn. assert (Total R). { intros a b. rewrite !HR, (strcmp_opp (key a) (key b)). lia. }
  assert (Transitive R). { intros a b c. rewrite !HR. apply strcmp_trans. }
  pose proof (Sorted_merge_sort R t) as Hs. apply Sorted_StronglySorted in Hs; [|done].
  assert (NoDup (keys key (merge_sort R t))) as Hm.
  { unfold keys in *. by rewrite merge_sort_Permutation. }
  induction Hs as [|x l Hs IH Hx]; constructor.
  - apply IH. by apply NoDup_cons in Hm as [_ Hm].
  - apply Forall_forall. intros y Hy. apply NoDup_cons in Hm as [Hnx _].
    pose proof (proj1 (HR x y) (proj1 (Forall_forall _ _) Hx y Hy)) as Hle.
    destruct (Z.eq_dec (strcmp (key x) (key y)) 0) as [He|]; [|lia]. apply strcmp_0 in He. exfalso. apply Hnx.
    apply list_elem_of_fmap. by exists y.
Qed.

(** ** The digest loop *)

Record udata_ok (u : callgrind_udata) : Prop := {
  ok_self : length (cu_self u) = MAX_STACK_DEPTH;
  ok_prev : length (cu_prev u) = MAX_STACK_DEPTH;
  ok_self_len : (cu_self_len u <= MAX_STACK_DEPTH)%nat;
  ok_prev_len : (cu_prev_len u <= MAX_STACK_DEPTH)%nat;
  ok_self_nn : Forall (fun s => NUL ∉ snd s) (cu_self u);
  ok_prev_nn : Forall (fun s => NUL ∉ snd s) (cu_prev u);
}.

Definition self_stack (u : callgrind_udata) : stack := take (cu_self_len u) (cu_self u).
Definition prev_stack (u : callgrind_udata) : stack := take (cu_prev_len u) (cu_prev u).

Lemma length_self_stack u : udata_ok u -> length (self_stack u) = cu_self_len u.
Proof. intros [? ? ? ? ? ?]. unfold self_stack. rewrite length_take. lia. Qed.

Lemma lookup_calls_in s prev i a b :
  s !! S i = Some a -> s !! i = Some b -> calls_in s prev !! i = Some (snd a, snd b, bool_decide (snd <$> prev !! i <> Some (snd b))).
Proof.
  intros Ha Hb. unfold calls_in. rewrite list_lookup_imap, lookup_zip_with, lookup_tail, Ha. cbn. by rewrite Hb.
Qed.

Lemma length_calls_in s prev : length (calls_in s prev) = (length s - 1)%nat.
Proof. unfold calls_in. rewrite length_imap, length_zip_with. destruct s; cbn; lia. Qed.

Lemma looks_new_run {W} u i s (g : W) : udata_ok u -> (i < MAX_STACK_DEPTH)%nat -> NUL ∉ snd s ->
  looks_new u i s g = Done (bool_decide (snd <$> prev_stack u !! i <> Some (snd s)), g).
Proof.
  intros [? ? ? ? ? Hp] Hi Hs. unfold looks_new, prev_stack. case_bool_decide as Hle.
  - rewrite lookup_take_ge by done. by rewrite bool_decide_true.
  - rewrite lookup_take_lt by lia. destruct (lookup_lt_is_Some_2 (cu_prev u) i) as [p Hpi]; [lia|]. rewrite Hpi. cbn.
    rewrite Forall_lookup in Hp. specialize (Hp i p Hpi). unfold strcmp_eq. rewrite !cstr_id by done.
    assert (negb (bool_decide (snd s = snd p)) = bool_decide (Some (snd p) <> Some (snd s))) as ->; [|done].
    rewrite bool_decide_not. f_equal. apply bool_decide_ext. split; congruence.
Qed.

Definition leaf_of (n : nat) (s : stack) : list bytes :=
  match n with O => [] | S _ => option_list (snd <$> head s) end.

Lemma digest_loop_run u n prev t lvs calls seen g :
  udata_ok u -> (n <= cu_self_len u)%nat -> tallied t lvs calls seen ->
  ((n = cu_self_len u /\ prev = None)
   \/ exists p c s, prev = Some p /\ t !! p = Some c /\ self_stack u !! n = Some s /\ cr_loc_str c = snd s) ->
  exists t', digest_loop u n prev t g = Done (t', g)
    /\ tallied t' (leaf_of n (self_stack u) ++ lvs) (take n (calls_in (self_stack u) (prev_stack u)) ++ calls)
                  (take n (self_stack u) ++ seen).
Proof.
  intros Hu. revert prev t lvs calls seen. induction n as [|i IH]; intros prev t lvs calls seen Hn Ht Hprev; [by exists t|].
  pose proof (length_self_stack u Hu) as Hlen. destruct (lookup_lt_is_Some_2 (self_stack u) i) as [s Hs]; [lia|].
  assert (cu_self u !! i = Some s) as Hsi by (rewrite <-Hs; symmetry; apply lookup_take_lt; lia).
  assert (NUL ∉ snd s) as Hnn by (pose proof (ok_self_nn u Hu) as Hf; rewrite Forall_lookup in Hf; eauto).
  pose proof (ok_self_len u Hu). cbn [digest_loop]. rewrite Hsi. destruct (get_caller s t) as [caller t1] eqn:Hg.
  destruct (tallied_caller _ _ _ _ Ht _ _ _ Hg) as (Ht1 & [r Hr] & c1 & Hc1 & Hk1).
  rewrite (take_S_r _ _ _ Hs), <-app_assoc. cbn [app].
  set (t2 := if bool_decide (i = 0%nat) then alter add_exclusive caller t1 else t1).
  assert (tallied t2 ((if decide (i = 0%nat) then [snd s] else []) ++ lvs) calls (s :: seen)
          /\ forall j c, t1 !! j = Some c -> exists c', t2 !! j = Some c' /\ cr_loc_str c' = cr_loc_str c) as [Ht2 Hkeep].
  { unfold t2. case_bool_decide; case_decide; try done; [|eauto]. split; [rewrite <-Hk1; by apply tallied_leaf|].
    intros j c Hj. destruct (decide (j = caller)) as [->|]; [rewrite list_lookup_alter_eq, Hj; by eexists|].
    rewrite list_lookup_alter_ne by done. eauto. }
  assert (forall t3 lv2 cl2, tallied t3 ((if decide (i = 0%nat) then [snd s] else []) ++ lv2) cl2 (s :: seen) ->
    (exists c', t3 !! caller = Some c' /\ cr_loc_str c' = snd s) ->
    exists t', digest_loop u i (Some caller) t3 g = Done (t', g)
      /\ tallied t' (leaf_of (S i) (self_stack u) ++ lv2) (take i (calls_in (self_stack u) (prev_stack u)) ++ cl2)
                    (take i (self_stack u) ++ s :: seen)) as Hrest.
  { intros t3 lv2 cl2 Ht3 (c' & Hc' & Hk').
    destruct (IH (Some caller) t3 _ _ _ ltac:(lia) Ht3) as (t' & Hrun & Ht'); [right; by exists caller, c', s|].
    exists t'. split; [done|]. destruct i as [|i']; [|exact Ht']. cbn in *. by destruct (self_stack u); [|injection Hs as ->]. }
  assert (exists c', t2 !! caller = Some c' /\ cr_loc_str c' = snd s) as Hcaller.
  { destruct (Hkeep _ _ Hc1) as (c' & Hc' & Hk'). exists c'. by rewrite Hk'. }
  destruct Hprev as [[Hni ->]|(p & c & sn & -> & Hp & Hsn & Hkp)].
  - assert (take (S i) (calls_in (self_stack u) (prev_stack u)) = take i (calls_in (self_stack u) (prev_stack u))) as ->
      by (rewrite !take_ge; rewrite ?length_calls_in; lia || done).
    by apply Hrest.
  - destruct (Hkeep p c) as (c2 & Hc2 & Hk2); [rewrite Hr; by apply lookup_app_l_Some|].
    rewrite (take_S_r _ _ _ (lookup_calls_in _ (prev_stack u) _ _ _ Hsn Hs)), <-app_assoc. cbn [app].
    unfold mbind, M_bind. rewrite looks_new_run by (done || lia). unfold mret, M_ret. apply Hrest.
    + rewrite <-Hkp, <-Hk2. apply tallied_call; [done|done|left].
    + destruct Hcaller as (c' & Hc' & Hk'). destruct (decide (caller = p)) as [->|].
      * rewrite list_lookup_alter_eq, Hc'. eexists. split; [done|]. unfold count_call. by destruct (get_callee _ _).
      * rewrite list_lookup_alter_ne by done. eauto.
Qed.

(** ** The handler *)

(** The user data after the samples [ss], with the frames [cur] of the next. *)
Record live_ok (u : callgrind_udata) (ss : list stack) (cur : stack) : Prop := {
  lo_ok : udata_ok u;
  lo_self : self_stack u = take MAX_STACK_DEPTH cur;
  lo_prev : prev_stack u = default [] (last ss);
  lo_tally : tallied (cu_callers u) (leaves ss) (calls_of [] ss) (concat ss);
}.

Lemma calls_of_snoc p ss s : calls_of p (ss ++ [s]) = calls_of p ss ++ calls_in s (default p (last ss)).
Proof.
  revert p. induction ss as [|x ss IH]; intros p; [cbn; by rewrite app_nil_r|]. cbn. rewrite IH, <-app_assoc.
  by destruct ss using rev_ind; [|rewrite app_comm_cons, !last_snoc].
Qed.

Lemma tallied_nil : tallied [] [] [] [].
Proof. split; try by intros ? ?%elem_of_nil. apply NoDup_nil_2. Qed.

Lemma new_udata_ok : live_ok new_udata [] [].
Proof.
  split; [|done|done|apply tallied_nil].
  assert (Forall (fun s : slot => NUL ∉ snd s) (repeat (zero_loc, []) MAX_STACK_DEPTH)) as Hnn.
  { apply List.Forall_forall. intros x ->%repeat_spec. apply nn_nil. }
  split; cbn [cu_self cu_prev cu_self_len cu_prev_len new_udata]; rewrite ?repeat_length; done || lia.
Qed.

Lemma begin_ok u ss cur : live_ok u ss cur -> live_ok (set_self (cu_self u) 0 u) ss [].
Proof. intros [[] Hs Hp Ht]. split; try done. split; try done. cbn. lia. Qed.

Lemma ingest_run {W} f u ss cur (g : W) : live_ok u ss cur ->
  exists u', callgrind_ingest_frame f u g = Done (u', g) /\ live_ok u' ss (cur ++ [frame_slot f]).
Proof.
  intros [Hu Hs Hp Ht]. pose proof (length_self_stack u Hu) as Hlen. rewrite Hs, length_take in Hlen. pose proof Hu as [H1 H2 H3 H4 H5 H6].
  unfold callgrind_ingest_frame. case_bool_decide as Hfull.
  - exists u. split; [done|]. split; try done. by rewrite Hs, take_app_le by lia.
  - case_bool_decide; [lia|]. eexists. split; [done|]. split; try done.
    + split; cbn; rewrite ?length_insert; try done; [lia|]. apply Forall_insert; [done|]. apply cstr_no_nul.
    + unfold self_stack. cbn [cu_self cu_self_len set_self].
      rewrite (take_S_r _ _ (frame_slot f)) by (rewrite list_lookup_insert_eq; [done|lia]).
      rewrite take_insert_ge by done. change (take (cu_self_len u) (cu_self u)) with (self_stack u).
      rewrite Hs, !take_ge by (rewrite ?length_app; cbn; lia). done.
Qed.

Lemma digest_run u ss cur g : live_ok u ss cur ->
  exists u', callgrind_digest_stack u g = Done (u', g)
    /\ live_ok (remember_stack u') (ss ++ [take MAX_STACK_DEPTH cur]) [].
Proof.
  intros [Hu Hs Hp Ht]. pose proof (length_self_stack u Hu) as Hlen. pose proof Hu as [H1 H2 H3 H4 H5 H6].
  destruct (digest_loop_run u (cu_self_len u) None (cu_callers u) _ _ _ g Hu (le_n _) Ht (or_introl (conj eq_refl eq_refl)))
    as (t' & Hrun & Ht').
  exists (set_callers t' u). split; [unfold callgrind_digest_stack, mbind, M_bind; by rewrite Hrun|].
  assert (length (self_stack u) = cu_self_len u) as Hl by done.
  split.
  - split; cbn [cu_self cu_prev cu_self_len cu_prev_len set_self set_prev set_callers remember_stack]; try done;
      [rewrite length_poke_max; unfold self_stack in Hl; lia|lia|].
    unfold poke. apply Forall_app. split; [done|]. apply Forall_app. split; [by apply Forall_take|by apply Forall_drop].
  - done.
  - rewrite last_snoc. change (take (cu_self_len u) (poke (cu_prev u) 0 (self_stack u)) = take MAX_STACK_DEPTH cur).
    unfold poke. rewrite take_0, <-Hs. cbn [app]. by rewrite <-Hl at 1; rewrite take_app_length.
  - change (cu_callers (remember_stack (set_callers t' u))) with t'.
    rewrite (take_ge (calls_in _ _)), (take_ge (self_stack u)) in Ht' by (rewrite ?length_calls_in; lia). rewrite Hs, Hp in Ht'.
    unfold leaves in *. rewrite calls_of_snoc, omap_app, concat_app. cbn [concat]. rewrite app_nil_r.
    assert (leaf_of (cu_self_len u) (take MAX_STACK_DEPTH cur) = omap (fun s => snd <$> head s) [take MAX_STACK_DEPTH cur]) as El.
    { rewrite <-Hs, <-Hl. unfold leaf_of. cbn. by destruct (self_stack u). }
    rewrite El in Ht'. eapply tallied_perm; [..|exact Ht']; apply Permutation_app_comm.
Qed.


Section handler.
Context (o : options) (env : cg_env).

(** Whether the output file opens. *)
Definition opens : bool :=
  if strcmp_eq (opt_path_output o) (cs "-") then cg_fdopen env (cg_dup env 1) else cg_fopen env (opt_path_output o).

Lemma init_run opts g : exists rv g', event_handler_callgrind o env (EvInit opts) g = Done (rv, g')
  /\ cg_text g' = cg_text g /\ rv = (if opens then 0 else 1)
  /\ cg_udata g' = if opens then CLive new_udata else cg_udata g.
Proof.
  cbn. unfold callgrind_init, callgrind_open, opens. unfold mbind, M_bind.
  destruct (strcmp_eq (opt_path_output o) (cs "-")).
  - destruct (cg_fdopen env (cg_dup env 1)); [by repeat eexists|]. cbn. destruct (cg_dup env 1 =? -1); by repeat eexists.
  - by destruct (cg_fopen env (opt_path_output o)); repeat eexists.
Qed.

(** An event of a sample. *)
Lemma event_run ev u ss cur g : wf_event ev -> cg_udata g = CLive u -> live_ok u ss cur ->
  exists u' cur', event_handler_callgrind o env ev g = Done (0, put_ptr (CLive u') g)
    /\ forall evs, exists ss', stacks_of cur (ev :: evs) = ss' ++ stacks_of cur' evs /\ live_ok u' (ss ++ ss') cur'.
Proof.
  intros Hev Hg Hu.
  assert (forall p, callgrind_event ev u g = Done (p, g) -> event_handler_callgrind o env ev g = Done (0, put_ptr p g)) as Hcall.
  { intros p Hp. unfold event_handler_callgrind. destruct ev; try done; by unfold mbind, M_bind, get; rewrite Hg, Hp. }
  destruct ev as [| |f| | | | |pid| |]; try done.
  2: { destruct (ingest_run f u ss cur g Hu) as (u' & Hrun & Hok). exists u', (cur ++ [frame_slot f]). split.
       { apply Hcall. cbn. unfold mbind, M_bind. by rewrite Hrun. } intros evs. exists []. by rewrite app_nil_r. }
  6: { destruct (digest_run u ss cur g Hu) as (u' & Hrun & Hok). exists (remember_stack u'), []. split.
       { apply Hcall. cbn. unfold mbind, M_bind. by rewrite Hrun. } intros evs. by exists [take MAX_STACK_DEPTH cur]. }
  1: { exists (set_self (cu_self u) 0 u), []. split; [by apply Hcall|]. intros evs. exists []. rewrite app_nil_r. split; [done|].
       by eapply begin_ok. }
  all: exists u, cur; split; [by apply Hcall|]; intros evs; exists []; by rewrite app_nil_r.
Qed.

(** The handler receives a list of events: the codes it returns. *)
Fixpoint deliver (evs : list event) : M callgrind (list Z) :=
  match evs with
  | [] => mret []
  | ev :: r => rv ← event_handler_callgrind o env ev; rvs ← deliver r; mret (rv :: rvs)
  end.

Lemma deliver_run evs u ss cur g : Forall wf_event evs -> cg_udata g = CLive u -> live_ok u ss cur ->
  exists rvs u' cur', deliver evs g = Done (rvs, put_ptr (CLive u') g) /\ Forall (eq 0) rvs
    /\ live_ok u' (ss ++ stacks_of cur evs) cur'.
Proof.
  intros Hevs. revert u ss cur g. induction Hevs as [|ev evs Hev Hevs IH]; intros u ss cur g Hg Hu.
  { exists [], u, cur. destruct g; cbn in *; subst. by rewrite app_nil_r. }
  destruct (event_run ev u ss cur g Hev Hg Hu) as (u1 & cur1 & Hrun & Hrest).
  destruct (Hrest evs) as (ss1 & Hst & Hok1). destruct (IH u1 _ cur1 (put_ptr (CLive u1) g) eq_refl Hok1) as (rvs & u' & cur' & Hr & H0 & Hok).
  exists (0 :: rvs), u', cur'. cbn [deliver]. unfold mbind, M_bind. rewrite Hrun. cbv beta iota. rewrite Hr.
  split_and!; [done|by constructor|]. by rewrite Hst, app_assoc.
Qed.

Lemma deliver_app a b g : deliver (a ++ b) g = (rvs ← deliver a; rvs' ← deliver b; mret (rvs ++ rvs')) g.
Proof.
  unfold mbind, M_bind, mret, M_ret. revert g. induction a as [|ev a IH]; intros g; cbn [app deliver].
  - unfold mret, M_ret. by destruct (deliver b g) as [[]| |].
  - unfold mbind, M_bind. destruct (event_handler_callgrind o env ev g) as [[rv g1]| |]; [|done..]. rewrite IH.
    destruct (deliver a g1) as [[rvs g2]| |]; [|done..]. cbn. by destruct (deliver b g2) as [[]| |].
Qed.

(** ** The contracts of the tracer and the sampling loop *)

Definition cg_inv (g : callgrind) : Prop := exists u ss cur, cg_udata g = CLive u /\ live_ok u ss cur.

#[export] Instance callgrind_safe : @HandlerSafe callgrind (callgrind_handler o env).
Proof.
  refine {| eh_inv := fun _ => cg_inv |}. intros ev evs g Hev (u & ss & cur & Hg & Hu).
  destruct (event_run ev u ss cur g Hev Hg Hu) as (u' & cur' & Hrun & Hrest). exists 0, (put_ptr (CLive u') g).
  split; [exact Hrun|]. destruct (Hrest []) as (ss' & _ & Hok). by exists u', (ss ++ ss'), cur'.
Defined.

#[export] Instance callgrind_life : @HandlerLife callgrind (callgrind_handler o env) callgrind_safe.
Proof.
  refine {| eh_start := fun g => cg_udata g = CNull |}.
  - intros opts g Hg. destruct (init_run opts g) as (rv & g' & Hrun & _ & Hrv & Hp). exists rv, g'. split; [exact Hrun|].
    intros H0. rewrite H0 in Hrv. destruct opens; [|done]. exists new_udata, [], []. split; [done|apply new_udata_ok].
  - intros evs g (u & ss & cur & Hg & Hu). cbn. unfold event_handler_callgrind, mbind, M_bind, get. rewrite Hg. by repeat eexists.
Defined.
End handler.

(** ** The profile *)

(** [cs], as printed, is the profile of the stacks [ss]: a line per location in
    the order of their names, with the number of samples it was the leaf of;
    below it a line per function called from it, with the number of samples and
    of new calls.  The counters are [uint64_t]. *)
Record profile (ss : list stack) (callers : list callgrind_caller) : Prop := {
  pr_sorted : StronglySorted (fun a b => strcmp (cr_loc_str a) (cr_loc_str b) < 0) callers;
  pr_callers : forall k, k ∈ keys cr_loc_str callers <-> k ∈ snd <$> concat ss;
  pr_exclusive : forall c, c ∈ callers -> cr_exclusive c = u64 (times (cr_loc_str c) (leaves ss));
  pr_loc : forall c, c ∈ callers -> (cr_loc c, cr_loc_str c) ∈ concat ss;
  pr_callees_sorted : forall c, c ∈ callers ->
    StronglySorted (fun a b => strcmp (ce_loc_str a) (ce_loc_str b) < 0) (cr_callees c);
  pr_callees : forall c k, c ∈ callers ->
    k ∈ keys ce_loc_str (cr_callees c) <-> 0 < call_times (cr_loc_str c) k (calls_of [] ss);
  pr_calls : forall c e, c ∈ callers -> e ∈ cr_callees c ->
    ce_inclusive e = u64 (call_times (cr_loc_str c) (ce_loc_str e) (calls_of [] ss))
    /\ ce_count e = u64 (new_times (cr_loc_str c) (ce_loc_str e) (calls_of [] ss));
}.

Lemma tallied_profile t ss :
  tallied t (leaves ss) (calls_of [] ss) (concat ss) -> profile ss (map with_sorted_callees (merge_sort caller_le t)).
Proof.
  intros [Hn Hc _ _]. set (cs := merge_sort caller_le t).
  assert (forall c, c ∈ map with_sorted_callees cs -> exists c0, c = with_sorted_callees c0
    /\ caller_ok (leaves ss) (calls_of [] ss) (concat ss) (cr_loc_str c0) (Some c0)) as Hin.
  { intros c (c0 & -> & Hc0)%list_elem_of_fmap. exists c0. split; [done|]. unfold cs in Hc0. rewrite merge_sort_Permutation in Hc0.
    by rewrite <-(look_elem cr_loc_str _ c0 t Hn Hc0 eq_refl). }
  split.
  - eapply sorted_map; [|by apply (sort_by_key cr_loc_str)]. done.
  - intros k. assert (keys cr_loc_str (map with_sorted_callees cs) = keys cr_loc_str cs) as ->
      by (unfold keys; change (map with_sorted_callees cs) with (with_sorted_callees <$> cs); by rewrite <-list_fmap_compose).
    rewrite (keys_perm _ _ t) by apply merge_sort_Permutation. rewrite look_is_Some. specialize (Hc k).
    destruct (look cr_loc_str k t); cbn in Hc; [|split; [by intros [? ?]|done]].
    split; [|eauto]. intros _. destruct Hc as (_ & Hk & _). by apply elem_of_keys in Hk.
  - intros c (c0 & -> & H1 & _)%Hin. done.
  - intros c (c0 & -> & _ & H2 & _)%Hin. done.
  - intros c (c0 & -> & _ & _ & H3 & _)%Hin. by apply sort_by_key.
  - intros c k (c0 & -> & _ & _ & H3 & H4)%Hin. cbn [cr_callees cr_loc_str with_sorted_callees].
    rewrite (keys_perm _ _ (cr_callees c0)) by apply merge_sort_Permutation. rewrite look_is_Some. specialize (H4 k).
    destruct (look ce_loc_str k (cr_callees c0)); cbn in H4; [|rewrite H4; split; [by intros [? ?]|lia]].
    split; [|eauto]. intros _. by destruct H4 as (_ & _ & ? & _).
  - intros c e (c0 & -> & _ & _ & H3 & H4)%Hin. cbn [cr_callees cr_loc_str with_sorted_callees].
    rewrite merge_sort_Permutation. intros He. specialize (H4 (ce_loc_str e)).
    rewrite (look_elem ce_loc_str _ e _ H3 He eq_refl) in H4. destruct H4 as (? & ? & _). done.
Qed.

Lemma deinit_run o env u ss cur g : cg_udata g = CLive u -> live_ok u ss cur ->
  exists g' callers, event_handler_callgrind o env EvDeinit g = Done (0, g') /\ cg_udata g' = CFreed
    /\ cg_text g' = cg_text g ++ dump_header ++ concat (map caller_text callers) /\ profile ss callers.
Proof.
  intros Hg Hu. unfold event_handler_callgrind, mbind, M_bind, get. rewrite Hg.
  eexists _, _. split; [reflexivity|]. split_and!; [done|reflexivity|]. apply tallied_profile, Hu.
Qed.

Lemma profile_run o env opts evs g :
  opens o env = true -> Forall wf_event evs ->
  exists rvs g' callers, deliver o env (EvInit opts :: evs ++ [EvDeinit]) g = Done (rvs, g') /\ Forall (eq 0) rvs
    /\ cg_udata g' = CFreed /\ cg_text g' = cg_text g ++ dump_header ++ concat (map caller_text callers)
    /\ profile (stacks_of [] evs) callers.
Proof.
  intros Ho Hevs. destruct (init_run o env opts g) as (rv & g1 & Hinit & Htext & Hrv & Hp). rewrite Ho in Hrv, Hp.
  destruct (deliver_run o env evs new_udata [] [] g1 Hevs Hp new_udata_ok) as (rvs & u & cur & Hrun & H0 & Hu).
  destruct (deinit_run o env u _ _ (put_ptr (CLive u) g1) eq_refl Hu) as (g' & callers & Hde & Hfree & Ht & Hprof).
  exists (rv :: rvs ++ [0]), g', callers. cbn [deliver]. unfold mbind, M_bind. rewrite Hinit. cbv beta iota.
  rewrite deliver_app. unfold mbind, M_bind. rewrite Hrun. cbn [deliver]. unfold mbind, M_bind. rewrite Hde.
  split_and!; [done| |done| |done].
  - constructor; [done|]. apply Forall_app. split; [done|]. by repeat constructor.
  - rewrite Ht. cbn [put_ptr cg_text]. by rewrite Htext.
Qed.

Lemma all_new_times k k' l : Forall (fun x : call => x.2 = true) l -> new_times k k' l = call_times k k' l.
Proof.
  induction 1 as [|[e b] l Hx Hl IH]; [done|]. cbn in Hx. subst b. by rewrite new_times_cons, call_times_cons, IH.
Qed.

(** With nothing, or a pushed stack of distinct names, to compare with, every
    call looks new. *)
Lemma calls_in_fresh s : Forall (fun x : call => x.2 = true) (calls_in s []).
Proof.
  apply Forall_lookup. intros i x. unfold calls_in. rewrite list_lookup_imap. destruct (zip (tail s) s !! i) as [[a b]|]; [|done].
  cbn. rewrite lookup_nil. cbn. by intros [= <-].
Qed.

Lemma calls_in_pushed f s : NoDup (snd <$> f :: s) -> Forall (fun x : call => x.2 = true) (calls_in (f :: s) s).
Proof.
  intros Hn. apply Forall_lookup. intros i x. unfold calls_in. rewrite list_lookup_imap, lookup_zip_with. cbn [tail].
  destruct (s !! i) as [a|] eqn:Ha; [|done]. destruct ((f :: s) !! i) as [b|] eqn:Hb; [|done]. cbn. intros [= <-]. cbn.
  apply bool_decide_true. intros [= He]. enough (i = S i) by lia.
  eapply (NoDup_lookup _ _ _ (snd b) Hn); rewrite list_lookup_fmap; [by rewrite Hb|]. change ((f :: s) !! S i) with (s !! i).
  by rewrite Ha, <-He.
Qed.

(** A completed sample of the frames [fs], innermost first. *)
Definition sample_events (pid : Z) (fs : list trace_frame) : list event :=
  EvStackBegin :: map EvFrame fs ++ [EvStackEnd pid].

Lemma sample_events_ok pid fs : Forall wf_event (map EvFrame fs) -> wf_event (EvStackEnd pid) -> Forall wf_event (sample_events pid fs).
Proof. intros Hfs Hpid. constructor; [done|]. apply Forall_app. split; [done|]. by constructor; [|constructor]. Qed.

Lemma stacks_of_frames cur fs evs : stacks_of cur (map EvFrame fs ++ evs) = stacks_of (cur ++ map frame_slot fs) evs.
Proof. revert cur. induction fs as [|f fs IH]; intros cur; cbn; [by rewrite app_nil_r|]. by rewrite IH, <-app_assoc. Qed.

Lemma stacks_of_sample pid fs evs : (length fs <= MAX_STACK_DEPTH)%nat ->
  stacks_of [] (sample_events pid fs ++ evs) = map frame_slot fs :: stacks_of [] evs.
Proof.
  intros Hl. unfold sample_events. cbn [app stacks_of]. rewrite <-app_assoc, stacks_of_frames. cbn [app stacks_of].
  by rewrite take_ge by (rewrite length_map; lia).
Qed.

(** ** Claims *)

(** C24. The callgrind profile: from [INIT] to [DEINIT], whatever well-formed
    events the tracer sends in between, the handler accepts every one, never
    leaves its arrays, and prints the profile of the stacks it was sent: one
    entry per location, sorted by name, whose exclusive cost is the number of
    samples with that leaf; below it one entry per callee, sorted, whose
    inclusive cost is the number of times the call was sampled.  Samples that
    were not completed do not count, and a stack counts up to 128 frames. *)
Theorem callgrind_profile o env opts evs g :
  opens o env = true -> Forall wf_event evs ->
  exists rvs g' callers, deliver o env (EvInit opts :: evs ++ [EvDeinit]) g = Done (rvs, g') /\ Forall (eq 0) rvs
    /\ cg_udata g' = CFreed /\ cg_text g' = cg_text g ++ dump_header ++ concat (map caller_text callers)
    /\ profile (stacks_of [] evs) callers.
Proof. apply profile_run. Qed.

(** C39. The call counts compare the samples from the leaf, not from the root
    as the table in the comment above the handler has it: when a function has
    only called one more function, and all frames of the new stack are
    distinct and there are at most 128 of them (no recursion, nothing cut),
    every call on the stack is counted as a new one, so that the number of
    calls equals the inclusive cost on every entry of the profile. (By the
    comment only the innermost call would be new.) *)
Theorem callgrind_push_recounts o env opts pid fs f g :
  opens o env = true -> Forall wf_event (map EvFrame (f :: fs)) -> wf_event (EvStackEnd pid) ->
  (length fs < MAX_STACK_DEPTH)%nat -> NoDup (snd <$> map frame_slot (f :: fs)) ->
  exists rvs g' callers,
    deliver o env (EvInit opts :: (sample_events pid fs ++ sample_events pid (f :: fs)) ++ [EvDeinit]) g = Done (rvs, g')
    /\ cg_text g' = cg_text g ++ dump_header ++ concat (map caller_text callers)
    /\ profile [map frame_slot fs; map frame_slot (f :: fs)] callers
    /\ forall c e, c ∈ callers -> e ∈ cr_callees c -> ce_count e = ce_inclusive e.
Proof.
  intros Ho Hfs Hpid Hl Hn. set (evs := sample_events pid fs ++ sample_events pid (f :: fs)).
  assert (Forall wf_event evs) as Hevs.
  { apply Forall_app. split; apply sample_events_ok; try done. by apply Forall_cons in Hfs as [_ ?]. }
  assert (stacks_of [] evs = [map frame_slot fs; map frame_slot (f :: fs)]) as Hss.
  { unfold evs. rewrite stacks_of_sample by lia. rewrite <-(app_nil_r (sample_events pid (f :: fs))), stacks_of_sample by (cbn; lia). done. }
  destruct (profile_run o env opts evs g Ho Hevs) as (rvs & g' & callers & Hrun & _ & _ & Htext & Hprof). rewrite Hss in Hprof.
  exists rvs, g', callers. split_and!; [done..|]. intros c e Hc He. destruct (pr_calls _ _ Hprof c e Hc He) as [-> ->].
  rewrite all_new_times; [done|]. cbn [calls_of map]. repeat (apply Forall_app; split); [apply calls_in_fresh|by apply calls_in_pushed|constructor].
Qed.

(** ** Witnesses *)

Definition cg_ok : cg_env := {| cg_dup := fun _ => 5; cg_fdopen := fun _ => true; cg_fopen := fun _ => true |}.
Definition fresh_cg : callgrind := {| cg_udata := CNull; cg_text := []; cg_closed := [] |}.

(** [func] called at line [n] of a.php. *)
Definition cg_frame (func : string) (n : Z) (d : Z) : trace_frame :=
  {| f_loc := {| l_func := poke (repeat NUL 256) 0 (cs func); l_class := poke (repeat NUL 256) 0 [];
                 l_file := poke (repeat NUL 256) 0 (cs "a.php"); l_func_len := Z.of_nat (String.length func); l_class_len := 0;
                 l_file_len := 5; l_lineno := n |}; f_depth := d |}.

Definition cg_stack : list trace_frame := [cg_frame "g" 3 0; cg_frame "main" 9 1].

Lemma cg_frame_ok func n d : (length (cs func) < 200)%nat -> Z.of_nat (String.length func) < 256 -> 0 <= n < 2 ^ 31 -> 0 <= d < 2 ^ 31 ->
  wf_event (EvFrame (cg_frame func n d)).
Proof.
  intros Hf Hl Hn Hd. assert (forall s, (length s < 200)%nat -> str_buf (poke (repeat NUL 256) 0 s)) as Hbuf.
  { intros s Hs. split; [by rewrite length_poke; rewrite repeat_length; [|unfold PHPSPY_STR_SIZE; lia]|].
    unfold poke. apply elem_of_app. right. apply elem_of_app. right.
    replace 256%nat with ((0 + length s) + S (255 - length s))%nat by lia. rewrite repeat_app, drop_app_length' by by rewrite repeat_length.
    left. }
  split; [|done]. split_and!; cbn -[poke]; try lia; apply Hbuf; cbn; done || lia.
Qed.

Lemma cg_frames_ok : Forall wf_event (map EvFrame (cg_frame "h" 1 0 :: cg_stack)).
Proof. repeat (constructor; [apply cg_frame_ok; cbn; lia|]). constructor. Qed.

Definition cg_profile_text : string :=
"# callgrind format
version: 1
creator: phpspy
events: Samples

fl=a.php
fn=g
3 1

fl=a.php
fn=main
9 0

cfl=a.php
cfn=g
calls=1 3
9 1
".

Lemma callgrind_profile_witness :
  exists rvs g' callers, deliver default_options cg_ok (EvInit None :: sample_events 7 cg_stack ++ [EvDeinit]) fresh_cg = Done (rvs, g')
    /\ Forall (eq 0) rvs /\ profile [map frame_slot cg_stack] callers
    /\ cg_text g' = cs cg_profile_text.
Proof.
  destruct (callgrind_profile default_options cg_ok None (sample_events 7 cg_stack) fresh_cg) as (rvs & g' & callers & Hrun & H0 & Hf & Ht & Hp).
  - reflexivity.
  - apply sample_events_ok; [apply (proj1 (Forall_cons _ _ _) cg_frames_ok)|done].
  - exists rvs, g', callers. split_and!; [exact Hrun|done|exact Hp|]. clear Hp Ht Hf H0. vm_compute in Hrun. injection Hrun as _ <-. reflexivity.
Defined.

Lemma callgrind_push_recounts_witness :
  exists rvs g' (callers : list callgrind_caller), deliver default_options cg_ok
      (EvInit None :: (sample_events 7 cg_stack ++ sample_events 7 (cg_frame "h" 1 0 :: cg_stack)) ++ [EvDeinit]) fresh_cg = Done (rvs, g')
    /\ forall c e, c ∈ callers -> e ∈ cr_callees c -> ce_count e = ce_inclusive e.
Proof.
  destruct (callgrind_push_recounts default_options cg_ok None 7 cg_stack (cg_frame "h" 1 0) fresh_cg) as (rvs & g' & callers & Hrun & _ & _ & Hc).
  - reflexivity.
  - apply cg_frames_ok.
  - done.
  - apply Nat.ltb_lt. reflexivity.
  - apply (bool_decide_eq_true_1 (NoDup _)). vm_compute. reflexivity.
  - by exists rvs, g', callers.
Defined.
