(* ===== verification/Top.v ===== *)
(** * Top: the interactive view (top.c)

    [main_top] runs a second phpspy on the same arguments, reads its trace
    output line by line, counts functions, and redraws a table every second.
    The state [top] holds the statics of the file, what the child has written
    and not yet been read, and the screens shown: the texts [display] prints and
    where.  [qsort], the clock, [select] and the keyboard are parameters. *)
From S2P Require Import Prelude CLib Context Options Clock Uthash.

Definition FUNC_SIZE : Z := 256.
Definition BUF_SIZE : nat := 512.

(** ** State *)

Record func_entry := {
  fe_func : bytes;
  fe_count_excl : Z; fe_count_incl : Z;
  fe_total_count_excl : Z; fe_total_count_incl : Z;
  fe_percent_excl : Z * Z;      (* a float, [m * 2^ex] *)
}.

(** The statics the counting uses.  [func_map] holds the entries of
    [func_list]; they are found by the name they were stored under. *)
Record func_table := {
  ft_list : list func_entry;    (* func_list, in its order *)
  ft_size : Z;                  (* func_list_size *)
  ft_total_samp_count : Z;
  ft_samp_count : Z;
}.

(** A call of [tb_printf]; a screen is the calls between [tb_clear] and
    [tb_present]. *)
Inductive tb_attr := TB_DEFAULT | TB_BOLD | TB_BOLD_REVERSE.
Record print_call := { pr_x : Z; pr_y : Z; pr_attr : tb_attr; pr_text : bytes }.
Definition screen : Type := list print_call.

Record top := {
  tp_table : func_table;
  tp_buf : bytes;               (* char buf[BUF_SIZE] *)
  tp_buf_len : nat;
  tp_err_count : Z;             (* total_err_count *)
  tp_is_paused : bool;
  tp_done : bool;
  tp_args : bytes;              (* phpspy_args *)
  tp_last_display : timespec;
  tp_screens : list screen;     (* presented so far *)
  tp_out : bytes;               (* the child's stdout, not yet read *)
  tp_err : bytes;               (* and its stderr *)
}.

Definition set_table (t : func_table) (s : top) : top :=
  {| tp_table := t; tp_buf := tp_buf s; tp_buf_len := tp_buf_len s; tp_err_count := tp_err_count s;
     tp_is_paused := tp_is_paused s; tp_done := tp_done s; tp_args := tp_args s; tp_last_display := tp_last_display s;
     tp_screens := tp_screens s; tp_out := tp_out s; tp_err := tp_err s |}.
Definition set_buf (b : bytes) (n : nat) (s : top) : top :=
  {| tp_table := tp_table s; tp_buf := b; tp_buf_len := n; tp_err_count := tp_err_count s;
     tp_is_paused := tp_is_paused s; tp_done := tp_done s; tp_args := tp_args s; tp_last_display := tp_last_display s;
     tp_screens := tp_screens s; tp_out := tp_out s; tp_err := tp_err s |}.
Definition set_err_count (n : Z) (s : top) : top :=
  {| tp_table := tp_table s; tp_buf := tp_buf s; tp_buf_len := tp_buf_len s; tp_err_count := n;
     tp_is_paused := tp_is_paused s; tp_done := tp_done s; tp_args := tp_args s; tp_last_display := tp_last_display s;
     tp_screens := tp_screens s; tp_out := tp_out s; tp_err := tp_err s |}.
Definition set_flags (paused done : bool) (s : top) : top :=
  {| tp_table := tp_table s; tp_buf := tp_buf s; tp_buf_len := tp_buf_len s; tp_err_count := tp_err_count s;
     tp_is_paused := paused; tp_done := done; tp_args := tp_args s; tp_last_display := tp_last_display s;
     tp_screens := tp_screens s; tp_out := tp_out s; tp_err := tp_err s |}.
Definition set_last_display (t : timespec) (s : top) : top :=
  {| tp_table := tp_table s; tp_buf := tp_buf s; tp_buf_len := tp_buf_len s; tp_err_count := tp_err_count s;
     tp_is_paused := tp_is_paused s; tp_done := tp_done s; tp_args := tp_args s; tp_last_display := t;
     tp_screens := tp_screens s; tp_out := tp_out s; tp_err := tp_err s |}.
Definition show (l : list screen) (s : top) : top :=
  {| tp_table := tp_table s; tp_buf := tp_buf s; tp_buf_len := tp_buf_len s; tp_err_count := tp_err_count s;
     tp_is_paused := tp_is_paused s; tp_done := tp_done s; tp_args := tp_args s; tp_last_display := tp_last_display s;
     tp_screens := tp_screens s ++ l; tp_out := tp_out s; tp_err := tp_err s |}.
Definition set_pipes (out err : bytes) (s : top) : top :=
  {| tp_table := tp_table s; tp_buf := tp_buf s; tp_buf_len := tp_buf_len s; tp_err_count := tp_err_count s;
     tp_is_paused := tp_is_paused s; tp_done := tp_done s; tp_args := tp_args s; tp_last_display := tp_last_display s;
     tp_screens := tp_screens s; tp_out := out; tp_err := err |}.

(** ** The child's arguments *)

(** [strncmp(arg, word, sizeof(word)-1) == 0] *)
Definition starts_with (word : string) (arg : bytes) : bool := prefix_of (cs word) arg.

(** [argv[i][1] = c; argv[i][2] = '\0'] on a word of two characters or more. *)
Definition blank_arg (c : ascii) (arg : bytes) : bytes := take 1 arg ++ [c].

Definition filter_arg (arg : bytes) : bytes :=
  let arg := if starts_with "-o" arg || starts_with "--output" arg then blank_arg "#"%char arg else arg in
  if starts_with "-1" arg || starts_with "--single-line" arg || starts_with "-t" arg || starts_with "--top" arg
  then blank_arg "@"%char arg else arg.

Definition filter_child_args (argv : list bytes) : list bytes := map filter_arg argv.

(** The first line of the screen. *)
Definition phpspy_args (argv : list bytes) : bytes :=
  fold_left (fun acc arg => acc ++ snprintf_cstr (BUF_SIZE - length acc) (arg ++ [" "%char])) (drop 1 argv) (cs "phpspy ").

(** ** Counting *)

(** Whether the scan of [strtoull] ends inside [buf]. *)
Definition scan_stops (buf : bytes) : bool :=
  let '(r, _) := skip_spaces buf 0 in
  let '(_, r, _) := scan_sign r in
  existsb (fun c => 10 <=? digit_val c) r.

Definition new_func (name : bytes) : func_entry :=
  {| fe_func := name; fe_count_excl := 0; fe_count_incl := 0; fe_total_count_excl := 0; fe_total_count_incl := 0; fe_percent_excl := (0, 0) |}.

(** [calloc], [HASH_ADD_STR] and the growth of [func_list]. *)
Definition add_func (name : bytes) (t : func_table) : func_table :=
  let l := ft_list t ++ [new_func name] in
  {| ft_list := l; ft_size := if ft_size t <? Z.of_nat (length l) then ft_size t + 1024 else ft_size t;
     ft_total_samp_count := ft_total_samp_count t; ft_samp_count := ft_samp_count t |}.

Definition bump (leaf : bool) (e : func_entry) : func_entry :=
  {| fe_func := fe_func e; fe_count_excl := if leaf then u64 (fe_count_excl e + 1) else fe_count_excl e;
     fe_count_incl := u64 (fe_count_incl e + 1);
     fe_total_count_excl := fe_total_count_excl e; fe_total_count_incl := fe_total_count_incl e;
     fe_percent_excl := fe_percent_excl e |}.

Definition count_frame (leaf : bool) (i : nat) (t : func_table) : func_table :=
  {| ft_list := alter (bump leaf) i (ft_list t); ft_size := ft_size t; ft_total_samp_count := ft_total_samp_count t;
     ft_samp_count := if leaf then u64 (ft_samp_count t + 1) else ft_samp_count t |}.

(** The line is the first [line_len] bytes of [buf]; the scan for the number
    looks at the buffer. *)
Definition handle_line (buf : bytes) (line_len : nat) : M func_table unit :=
  if bool_decide (line_len < 3)%nat then mret tt else
  if bool_decide (head buf = Some "#"%char) then mret tt else
  if negb (scan_stops buf) then raise OverRead else
  let '(frame_num, end_) := strtoull buf 10 in
  if (frame_num =? 0) && negb (bool_decide (head buf = Some "0"%char)) then mret tt else
  if negb (bool_decide (buf !! end_ = Some " "%char)) then mret tt else
  let func := S end_ in
  let func_len := u64 (Z.of_nat line_len - Z.of_nat func) in
  if (func_len <? 1) || (FUNC_SIZE <=? func_len) then mret tt else
  let key := peek buf func (Z.to_nat func_len) in
  t ← get;
  let '(i, t) :=
    match hash_find fe_func key (ft_list t) with
    | Some i => (i, t)
    | None => (length (ft_list t), add_func (snprintf_cstr (Z.to_nat FUNC_SIZE) (fmt_prec func_len (drop func buf))) t)
    end in
  put (count_frame (frame_num =? 0) i t).

(** The [while] of [read_child_out], with [memmove] after each line. *)
Fixpoint line_loop (fuel : nat) (buf : bytes) (buf_len : nat) : M func_table (bytes * nat) :=
  match fuel with
  | O => diverge
  | S n =>
    match memchr NL (take buf_len buf) with
    | None => mret (buf, buf_len)
    | Some line_len =>
      handle_line buf line_len;;
      let rest := (buf_len - (line_len + 1))%nat in
      line_loop n (poke buf 0 (peek buf (line_len + 1) rest)) rest
    end
  end.

(** Runs a computation on the table. *)
Definition in_table {A} (m : M func_table A) : M top A := fun s =>
  match m (tp_table s) with
  | Done (a, t) => Done (a, set_table t s)
  | Fault f => Fault f
  | Diverge => Diverge
  end.

(** [read] of at most [rem] bytes when [avail] have arrived; no bytes at the end
    of the pipe. *)
Definition pipe_read (avail rem : nat) (pipe : bytes) : bytes * bytes :=
  let n := Nat.min (Nat.max 1 avail) rem in (take n pipe, drop n pipe).

(** [avail] is [None] when [read] fails. *)
Definition read_child_out (avail : option nat) : M top unit :=
  s ← get;
  let buf_len := if bool_decide (BUF_SIZE - tp_buf_len s < 1)%nat then 0%nat else tp_buf_len s in
  match avail with
  | None => modify (set_buf (tp_buf s) buf_len)
  | Some avail =>
  let '(data, out) := pipe_read avail (BUF_SIZE - buf_len) (tp_out s) in
  modify (fun s => set_buf (tp_buf s) buf_len (set_pipes out (tp_err s) s));;
  if bool_decide (data = []) then modify (fun s => set_flags (tp_is_paused s) true s) else
  buf ← store (tp_buf s) buf_len data;
  '(buf, n) ← in_table (line_loop (S (buf_len + length data)) buf (buf_len + length data));
  modify (set_buf buf n)
  end.

(** The [while] of [read_child_err] on its local buffer of [n] bytes read: the
    number of lines counted.  [read_rv] is signed. *)
Fixpoint err_loop (fuel : nat) (data : bytes) (buf_pos : nat) (read_rv : Z) (count : Z) : M top Z :=
  match fuel with
  | O => diverge
  | S n =>
    if negb (0 <? read_rv) then mret count else
    if bool_decide (length data < buf_pos + Z.to_nat read_rv)%nat then raise OverRead else
    match memchr NL (peek data buf_pos (Z.to_nat read_rv)) with
    | None => mret count
    | Some i =>
      let nl := (buf_pos + i)%nat in
      err_loop n data (buf_pos + nl + 1) (read_rv - (Z.of_nat nl + 1)) (u64 (count + 1))
    end
  end.

Definition read_child_err (avail : option nat) : M top unit :=
  s ← get;
  match avail with
  | None => mret tt
  | Some avail =>
  let '(data, err) := pipe_read avail BUF_SIZE (tp_err s) in
  modify (set_pipes (tp_out s) err);;
  if bool_decide (data = []) then modify (fun s => set_flags (tp_is_paused s) true s) else
  count ← err_loop (S (length data)) data 0 (Z.of_nat (length data)) (tp_err_count s);
  modify (set_err_count count)
  end.

(** ** Keys *)

Record tb_event := { ev_is_key : bool; ev_ch : ascii }.

Definition handle_event (event : tb_event) (s : top) : top :=
  if negb (ev_is_key event) then s
  else if bool_decide (ev_ch event = "q"%char) then set_flags (tp_is_paused s) true s
  else if bool_decide (ev_ch event = "p"%char) then set_flags (negb (tp_is_paused s)) (tp_done s) s
  else s.

(** ** The screen *)

Definition func_list_compare (fa fb : func_entry) : Z :=
  if fe_count_excl fb =? fe_count_excl fa then
    if fe_count_incl fb =? fe_count_incl fa then
      if fe_total_count_excl fb =? fe_total_count_excl fa then
        if fe_total_count_incl fb =? fe_total_count_incl fa then 0
        else if fe_total_count_incl fa <? fe_total_count_incl fb then 1 else -1
      else if fe_total_count_excl fa <? fe_total_count_excl fb then 1 else -1
    else if fe_count_incl fa <? fe_count_incl fb then 1 else -1
  else if fe_count_excl fa <? fe_count_excl fb then 1 else -1.

(** [qsort] with [func_list_compare]: some permutation in that order. *)
Class Qsort := {
  qsort : list func_entry -> list func_entry;
  qsort_perm : forall l, qsort l ≡ₚ l;
  qsort_sorted : forall l, StronglySorted (fun a b => func_list_compare a b <= 0) (qsort l);
}.

(** ** Single-precision arithmetic *)

Definition float_of (n : Z) : Z * Z := round_float n 1.

(** [m1 * 2^e1] times, and divided by, [m2 * 2^e2]. *)
Definition fmul (a b : Z * Z) : Z * Z :=
  let ex := snd a + snd b in
  round_float (fst a * fst b * 2 ^ Z.max 0 ex) (2 ^ Z.max 0 (- ex)).
Definition fdiv (a b : Z * Z) : Z * Z :=
  let ex := snd a - snd b in
  round_float (fst a * 2 ^ Z.max 0 ex) (fst b * 2 ^ Z.max 0 (- ex)).

(** [samp_count < 1 ? 0.f : (100.f * count_excl / samp_count)] *)
Definition percent (samp_count count_excl : Z) : Z * Z :=
  if samp_count <? 1 then (0, 0) else fdiv (fmul (100, 0) (float_of count_excl)) (float_of samp_count).

(** ** Drawing *)

Definition add_totals (samp_count : Z) (e : func_entry) : func_entry :=
  {| fe_func := fe_func e; fe_count_excl := fe_count_excl e; fe_count_incl := fe_count_incl e;
     fe_total_count_excl := u64 (fe_total_count_excl e + fe_count_excl e);
     fe_total_count_incl := u64 (fe_total_count_incl e + fe_count_incl e);
     fe_percent_excl := percent samp_count (fe_count_excl e) |}.

Definition reset_counts (e : func_entry) : func_entry :=
  {| fe_func := fe_func e; fe_count_excl := 0; fe_count_incl := 0;
     fe_total_count_excl := fe_total_count_excl e; fe_total_count_incl := fe_total_count_incl e;
     fe_percent_excl := fe_percent_excl e |}.

(** [%-6.2f] *)
Definition fmt_percent (f : Z * Z) : bytes := fmt_left 6 (fmt_fixed 2 (fst f) (snd f)).

Definition row_text (e : func_entry) : bytes :=
  fmt_left 9 (fmt_u (fe_total_count_incl e)) ++ cs "  " ++ fmt_left 9 (fmt_u (fe_total_count_excl e)) ++ cs "  "
  ++ fmt_left 9 (fmt_u (fe_count_incl e)) ++ cs "  " ++ fmt_left 9 (fmt_u (fe_count_excl e)) ++ cs "  "
  ++ fmt_percent (fe_percent_excl e) ++ cs "  " ++ fe_func e.

(** [%-*s] with a negative width: its absolute value. *)
Definition header_calls (args : bytes) (samp_count err_count func_count width : Z) : list print_call :=
  [ {| pr_x := 0; pr_y := 0; pr_attr := TB_BOLD; pr_text := args |};
    {| pr_x := 0; pr_y := 1; pr_attr := TB_DEFAULT;
       pr_text := cs "samp_count=" ++ fmt_u samp_count ++ cs "  err_count=" ++ fmt_u err_count ++ cs "  func_count=" ++ fmt_u func_count |};
    {| pr_x := 0; pr_y := 3; pr_attr := TB_BOLD_REVERSE;
       pr_text := concat (map (fun w => fmt_left 10 (cs w) ++ cs " ") ["tincl"; "texcl"; "incl"; "excl"]%string)
                  ++ fmt_left 7 (cs "excl%") ++ cs " " |};
    {| pr_x := 52; pr_y := 3; pr_attr := TB_BOLD_REVERSE; pr_text := fmt_left (Z.abs_nat (width - 52)) (cs "func") |} ].

(** [while (y < h && i < func_list_len)] *)
Fixpoint row_calls (y h : Z) (l : list func_entry) : list print_call :=
  match l with
  | [] => []
  | e :: l => if y <? h then {| pr_x := 0; pr_y := y; pr_attr := TB_DEFAULT; pr_text := row_text e |} :: row_calls (y + 1) h l else []
  end.

Section display.
Context {Q : Qsort}.

(** [width] is [tb_width()], [height] is [tb_height()]. *)
Definition display (width height : Z) (s : top) : top :=
  let t := tp_table s in
  let l := map (add_totals (ft_samp_count t)) (qsort (ft_list t)) in
  let total := u64 (ft_total_samp_count t + ft_samp_count t) in
  let drawn := header_calls (tp_args s) total (tp_err_count s) (Z.of_nat (length l)) width ++ row_calls 4 height l in
  let s := set_table {| ft_list := map reset_counts l; ft_size := ft_size t; ft_total_samp_count := total; ft_samp_count := 0 |} s in
  if negb (tp_is_paused s) then show [drawn] s else s.

(** ** The loop *)

Inductive select_result :=
| SelIntr
| SelErr
| SelReady (out err : option (option nat)) (tty : option tb_event).

(** What the environment does in one turn. *)
Record tick := { tk_now : timespec; tk_width : Z; tk_height : Z; tk_select : select_result }.

Definition maybe_display (tk : tick) (s : top) : top :=
  if (tv_sec (tp_last_display s) =? 0) || (1 <=? tv_sec (tk_now tk) - tv_sec (tp_last_display s))
  then set_last_display (tk_now tk) (display (tk_width tk) (tk_height tk) s) else s.

(** One turn of [while (!done)], after the test; [false] is [break]. *)
Definition top_turn (tk : tick) : M top bool :=
  modify (maybe_display tk);;
  match tk_select tk with
  | SelIntr =>
    modify (fun s => set_last_display {| tv_sec := 0; tv_nsec := tv_nsec (tp_last_display s) |} s);;
    mret true
  | SelErr => mret false
  | SelReady out err tty =>
    (match out with Some n => read_child_out n | None => mret tt end);;
    (match err with Some n => read_child_err n | None => mret tt end);;
    (match tty with Some e => modify (handle_event e) | None => mret tt end);;
    mret true
  end.

(** The loop over what the environment did so far: whether it has ended. *)
Fixpoint top_loop (ticks : list tick) : M top bool :=
  s ← get;
  if tp_done s then mret true else
  match ticks with
  | [] => mret false
  | tk :: ticks' =>
    go ← top_turn tk;
    if (go : bool) then top_loop ticks' else mret true
  end.

(** ** Starting the child *)

(** The result of [pipe] twice and of [fork]. *)
Inductive fork_result := PipeFailed | ForkFailed | Forked (pid outfd errfd : Z).

(** The code of [fork_child], the pid and the descriptors ([-1] when unset). *)
Definition fork_child (r : fork_result) : Z * Z * Z * Z :=
  match r with
  | PipeFailed => (1, -1, -1, -1)
  | ForkFailed => (1, -1, -1, -1)
  | Forked pid outfd errfd => (0, pid, outfd, errfd)
  end.

(** [FD_SET] of a negative descriptor writes outside the set. *)
Definition fd_set_ok (fd : Z) : bool := (0 <=? fd) && (fd <? 1024).

Definition start_top (argv : list bytes) (out err : bytes) : top :=
  {| tp_table := {| ft_list := []; ft_size := 0; ft_total_samp_count := 0; ft_samp_count := 0 |};
     tp_buf := repeat NUL BUF_SIZE; tp_buf_len := 0; tp_err_count := 0; tp_is_paused := false; tp_done := false;
     tp_args := phpspy_args argv; tp_last_display := {| tv_sec := 0; tv_nsec := 0 |}; tp_screens := []; tp_out := out; tp_err := err |}.

(** [main_top] after the options were parsed: the arguments the child runs
    with, and how the loop went.  [usage] is called when nothing is to be
    traced. *)
Inductive top_result :=
| TopUsage
| TopFailed
| TopFault (f : fault)
| TopStuck
| TopRan (child_argv : list bytes) (ended : bool) (s : top).

Definition main_top (o : options) (optind : nat) (argv : list bytes) (ttyfd : Z) (r : fork_result)
    (out err : bytes) (ticks : list tick) : top_result :=
  if (opt_pid o =? -1) && bool_decide (opt_pgrep_args o = None) && bool_decide (length argv <= optind)%nat then TopUsage else
  let argv := filter_child_args argv in
  if ttyfd <? 0 then TopFailed else
  let '(rv, pid, outfd, errfd) := fork_child r in
  if rv <? 0 then TopFailed else
  if negb (fd_set_ok ttyfd && fd_set_ok outfd && fd_set_ok errfd) then TopFault OutOfBounds else
  match top_loop ticks (start_top argv out err) with
  | Done (ended, s) => TopRan argv ended s
  | Fault f => TopFault f
  | Diverge => TopStuck
  end.

End display.
