(* ===== verification/TopTheorems.v ===== *)
(** * TopTheorems: the interactive view counts the child's lines

    However the child's output is cut into reads and whenever the screen is
    redrawn, the totals are those of the lines the child printed; the trace
    writer's frame lines are read back; the rows are sorted. *)
From stdpp Require Import sorting.
From S2P Require Import Prelude CLib Context Fout FoutSpec FoutHandler Options Clock Uthash Top.

(** ** Specification *)

(** What a line of trace output says: the depth and name of a frame. *)
Definition parse_line (l : bytes) : option (Z * bytes) :=
  if bool_decide (length l < 3)%nat || bool_decide (head l = Some "#"%char) then None else
  let '(depth, n) := strtoull l 10 in
  if (depth =? 0) && negb (bool_decide (head l = Some "0"%char)) then None else
  if negb (bool_decide (l !! n = Some " "%char)) then None else
  let name := drop (S n) l in
  if bool_decide (length name < 1)%nat || (FUNC_SIZE <=? Z.of_nat (length name)) then None else Some (depth, name).

(** The lines phpspy prints: frames, comments and blank lines that fit the
    buffer. *)
Definition line_ok (l : bytes) : Prop :=
  (length l < BUF_SIZE)%nat /\ (NL ∉ l) /\ (NUL ∉ l)
  /\ match l with c :: _ => is_digit c \/ c = "#"%char | [] => True end.

#[export] Instance line_ok_dec l : Decision (line_ok l).
Proof. unfold line_ok, is_digit. destruct l; apply _. Defined.

(** How often a function was seen, and how often as the leaf. *)
Definition incl_times (k : bytes) (ps : list (Z * bytes)) : Z := Z.of_nat (length (filter (fun p => snd p = k) ps)).
Definition excl_times (k : bytes) (ps : list (Z * bytes)) : Z := Z.of_nat (length (filter (fun p => p = (0, k)) ps)).
Definition leaf_times (ps : list (Z * bytes)) : Z := Z.of_nat (length (filter (fun p => fst p = 0) ps)).

(** The samples since the last screen, by function. *)
Definition sum_excl (l : list func_entry) : Z := foldr (fun e n => fe_count_excl e + n) 0 l.

Definition samples_split (t : func_table) (n : Z) : Prop :=
  Forall (fun e => 0 <= fe_count_excl e) (ft_list t) /\ sum_excl (ft_list t) = ft_samp_count t /\ ft_samp_count t <= n.

(** The table holds the counts of the frames [ps]: what was already shown is
    in the totals, what was not is in the counts. *)
Record table_counts (t : func_table) (ps : list (Z * bytes)) : Prop := {
  cn_names : NoDup (keys fe_func (ft_list t));
  cn_seen : forall k, match look fe_func k (ft_list t) with
                      | None => forall p, p ∈ ps -> snd p <> k
                      | Some e => u64 (fe_total_count_excl e + fe_count_excl e) = u64 (excl_times k ps)
                                  /\ u64 (fe_total_count_incl e + fe_count_incl e) = u64 (incl_times k ps)
                      end;
  cn_samples : u64 (ft_total_samp_count t + ft_samp_count t) = u64 (leaf_times ps);
  cn_room : Z.of_nat (length (ft_list t)) <= ft_size t;
  cn_split : leaf_times ps < 2 ^ 64 -> samples_split t (leaf_times ps);
}.

(** ** Reading a line *)

Lemma scan_digits_line l r v k : scan_digits 10 (l ++ NL :: r) v k = scan_digits 10 l v k.
Proof. revert v k. induction l as [|c l IH]; intros v k; cbn; [done|]. case_match; [apply IH|done]. Qed.

Lemma scan_digits_le base l v k : (k <= snd (scan_digits base l v k) <= k + length l)%nat.
Proof.
  revert v k. induction l as [|c l IH]; intros v k; cbn; [lia|]. case_match; [|cbn; lia]. specialize (IH (v * base + digit_val c) (S k)). lia.
Qed.

Lemma scan_number_line c l r : is_digit c -> scan_number 10 ((c :: l) ++ NL :: r) = scan_number 10 (c :: l).
Proof.
  intros Hc. unfold scan_number. cbn [app]. destruct (digit_scans c (l ++ NL :: r) Hc) as (-> & -> & ->).
  destruct (digit_scans c l Hc) as (-> & -> & ->). change (c :: l ++ NL :: r) with ((c :: l) ++ NL :: r). by rewrite scan_digits_line.
Qed.

Lemma strtoull_line c l r : is_digit c -> strtoull ((c :: l) ++ NL :: r) 10 = strtoull (c :: l) 10.
Proof. intros Hc. unfold strtoull. by rewrite scan_number_line. Qed.

Lemma scan_stops_line c l r : is_digit c -> scan_stops ((c :: l) ++ NL :: r) = true.
Proof.
  intros Hc. unfold scan_stops. cbn [app]. destruct (digit_scans c (l ++ NL :: r) Hc) as (-> & -> & _).
  apply existsb_exists. exists NL. split; [|done]. right. apply in_or_app. right. by left.
Qed.

(** Counting one frame. *)
Definition count_line (p : Z * bytes) (t : func_table) : func_table :=
  let '(i, t) := match hash_find fe_func (snd p) (ft_list t) with
                 | Some i => (i, t)
                 | None => (length (ft_list t), add_func (snd p) t)
                 end in
  count_frame (fst p =? 0) i t.

Definition count_opt (p : option (Z * bytes)) (t : func_table) : func_table :=
  match p with Some p => count_line p t | None => t end.

Lemma strtoull_le c l : is_digit c -> (snd (strtoull (c :: l) 10) <= length (c :: l))%nat.
Proof.
  intros Hc. unfold strtoull, scan_number. destruct (digit_scans c l Hc) as (-> & -> & ->).
  pose proof (scan_digits_le 10 (c :: l) 0 0) as Hle. destruct (scan_digits 10 (c :: l) 0 0) as [v n]. cbn [snd] in *.
  destruct (n =? 0)%nat; cbn [snd]; lia.
Qed.

Lemma handle_line_run l r t : line_ok l -> handle_line (l ++ NL :: r) (length l) t = Done (tt, count_opt (parse_line l) t).
Proof.
  intros (Hlen & Hnl & Hnn & Hhead). unfold handle_line, parse_line. case_bool_decide as Hshort; [done|]. cbn [orb].
  destruct l as [|c l]; [cbn in Hshort; lia|]. cbn [head app]. case_bool_decide as Hc; [done|].
  assert (is_digit c) as Hdigit by (destruct Hhead; [done|congruence]). change (c :: l ++ NL :: r) with ((c :: l) ++ NL :: r).
  rewrite scan_stops_line, strtoull_line by done. cbn [negb]. pose proof (strtoull_le c l Hdigit) as Hle.
  destruct (strtoull (c :: l) 10) as [depth n]. cbn [snd] in Hle.
  destruct ((depth =? 0) && negb (bool_decide (Some c = Some "0"%char))); [done|].
  destruct (decide (n = length (c :: l))) as [->|Hn].
  { rewrite (lookup_ge_None_2 (c :: l)), lookup_app_r, Nat.sub_diag by done. done. }
  rewrite lookup_app_l by lia. case_bool_decide as Hsp; [|done]. cbn [negb].
  set (name := drop (S n) (c :: l)). assert (length name = length (c :: l) - S n)%nat as Hname by apply length_drop.
  unfold BUF_SIZE in Hlen. rewrite wrap_small by lia. replace (Z.of_nat (length (c :: l)) - Z.of_nat (S n)) with (Z.of_nat (length name)) by lia.
  assert (drop (S n) ((c :: l) ++ NL :: r) = name ++ NL :: r) as Hdrop by (apply drop_app_le; lia).
  assert (peek ((c :: l) ++ NL :: r) (S n) (Z.to_nat (Z.of_nat (length name))) = name) as ->.
  { unfold peek. by rewrite Nat2Z.id, Hdrop, take_app_length. }
  destruct (Z.ltb_spec (Z.of_nat (length name)) 1); case_bool_decide; try lia; [done|]. cbn [orb].
  destruct (Z.leb_spec FUNC_SIZE (Z.of_nat (length name))) as [|Hsize]; [done|].
  assert (NUL ∉ name) as Hnn' by (intros Hin; apply Hnn; rewrite <-(take_drop (S n) (c :: l)); apply elem_of_app; by right).
  assert (snprintf_cstr (Z.to_nat FUNC_SIZE) (fmt_prec (Z.of_nat (length name)) (drop (S n) ((c :: l) ++ NL :: r))) = name) as ->.
  { unfold fmt_prec, snprintf_cstr, FUNC_SIZE in *. rewrite (proj2 (Z.ltb_ge _ 0)) by lia.
    rewrite Hdrop, Nat2Z.id, take_app_length, (cstr_id name) by done. rewrite take_ge by lia. by apply cstr_id. }
  unfold mbind, M_bind, get, put. cbn [count_opt]. unfold count_line. cbn [fst snd].
  by destruct (hash_find fe_func name (ft_list t)).
Qed.

(** ** Counting *)

Lemma incl_times_app k a b : incl_times k (a ++ b) = incl_times k a + incl_times k b.
Proof. unfold incl_times. rewrite filter_app, length_app. lia. Qed.
Lemma excl_times_app k a b : excl_times k (a ++ b) = excl_times k a + excl_times k b.
Proof. unfold excl_times. rewrite filter_app, length_app. lia. Qed.
Lemma leaf_times_app a b : leaf_times (a ++ b) = leaf_times a + leaf_times b.
Proof. unfold leaf_times. rewrite filter_app, length_app. lia. Qed.

Lemma unseen_times k ps : (forall p, p ∈ ps -> snd p <> k) -> incl_times k ps = 0 /\ excl_times k ps = 0.
Proof.
  intros Hk. unfold incl_times, excl_times. rewrite !filter_none; [done|..]; intros p Hp; [intros ->|]; by apply Hk in Hp.
Qed.

(** The counting step as an update of the table. *)
Lemma count_line_eq p t :
  exists i l, hash_get fe_func (new_func (snd p)) (ft_list t) = (i, l) /\ ft_list (count_line p t) = alter (bump (fst p =? 0)) i l
    /\ ft_total_samp_count (count_line p t) = ft_total_samp_count t
    /\ ft_samp_count (count_line p t) = (if fst p =? 0 then u64 (ft_samp_count t + 1) else ft_samp_count t)
    /\ (Z.of_nat (length (ft_list t)) <= ft_size t -> Z.of_nat (length l) <= ft_size (count_line p t)).
Proof.
  unfold count_line, hash_get. cbn [fe_func new_func]. destruct (hash_find fe_func (snd p) (ft_list t)) as [i|] eqn:Hf.
  - exists i, (ft_list t). by split_and!.
  - eexists _, _. split_and!; try done. cbn [ft_size count_frame add_func ft_list]. intros Hroom.
    destruct (Z.ltb_spec (ft_size t) (Z.of_nat (length (ft_list t ++ [new_func (snd p)])))); [|lia]. rewrite length_app. cbn. lia.
Qed.

Lemma u64_add_l x y z : u64 (x + y) = u64 z -> u64 (x + u64 (y + 1)) = u64 (z + 1).
Proof.
  intros H. rewrite Z.add_comm, wrap_add_idemp. replace (y + 1 + x) with ((x + y) + 1) by lia. by rewrite <-wrap_add_idemp, H, wrap_add_idemp.
Qed.

Lemma sum_excl_app a b : sum_excl (a ++ b) = sum_excl a + sum_excl b.
Proof. induction a as [|e a IH]; [done|]. cbn. fold (sum_excl (a ++ b)) (sum_excl a). lia. Qed.

Lemma sum_excl_alter f l i e : l !! i = Some e -> sum_excl (alter f i l) = sum_excl l - fe_count_excl e + fe_count_excl (f e).
Proof.
  revert i. induction l as [|x l IH]; intros [|i] Hi; try done; cbn in Hi |- *; fold (sum_excl l).
  - injection Hi as ->. lia.
  - fold (sum_excl (alter f i l)). rewrite (IH i Hi). lia.
Qed.

Lemma sum_excl_pos l : Forall (fun e => 0 <= fe_count_excl e) l -> Forall (fun e => fe_count_excl e <= sum_excl l) l /\ 0 <= sum_excl l.
Proof.
  induction 1 as [|e l He Hl [IH1 IH2]]; [done|]. cbn. fold (sum_excl l). split; [|lia]. constructor; [lia|].
  eapply Forall_impl; [exact IH1|]. intros x Hx. cbn in *. lia.
Qed.

(** A new function has no samples. *)
Lemma get_samples k l i l' : hash_get fe_func (new_func k) l = (i, l') ->
  sum_excl l' = sum_excl l /\ (Forall (fun e => 0 <= fe_count_excl e) l -> Forall (fun e => 0 <= fe_count_excl e) l').
Proof.
  unfold hash_get. destruct (hash_find _ _ _); intros [= <- <-]; [done|]. rewrite sum_excl_app. split; [cbn; lia|].
  intros Hl. apply Forall_app. by repeat constructor.
Qed.

Lemma split_line p t n : NoDup (keys fe_func (ft_list t)) -> samples_split t n -> n + (if fst p =? 0 then 1 else 0) < 2 ^ 64 ->
  samples_split (count_line p t) (n + if fst p =? 0 then 1 else 0).
Proof.
  intros Hnd (Hpos & Hsum & Hn) Hlt. destruct (count_line_eq p t) as (i & l & Hg & Hl & _ & Hcnt & _).
  destruct (hash_get_spec _ _ _ _ _ Hnd Hg) as (_ & _ & (e & He & _) & _). destruct (get_samples _ _ _ _ Hg) as [Hsl Hpl]. specialize (Hpl Hpos).
  destruct (sum_excl_pos l Hpl) as [Hle H0]. unfold samples_split. rewrite Hl, Hcnt, (sum_excl_alter _ _ _ _ He).
  pose proof (proj1 (Forall_lookup _ _) Hpl _ _ He) as Hep. pose proof (proj1 (Forall_lookup _ _) Hle _ _ He) as Hel. cbn in Hep, Hel.
  cbn [bump fe_count_excl]. split_and!; [apply Forall_alter; [done|]; intros x Hx; rewrite He in Hx; injection Hx as <-; cbn [bump fe_count_excl]|..];
    destruct (fst p =? 0); rewrite ?wrap_small; lia.
Qed.

Lemma counted_line p t ps : table_counts t ps -> table_counts (count_line p t) (ps ++ [p]).
Proof.
  intros [Hn Hs Hsamp Hroom Hsplit]. destruct (count_line_eq p t) as (i & l & Hg & Hl & Htot & Hcnt & Hsize).
  destruct (hash_get_spec _ _ _ _ _ Hn Hg) as (Hn' & _ & (e & He & Hk & Hdef) & Hlook). cbn [fe_func new_func] in *.
  assert (forall e, fe_func (bump (fst p =? 0) e) = fe_func e) as Hkey by done. destruct p as [d name]. cbn [fst snd] in *. split.
  - rewrite Hl. by rewrite keys_alter.
  - intros k. rewrite Hl, (look_alter _ _ _ _ e) by done. rewrite Hk, incl_times_app, excl_times_app. specialize (Hs k).
    unfold incl_times at 2, excl_times at 2. rewrite !filter_cons, !filter_nil. cbn [snd]. destruct (decide (k = name)) as [->|Hne].
    + rewrite (decide_True (P := name = name)) by done.
      assert (u64 (fe_total_count_excl e + fe_count_excl e) = u64 (excl_times name ps)
        /\ u64 (fe_total_count_incl e + fe_count_incl e) = u64 (incl_times name ps)) as [H1 H2].
      { subst e. destruct (look fe_func name (ft_list t)) as [e|]; [done|]. by destruct (unseen_times name ps Hs) as [-> ->]. }
      cbn [fe_total_count_excl fe_total_count_incl fe_count_excl fe_count_incl bump length Z.of_nat]. split; [|by apply u64_add_l].
      destruct (Z.eqb_spec d 0) as [->|Hd]; [rewrite decide_True by done; by apply u64_add_l|]. rewrite decide_False by congruence.
      cbn. by rewrite Z.add_0_r.
    + rewrite Hlook, !decide_False by congruence. cbn. rewrite !Z.add_0_r. destruct (look fe_func k (ft_list t)) as [e0|]; [done|].
      intros p [Hp|Hp%list_elem_of_singleton]%elem_of_app; [by apply Hs|]. subst p. cbn. congruence.
  - rewrite Htot, Hcnt, leaf_times_app. unfold leaf_times at 2. rewrite filter_cons, filter_nil. cbn [fst].
    destruct (Z.eqb_spec d 0); [rewrite decide_True by done; by apply u64_add_l|]. rewrite decide_False by done. cbn. by rewrite Z.add_0_r.
  - rewrite Hl, length_alter. by apply Hsize.
  - rewrite leaf_times_app. assert (leaf_times [(d, name)] = if d =? 0 then 1 else 0) as ->.
    { unfold leaf_times. rewrite filter_cons, filter_nil. cbn [fst]. destruct (Z.eqb_spec d 0); [by rewrite decide_True|by rewrite decide_False]. }
    intros Hlt. apply split_line; [done| |done]. apply Hsplit. destruct (d =? 0); lia.
Qed.

(** ** Redrawing keeps the counts *)

Lemma look_perm {A} (key : A -> bytes) k (a b : list A) : NoDup (keys key a) -> a ≡ₚ b -> look key k b = look key k a.
Proof.
  intros Hn Hab. assert (NoDup (keys key b)) as Hb by (unfold keys in *; by rewrite <-Hab).
  destruct (look key k a) as [e|] eqn:He.
  - apply look_Some in He as [He <-]. apply look_elem; [done|by rewrite <-Hab|done].
  - apply look_None in He. apply look_None. by rewrite <-(keys_perm key a b k Hab).
Qed.

Lemma look_map {A} (key : A -> bytes) (f : A -> A) k (l : list A) : (forall e, key (f e) = key e) -> look key k (map f l) = f <$> look key k l.
Proof. intros Hf. induction l as [|x l IH]; [done|]. cbn [map]. rewrite !look_cons, Hf, IH. by destruct (decide (key x = k)). Qed.

Lemma keys_map {A} (key : A -> bytes) (f : A -> A) (l : list A) : (forall e, key (f e) = key e) -> keys key (map f l) = keys key l.
Proof. intros Hf. unfold keys. induction l as [|x l IH]; [done|]. cbn. by rewrite Hf, IH. Qed.

Lemma counted_display {Q : Qsort} width height s ps : table_counts (tp_table s) ps -> table_counts (tp_table (display width height s)) ps.
Proof.
  intros [Hn Hs Hsamp Hroom _]. set (n := ft_samp_count (tp_table s)). set (l := map reset_counts (map (add_totals n) (qsort (ft_list (tp_table s))))).
  assert (forall k, look fe_func k l = (fun e => reset_counts (add_totals n e)) <$> look fe_func k (ft_list (tp_table s))) as Hlook.
  { intros k. unfold l. rewrite !look_map by done. rewrite (look_perm fe_func k (ft_list (tp_table s))) by (done || by rewrite qsort_perm).
    by destruct (look fe_func k (ft_list (tp_table s))). }
  assert (tp_table (display width height s) = {| ft_list := l; ft_size := ft_size (tp_table s);
    ft_total_samp_count := u64 (ft_total_samp_count (tp_table s) + ft_samp_count (tp_table s)); ft_samp_count := 0 |}) as ->.
  { unfold display. by destruct (negb _). }
  split; cbn [ft_list ft_size ft_total_samp_count ft_samp_count].
  - unfold l. rewrite !keys_map by done. unfold keys in *. by rewrite qsort_perm.
  - intros k. rewrite Hlook. specialize (Hs k). destruct (look fe_func k (ft_list (tp_table s))) as [e|]; [|done]. cbn.
    by rewrite !wrap_add_idemp, !Z.add_0_r.
  - by rewrite wrap_add_idemp, Z.add_0_r.
  - unfold l. by rewrite !length_map, qsort_perm.
  - intros _. unfold samples_split, l. cbn [ft_list ft_samp_count]. rewrite map_map. split_and!; [rewrite Forall_map; by apply Forall_true| |unfold leaf_times; lia].
    clear. by induction (qsort _).
Qed.

(** ** Reassembling the lines *)

Lemma join_line d l ls : join d (l :: ls) = l ++ d :: join d ls.
Proof. unfold join. cbn. by rewrite <-app_assoc. Qed.

(** The first separator is where the first line ends. *)
Lemma first_line (d : ascii) a b l r : d ∉ a -> d ∉ l -> a ++ d :: b = l ++ d :: r -> a = l /\ b = r.
Proof.
  revert l. induction a as [|x a IH]; intros [|y l]; cbn; intros Ha Hl He; simplify_eq/=; try set_solver.
  destruct (IH l) as [-> ->]; set_solver.
Qed.

Lemma partial_line p out ls : NL ∉ p -> p ++ out = join NL ls -> Forall line_ok ls -> (length p < BUF_SIZE)%nat.
Proof.
  intros Hp He Hls. destruct ls as [|l ls]; [cbn in He; apply app_nil in He as [-> _]; cbn; unfold BUF_SIZE; lia|].
  apply Forall_cons in Hls as [[Hl _] _]. rewrite join_line in He.
  destruct (decide (length p <= length l)%nat) as [|Hlong]; [lia|]. exfalso. apply Hp.
  apply list_elem_of_lookup. exists (length l). rewrite <-(lookup_app_l p out) by lia. rewrite He, lookup_app_r, Nat.sub_diag by lia. done.
Qed.

Lemma line_loop_run fuel buf n t ps ls out :
  (n < fuel)%nat -> length buf = BUF_SIZE -> (n <= BUF_SIZE)%nat -> take n buf ++ out = join NL ls -> Forall line_ok ls -> table_counts t ps ->
  exists k buf' n' t', line_loop fuel buf n t = Done ((buf', n'), t') /\ length buf' = BUF_SIZE /\ (n' < BUF_SIZE)%nat
    /\ (NL ∉ take n' buf') /\ take n' buf' ++ out = join NL (drop k ls) /\ table_counts t' (ps ++ omap parse_line (take k ls)).
Proof.
  revert buf n t ps ls. induction fuel as [|fuel IH]; intros buf n t ps ls Hfuel Hbuf Hn Hjoin Hls Ht; [lia|]. cbn [line_loop].
  destruct (memchr NL (take n buf)) as [i|] eqn:Hm.
  - destruct (memchr_split _ _ _ Hm) as (Hsplit & Hnl & Hi). rewrite length_take, Hbuf, Nat.min_l in Hi by done.
    destruct ls as [|l ls]; [exfalso; rewrite Hsplit in Hjoin; cbn in Hjoin; by destruct (take i (take n buf))|].
    apply Forall_cons in Hls as [Hl Hls]. rewrite Hsplit, join_line, <-app_assoc in Hjoin. cbn [app] in Hjoin.
    apply first_line in Hjoin as [Hline Hrest]; [|done|apply Hl]. rewrite take_take, Nat.min_l in Hline by lia.
    assert (i = length l) as Hil by (rewrite <-Hline, length_take; lia).
    assert (buf = l ++ NL :: drop (S i) buf) as Hb.
    { rewrite <-Hline. symmetry. apply take_drop_middle. rewrite <-(lookup_take_lt _ n) by lia. by apply (memchr_Some _ _ _ Hm). }
    pose proof (handle_line_run l (drop (S i) buf) t Hl) as Hh. rewrite <-Hb, <-Hil in Hh. unfold mbind, M_bind. rewrite Hh.
    set (rest := (n - (i + 1))%nat). assert (peek buf (i + 1) rest = drop (S i) (take n buf)) as Hpeek.
    { unfold peek, rest. rewrite take_drop_commute. replace (i + 1 + (n - (i + 1)))%nat with n by lia. f_equal. lia. }
    assert (length (peek buf (i + 1) rest) = rest) as Hplen by (apply length_peek; unfold rest; lia).
    assert (take rest (poke buf 0 (peek buf (i + 1) rest)) = peek buf (i + 1) rest) as Htake.
    { unfold poke. rewrite take_0. cbn [app]. rewrite <-Hplen at 1. apply take_app_length. }
    destruct (IH (poke buf 0 (peek buf (i + 1) rest)) rest (count_opt (parse_line l) t) (ps ++ option_list (parse_line l)) ls)
      as (k & buf' & n' & t' & Hrun & H1 & H2 & H3 & H4 & H5); try done.
    + unfold rest. lia.
    + rewrite length_poke; [done|]. unfold rest in *. lia.
    + unfold rest. lia.
    + by rewrite Htake, Hpeek.
    + destruct (parse_line l); cbn; [by apply counted_line|by rewrite app_nil_r].
    + exists (S k), buf', n', t'. split_and!; try done. cbn [take omap list_omap]. rewrite <-app_assoc in H5. by destruct (parse_line l).
  - apply memchr_None in Hm. exists 0%nat, buf, n, t. rewrite drop_0, take_0. cbn. rewrite app_nil_r. split_and!; try done.
    pose proof (partial_line _ _ _ Hm Hjoin Hls) as Hlen. rewrite length_take in Hlen. lia.
Qed.

(** ** The loop *)

(** Of the child's lines [ls], the first [k] have been table_counts; the rest is in
    the buffer and in the pipe. *)
Record reading (ls : list bytes) (k : nat) (s : top) : Prop := {
  rg_buf : length (tp_buf s) = BUF_SIZE;
  rg_len : (tp_buf_len s < BUF_SIZE)%nat;
  rg_part : NL ∉ take (tp_buf_len s) (tp_buf s);
  rg_rest : take (tp_buf_len s) (tp_buf s) ++ tp_out s = join NL (drop k ls);
  rg_count : table_counts (tp_table s) (omap parse_line (take k ls));
}.

Lemma take_add {A} (l : list A) j k : take (k + j) l = take k l ++ take j (drop k l).
Proof. revert l. induction k as [|k IH]; intros [|x l]; cbn; try done; [by rewrite take_nil|]. by rewrite IH. Qed.

Lemma read_out_run ls k s avail : Forall line_ok ls -> reading ls k s ->
  exists k' s', read_child_out avail s = Done (tt, s') /\ reading ls k' s' /\ (tp_out s <> [] -> tp_done s' = tp_done s).
Proof.
  intros Hls [Hbuf Hlen Hpart Hrest Hcount]. unfold read_child_out, mbind, M_bind, get, modify.
  rewrite (bool_decide_false (BUF_SIZE - tp_buf_len s < 1)%nat) by lia. destruct avail as [avail|]; [|exists k; eexists; split; [done|]; by split].
  unfold pipe_read. set (n := Nat.min (Nat.max 1 avail) (BUF_SIZE - tp_buf_len s)). assert (1 <= n <= BUF_SIZE - tp_buf_len s)%nat as Hn by lia.
  case_bool_decide as Hd.
  - assert (tp_out s = []) as Hout by (destruct (tp_out s); [done|]; by destruct n; [lia|]).
    exists k. eexists. split; [done|]. split; [|done]. split; cbn; try done. by rewrite Hout, drop_nil, <-Hout.
  - set (data := take n (tp_out s)) in *. assert (length data <= n)%nat as Hdl by (unfold data; rewrite length_take; lia).
    unfold store. rewrite bool_decide_true by (rewrite Hbuf; lia). unfold mret, M_ret, in_table.
    set (len := (tp_buf_len s + length data)%nat). set (buf := poke (tp_buf s) (tp_buf_len s) data).
    destruct (line_loop_run (S len) buf len (tp_table s) (omap parse_line (take k ls)) (drop k ls) (drop n (tp_out s))) as (j & buf' & n' & t' & Hrun & H1 & H2 & H3 & H4 & H5).
    + lia.
    + unfold buf. rewrite length_poke; lia.
    + unfold len. lia.
    + unfold buf, len. rewrite take_poke_end by lia. rewrite <-app_assoc. unfold data. by rewrite take_drop.
    + by apply Forall_drop.
    + exact Hcount.
    + cbn [tp_table set_buf set_pipes]. rewrite Hrun. exists (k + j)%nat. eexists. split; [done|]. split; [|done].
      split; cbn; try done; [by rewrite <-drop_drop|]. by rewrite take_add, omap_app.
Qed.

Lemma err_loop_run fuel data pos rv count s : Z.of_nat pos + rv = Z.of_nat (length data) -> (Z.to_nat rv < fuel)%nat ->
  exists count', err_loop fuel data pos rv count s = Done (count', s).
Proof.
  revert pos rv count. induction fuel as [|fuel IH]; intros pos rv count Hp Hf; [lia|]. cbn [err_loop].
  destruct (Z.ltb_spec 0 rv); cbn [negb]; [|by eexists]. rewrite bool_decide_false by lia.
  destruct (memchr NL (peek data pos (Z.to_nat rv))) as [i|]; [|by eexists]. apply IH; lia.
Qed.

Lemma read_err_run ls k s avail : reading ls k s -> exists s', read_child_err avail s = Done (tt, s') /\ reading ls k s'
  /\ (tp_err s <> [] -> tp_done s' = tp_done s).
Proof.
  intros [Hbuf Hlen Hpart Hrest Hcount]. unfold read_child_err, mbind, M_bind, get, modify.
  destruct avail as [avail|]; [|exists s; split; [done|]; by split]. unfold pipe_read.
  set (n := Nat.min (Nat.max 1 avail) BUF_SIZE). case_bool_decide as Hd.
  - eexists. split; [done|]. split; [by split|]. intros He. exfalso. destruct (tp_err s); [done|]. unfold n, BUF_SIZE in Hd.
    destruct (Nat.min (Nat.max 1 avail) 512) eqn:E; [lia|done].
  - destruct (err_loop_run (S (length (take n (tp_err s)))) (take n (tp_err s)) 0 (Z.of_nat (length (take n (tp_err s)))) (tp_err_count s)
      (set_pipes (tp_out s) (drop n (tp_err s)) s)) as [c Hc]; [lia|lia|]. rewrite Hc. eexists. split; [done|]. by split.
Qed.

Lemma reading_display {Q : Qsort} ls k tk s : reading ls k s -> reading ls k (maybe_display tk s).
Proof.
  intros [Hbuf Hlen Hpart Hrest Hcount]. unfold maybe_display. destruct (_ || _); [|by split].
  pose proof (counted_display (tk_width tk) (tk_height tk) s _ Hcount) as Hd. unfold display in *. destruct (negb _); by split.
Qed.

Lemma reading_event ls k e s : reading ls k s -> reading ls k (handle_event e s).
Proof. intros [Hbuf Hlen Hpart Hrest Hcount]. unfold handle_event. destruct (negb _); [by split|]. repeat case_bool_decide; by split. Qed.

Lemma top_turn_run {Q : Qsort} ls k tk s : Forall line_ok ls -> reading ls k s ->
  exists go k' s', top_turn tk s = Done (go, s') /\ reading ls k' s'.
Proof.
  intros Hls Hs. pose proof (reading_display ls k tk s Hs) as H1. unfold top_turn, mbind, M_bind, modify.
  set (s1 := maybe_display tk s) in *. destruct (tk_select tk) as [| |out err tty].
  - eexists _, k, _. split; [done|]. by destruct H1.
  - by eexists _, k, _.
  - assert (exists k2 s2, (match out with Some n => read_child_out n | None => mret tt end) s1 = Done (tt, s2) /\ reading ls k2 s2) as (k2 & s2 & -> & H2).
    { destruct out as [n|]; [|by exists k, s1]. destruct (read_out_run ls k s1 n Hls H1) as (k2 & s2 & -> & H2 & _). eauto. }
    assert (exists s3, (match err with Some n => read_child_err n | None => mret tt end) s2 = Done (tt, s3) /\ reading ls k2 s3) as (s3 & -> & H3).
    { destruct err as [n|]; [|by exists s2]. destruct (read_err_run ls k2 s2 n H2) as (s3 & -> & H3 & _). eauto. }
    destruct tty as [e|]; eexists _, k2, _; (split; [done|]); [by apply reading_event|done].
Qed.

Lemma top_loop_run {Q : Qsort} ls k ticks s : Forall line_ok ls -> reading ls k s ->
  exists ended k' s', top_loop ticks s = Done (ended, s') /\ reading ls k' s'.
Proof.
  intros Hls. revert k s. induction ticks as [|tk ticks IH]; intros k s Hs; cbn [top_loop]; unfold mbind, M_bind, get.
  - destruct (tp_done s); by eexists _, k, s.
  - destruct (tp_done s); [by eexists _, k, s|]. destruct (top_turn_run ls k tk s Hls Hs) as (go & k1 & s1 & -> & H1).
    destruct go; [by apply (IH k1)|by eexists _, k1, s1].
Qed.

Lemma reading_start argv ls err : reading ls 0 (start_top argv (join NL ls) err).
Proof.
  split; cbn [start_top tp_buf tp_buf_len tp_out tp_table]; try done; [unfold BUF_SIZE; lia|apply not_elem_of_nil|].
  split; cbn; try done. - apply NoDup_nil_2. - intros k p Hp. by apply elem_of_nil in Hp.
Qed.

(** All lines are table_counts once the pipe is empty. *)
Lemma reading_end ls k s : reading ls k s -> tp_out s = [] -> take k ls = ls.
Proof.
  intros [Hbuf Hlen Hpart Hrest Hcount] Hout. rewrite Hout, app_nil_r in Hrest.
  destruct (drop k ls) as [|l r] eqn:Hd; [by rewrite <-(take_drop k ls) at 2; rewrite Hd, app_nil_r|].
  exfalso. apply Hpart. rewrite Hrest, join_line. set_solver.
Qed.

(** ** Claims *)

(** However the output is cut into reads, [main_top] counts its lines. *)
Lemma main_top_counts {Q : Qsort} o optind argv ttyfd pid outfd errfd ls err ticks :
  Forall line_ok ls -> opt_pid o <> -1 -> forallb fd_set_ok [ttyfd; outfd; errfd] = true ->
  exists ended s k, main_top o optind argv ttyfd (Forked pid outfd errfd) (join NL ls) err ticks = TopRan (filter_child_args argv) ended s
    /\ table_counts (tp_table s) (omap parse_line (take k ls)) /\ (tp_out s = [] -> take k ls = ls).
Proof.
  intros Hls Hpid Hfd. cbn in Hfd. rewrite andb_true_r, andb_assoc in Hfd. unfold main_top. rewrite (proj2 (Z.eqb_neq _ _)) by done.
  cbn [andb fork_child]. rewrite Hfd. rewrite (proj2 (Z.ltb_ge ttyfd 0)) by (unfold fd_set_ok in Hfd; lia). cbn [negb].
  destruct (top_loop_run ls 0 ticks _ Hls (reading_start (filter_child_args argv) ls err)) as (ended & k & s & -> & Hs).
  exists ended, s, k. split; [done|]. split; [apply Hs|by eapply reading_end].
Qed.

(** The name a frame is table_counts under. *)
Definition frame_name (f : trace_frame) : bytes :=
  let l := f_loc f in
  fmt_prec (l_class_len l) (l_class l) ++ (if 0 <? l_class_len l then cs "::" else [])
  ++ fmt_prec (l_func_len l) (l_func l) ++ " "%char :: fmt_prec (l_file_len l) (l_file l) ++ ":"%char :: fmt_d (l_lineno l).

Lemma fmt_frame_eq f : 0 <= f_depth f -> fmt_frame f = fmt_u (f_depth f) ++ " "%char :: frame_name f.
Proof. intros Hd. unfold fmt_frame, fmt_d at 1. by rewrite (proj2 (Z.ltb_ge _ _)) by lia. Qed.

Lemma fmt_u_head n : exists c s, fmt_u n = c :: s /\ is_digit c.
Proof.
  pose proof (length_fmt_u_pos n) as Hp. pose proof (fmt_u_digits n) as Hd. destruct (fmt_u n) as [|c s]; [cbn in Hp; lia|].
  exists c, s. apply Forall_cons in Hd as [Hc _]. done.
Qed.

Lemma parse_frame f : 0 <= f_depth f < 2 ^ 31 -> Z.of_nat (length (frame_name f)) < FUNC_SIZE ->
  parse_line (fmt_frame f) = Some (f_depth f, frame_name f).
Proof.
  intros Hd Hlen. rewrite fmt_frame_eq by lia. unfold parse_line.
  assert (2 <= length (frame_name f))%nat as Hname by (unfold frame_name; cbn; rewrite !length_app; cbn; rewrite length_app; cbn; lia).
  pose proof (length_fmt_u_pos (f_depth f)). rewrite bool_decide_false by (rewrite length_app; cbn; lia).
  rewrite strtoull_fmt_u by (done || lia). destruct (fmt_u_head (f_depth f)) as (c & s & Hu & Hc). rewrite Hu. cbn [app head orb].
  rewrite bool_decide_false by (intros [= ->]; by destruct Hc as [Hc _]; apply Hc).
  assert ((f_depth f =? 0) && negb (bool_decide (Some c = Some "0"%char)) = false) as ->.
  { destruct (Z.eqb_spec (f_depth f) 0) as [H0|]; [|done]. rewrite H0 in Hu. by injection Hu as <- <-. }
  change (c :: s ++ " "%char :: frame_name f) with ((c :: s) ++ " "%char :: frame_name f).
  rewrite lookup_app_r, Nat.sub_diag by done. cbn [lookup list_lookup]. rewrite bool_decide_true by done. cbn [negb].
  replace (drop (S (length (c :: s))) ((c :: s) ++ " "%char :: frame_name f)) with (frame_name f)
    by (rewrite drop_app_ge by lia; by replace (S (length (c :: s)) - length (c :: s))%nat with 1%nat by lia).
  rewrite bool_decide_false by lia. by rewrite (proj2 (Z.leb_gt _ _)) by done.
Qed.

(** What the trace writer prints for a frame, the interactive view reads
    back: the line of a frame, whatever follows it in the buffer, is table_counts
    under the frame's class, function, file and line, and as a sample exactly if
    it is the innermost frame. *)
Theorem top_reads_frame f r t ps :
  wf_event (EvFrame f) -> table_counts t ps -> NL ∉ fmt_frame f -> Z.of_nat (length (frame_name f)) < FUNC_SIZE ->
  exists t', handle_line (fmt_frame f ++ NL :: r) (length (fmt_frame f)) t = Done (tt, t') /\ table_counts t' (ps ++ [(f_depth f, frame_name f)]).
Proof.
  intros [_ Hd] Ht Hnl Hlen. assert (line_ok (fmt_frame f)) as Hok.
  { pose proof (length_fmt_u64 (f_depth f) ltac:(lia)). rewrite fmt_frame_eq in * by lia. unfold FUNC_SIZE in Hlen. split_and!; [|done| |].
    - rewrite length_app. cbn [length]. unfold BUF_SIZE. lia.
    - rewrite <-fmt_frame_eq by lia. apply fmt_frame_nn.
    - destruct (fmt_u_head (f_depth f)) as (c & s & -> & Hc). by left. }
  eexists. split; [by apply handle_line_run|]. rewrite parse_frame by done. by apply counted_line.
Qed.

Lemma compare_excl a b : func_list_compare a b <= 0 -> fe_count_excl b <= fe_count_excl a.
Proof. unfold func_list_compare. repeat case_match; lia. Qed.

Lemma sorted_prefix {A} (R : A -> A -> Prop) n l x y :
  StronglySorted R l -> x ∈ take n l -> y ∈ drop n l -> R x y.
Proof.
  revert n. induction l as [|z l IH]; intros n Hs Hx Hy; [rewrite take_nil in Hx; by apply elem_of_nil in Hx|].
  destruct n as [|n]; [by apply elem_of_nil in Hx|]. inversion Hs as [|?? Hs' Hz]; subst. cbn in Hx, Hy. apply elem_of_cons in Hx as [->|Hx].
  - rewrite Forall_forall in Hz. apply Hz. rewrite <-(take_drop n l). apply elem_of_app. by right.
  - by eapply IH.
Qed.

(** The child does not always get the arguments meant for it.  With the
    value of [-o] in the same word ([-ofile -p 123]), the word is blanked to
    [-#], which takes the next word as its argument: the child has no pid.  And
    [-t] inside a cluster ([-mt]) or abbreviated ([--to]) is not blanked, so the
    child enters top mode itself. *)
Theorem filter_child_args_gaps re :
  (exists g1 o1 g2 o2,
     parse_opts re [cs "phpspy"; cs "-ofile"; cs "-p"; cs "123"] default_options = Go (g1, o1) /\ opt_pid o1 = 123
     /\ parse_opts re (filter_child_args [cs "phpspy"; cs "-ofile"; cs "-p"; cs "123"]) default_options = Go (g2, o2) /\ opt_pid o2 = -1)
  /\ (exists g o, parse_opts re (filter_child_args [cs "phpspy"; cs "-mt"]) default_options = Go (g, o) /\ opt_top_mode o = true)
  /\ (exists g o, parse_opts re (filter_child_args [cs "phpspy"; cs "--to"]) default_options = Go (g, o) /\ opt_top_mode o = true).
Proof. split_and!; by repeat eexists. Qed.

(** The error counter skips lines: three lines on stderr count as two. *)
Example read_child_err_skips s : err_loop 9 (cs "a" ++ NL :: cs "b" ++ NL :: cs "c" ++ [NL]) 0 6 0 s = Done (2, s).
Proof. reflexivity. Qed.

(** ** Witnesses *)

Definition func_le (a b : func_entry) : Prop := func_list_compare a b <= 0.
#[export] Instance func_le_dec : RelDecision func_le.
Proof. intros a b. unfold func_le. apply _. Defined.

Lemma func_le_total : Total func_le.
Proof. intros a b. unfold func_le, func_list_compare. repeat case_match; lia. Qed.
Lemma func_le_trans : Transitive func_le.
Proof.
  intros a b c. unfold func_le, func_list_compare.
  destruct (Z.eqb_spec (fe_count_excl b) (fe_count_excl a)), (Z.eqb_spec (fe_count_excl c) (fe_count_excl b)),
    (Z.eqb_spec (fe_count_excl c) (fe_count_excl a)); try lia; repeat case_match; lia.
Qed.

(** A [qsort] that exists. *)
Definition merge_qsort : Qsort.
Proof.
  refine {| qsort := merge_sort func_le |}; intros l; [apply merge_sort_Permutation|].
  pose proof func_le_total. pose proof func_le_trans. by apply StronglySorted_merge_sort.
Defined.

Definition demo_lines : list bytes := [cs "0 g a.php:3"; cs "1 main a.php:9"; []; cs "# note"; cs "0 h a.php:4"].
Definition demo_options : options := OptionFields.set_opt_pid 7 default_options.

(** Reads of a few bytes, a redraw in between. *)
Definition demo_ticks : list tick :=
  map (fun n => {| tk_now := {| tv_sec := n; tv_nsec := 0 |}; tk_width := 80; tk_height := 20; tk_select := SelReady (Some (Some 13%nat)) None None |}) [1; 1; 2; 3; 4; 5].

Definition demo_frame : trace_frame :=
  {| f_loc := {| l_func := cs "g" ++ repeat NUL 255; l_class := repeat NUL 256; l_file := cs "a.php" ++ repeat NUL 251;
                 l_func_len := 1; l_class_len := 0; l_file_len := 5; l_lineno := 3 |}; f_depth := 0 |}.

Lemma demo_frame_ok : wf_event (EvFrame demo_frame).
Proof. split; [|done]. unfold wf_loc, str_buf. simpl. split_and!; try lia; try done; apply (bool_decide_unpack _); by vm_compute. Qed.

Lemma empty_counted : table_counts (tp_table (start_top [] [] [])) [].
Proof. apply (rg_count [] 0), (reading_start [] [] []). Qed.

Lemma top_reads_frame_witness : exists t', handle_line (cs "0 g a.php:3" ++ NL :: repeat NUL 9) 11 (tp_table (start_top [] [] [])) = Done (tt, t')
  /\ table_counts t' [(0, cs "g a.php:3")].
Proof.
  apply (top_reads_frame demo_frame (repeat NUL 9) (tp_table (start_top [] [] [])) [] demo_frame_ok empty_counted).
  - apply (bool_decide_unpack _). vm_compute. reflexivity.
  - vm_compute. reflexivity.
Defined.
