(* ===== verification/TopScreen.v ===== *)
(** * TopScreen: what the interactive view shows (top.c)

    The screen that [display] draws: which rows, in which order, and the column
    [excl%], computed in single precision, against the exact percentage. *)
From Stdlib Require Import QArith Qabs Qpower Lqa.
From S2P Require Import Prelude CLib Context Clock Uthash Top TopTheorems.

(** ** Floating-point numbers as rationals *)

Definition fval (f : Z * Z) : Q := (inject_Z (fst f) * (2 # 1) ^ snd f)%Q.

(** [x] is [y] up to the relative error [2 ^ -24]. *)
Definition ulp : Q := 1 # 16777216.
Definition near (x y : Q) : Prop := ((1 - ulp) * y <= x /\ x <= (1 + ulp) * y)%Q.

Lemma pow2_pos e : (0 < (2 # 1) ^ e)%Q.
Proof. apply Qpower_0_lt. reflexivity. Qed.

(** [2 ^ e] as a fraction of integers. *)
Lemma pow2_frac e : ((2 # 1) ^ e == inject_Z (2 ^ Z.max 0 e) / inject_Z (2 ^ Z.max 0 (- e)))%Q.
Proof.
  destruct (Z.le_ge_cases 0 e).
  - rewrite (Z.max_r 0 e), (Z.max_l 0 (- e)) by lia. rewrite (Zpower_Qpower 2 e) by lia. change (inject_Z 2) with (2 # 1). change (inject_Z (2 ^ 0)) with 1%Q. field.
  - rewrite (Z.max_l 0 e), (Z.max_r 0 (- e)) by lia. rewrite (Zpower_Qpower 2 (- e)) by lia. change (inject_Z 2) with (2 # 1).
    rewrite Qpower_opp. change (inject_Z (2 ^ 0)) with 1%Q. field. apply Qnot_eq_sym, Qlt_not_eq, pow2_pos.
Qed.

Lemma round_half_even_near num den : 0 <= num -> 0 < den ->
  2 * Z.abs (round_half_even num den * den - num) <= den /\ 0 <= round_half_even num den.
Proof.
  intros Hn Hd. unfold round_half_even. pose proof (Z.div_mod num den ltac:(lia)) as He. pose proof (Z.mod_pos_bound num den Hd) as Hr.
  pose proof (Z.div_pos num den Hn Hd) as Hq.
  destruct (Z.ltb_spec (2 * (num mod den)) den); [nia|]. destruct (Z.ltb_spec den (2 * (num mod den))); [nia|]. destruct (Z.even _); nia.
Qed.

Lemma inject_pos z : 0 < z -> (0 < inject_Z z)%Q.
Proof. intros H. change 0%Q with (inject_Z 0). by rewrite <-Zlt_Qlt. Qed.

(** The exponent of [num / den]. *)
Definition expo (num den : Z) : Z :=
  let e0 := Z.log2 num - Z.log2 den in
  if num * 2 ^ (Z.max 0 (- e0)) <? den * 2 ^ (Z.max 0 e0) then e0 - 1 else e0.

Lemma expo_le num den : 0 < num -> 0 < den -> ((2 # 1) ^ expo num den * inject_Z den <= inject_Z num)%Q.
Proof.
  intros Hn Hd. unfold expo. set (e0 := Z.log2 num - Z.log2 den). pose proof (inject_pos _ Hd) as Hqd.
  destruct (Z.ltb_spec (num * 2 ^ Z.max 0 (- e0)) (den * 2 ^ Z.max 0 e0)) as [_|Hge].
  - pose proof (Z.log2_spec num Hn) as [Hl _]. pose proof (Z.log2_spec den Hd) as [_ Hu]. pose proof (Z.log2_nonneg num). pose proof (Z.log2_nonneg den).
    replace (e0 - 1) with (Z.log2 num + - Z.succ (Z.log2 den)) by lia. rewrite Qpower_plus, Qpower_opp by discriminate.
    rewrite <-!(Zpower_Qpower 2) by lia. rewrite Zle_Qle in Hl. apply Zlt_le_weak in Hu. rewrite Zle_Qle in Hu.
    assert (0 < inject_Z (2 ^ Z.succ (Z.log2 den)))%Q as Hp by (apply inject_pos; lia).
    assert (inject_Z (2 ^ Z.log2 num) * / inject_Z (2 ^ Z.succ (Z.log2 den)) * inject_Z den
      == inject_Z (2 ^ Z.log2 num) * (inject_Z den / inject_Z (2 ^ Z.succ (Z.log2 den))))%Q as -> by (field; lra).
    assert (inject_Z den / inject_Z (2 ^ Z.succ (Z.log2 den)) <= 1)%Q by (apply Qle_shift_div_r; lra).
    assert (0 < inject_Z (2 ^ Z.log2 num))%Q by (apply inject_pos; lia). nra.
  - rewrite pow2_frac. assert (0 < inject_Z (2 ^ Z.max 0 (- e0)))%Q as Hp by (apply inject_pos; lia).
    rewrite Zle_Qle, !inject_Z_mult in Hge.
    assert (inject_Z (2 ^ Z.max 0 e0) / inject_Z (2 ^ Z.max 0 (- e0)) * inject_Z den == (inject_Z den * inject_Z (2 ^ Z.max 0 e0)) / inject_Z (2 ^ Z.max 0 (- e0)))%Q
      as -> by (field; lra). apply Qle_shift_div_r; lra.
Qed.

(** Division of integers as rationals, from bounds by cross-multiplication. *)
Lemma round_near num den r : 0 <= num -> 0 < den -> (inject_Z num == r * inject_Z den)%Q ->
  (r - (1 # 2) <= inject_Z (round_half_even num den) <= r + (1 # 2))%Q /\ 0 <= round_half_even num den.
Proof.
  intros Hn Hd Hr. destruct (round_half_even_near num den Hn Hd) as [Hh H0]. split; [|done].
  set (q := round_half_even num den) in *. pose proof (inject_pos _ Hd) as Hp.
  assert (2 * (q * den) - 2 * num <= den) as Ha by lia. assert (2 * num - 2 * (q * den) <= den) as Hb by lia.
  rewrite Zle_Qle in Ha, Hb. unfold Zminus in Ha, Hb. rewrite inject_Z_plus, inject_Z_opp, !inject_Z_mult, Hr in Ha, Hb.
  change (inject_Z 2) with (2 # 1) in Ha, Hb. split; nra.
Qed.

Lemma near_0 x y : (x == 0)%Q -> (y == 0)%Q -> near x y.
Proof. intros Hx Hy. split; rewrite Hx, Hy; [field_simplify|field_simplify]; apply Qle_refl. Qed.

#[export] Instance near_proper : Proper (Qeq ==> Qeq ==> iff) near.
Proof. intros x x' Hx y y' Hy. unfold near. by rewrite Hx, Hy. Qed.

Lemma round_float_near num den : 0 <= num -> 0 < den ->
  near (fval (round_float num den)) (inject_Z num / inject_Z den) /\ 0 <= fst (round_float num den).
Proof.
  intros Hn Hd. pose proof (inject_pos _ Hd) as Hqd. unfold round_float, round_bits. destruct (Z.eqb_spec num 0) as [->|Hne].
  { split; [|done]. apply near_0; unfold fval; cbn; field; lra. }
  cbv zeta. fold (expo num den). set (sh := 24 - 1 - expo num den). cbn [fst snd].
  pose proof (expo_le num den ltac:(lia) Hd) as He. set (r := (inject_Z num / inject_Z den * (2 # 1) ^ sh)%Q).
  assert (0 < inject_Z (2 ^ Z.max 0 (- sh)))%Q as Hp by (apply inject_pos; lia).
  destruct (round_near (num * 2 ^ Z.max 0 sh) (den * 2 ^ Z.max 0 (- sh)) r) as [Hm H0]; [lia|lia| |].
  { unfold r. rewrite pow2_frac, !inject_Z_mult. field. lra. }
  split; [|done]. unfold fval. cbn [fst snd]. set (m := inject_Z (round_half_even _ _)) in *.
  assert ((8388608 # 1) <= r)%Q as Hr.
  { unfold r, sh. replace (24 - 1 - expo num den) with (23 + - expo num den) by lia. rewrite Qpower_plus, Qpower_opp by discriminate.
    change ((2 # 1) ^ 23)%Q with (8388608 # 1). pose proof (pow2_pos (expo num den)) as Hpe. set (b := ((2 # 1) ^ expo num den)%Q) in *.
    assert (1 <= inject_Z num / inject_Z den * / b)%Q.
    { assert (inject_Z num / inject_Z den * / b == inject_Z num / (b * inject_Z den))%Q as -> by (field; lra).
      apply Qle_shift_div_l; [nra|lra]. }
    nra. }
  assert (inject_Z num / inject_Z den == r * (2 # 1) ^ (- sh))%Q as ->.
  { unfold r. rewrite Qpower_opp. field. split; [|lra]. pose proof (pow2_pos sh). lra. }
  pose proof (pow2_pos (- sh)) as Hps. unfold near, ulp. split; nra.
Qed.

(** ** The operations *)

Lemma float_of_near n : 0 <= n -> near (fval (float_of n)) (inject_Z n) /\ 0 <= fst (float_of n).
Proof.
  intros Hn. destruct (round_float_near n 1 Hn ltac:(lia)) as [H H0]. split; [|done].
  assert (inject_Z n / inject_Z 1 == inject_Z n)%Q as He by (change (inject_Z 1) with 1%Q; field). by rewrite He in H.
Qed.

(** Products and quotients of [2 ^ e]. *)
Lemma fval_frac m e : (fval (m, e) == inject_Z (m * 2 ^ Z.max 0 e) / inject_Z (2 ^ Z.max 0 (- e)))%Q.
Proof. unfold fval. cbn [fst snd]. rewrite pow2_frac, inject_Z_mult. field. pose proof (inject_pos (2 ^ Z.max 0 (- e)) ltac:(lia)). lra. Qed.

Lemma fmul_near a b : 0 <= fst a -> 0 <= fst b -> near (fval (fmul a b)) (fval a * fval b) /\ 0 <= fst (fmul a b).
Proof.
  destruct a as [m e], b as [n f]. cbn [fst]. intros Hm Hn. destruct (round_float_near (m * n * 2 ^ Z.max 0 (e + f)) (2 ^ Z.max 0 (- (e + f)))) as [H H0]; [lia|lia|].
  split; [|exact H0]. unfold fmul. cbn [fst snd]. rewrite <-fval_frac in H.
  assert (fval (m * n, e + f)%Z == fval (m, e) * fval (n, f))%Q as <-; [|exact H].
  unfold fval. cbn [fst snd]. rewrite inject_Z_mult, Qpower_plus by discriminate. ring.
Qed.

Lemma fdiv_near a b : 0 <= fst a -> 0 < fst b -> near (fval (fdiv a b)) (fval a / fval b) /\ 0 <= fst (fdiv a b).
Proof.
  destruct a as [m e], b as [n f]. cbn [fst]. intros Hm Hn.
  destruct (round_float_near (m * 2 ^ Z.max 0 (e - f)) (n * 2 ^ Z.max 0 (- (e - f)))) as [H H0]; [lia|lia|].
  split; [|exact H0]. unfold fdiv. cbn [fst snd]. pose proof (inject_pos n Hn) as Hqn.
  assert (fval (m, e) / fval (n, f) == inject_Z (m * 2 ^ Z.max 0 (e - f)) / inject_Z (n * 2 ^ Z.max 0 (- (e - f))))%Q as ->; [|exact H].
  assert (inject_Z (m * 2 ^ Z.max 0 (e - f)) / inject_Z (n * 2 ^ Z.max 0 (- (e - f))) == fval (m, e - f)%Z / inject_Z n)%Q as ->.
  { rewrite fval_frac, !inject_Z_mult. field. pose proof (inject_pos (2 ^ Z.max 0 (- (e - f))) ltac:(lia)). lra. }
  unfold fval. cbn [fst snd]. unfold Zminus. rewrite Qpower_plus, Qpower_opp by discriminate. field. pose proof (pow2_pos f). lra.
Qed.

Lemma scaled_near m e : 0 <= m -> (fval (m, e) * (100 # 1) - (1 # 2) <= inject_Z (scaled 2 m e) <= fval (m, e) * (100 # 1) + (1 # 2))%Q.
Proof.
  intros Hm. unfold scaled. change (10 ^ Z.of_nat 2) with 100. destruct (Z.leb_spec 0 e).
  - unfold fval. cbn [fst snd]. rewrite !inject_Z_mult, (Zpower_Qpower 2 e) by lia. change (inject_Z 2) with (2 # 1). change (inject_Z 100) with (100 # 1).
    split; lra.
  - apply round_near; [lia|lia|]. rewrite fval_frac, (Z.max_l 0 e), (Z.max_r 0 (- e)), !inject_Z_mult by lia. change (inject_Z 100) with (100 # 1).
    change (inject_Z (2 ^ 0)) with 1%Q. field. pose proof (inject_pos (2 ^ (- e)) ltac:(lia)). lra.
Qed.

(** ** The percentage *)

(** What is printed, in hundredths. *)
Definition hundredths (f : Z * Z) : Z := scaled 2 (fst f) (snd f).

Lemma near_pos x y : (0 < y)%Q -> near x y -> (0 < x)%Q.
Proof. unfold near, ulp. intros Hy [H _]. nra. Qed.

(** Three roundings and the division by a rounded number. *)
Lemma percent_near n c : 0 < n -> 0 <= c <= n ->
  (inject_Z n * fval (percent n c) <= (100 # 1) * inject_Z c + (1 # 40000) * inject_Z n
   /\ (100 # 1) * inject_Z c <= inject_Z n * fval (percent n c) + (1 # 40000) * inject_Z n)%Q /\ 0 <= fst (percent n c).
Proof.
  intros Hn [Hc Hle]. unfold percent. rewrite (proj2 (Z.ltb_ge n 1)) by lia. pose proof (inject_pos n Hn) as Hqn. rewrite Zle_Qle in Hc, Hle.
  change (inject_Z 0) with 0%Q in Hc. destruct (float_of_near c) as [[Hx1 Hx2] Hx0]; [by rewrite Zle_Qle|]. destruct (float_of_near n) as [Hz Hz0]; [lia|].
  destruct (fmul_near (100, 0) (float_of c)) as [[Hy1 Hy2] Hy0]; [done|done|].
  pose proof (near_pos _ _ Hqn Hz) as Hzp. destruct Hz as [Hz1 Hz2].
  destruct (fdiv_near (fmul (100, 0) (float_of c)) (float_of n)) as [[Hw1 Hw2] Hw0]; [done| |].
  { destruct (Z.eq_dec (fst (float_of n)) 0) as [H0|]; [|lia]. unfold fval in Hzp. rewrite H0 in Hzp. change (inject_Z 0) with 0%Q in Hzp.
    rewrite Qmult_0_l in Hzp. by apply Qlt_irrefl in Hzp. }
  split; [|done]. change (fval (100, 0)) with (100 # 1)%Q in *.
  set (w := fval (fdiv _ _)) in *. set (y := fval (fmul _ _)) in *. set (x := fval (float_of c)) in *. set (z := fval (float_of n)) in *.
  set (C := inject_Z c) in *. set (N := inject_Z n) in *.
  assert (w * z <= (1 + ulp) * y)%Q as Hu.
  { assert ((1 + ulp) * y == (1 + ulp) * (y / z) * z)%Q as -> by (field; lra). apply Qmult_le_compat_r; [exact Hw2|lra]. }
  assert ((1 - ulp) * y <= w * z)%Q as Hl.
  { assert ((1 - ulp) * y == (1 - ulp) * (y / z) * z)%Q as -> by (field; lra). apply Qmult_le_compat_r; [exact Hw1|lra]. }
  unfold ulp in *. split; nra.
Qed.

(** The printed percentage is the exact one to 0.00503, and never over 100. *)
Definition percent_ok (samp_count count_excl : Z) (f : Z * Z) : Prop :=
  1000 * Z.abs (hundredths f * samp_count - 10000 * count_excl) <= 503 * samp_count /\ 0 <= hundredths f <= 10000.

Lemma percent_accurate n c : 0 <= c <= n -> percent_ok n c (percent n c).
Proof.
  intros Hc. destruct (Z.eq_dec n 0) as [->|Hn]; [replace c with 0 by lia; by vm_compute|].
  destruct (percent_near n c ltac:(lia) Hc) as [[Hu Hl] H0]. destruct (percent n c) as [m e] eqn:Hp. pose proof (scaled_near m e H0) as [Hs1 Hs2].
  unfold percent_ok, hundredths. cbn [fst snd] in *. set (P := scaled 2 m e) in *. pose proof (inject_pos n ltac:(lia)) as Hqn.
  assert (1000 * (P * n) <= 10000000 * c + 503 * n) as H1.
  { rewrite Zle_Qle, inject_Z_plus, !inject_Z_mult. change (inject_Z 1000) with (1000 # 1). change (inject_Z 10000000) with (10000000 # 1).
    change (inject_Z 503) with (503 # 1). nra. }
  assert (10000000 * c <= 1000 * (P * n) + 503 * n) as H2.
  { rewrite Zle_Qle, inject_Z_plus, !inject_Z_mult. change (inject_Z 1000) with (1000 # 1). change (inject_Z 10000000) with (10000000 # 1).
    change (inject_Z 503) with (503 # 1). nra. }
  split; [lia|]. split; [|nia]. unfold P, scaled. case_match; [lia|]. apply round_half_even_near; lia.
Qed.

(** ** The rows *)

Definition row_call (i : nat) (e : func_entry) : print_call :=
  {| pr_x := 0; pr_y := 4 + Z.of_nat i; pr_attr := TB_DEFAULT; pr_text := row_text e |}.

Lemma row_calls_take k h l : row_calls (4 + Z.of_nat k) h l = imap (fun i => row_call (k + i)) (take (Z.to_nat (h - (4 + Z.of_nat k))) l).
Proof.
  revert k. induction l as [|e l IH]; intros k; cbn [row_calls]; [by rewrite take_nil|]. destruct (Z.ltb_spec (4 + Z.of_nat k) h).
  - replace (Z.to_nat (h - (4 + Z.of_nat k))) with (S (Z.to_nat (h - (4 + Z.of_nat (S k))))) by lia. cbn [take imap]. f_equal.
    + unfold row_call. do 2 f_equal. lia.
    + replace (4 + Z.of_nat k + 1) with (4 + Z.of_nat (S k)) by lia. rewrite IH. apply imap_ext. intros i x _. cbn. by rewrite Nat.add_succ_r.
  - by replace (Z.to_nat (h - (4 + Z.of_nat k))) with 0%nat by lia.
Qed.

Lemma sum_excl_perm a b : a ≡ₚ b -> sum_excl a = sum_excl b.
Proof. induction 1; cbn; fold sum_excl in *; unfold sum_excl in *; lia. Qed.

Lemma sum_excl_totals n l : sum_excl (map (add_totals n) l) = sum_excl l.
Proof. induction l as [|e l IH]; [done|]. cbn. unfold sum_excl in IH. by rewrite IH. Qed.

(** C31. The screen of the interactive view.  Unless paused, a redraw shows one
    screen more: the header and, below it, as many rows as there is room for.
    They are the functions with the most samples since the last screen: a
    function that is not shown has no more than any that is.  The samples of all
    functions add up to the samples counted, the percentage printed for a row is
    its exact share to 0.00503, although computed with four roundings in single
    precision, and is at most [100.00].  The counts start again at zero. *)
Theorem display_screen {Q : Qsort} width height s ps :
  tp_is_paused s = false -> table_counts (tp_table s) ps -> leaf_times ps < 2 ^ 64 ->
  let n := ft_samp_count (tp_table s) in
  exists rows hidden,
    tp_screens (display width height s) = tp_screens s
      ++ [header_calls (tp_args s) (u64 (leaf_times ps)) (tp_err_count s) (Z.of_nat (length (rows ++ hidden))) width ++ imap row_call rows]
    /\ rows ++ hidden ≡ₚ map (add_totals n) (ft_list (tp_table s))
    /\ (forall r e, r ∈ rows -> e ∈ hidden -> fe_count_excl e <= fe_count_excl r)
    /\ (hidden <> [] -> Z.of_nat (length rows) = Z.max 0 (height - 4))
    /\ sum_excl (rows ++ hidden) = n
    /\ Forall (fun e => percent_ok n (fe_count_excl e) (fe_percent_excl e)) rows
    /\ Forall (fun e => fe_count_excl e = 0 /\ fe_count_incl e = 0) (ft_list (tp_table (display width height s))).
Proof.
  intros Hp Hcount Hlt n. destruct (cn_split _ _ Hcount Hlt) as (Hpos & Hsum & _). destruct (sum_excl_pos _ Hpos) as [Hle _]. rewrite Hsum in Hle.
  pose proof (cn_samples _ _ Hcount) as Hsamp. unfold display. cbn [tp_is_paused set_table]. rewrite Hp. cbn [negb]. fold n in Hsamp |- *.
  set (l := map (add_totals n) (qsort (ft_list (tp_table s)))). set (k := Z.to_nat (height - 4)).
  assert (l ≡ₚ map (add_totals n) (ft_list (tp_table s))) as Hperm by (apply Permutation_map, qsort_perm).
  exists (take k l), (drop k l). rewrite take_drop. cbn [tp_screens show set_table tp_table ft_list]. split_and!.
  - do 2 f_equal. rewrite Hsamp. f_equal. exact (row_calls_take 0 height l).
  - exact Hperm.
  - intros r e Hr He. eapply (sorted_prefix (fun a b => fe_count_excl b <= fe_count_excl a)); [|exact Hr|exact He].
    eapply sorted_map; [|apply qsort_sorted]. apply compare_excl.
  - intros Hh. rewrite length_take. destruct (decide (k <= length l)%nat); [lia|]. by rewrite drop_ge in Hh by lia.
  - by rewrite (sum_excl_perm _ _ Hperm), sum_excl_totals.
  - apply Forall_take. rewrite Hperm, Forall_map. apply Forall_lookup. intros i e He. cbn.
    apply percent_accurate. rewrite Forall_lookup in Hpos, Hle. split; [by apply (Hpos i)|by apply (Hle i)].
  - apply Forall_forall. intros e (e0 & -> & _)%list_elem_of_fmap. done.
Qed.

(** ** Witness *)

(** Three samples, two of them in one function; room for one row. *)
Definition demo_counts : list (Z * bytes) := [(0, cs "g a.php:3"); (0, cs "h a.php:4"); (0, cs "g a.php:3")].
Definition demo_top : top := set_table (fold_left (fun t p => count_line p t) demo_counts (tp_table (start_top [] [] []))) (start_top [] [] []).

Lemma demo_counted : table_counts (tp_table demo_top) demo_counts.
Proof. apply (counted_line _ _ [_; _]), (counted_line _ _ [_]), (counted_line _ _ []), empty_counted. Qed.

Lemma display_screen_witness :
  option_map pr_text (last (default [] (last (tp_screens (@display merge_qsort 80 5 demo_top)))))
    = Some (cs "2          2          2          2          66.67   g a.php:3")
  /\ exists rows hidden, tp_screens (@display merge_qsort 80 5 demo_top)
       = [header_calls (cs "phpspy ") 3 0 (Z.of_nat (length (rows ++ hidden))) 80 ++ imap row_call rows]
     /\ sum_excl (rows ++ hidden) = 3 /\ Forall (fun e => percent_ok 3 (fe_count_excl e) (fe_percent_excl e)) rows.
Proof.
  split; [vm_compute; reflexivity|].
  destruct (@display_screen merge_qsort 80 5 demo_top demo_counts) as (rows & hidden & Hs & _ & _ & _ & Hsum & Hrows & _);
    [reflexivity|exact demo_counted|vm_compute; reflexivity|]. by exists rows, hidden.
Defined.
