(* ===== verification/Pgrep.v ===== *)
(** * Pgrep: tracing many processes at once (pgrep.c)

    [main_pgrep] runs a producer, which asks [pgrep] for pids, a number of
    workers, which take pids from the queue and call [main_pid], and a thread
    that waits for signals.  Each thread is a program counter over the shared
    statics; one step of a thread is what it does between two points where
    another thread could notice.  All waits on the condition variables time out
    after two seconds, so a waiting thread may continue at any moment and the
    signals on the condition variables need no model of their own.  The mutex is
    its owner. *)
From S2P Require Import Prelude CLib Context.

(** ** State *)

Inductive thread := Producer | Worker (i : nat) | Signal.
#[export] Instance thread_eq_dec : EqDecision thread.
Proof. solve_decision. Defined.

(** [pgrep_for_pids] and the end of [main_pgrep]. *)
Inductive producer_pc :=
| PTop                                           (* while (!done) *)
| PLock                                          (* wait_for_turn: pthread_mutex_lock *)
| PTest                                          (* its loop, with the lock *)
| PWait                                          (* in pthread_cond_timedwait *)
| PPopen
| PScan (lines : list bytes) (found : Z)         (* the test of the inner while *)
| PLine (line : bytes) (lines : list bytes) (found : Z)
| PFound (found : Z)                             (* after pclose *)
| PSleep                                         (* in pthread_cond_timedwait *)
| PUnlock
| PJoin
| PFinished.

(** [run_work_thread]. *)
Inductive worker_pc :=
| WTop | WLock | WTest | WWait
| WTake                                          (* wait_for_turn returned 0 *)
| WGot                                           (* attached_pids is set *)
| WCall
| WMain (pid : Z)                                (* in main_pid *)
| WReset
| WExit.

(** [run_signal_thread]. *)
Inductive signal_pc := SInit | SSelect | SRead | SDone | SLock | SBcast | SExit.

Record pg := {
  pg_avail : list Z;            (* avail_pids *)
  pg_count : nat;               (* avail_pids_count *)
  pg_attached : list Z;         (* attached_pids *)
  pg_done : bool;
  pg_pipe : option nat;         (* done_pipe, once created: the numbers in it *)
  pg_owner : option thread;     (* mutex *)
  pg_producer : producer_pc;
  pg_workers : list worker_pc;
  pg_signal : signal_pc;
  pg_runs : nat;                (* runs of pgrep so far *)
  pg_fault : bool;              (* an array was indexed out of its range *)
}.

Definition set_producer (pc : producer_pc) (s : pg) : pg :=
  {| pg_avail := pg_avail s; pg_count := pg_count s; pg_attached := pg_attached s; pg_done := pg_done s; pg_pipe := pg_pipe s;
     pg_owner := pg_owner s; pg_producer := pc; pg_workers := pg_workers s; pg_signal := pg_signal s; pg_runs := pg_runs s;
     pg_fault := pg_fault s |}.
Definition set_worker (i : nat) (pc : worker_pc) (s : pg) : pg :=
  {| pg_avail := pg_avail s; pg_count := pg_count s; pg_attached := pg_attached s; pg_done := pg_done s; pg_pipe := pg_pipe s;
     pg_owner := pg_owner s; pg_producer := pg_producer s; pg_workers := <[i := pc]> (pg_workers s); pg_signal := pg_signal s;
     pg_runs := pg_runs s; pg_fault := pg_fault s |}.
Definition set_signal (pc : signal_pc) (s : pg) : pg :=
  {| pg_avail := pg_avail s; pg_count := pg_count s; pg_attached := pg_attached s; pg_done := pg_done s; pg_pipe := pg_pipe s;
     pg_owner := pg_owner s; pg_producer := pg_producer s; pg_workers := pg_workers s; pg_signal := pc; pg_runs := pg_runs s;
     pg_fault := pg_fault s |}.
Definition set_owner (t : option thread) (s : pg) : pg :=
  {| pg_avail := pg_avail s; pg_count := pg_count s; pg_attached := pg_attached s; pg_done := pg_done s; pg_pipe := pg_pipe s;
     pg_owner := t; pg_producer := pg_producer s; pg_workers := pg_workers s; pg_signal := pg_signal s; pg_runs := pg_runs s;
     pg_fault := pg_fault s |}.
Definition set_queue (avail : list Z) (count : nat) (s : pg) : pg :=
  {| pg_avail := avail; pg_count := count; pg_attached := pg_attached s; pg_done := pg_done s; pg_pipe := pg_pipe s;
     pg_owner := pg_owner s; pg_producer := pg_producer s; pg_workers := pg_workers s; pg_signal := pg_signal s; pg_runs := pg_runs s;
     pg_fault := pg_fault s |}.
Definition set_attached (a : list Z) (s : pg) : pg :=
  {| pg_avail := pg_avail s; pg_count := pg_count s; pg_attached := a; pg_done := pg_done s; pg_pipe := pg_pipe s;
     pg_owner := pg_owner s; pg_producer := pg_producer s; pg_workers := pg_workers s; pg_signal := pg_signal s; pg_runs := pg_runs s;
     pg_fault := pg_fault s |}.
Definition set_done (s : pg) : pg :=
  {| pg_avail := pg_avail s; pg_count := pg_count s; pg_attached := pg_attached s; pg_done := true; pg_pipe := pg_pipe s;
     pg_owner := pg_owner s; pg_producer := pg_producer s; pg_workers := pg_workers s; pg_signal := pg_signal s; pg_runs := pg_runs s;
     pg_fault := pg_fault s |}.
Definition set_pipe (p : option nat) (s : pg) : pg :=
  {| pg_avail := pg_avail s; pg_count := pg_count s; pg_attached := pg_attached s; pg_done := pg_done s; pg_pipe := p;
     pg_owner := pg_owner s; pg_producer := pg_producer s; pg_workers := pg_workers s; pg_signal := pg_signal s; pg_runs := pg_runs s;
     pg_fault := pg_fault s |}.
Definition add_run (s : pg) : pg :=
  {| pg_avail := pg_avail s; pg_count := pg_count s; pg_attached := pg_attached s; pg_done := pg_done s; pg_pipe := pg_pipe s;
     pg_owner := pg_owner s; pg_producer := pg_producer s; pg_workers := pg_workers s; pg_signal := pg_signal s; pg_runs := S (pg_runs s);
     pg_fault := pg_fault s |}.
Definition set_fault (s : pg) : pg :=
  {| pg_avail := pg_avail s; pg_count := pg_count s; pg_attached := pg_attached s; pg_done := pg_done s; pg_pipe := pg_pipe s;
     pg_owner := pg_owner s; pg_producer := pg_producer s; pg_workers := pg_workers s; pg_signal := pg_signal s; pg_runs := pg_runs s;
     pg_fault := true |}.

Section pgrep.
(** [opt_num_workers], and what the n-th run of [pgrep] prints ([None] when
    [popen] fails), as [fgets] cuts it into lines. *)
Context (num_workers : nat) (pgrep_out : nat -> option (list bytes)).

(** ** Shared operations *)

(** [pthread_mutex_lock], possible when the mutex is free. *)
Definition lock (t : thread) (k : pg -> pg) (s : pg) : option pg :=
  match pg_owner s with
  | None => Some (k (set_owner (Some t) s))
  | Some _ => None
  end.
Definition unlock (s : pg) : pg := set_owner None s.

Definition pgrep_cmd (args : bytes) (quiet : bool) : bytes :=
  cs "pgrep " ++ args ++ (if quiet then cs " 2>/dev/null" else []).

(** The [break]s of [wait_for_turn]. *)
Definition my_turn (producer : bool) (count : nat) : bool :=
  if producer && bool_decide (count < num_workers)%nat then true else bool_decide (0 < count)%nat.

(** The loop of [is_already_attached]. *)
Definition is_already_attached (pid : Z) (s : pg) : bool :=
  existsb (fun i => bool_decide (pg_attached s !! i = Some pid)
                    || (bool_decide (i < pg_count s)%nat && bool_decide (pg_avail s !! i = Some pid)))
          (seq 0 num_workers).

Definition write_done_pipe (s : pg) : pg :=
  match pg_pipe s with
  | Some n => set_pipe (Some (S n)) s
  | None => s
  end.

(** ** The producer *)

Definition finished_workers (s : pg) : bool := forallb (fun pc => match pc with WExit => true | _ => false end) (pg_workers s).

Definition step_producer (s : pg) : option pg :=
  match pg_producer s with
  | PTop => Some (set_producer (if pg_done s then PJoin else PLock) s)
  | PLock | PWait => lock Producer (set_producer PTest) s
  | PTest =>
    if pg_done s then Some (set_producer PJoin (unlock s))
    else if my_turn true (pg_count s) then Some (set_producer PPopen s)
    else Some (set_producer PWait (unlock s))
  | PPopen =>
    Some (set_producer (match pgrep_out (pg_runs s) with Some lines => PScan lines 0 | None => PFound 0 end) (add_run s))
  | PScan lines found =>
    if bool_decide (pg_count s < num_workers)%nat then
      match lines with
      | line :: lines => Some (set_producer (PLine line lines found) s)
      | [] => Some (set_producer (PFound found) s)
      end
    else Some (set_producer (PFound found) s)
  | PLine line lines found =>
    if bool_decide (length (cstr line) < 1)%nat || bool_decide (head line = Some NL) then Some (set_producer (PScan lines found) s) else
    let pid := atoi line in
    if is_already_attached pid s then Some (set_producer (PScan lines found) s) else
    if bool_decide (length (pg_avail s) <= pg_count s)%nat then Some (set_fault s) else
    Some (set_producer (PScan lines (found + 1)) (set_queue (<[pg_count s := pid]> (pg_avail s)) (S (pg_count s)) s))
  | PFound found => Some (if 0 <? found then set_producer PUnlock s else set_producer PSleep (unlock s))
  | PSleep => lock Producer (set_producer PUnlock) s
  | PUnlock => Some (set_producer PTop (unlock s))
  | PJoin =>
    if finished_workers s && (match pg_signal s with SExit => true | _ => false end) then Some (set_producer PFinished s) else None
  | PFinished => None
  end.

(** ** The workers *)

(** [limit] says whether [main_pid] reached the trace limit. *)
Definition step_worker (i : nat) (limit : bool) (s : pg) : option pg :=
  match pg_workers s !! i with
  | None | Some WExit => None
  | Some WTop => Some (set_worker i (if pg_done s then WExit else WLock) s)
  | Some WLock | Some WWait => lock (Worker i) (set_worker i WTest) s
  | Some WTest =>
    if pg_done s then Some (set_worker i WExit (unlock s))
    else if my_turn false (pg_count s) then Some (set_worker i WTake s)
    else Some (set_worker i WWait (unlock s))
  | Some WTake =>
    match pg_count s with
    | O => Some (set_fault s)
    | S n =>
      match pg_avail s !! n with
      | Some pid => Some (set_worker i WGot (set_attached (<[i := pid]> (pg_attached s)) (set_queue (pg_avail s) n s)))
      | None => Some (set_fault s)
      end
    end
  | Some WGot => Some (set_worker i WCall (unlock s))
  | Some WCall =>
    match pg_attached s !! i with
    | Some pid => Some (set_worker i (WMain pid) s)
    | None => Some (set_fault s)
    end
  | Some (WMain _) => Some (set_worker i WReset (if limit then write_done_pipe s else s))
  | Some WReset => Some (set_worker i WTop (set_attached (<[i := 0]> (pg_attached s)) s))
  end.

(** ** The signal thread *)

Definition step_signal (s : pg) : option pg :=
  match pg_signal s with
  | SInit => Some (set_signal SSelect (set_pipe (Some 0%nat) s))
  | SSelect => match pg_pipe s with Some (S _) => Some (set_signal SRead s) | _ => None end
  | SRead => match pg_pipe s with Some (S n) => Some (set_signal SDone (set_pipe (Some n) s)) | _ => None end
  | SDone => Some (set_signal SLock (set_done s))
  | SLock => lock Signal (set_signal SBcast) s
  | SBcast => Some (set_signal SExit (unlock s))
  | SExit => None
  end.

(** ** The program *)

(** A step of a thread. *)
Inductive thread_step (s : pg) : pg -> Prop :=
| ts_producer s' : step_producer s = Some s' -> thread_step s s'
| ts_worker i limit s' : step_worker i limit s = Some s' -> thread_step s s'
| ts_signal s' : step_signal s = Some s' -> thread_step s s'.

(** [handle_signal] runs at any moment. *)
Inductive step (s : pg) : pg -> Prop :=
| step_thread s' : thread_step s s' -> step s s'
| step_handle_signal : step s (write_done_pipe s).

(** After [init_work_threads] and the [pthread_create]s. *)
Definition start_pgrep : pg := {|
  pg_avail := replicate num_workers 0; pg_count := 0; pg_attached := replicate num_workers 0; pg_done := false; pg_pipe := None;
  pg_owner := None; pg_producer := PTop; pg_workers := replicate num_workers WTop; pg_signal := SInit; pg_runs := 0; pg_fault := false |}.

Definition reachable (s : pg) : Prop := rtc step start_pgrep s.

End pgrep.
