(* ===== verification/PgrepTheorems.v ===== *)
(** * PgrepTheorems: the threads of the multi-process mode

    An invariant of all reachable states: the mutex excludes, the queue stays in
    its array and no process is queued or traced twice.  And an orderly end:
    once [done] is set every run stops, with all threads gone. *)
From S2P Require Import Prelude CLib Context Pgrep.

(** Reads fields of updated states. *)
Ltac pgsimpl := cbn [start_pgrep pg_avail pg_count pg_attached pg_done pg_pipe pg_owner pg_producer pg_workers pg_signal pg_runs pg_fault
  set_producer set_worker set_signal set_owner set_queue set_attached set_done set_pipe add_run set_fault unlock] in *.

(** ** Who holds the mutex *)

Definition holds_p (pc : producer_pc) : bool :=
  match pc with PTest | PPopen | PScan _ _ | PLine _ _ _ | PFound _ | PUnlock => true | _ => false end.
Definition holds_w (pc : worker_pc) : bool := match pc with WTest | WTake | WGot => true | _ => false end.
Definition holds_s (pc : signal_pc) : bool := match pc with SBcast => true | _ => false end.

Definition holding (s : pg) (t : thread) : bool :=
  match t with
  | Producer => holds_p (pg_producer s)
  | Worker i => match pg_workers s !! i with Some pc => holds_w pc | None => false end
  | Signal => holds_s (pg_signal s)
  end.

Definition lock_ok (s : pg) : Prop := forall t, pg_owner s = Some t <-> holding s t = true.

(** Only [t]'s program counter changes. *)
Definition others_kept (t : thread) (s s' : pg) : Prop := forall t', t' <> t -> holding s' t' = holding s t'.

Lemma lock_same t s s' : others_kept t s s' -> holding s' t = holding s t -> pg_owner s' = pg_owner s -> lock_ok s -> lock_ok s'.
Proof. intros Ho Ht Hw Hs t'. rewrite Hw, (Hs t'). destruct (decide (t' = t)) as [->|]; [by rewrite Ht|by rewrite Ho]. Qed.

Lemma lock_acquire t s s' : others_kept t s s' -> holding s' t = true -> pg_owner s = None -> pg_owner s' = Some t -> lock_ok s -> lock_ok s'.
Proof.
  intros Ho Ht Hn Hw Hs t'. rewrite Hw. destruct (decide (t' = t)) as [->|Hne]; [by rewrite Ht|]. rewrite Ho, <-(Hs t'), Hn by done.
  split; congruence.
Qed.

Lemma lock_release t s s' : others_kept t s s' -> holding s t = true -> holding s' t = false -> pg_owner s' = None -> lock_ok s -> lock_ok s'.
Proof.
  intros Ho Ht Ht' Hw Hs t'. rewrite Hw. destruct (decide (t' = t)) as [->|Hne]; [by rewrite Ht'|]. rewrite Ho, <-(Hs t') by done.
  apply Hs in Ht. rewrite Ht. split; congruence.
Qed.

(** ** The invariant *)

Definition occ (p : Z) (l : list Z) : nat := length (filter (fun x => x = p) l).

Section inv.
Context (num_workers : nat) (pgrep_out : nat -> option (list bytes)).

Record pg_inv (s : pg) : Prop := {
  v_avail : length (pg_avail s) = num_workers;
  v_attached : length (pg_attached s) = num_workers;
  v_workers : length (pg_workers s) = num_workers;
  v_count : (pg_count s <= num_workers)%nat;
  v_lock : lock_ok s;
  v_pids : forall p, p <> 0 -> (occ p (take (pg_count s) (pg_avail s)) + occ p (pg_attached s) <= 1)%nat;
  v_take : forall i, pg_workers s !! i = Some WTake -> (0 < pg_count s)%nat;
  v_line : forall line lines found, pg_producer s = PLine line lines found -> (pg_count s < num_workers)%nat;
  v_main : forall i pid, pg_workers s !! i = Some (WMain pid) -> pg_attached s !! i = Some pid;
  v_done : pg_done s = true -> pg_signal s = SLock \/ pg_signal s = SBcast \/ pg_signal s = SExit;
  v_fault : pg_fault s = false;
  v_finished : pg_producer s = PFinished -> finished_workers s = true /\ pg_signal s = SExit;
}.

(** Counting occurrences. *)
Lemma occ_app p a b : occ p (a ++ b) = (occ p a + occ p b)%nat.
Proof. unfold occ. by rewrite filter_app, length_app. Qed.

Lemma occ_cons p x l : occ p (x :: l) = ((if decide (x = p) then 1 else 0) + occ p l)%nat.
Proof. unfold occ. rewrite filter_cons. by case_decide. Qed.

Lemma occ_nil p : occ p [] = 0%nat.
Proof. done. Qed.

Lemma occ_insert p l i x y : l !! i = Some y ->
  (occ p (<[i := x]> l) + (if decide (y = p) then 1 else 0) = occ p l + (if decide (x = p) then 1 else 0))%nat.
Proof.
  revert i. induction l as [|z l IH]; intros [|i] Hi; [done|done| |].
  - injection Hi as ->. change (<[0%nat := x]> (y :: l)) with (x :: l). rewrite !occ_cons. lia.
  - change (<[S i := x]> (z :: l)) with (z :: <[i := x]> l). rewrite !occ_cons. specialize (IH i Hi). lia.
Qed.

Lemma occ_take_insert p l n x : (n < length l)%nat -> occ p (take (S n) (<[n := x]> l)) = (occ p (take n l) + (if decide (x = p) then 1 else 0))%nat.
Proof.
  intros Hn. rewrite (take_S_r _ _ x) by by apply list_lookup_insert_eq. rewrite occ_app, take_insert_ge by done. rewrite occ_cons, occ_nil. lia.
Qed.

Lemma occ_take_S p l n x : l !! n = Some x -> occ p (take (S n) l) = (occ p (take n l) + (if decide (x = p) then 1 else 0))%nat.
Proof. intros Hn. rewrite (take_S_r _ _ x Hn), occ_app, occ_cons, occ_nil. lia. Qed.

Lemma occ_0 p l : p ∉ l -> occ p l = 0%nat.
Proof. intros Hp. apply filter_none. by intros x Hx ->. Qed.

Lemma occ_pos p l i : l !! i = Some p -> (0 < occ p l)%nat.
Proof. intros Hi. rewrite <-(take_drop_middle l i p Hi), occ_app, occ_cons, decide_True by done. lia. Qed.

Lemma occ_unique p l i j : occ p l = 1%nat -> l !! i = Some p -> l !! j = Some p -> i = j.
Proof.
  revert i j. induction l as [|x l IH]; intros [|i] [|j] H1 Hi Hj; try done; rewrite occ_cons in H1; cbn in Hi, Hj; simplify_eq.
  - rewrite decide_True in H1 by done. apply occ_pos in Hj. lia.
  - rewrite decide_True in H1 by done. apply occ_pos in Hi. lia.
  - f_equal. apply IH; try done. pose proof (occ_pos _ _ _ Hi). destruct (decide (x = p)); lia.
Qed.

Lemma not_attached pid s : pg_inv s -> is_already_attached num_workers pid s = false ->
  occ pid (take (pg_count s) (pg_avail s)) = 0%nat /\ occ pid (pg_attached s) = 0%nat.
Proof.
  intros Hs Hno. unfold is_already_attached in Hno.
  assert (forall i, (i < num_workers)%nat -> pg_attached s !! i <> Some pid /\ ((i < pg_count s)%nat -> pg_avail s !! i <> Some pid)) as Hi.
  { intros i Hlt. apply not_true_iff_false in Hno.
    split; [intros Ha|intros Hc Ha]; apply Hno, existsb_exists; exists i; (split; [apply in_seq; lia|]); apply orb_true_iff;
      [left|right; apply andb_true_iff; split]; by apply bool_decide_true. }
  split; apply occ_0; intros (i & Hl)%list_elem_of_lookup.
  - apply lookup_take_Some in Hl as [Hl Hlt]. pose proof (v_count s Hs). by apply (proj2 (Hi i ltac:(lia))).
  - pose proof (lookup_lt_Some _ _ _ Hl) as Hlt. rewrite (v_attached s Hs) in Hlt. by apply (proj1 (Hi i Hlt)).
Qed.

Lemma start_inv : pg_inv (start_pgrep num_workers).
Proof.
  assert (forall p, p <> 0 -> occ p (replicate num_workers 0) = 0%nat) as Hocc.
  { intros p Hp. apply occ_0. intros [Hx _]%elem_of_replicate. done. }
  split; pgsimpl; rewrite ?length_replicate; try done; try lia.
  - intros [|i|]; cbn; try done. destruct (replicate num_workers WTop !! i) as [pc|] eqn:E; [|done].
    apply lookup_replicate in E as [-> _]. done.
  - intros p Hp. rewrite Hocc, take_0, occ_nil by done. lia.
  - intros i Hi. apply lookup_replicate in Hi as [? _]. done.
  - intros i pid Hi. apply lookup_replicate in Hi as [? _]. done.
Qed.

(** ** Moves of one thread *)

Lemma others_producer pc s o : others_kept Producer s (set_producer pc (set_owner o s)).
Proof. by intros []. Qed.
Lemma others_signal pc s o : others_kept Signal s (set_signal pc (set_owner o s)).
Proof. by intros []. Qed.
Lemma others_worker i pc s s' : pg_workers s' = <[i := pc]> (pg_workers s) -> pg_producer s' = pg_producer s ->
  pg_signal s' = pg_signal s -> others_kept (Worker i) s s'.
Proof.
  intros Hw Hp Hsig [|j|] Hj; cbn; [by rewrite Hp| |by rewrite Hsig]. by rewrite Hw, list_lookup_insert_ne by congruence.
Qed.

Lemma holding_worker i pc s o : (i < length (pg_workers s))%nat -> holding (set_worker i pc (set_owner o s)) (Worker i) = holds_w pc.
Proof. intros Hi. cbn. by rewrite list_lookup_insert_eq. Qed.

(** How the lock changes with a thread's program counter. *)
Definition lock_move (t : thread) (s : pg) (h' : bool) (o : option thread) : Prop :=
  (o = pg_owner s /\ h' = holding s t) \/ (pg_owner s = None /\ o = Some t /\ h' = true) \/ (holding s t = true /\ o = None /\ h' = false).

Lemma lock_moved t s s' : lock_ok s -> others_kept t s s' -> lock_move t s (holding s' t) (pg_owner s') -> lock_ok s'.
Proof.
  intros Hs Ho [[Hw Hh]|[(Hn & Hw & Hh)|(Ht & Hw & Hh)]].
  - by eapply lock_same.
  - by eapply lock_acquire.
  - by eapply lock_release.
Qed.

Lemma inv_producer s pc o : pg_inv s -> lock_move Producer s (holds_p pc) o ->
  (forall line lines found, pc = PLine line lines found -> (pg_count s < num_workers)%nat) ->
  (pc = PFinished -> finished_workers s = true /\ pg_signal s = SExit) -> pg_inv (set_producer pc (set_owner o s)).
Proof.
  intros [] Hm Hl Hf. split; try done. eapply lock_moved; [done|apply others_producer|done].
Qed.

Lemma inv_signal s pc o : pg_inv s -> pg_signal s <> SExit -> lock_move Signal s (holds_s pc) o ->
  (pg_done s = true -> pc = SLock \/ pc = SBcast \/ pc = SExit) -> pg_inv (set_signal pc (set_owner o s)).
Proof.
  intros [] Hne Hm Hd. split; try done; [|pgsimpl; naive_solver]. eapply lock_moved; [done|apply others_signal|done].
Qed.

Lemma not_finished s i pc : pg_inv s -> pg_workers s !! i = Some pc -> pc <> WExit -> pg_producer s <> PFinished.
Proof.
  intros Hs Hi Hpc Hp. destruct (v_finished s Hs Hp) as [Hf _]. unfold finished_workers in Hf. rewrite forallb_forall in Hf.
  specialize (Hf pc). apply list_elem_of_lookup_2, list_elem_of_In in Hi. by destruct pc; try done; apply Hf in Hi.
Qed.

Lemma inv_worker s i pc0 pc o : pg_inv s -> pg_workers s !! i = Some pc0 -> pc0 <> WExit ->
  lock_move (Worker i) s (holds_w pc) o -> (pc = WTake -> (0 < pg_count s)%nat) -> (forall p, pc = WMain p -> pg_attached s !! i = Some p) ->
  pg_inv (set_worker i pc (set_owner o s)).
Proof.
  intros Hs Hi Hne Hm Ht Hw. pose proof (not_finished s i pc0 Hs Hi Hne) as Hnf. pose proof (lookup_lt_Some _ _ _ Hi) as Hlt. destruct Hs.
  assert (forall j pc1, <[i := pc]> (pg_workers s) !! j = Some pc1 -> (j = i /\ pc1 = pc) \/ pg_workers s !! j = Some pc1) as Hlook.
  { intros j pc1 Hj. destruct (decide (j = i)) as [->|]; [rewrite list_lookup_insert_eq in Hj by done; left; naive_solver|].
    rewrite list_lookup_insert_ne in Hj by done. by right. }
  split; pgsimpl; try done.
  - by rewrite length_insert.
  - eapply lock_moved; [done|by apply (others_worker i pc)|]. by rewrite holding_worker.
  - intros j [[_ ?]|Hj]%Hlook; eauto.
  - intros j pid [[-> ?]|Hj]%Hlook; eauto.
Qed.

(** ** Every step keeps the invariant *)

Lemma set_owner_id s : set_owner (pg_owner s) s = s.
Proof. by destruct s. Qed.

Lemma step_producer_inv s s' : pg_inv s -> step_producer num_workers pgrep_out s = Some s' -> pg_inv s'.
Proof.
  intros Hs. unfold step_producer, lock.
  assert (forall pc, holds_p pc = holds_p (pg_producer s) -> (forall line lines found, pc = PLine line lines found -> (pg_count s < num_workers)%nat) ->
    (pc = PFinished -> finished_workers s = true /\ pg_signal s = SExit) -> pg_inv (set_producer pc s)) as Hmove.
  { intros pc Hh Hl Hf. rewrite <-(set_owner_id s). apply inv_producer; try done. by left. }
  assert (forall pc, pg_owner s = None -> holds_p pc = true -> (forall line lines found, pc <> PLine line lines found) ->
    pg_inv (set_producer pc (set_owner (Some Producer) s))) as Hacq.
  { intros pc Hn Hh Hl. apply inv_producer; [done|right; left; by split_and!|intros; by apply Hl in H|by intros ->]. }
  assert (forall pc, holds_p (pg_producer s) = true -> holds_p pc = false -> pc <> PFinished -> pg_inv (set_producer pc (unlock s))) as Hrel.
  { intros pc Hh Hf Hne. apply inv_producer; [done|right; right; by split_and!|by intros ??? ->|done]. }
  destruct (pg_producer s) as [| | | | |lines found|line lines found|found| | | |] eqn:Hpc; try done.
  - intros [= <-]. apply Hmove; destruct (pg_done s); done.
  - destruct (pg_owner s) eqn:Ho; [done|]. intros [= <-]. by apply Hacq.
  - destruct (pg_done s); [intros [= <-]; by apply Hrel|]. destruct (my_turn _ _ _); intros [= <-]; [by apply Hmove|by apply Hrel].
  - destruct (pg_owner s) eqn:Ho; [done|]. intros [= <-]. by apply Hacq.
  - intros [= <-]. assert (forall pc, pg_inv (set_producer pc s) -> pg_inv (set_producer pc (add_run s))) as Hrun by (by intros pc []; split).
    apply Hrun, Hmove; by destruct (pgrep_out _).
  - case_bool_decide as Hc; [destruct lines|]; intros [= <-]; by apply Hmove.
  - destruct (_ || _); [intros [= <-]; by apply Hmove|]. destruct (is_already_attached _ _ _) eqn:Ha; [intros [= <-]; by apply Hmove|].
    pose proof (v_line s Hs _ _ _ Hpc) as Hc. rewrite (v_avail s Hs), bool_decide_false by lia. intros [= <-].
    destruct (not_attached _ s Hs Ha) as [H1 H2]. pose proof Hs as []. split; pgsimpl; try done; try lia.
    + by rewrite length_insert.
    + eapply lock_moved; [done|apply (others_producer _ (set_queue _ _ s) (pg_owner s))|]. left. cbn. by rewrite Hpc.
    + intros p Hp. rewrite occ_take_insert by lia. specialize (v_pids0 p Hp). case_decide; [subst; lia|lia].
  - destruct (0 <? found); intros [= <-]; [by apply Hmove|by apply Hrel].
  - destruct (pg_owner s) eqn:Ho; [done|]. intros [= <-]. by apply Hacq.
  - intros [= <-]. by apply Hrel.
  - destruct (finished_workers s) eqn:Hf; [|done]. destruct (pg_signal s) eqn:Hsig; try done. intros [= <-]. by apply Hmove.
Qed.

(** Two threads that hold the mutex are one. *)
Lemma one_holder s t t' : pg_inv s -> holding s t = true -> holding s t' = true -> t = t'.
Proof. intros Hs H1 H2. apply (v_lock s Hs) in H1. apply (v_lock s Hs) in H2. congruence. Qed.

Lemma inv_pipe s p : pg_inv s -> pg_inv (set_pipe p s).
Proof. by intros []; split. Qed.

Lemma inv_write_done_pipe s : pg_inv s -> pg_inv (write_done_pipe s).
Proof. intros Hs. unfold write_done_pipe. case_match; [by apply inv_pipe|done]. Qed.

Lemma inv_take s i n pid : pg_inv s -> pg_workers s !! i = Some WTake -> pg_count s = S n -> pg_avail s !! n = Some pid ->
  pg_inv (set_worker i WGot (set_attached (<[i := pid]> (pg_attached s)) (set_queue (pg_avail s) n s))).
Proof.
  intros Hs Hi Hn Ha. assert (holding s (Worker i) = true) as Hh by (cbn; by rewrite Hi).
  pose proof (lookup_lt_Some _ _ _ Hi) as Hlt. pose proof (not_finished s i _ Hs Hi ltac:(done)) as Hnf.
  destruct (lookup_lt_is_Some_2 (pg_attached s) i) as [old Hold]; [rewrite (v_attached s Hs), <-(v_workers s Hs); done|].
  assert (forall j pc, <[i := WGot]> (pg_workers s) !! j = Some pc -> pc <> WGot -> j <> i /\ pg_workers s !! j = Some pc) as Hlook.
  { intros j pc Hj Hne. destruct (decide (j = i)) as [->|]; [rewrite list_lookup_insert_eq in Hj by done; congruence|].
    by rewrite list_lookup_insert_ne in Hj. }
  pose proof (one_holder s) as Hone. pose proof Hs as []. split; pgsimpl; rewrite ?length_insert; try done; try lia.
  - eapply lock_moved; [done|by apply (others_worker i WGot)|]. left. split; [done|].
    rewrite Hh. cbn. by rewrite list_lookup_insert_eq.
  - intros p Hp. specialize (v_pids0 p Hp). rewrite Hn, (occ_take_S _ _ _ _ Ha) in v_pids0. pose proof (occ_insert p _ _ pid _ Hold). lia.
  - intros j Hj. destruct (Hlook j _ Hj) as [Hne Hw]; [done|]. exfalso. apply Hne.
    by injection (Hone (Worker j) (Worker i) Hs ltac:(cbn; by rewrite Hw) Hh).
  - intros j p Hj. destruct (Hlook j _ Hj) as [Hne Hw]; [done|]. rewrite list_lookup_insert_ne by done. by apply v_main0.
Qed.

Lemma inv_reset s i : pg_inv s -> pg_workers s !! i = Some WReset ->
  pg_inv (set_worker i WTop (set_attached (<[i := 0]> (pg_attached s)) s)).
Proof.
  intros Hs Hi. pose proof (lookup_lt_Some _ _ _ Hi) as Hlt.
  destruct (lookup_lt_is_Some_2 (pg_attached s) i) as [old Hold]; [rewrite (v_attached s Hs), <-(v_workers s Hs); done|].
  assert (pg_inv (set_worker i WTop s)) as H1.
  { rewrite <-(set_owner_id s) at 1. eapply inv_worker; try done. left. cbn. by rewrite Hi. }
  destruct H1. split; pgsimpl; rewrite ?length_insert in *; try done.
  - intros p Hp. specialize (v_pids0 p Hp). pose proof (occ_insert p _ _ 0 _ Hold) as Ho. rewrite (decide_False (P := 0 = p)) in Ho by done.
    destruct (decide (old = p)); lia.
  - intros j p Hj. destruct (decide (j = i)) as [->|]; [by rewrite list_lookup_insert_eq in Hj|].
    rewrite list_lookup_insert_ne by done. by apply v_main0.
Qed.

Lemma step_worker_inv s i limit s' : pg_inv s -> step_worker num_workers i limit s = Some s' -> pg_inv s'.
Proof.
  intros Hs. unfold step_worker, lock. destruct (pg_workers s !! i) as [pc|] eqn:Hi; [|done].
  assert (forall s1 pc1, pg_inv s1 -> pg_workers s1 !! i = Some pc -> pc <> WExit -> holds_w pc1 = holds_w pc -> (pc1 = WTake -> (0 < pg_count s1)%nat) ->
    (forall p, pc1 = WMain p -> pg_attached s1 !! i = Some p) -> pg_inv (set_worker i pc1 s1)) as Hmove.
  { intros s1 pc1 Hs1 Hi1 Hne Hh Ht Hm. rewrite <-(set_owner_id s1). eapply inv_worker; try done. left. cbn. by rewrite Hi1. }
  assert (forall pc1, pg_owner s = None -> holds_w pc1 = true -> pc <> WExit -> pc1 = WTest -> pg_inv (set_worker i pc1 (set_owner (Some (Worker i)) s))) as Hacq.
  { intros pc1 Hn Hh Hne ->. eapply inv_worker; try done. right. left. done. }
  assert (forall pc1, holds_w pc = true -> holds_w pc1 = false -> (forall p, pc1 <> WMain p) -> pg_inv (set_worker i pc1 (unlock s))) as Hrel.
  { intros pc1 Hh Hf Hm. eapply inv_worker; try done; [by intros ->|right; right; cbn; by rewrite Hi|by intros ->|]. intros p Hp. by apply Hm in Hp. }
  destruct pc as [| | | | | | |pid| |]; try done.
  - intros [= <-]. apply Hmove; try done; by destruct (pg_done s).
  - destruct (pg_owner s) eqn:Ho; [done|]. intros [= <-]. by apply Hacq.
  - destruct (pg_done s); [intros [= <-]; by apply Hrel|]. unfold my_turn. cbn [andb].
    case_bool_decide; intros [= <-]; [by apply Hmove|by apply Hrel].
  - destruct (pg_owner s) eqn:Ho; [done|]. intros [= <-]. by apply Hacq.
  - pose proof (v_take s Hs i Hi). pose proof (v_count s Hs). destruct (pg_count s) as [|n] eqn:Hn; [lia|].
    destruct (lookup_lt_is_Some_2 (pg_avail s) n) as [pid Ha]; [rewrite (v_avail s Hs); lia|]. rewrite Ha. intros [= <-]. by apply inv_take.
  - intros [= <-]. by apply Hrel.
  - destruct (lookup_lt_is_Some_2 (pg_attached s) i) as [pid Ha].
    { rewrite (v_attached s Hs), <-(v_workers s Hs). by eapply lookup_lt_Some. }
    rewrite Ha. intros [= <-]. apply Hmove; try done. by intros p [= ->].
  - intros [= <-]. destruct limit; [|by apply Hmove]. apply Hmove; try done; [by apply inv_write_done_pipe|].
    unfold write_done_pipe. by case_match.
  - intros [= <-]. by apply inv_reset.
Qed.

Lemma step_signal_inv s s' : pg_inv s -> step_signal s = Some s' -> pg_inv s'.
Proof.
  intros Hs. unfold step_signal, lock. pose proof (v_done s Hs) as Hd.
  assert (forall s1 pc, pg_inv s1 -> pg_signal s1 = pg_signal s -> pg_signal s <> SExit -> holds_s pc = holds_s (pg_signal s) ->
    (pg_done s1 = true -> pc = SLock \/ pc = SBcast \/ pc = SExit) -> pg_inv (set_signal pc s1)) as Hmove.
  { intros s1 pc Hs1 Heq Hne Hh Hdone. rewrite <-(set_owner_id s1). apply inv_signal; try done; [by rewrite Heq|]. left. cbn. by rewrite Heq. }
  destruct (pg_signal s) eqn:Hsig; try done.
  - intros [= <-]. apply Hmove; try done; [by apply inv_pipe|]. pgsimpl. naive_solver.
  - destruct (pg_pipe s) as [[|n]|]; try done. intros [= <-]. apply Hmove; try done. naive_solver.
  - destruct (pg_pipe s) as [[|n]|]; try done. intros [= <-]. apply Hmove; try done; [by apply inv_pipe|]. pgsimpl. naive_solver.
  - intros [= <-]. assert (pg_inv (set_signal SLock s)) as [] by (apply Hmove; try done; naive_solver). split; try done. by left.
  - destruct (pg_owner s) eqn:Ho; [done|]. intros [= <-]. apply inv_signal; try done; [by rewrite Hsig|right; by left|naive_solver].
  - intros [= <-]. apply inv_signal; try done; [by rewrite Hsig| |naive_solver]. right. right. cbn. by rewrite Hsig.
Qed.

Lemma thread_step_inv s s' : pg_inv s -> thread_step num_workers pgrep_out s s' -> pg_inv s'.
Proof. intros Hs [? H|i l ? H|? H]; [by eapply step_producer_inv|by eapply step_worker_inv|by eapply step_signal_inv]. Qed.

Lemma reachable_inv s : reachable num_workers pgrep_out s -> pg_inv s.
Proof.
  unfold reachable. generalize start_inv. generalize (start_pgrep num_workers). induction 2 as [|s1 s2 s3 Hstep _ IH]; [done|].
  apply IH. destruct Hstep; [by eapply thread_step_inv|by apply inv_write_done_pipe].
Qed.

(** ** The end *)

(** How many steps a thread can still take once [done] is set. *)
Definition left_p (runs : nat) (pc : producer_pc) : nat :=
  match pc with
  | PFinished => 0
  | PJoin => 1
  | PTop | PTest => 2
  | PLock | PWait | PUnlock => 3
  | PSleep => 4
  | PFound _ => 5
  | PScan lines _ => 6 + 2 * length lines
  | PLine _ lines _ => 7 + 2 * length lines
  | PPopen => 7 + 2 * (match pgrep_out runs with Some lines => length lines | None => 0 end)
  end.
Definition left_w (pc : worker_pc) : nat :=
  match pc with
  | WExit => 0 | WTop | WTest => 1 | WLock | WWait | WReset => 2 | WMain _ => 3 | WCall => 4 | WGot => 5 | WTake => 6
  end.
Definition left_s (pc : signal_pc) : nat :=
  match pc with SExit => 0 | SBcast => 1 | SLock => 2 | SDone => 3 | SRead => 4 | SSelect => 5 | SInit => 6 end.

Definition steps_left (s : pg) : nat := left_p (pg_runs s) (pg_producer s) + sum_list_with left_w (pg_workers s) + left_s (pg_signal s).

Lemma sum_insert (l : list worker_pc) i pc pc' : l !! i = Some pc -> (left_w pc' < left_w pc)%nat ->
  (sum_list_with left_w (<[i := pc']> l) < sum_list_with left_w l)%nat.
Proof.
  revert i. induction l as [|x l IH]; intros [|i] Hi Hlt; [done|done| |].
  - injection Hi as ->. change (<[0%nat := pc']> (pc :: l)) with (pc' :: l). cbn [sum_list_with]. lia.
  - change (<[S i := pc']> (x :: l)) with (x :: <[i := pc']> l). cbn [sum_list_with]. specialize (IH i Hi Hlt). lia.
Qed.

Lemma producer_left s s' : pg_inv s -> pg_done s = true -> step_producer num_workers pgrep_out s = Some s' ->
  pg_done s' = true /\ pg_workers s' = pg_workers s /\ pg_signal s' = pg_signal s
  /\ (left_p (pg_runs s') (pg_producer s') < left_p (pg_runs s) (pg_producer s))%nat.
Proof.
  intros Hs Hd. unfold step_producer, lock. rewrite Hd.
  destruct (pg_producer s) as [| | | | |lines found|line lines found|found| | | |] eqn:Hpc; try done.
  - intros [= <-]. by split_and!; try (cbn; lia).
  - destruct (pg_owner s); [done|]. intros [= <-]. by split_and!; try (cbn; lia).
  - intros [= <-]. by split_and!; try (cbn; lia).
  - destruct (pg_owner s); [done|]. intros [= <-]. by split_and!; try (cbn; lia).
  - intros [= <-]. split_and!; try done. pgsimpl. cbn [left_p]. destruct (pgrep_out (pg_runs s)); cbn [left_p]; lia.
  - case_bool_decide; [destruct lines|]; intros [= <-]; split_and!; try done; pgsimpl; cbn [left_p length]; lia.
  - pose proof (v_line s Hs _ _ _ Hpc). rewrite (v_avail s Hs), (bool_decide_false (num_workers <= _)%nat) by lia.
    destruct (_ || _); [|destruct (is_already_attached _ _ _)]; intros [= <-]; split_and!; try done; pgsimpl; cbn [left_p]; lia.
  - destruct (0 <? found); intros [= <-]; by split_and!; try (cbn; lia).
  - destruct (pg_owner s); [done|]. intros [= <-]. by split_and!; try (cbn; lia).
  - intros [= <-]. by split_and!; try (cbn; lia).
  - destruct (_ && _); [|done]. intros [= <-]. by split_and!; try (cbn; lia).
Qed.

Ltac worker_moves pc pc' := split_and!; try done; exists pc, pc'; split_and!; [done|done|cbn; lia].

Lemma worker_left s i limit s' : pg_inv s -> pg_done s = true -> step_worker num_workers i limit s = Some s' ->
  pg_done s' = true /\ pg_producer s' = pg_producer s /\ pg_runs s' = pg_runs s /\ pg_signal s' = pg_signal s
  /\ exists pc pc', pg_workers s !! i = Some pc /\ pg_workers s' = <[i := pc']> (pg_workers s) /\ (left_w pc' < left_w pc)%nat.
Proof.
  intros Hs Hd. unfold step_worker, lock. rewrite Hd. destruct (pg_workers s !! i) as [pc|] eqn:Hi; [|done].
  destruct pc as [| | | | | | |pid| |]; try done.
  - intros [= <-]. worker_moves WTop WExit.
  - destruct (pg_owner s); [done|]. intros [= <-]. worker_moves WLock WTest.
  - intros [= <-]. worker_moves WTest WExit.
  - destruct (pg_owner s); [done|]. intros [= <-]. worker_moves WWait WTest.
  - pose proof (v_take s Hs i Hi). pose proof (v_count s Hs). destruct (pg_count s) as [|n] eqn:Hn; [lia|].
    destruct (lookup_lt_is_Some_2 (pg_avail s) n) as [pid Ha]; [rewrite (v_avail s Hs); lia|]. rewrite Ha. intros [= <-].
    worker_moves WTake WGot.
  - intros [= <-]. worker_moves WGot WCall.
  - destruct (lookup_lt_is_Some_2 (pg_attached s) i) as [pid Ha].
    { rewrite (v_attached s Hs), <-(v_workers s Hs). by eapply lookup_lt_Some. }
    rewrite Ha. intros [= <-]. worker_moves WCall (WMain pid).
  - intros [= <-]. assert (forall b : bool, pg_done (if b then write_done_pipe s else s) = true
      /\ pg_producer (if b then write_done_pipe s else s) = pg_producer s /\ pg_runs (if b then write_done_pipe s else s) = pg_runs s
      /\ pg_signal (if b then write_done_pipe s else s) = pg_signal s
      /\ pg_workers (if b then write_done_pipe s else s) = pg_workers s) as Hb.
    { intros []; [|done]. unfold write_done_pipe. by case_match. }
    destruct (Hb limit) as (H1 & H2 & H3 & H4 & H5). split_and!; try done. exists (WMain pid), WReset.
    split_and!; [done|by cbn; rewrite H5|cbn; lia].
  - intros [= <-]. worker_moves WReset WTop.
Qed.

Lemma step_left s s' : pg_inv s -> pg_done s = true -> thread_step num_workers pgrep_out s s' ->
  pg_done s' = true /\ (steps_left s' < steps_left s)%nat.
Proof.
  intros Hs Hd [s1 Hp|i limit s1 Hw|s1 Hsig]; unfold steps_left.
  - destruct (producer_left s s1 Hs Hd Hp) as (H1 & -> & -> & H2). split; [done|lia].
  - destruct (worker_left s i limit s1 Hs Hd Hw) as (H1 & -> & -> & -> & pc & pc' & Hi & -> & Hlt). split; [done|].
    pose proof (sum_insert _ _ _ _ Hi Hlt). lia.
  - unfold step_signal, lock in Hsig. destruct (v_done s Hs Hd) as [E|[E|E]]; rewrite E in Hsig |- *.
    + destruct (pg_owner s); [done|]. injection Hsig as <-. split; [done|]. cbn. lia.
    + injection Hsig as <-. split; [done|]. cbn. lia.
    + done.
Qed.

Lemma forallb_false {A} (f : A -> bool) l : forallb f l = false -> exists i x, l !! i = Some x /\ f x = false.
Proof.
  induction l as [|x l IH]; [done|]. cbn. destruct (f x) eqn:Hx; [|intros _; by exists 0%nat, x].
  intros (i & y & Hi & Hy)%IH. by exists (S i), y.
Qed.

(** As long as a thread is left, some thread can go on. *)
Lemma progress s : pg_inv s -> pg_done s = true -> pg_producer s <> PFinished -> exists s', thread_step num_workers pgrep_out s s'.
Proof.
  intros Hs Hd Hnf. destruct (pg_owner s) as [[|i|]|] eqn:Ho.
  - pose proof (proj1 (v_lock s Hs Producer) Ho) as Hh. cbn in Hh.
    assert (exists s', step_producer num_workers pgrep_out s = Some s') as [s' H]; [|by eexists; apply ts_producer].
    unfold step_producer. destruct (pg_producer s); try done; repeat case_match; eauto.
  - pose proof (proj1 (v_lock s Hs (Worker i)) Ho) as Hh. cbn in Hh. destruct (pg_workers s !! i) as [pc|] eqn:Hi; [|done].
    assert (exists s', step_worker num_workers i false s = Some s') as [s' H]; [|by eexists; eapply ts_worker].
    unfold step_worker. rewrite Hi. destruct pc; try done; repeat case_match; eauto.
  - pose proof (proj1 (v_lock s Hs Signal) Ho) as Hh. cbn in Hh. destruct (pg_signal s) eqn:E; try done.
    eexists. apply ts_signal. unfold step_signal. by rewrite E.
  - destruct (finished_workers s) eqn:Hf.
    + destruct (v_done s Hs Hd) as [E|[E|E]].
      * eexists. apply ts_signal. unfold step_signal, lock. by rewrite E, Ho.
      * eexists. apply ts_signal. unfold step_signal. by rewrite E.
      * assert (exists s', step_producer num_workers pgrep_out s = Some s') as [s' H]; [|by eexists; apply ts_producer].
        unfold step_producer, lock. rewrite Ho, Hf, E. destruct (pg_producer s); try done; repeat case_match; eauto; done.
    + destruct (forallb_false _ _ Hf) as (i & pc & Hi & Hpc).
      assert (exists s', step_worker num_workers i false s = Some s') as [s' H]; [|by eexists; eapply ts_worker].
      unfold step_worker, lock. rewrite Hi, Ho. destruct pc; try done; repeat case_match; eauto.
Qed.

Lemma stop s s' k : pg_inv s -> pg_done s = true -> nsteps (thread_step num_workers pgrep_out) k s s' ->
  pg_inv s' /\ pg_done s' = true /\ (k + steps_left s' <= steps_left s)%nat.
Proof.
  intros Hs Hd Hn. revert Hs Hd. induction Hn as [|k s1 s2 s3 Hstep _ IH]; intros Hs Hd; [done|].
  destruct (step_left s1 s2 Hs Hd Hstep) as [Hd2 Hlt]. destruct (IH (thread_step_inv _ _ Hs Hstep) Hd2) as (H1 & H2 & H3). split_and!; [done..|lia].
Qed.

End inv.

Lemma all_exited s : finished_workers s = true -> Forall (fun pc => pc = WExit) (pg_workers s).
Proof.
  unfold finished_workers. rewrite forallb_forall. intros Hw. apply Forall_forall. intros pc Hpc%list_elem_of_In.
  by specialize (Hw pc Hpc); destruct pc.
Qed.

(** ** Claims *)

(** C26. Multi-process mode: in every reachable state, whatever the scheduler
    does, whenever signals arrive and whatever [pgrep] prints, at most one thread
    is inside the critical sections, the queue holds at most [opt_num_workers]
    pids and no array is indexed out of range; no process is traced by two
    workers at once, nor queued while it is traced; and the arrays are freed
    only when all workers are gone. *)
Theorem pgrep_safe n pgrep_out s :
  reachable n pgrep_out s ->
  pg_fault s = false /\ (pg_count s <= n)%nat
  /\ (forall t t', holding s t = true -> holding s t' = true -> t = t')
  /\ (forall i j pid, pg_workers s !! i = Some (WMain pid) -> pg_workers s !! j = Some (WMain pid) -> pid <> 0 -> i = j)
  /\ (forall i pid, pg_workers s !! i = Some (WMain pid) -> pid <> 0 -> pid ∉ take (pg_count s) (pg_avail s))
  /\ (pg_producer s = PFinished -> Forall (fun pc => pc = WExit) (pg_workers s)).
Proof.
  intros Hr. pose proof (reachable_inv n pgrep_out s Hr) as Hs.
  assert (forall i pid, pg_workers s !! i = Some (WMain pid) -> pid <> 0 -> occ pid (pg_attached s) = 1%nat
    /\ occ pid (take (pg_count s) (pg_avail s)) = 0%nat) as Hocc.
  { intros i pid Hi Hp. pose proof (v_pids _ s Hs pid Hp). pose proof (occ_pos pid _ _ (v_main _ s Hs i pid Hi)). lia. }
  split_and!; [apply Hs|apply Hs| | | |].
  - intros t t'. by apply (one_holder n).
  - intros i j pid Hi Hj Hp. eapply occ_unique; [apply (Hocc i pid Hi Hp)|by apply (v_main _ s Hs)..].
  - intros i pid Hi Hp Hin. destruct (Hocc i pid Hi Hp) as [_ H0]. apply list_elem_of_lookup in Hin as [j Hj]. apply occ_pos in Hj. lia.
  - intros Hf. destruct (v_finished _ s Hs Hf) as [Hw _]. by apply all_exited.
Qed.

(** C27. An orderly end: once [done] is set, the threads can take only a
    bounded number of further steps, and they can only come to a stop in the
    state where every worker and the signal thread have returned and
    [main_pgrep] has joined them: no deadlock on the mutex, the condition
    variables or [pthread_join].  (A worker inside [main_pid] returns from it
    once [done] is set.) *)
Theorem pgrep_shutdown n pgrep_out s :
  reachable n pgrep_out s -> pg_done s = true ->
  exists bound, forall k s', nsteps (thread_step n pgrep_out) k s s' ->
    (k <= bound)%nat
    /\ ((forall s2, ~ thread_step n pgrep_out s' s2) ->
        pg_producer s' = PFinished /\ Forall (fun pc => pc = WExit) (pg_workers s') /\ pg_signal s' = SExit).
Proof.
  intros Hr Hd. pose proof (reachable_inv n pgrep_out s Hr) as Hs. exists (steps_left pgrep_out s). intros k s' Hn.
  destruct (stop n pgrep_out s s' k Hs Hd Hn) as (Hs' & Hd' & Hle). split; [lia|]. intros Hstuck.
  assert (pg_producer s' = PFinished) as Hf.
  { assert (Decision (pg_producer s' = PFinished)) as [|Hne] by (destruct (pg_producer s'); (by left) || (by right)); [done|].
    destruct (progress n pgrep_out s' Hs' Hd' Hne) as [s2 H2]. by apply Hstuck in H2. }
  destruct (v_finished _ s' Hs' Hf) as [Hw Hsig]. split_and!; try done. by apply all_exited.
Qed.

(** ** Witnesses *)

(** A schedule: who goes next. *)
Inductive choice := GoProducer | GoWorker (i : nat) | GoSignal | GoHandler.

Definition follow (n : nat) (out : nat -> option (list bytes)) (s : pg) (c : choice) : option pg :=
  match c with
  | GoProducer => step_producer n out s
  | GoWorker i => step_worker n i false s
  | GoSignal => step_signal s
  | GoHandler => Some (write_done_pipe s)
  end.

Fixpoint follow_all (n : nat) (out : nat -> option (list bytes)) (s : pg) (cs : list choice) : option pg :=
  match cs with
  | [] => Some s
  | c :: cs => s' ← follow n out s c; follow_all n out s' cs
  end.

Lemma follow_step n out s c s' : follow n out s c = Some s' -> step n out s s'.
Proof.
  destruct c; cbn; intros H; [..|injection H as <-; apply step_handle_signal]; apply step_thread;
    [by apply ts_producer|by eapply ts_worker|by apply ts_signal].
Qed.

Lemma follow_reachable n out cs s s' : follow_all n out s cs = Some s' -> rtc (step n out) s s'.
Proof.
  revert s. induction cs as [|c cs IH]; intros s; cbn; [by intros [= ->]|].
  destruct (follow n out s c) as [s1|] eqn:H1; [|done]. cbn. intros H2. apply rtc_l with s1; [|by apply IH]. by eapply follow_step.
Qed.

(** [pgrep] finds process 41 every time; worker 0 takes it. *)
Definition demo_out (k : nat) : option (list bytes) := Some [cs "41" ++ [NL]].
Definition demo_schedule : list choice := replicate 9 GoProducer ++ replicate 6 (GoWorker 0).
Definition demo_state : pg := default (start_pgrep 2) (follow_all 2 demo_out (start_pgrep 2) demo_schedule).

Lemma pgrep_safe_witness : pg_workers demo_state !! 0%nat = Some (WMain 41) /\ pg_fault demo_state = false
  /\ 41 ∉ take (pg_count demo_state) (pg_avail demo_state).
Proof.
  destruct (pgrep_safe 2 demo_out demo_state) as (Hf & _ & _ & _ & Hq & _).
  - apply (follow_reachable 2 demo_out demo_schedule). vm_compute. reflexivity.
  - split; [vm_compute; reflexivity|]. split; [exact Hf|]. apply (Hq 0%nat); [vm_compute; reflexivity|done].
Defined.

(** Then a signal arrives. *)
Definition demo_stopping : list choice := demo_schedule ++ [GoSignal; GoHandler; GoSignal; GoSignal; GoSignal].
Definition stopping_state : pg := default (start_pgrep 2) (follow_all 2 demo_out (start_pgrep 2) demo_stopping).

Lemma pgrep_shutdown_witness : pg_done stopping_state = true
  /\ exists bound, forall k s', nsteps (thread_step 2 demo_out) k stopping_state s' -> (k <= bound)%nat.
Proof.
  assert (pg_done stopping_state = true) as Hd by (vm_compute; reflexivity). split; [exact Hd|].
  destruct (pgrep_shutdown 2 demo_out stopping_state) as (b & Hb).
  - apply (follow_reachable 2 demo_out demo_stopping). vm_compute. reflexivity.
  - exact Hd.
  - exists b. intros k s' Hn. apply (Hb k s' Hn).
Defined.
