(* ===== verification/PgrepFair.v ===== *)
(** * PgrepFair: the multi-process mode ends when it is told to

    Infinite runs of the threads under a fair scheduler: a thread that can go
    on is not passed over for ever.  A worker inside [main_pid] need only return
    once [done] is set.  The whole mode, from a signal to the end, is then a
    liveness theorem; [main_pgrep] around it is modelled here. *)
From S2P Require Import Prelude CLib Context Pgrep PgrepTheorems.

(** ** main_pgrep *)

(** [alarm(PHPSPY_MAX(1, opt_time_limit_ms / 1000))], in seconds. *)
Definition alarm_after (opt_time_limit_ms : Z) : option Z :=
  if 0 <? opt_time_limit_ms then Some (u32 (Z.max 1 (Z.quot opt_time_limit_ms 1000))) else None.

(** Exit 1 without workers; otherwise the threads start, with an alarm. *)
Inductive pgrep_start := PgrepExit (status : Z) | PgrepRuns (alarm : option Z) (s : pg).

Definition main_pgrep (opt_num_workers opt_time_limit_ms : Z) : pgrep_start :=
  if opt_num_workers <? 1 then PgrepExit 1
  else PgrepRuns (alarm_after opt_time_limit_ms) (start_pgrep (Z.to_nat opt_num_workers)).

Lemma alarm_after_pos ms : 0 < ms < 2 ^ 32 * 1000 -> exists secs, alarm_after ms = Some secs /\ 1 <= secs.
Proof.
  intros Hms. unfold alarm_after. destruct (Z.ltb_spec 0 ms); [|lia]. eexists. split; [done|].
  rewrite Z.quot_div_nonneg by lia. assert (ms / 1000 < 2 ^ 32) by (apply Z.div_lt_upper_bound; lia).
  unfold wrap. rewrite Z.mod_small; lia.
Qed.

(** ** Fair runs *)

Section fair.
Context (num_workers : nat) (pgrep_out : nat -> option (list bytes)).
Abbreviation step := (step num_workers pgrep_out).

(** Thread [t] takes a step. *)
Definition taken (t : thread) (s s' : pg) : Prop :=
  match t with
  | Producer => step_producer num_workers pgrep_out s = Some s'
  | Worker i => exists limit, step_worker num_workers i limit s = Some s'
  | Signal => step_signal s = Some s'
  end.

Definition in_main (s : pg) (t : thread) : bool :=
  match t with
  | Worker i => match pg_workers s !! i with Some (WMain _) => true | _ => false end
  | _ => false
  end.

(** [t] can go on, and is not in a [main_pid] that nothing has told to stop. *)
Definition due (t : thread) (s : pg) : Prop :=
  (exists s', taken t s s') /\ (pg_done s = true \/ in_main s t = false).

Record fair_run (run : nat -> pg) : Prop := {
  fr_start : run 0%nat = start_pgrep num_workers;
  fr_step : forall i, step (run i) (run (S i));
  fr_fair : forall t i, due t (run i) -> exists j, (i <= j)%nat /\ (~ due t (run j) \/ taken t (run j) (run (S j)));
}.

(** ** The signal thread *)

Definition rank (pc : signal_pc) : nat :=
  match pc with SInit => 0 | SSelect => 1 | SRead => 2 | SDone => 3 | SLock => 4 | SBcast => 5 | SExit => 6 end.

(** The pipe has been written to, and the signal thread is on its way. *)
Definition told (s : pg) : Prop :=
  match pg_signal s with
  | SInit => False
  | SSelect | SRead => exists k, pg_pipe s = Some (S k)
  | SDone => True
  | SLock | SBcast | SExit => pg_done s = true
  end.

(** What the other threads leave alone. *)
Definition signal_kept (s s' : pg) : Prop :=
  pg_signal s' = pg_signal s /\ pg_done s' = pg_done s /\ (pg_pipe s' = pg_pipe s \/ s' = write_done_pipe s
    \/ exists n, pg_pipe s = Some n /\ pg_pipe s' = Some (S n)).

Lemma producer_keeps s s' : step_producer num_workers pgrep_out s = Some s' -> signal_kept s s'.
Proof. unfold step_producer, lock. intros H. repeat case_match; simplify_eq; by split_and!; auto. Qed.

Lemma worker_keeps i limit s s' : step_worker num_workers i limit s = Some s' -> signal_kept s s'.
Proof.
  unfold step_worker, lock. intros H. repeat case_match; simplify_eq; try by split_and!; auto.
  unfold write_done_pipe. destruct (pg_pipe s) as [n|] eqn:Hp; split_and!; cbn; try done; [|by auto]. right. right. by exists n.
Qed.

Lemma handler_keeps s : signal_kept s (write_done_pipe s).
Proof. unfold signal_kept; unfold write_done_pipe at 1 2; destruct (pg_pipe s); auto. Qed.

Lemma told_kept s s' : signal_kept s s' -> told s -> told s'.
Proof.
  intros (Hsig & Hd & Hp). unfold told. rewrite Hsig, Hd. destruct (pg_signal s); try done; intros [k Hk];
    (destruct Hp as [->|[->|(n & Hn & ->)]]; [by exists k| |by exists n]); unfold write_done_pipe; rewrite Hk; by eexists.
Qed.

(** A step of the signal thread leads it on. *)
Lemma signal_moves s s' : step_signal s = Some s' ->
  (rank (pg_signal s) < rank (pg_signal s'))%nat /\ (told s -> told s').
Proof.
  unfold step_signal, lock, told. intros H.
  destruct (pg_signal s); try done; repeat case_match; simplify_eq; cbn; (split; [lia|]); naive_solver.
Qed.

Lemma step_told s s' : step s s' -> told s -> told s' /\ (rank (pg_signal s) <= rank (pg_signal s'))%nat.
Proof.
  intros [s1 [s2 H|i l s2 H|s2 H]|] Ht.
  - apply producer_keeps in H as Hk. split; [by eapply told_kept|]. destruct Hk as (-> & _). lia.
  - apply worker_keeps in H as Hk. split; [by eapply told_kept|]. destruct Hk as (-> & _). lia.
  - destruct (signal_moves _ _ H) as [Hlt Hn]. split; [by apply Hn|lia].
  - pose proof (handler_keeps s) as Hk.
    split; [by eapply told_kept|]. destruct Hk as (-> & _). lia.
Qed.

(** On its way to set [done], it can always go on. *)
Lemma told_due s : told s -> pg_done s = false -> due Signal s.
Proof.
  unfold told, due. intros Ht Hd. split; [|by right]. cbn. unfold step_signal.
  destruct (pg_signal s); try done; try (by eexists); try congruence; destruct Ht as [k ->]; by eexists.
Qed.

(** There is no pipe before [SSelect], and [done] is set after [SDone]. *)
Definition signal_inv (s : pg) : Prop :=
  match pg_signal s with
  | SInit => pg_pipe s = None
  | SSelect | SRead | SDone => True
  | SLock | SBcast | SExit => pg_done s = true
  end.

Lemma signal_inv_kept s s' : signal_kept s s' -> signal_inv s -> signal_inv s'.
Proof.
  intros (Hsig & Hd & Hp). unfold signal_inv. rewrite Hsig, Hd. destruct (pg_signal s); try done. intros Hk.
  destruct Hp as [->|[->|(n & Hn & ->)]]; [done| |congruence]. unfold write_done_pipe. by rewrite Hk.
Qed.

Lemma signal_inv_step s s' : step s s' -> signal_inv s -> signal_inv s'.
Proof.
  intros [s1 [s2 H%producer_keeps|i l s2 H%worker_keeps|s2 H]|]; [by apply signal_inv_kept..| |apply signal_inv_kept, handler_keeps].
  unfold step_signal, lock, signal_inv in *. destruct (pg_signal s); try done; repeat case_match; simplify_eq; done.
Qed.

Lemma reachable_told s k : reachable num_workers pgrep_out s -> pg_pipe s = Some (S k) -> told s.
Proof.
  intros Hr. assert (signal_inv s) as Hi.
  { assert (signal_inv (start_pgrep num_workers)) as Hi by done. revert Hi. unfold reachable in Hr.
    induction Hr as [|s1 s2 s3 Hs _ IH]; [done|]. intros Hi. by eapply IH, signal_inv_step. }
  unfold signal_inv, told in *. intros Hk. destruct (pg_signal s); try done; [congruence|by exists k..].
Qed.

Context (run : nat -> pg) (Hrun : fair_run run).

Lemma run_reachable i : reachable num_workers pgrep_out (run i).
Proof.
  unfold reachable. rewrite <-(fr_start _ Hrun). induction i as [|i IH]; [done|]. eapply rtc_r; [exact IH|apply Hrun].
Qed.

Lemma run_told i j : (i <= j)%nat -> told (run i) -> told (run j) /\ (rank (pg_signal (run i)) <= rank (pg_signal (run j)))%nat.
Proof.
  induction 1 as [|j Hij IH]; intros Ht; [done|]. destruct (IH Ht) as [H1 H2].
  destruct (step_told _ _ (fr_step _ Hrun j) H1). split; [done|lia].
Qed.

Lemma sets_done m i : told (run i) -> (4 - rank (pg_signal (run i)) <= m)%nat -> exists j, (i <= j)%nat /\ pg_done (run j) = true.
Proof.
  revert i. induction m as [|m IH]; intros i Ht Hm.
  - exists i. split; [done|]. unfold told in Ht. destruct (pg_signal (run i)); cbn in Hm; done || lia.
  - destruct (pg_done (run i)) eqn:Hd; [by exists i|].
    assert (exists j, (i <= j)%nat /\ (rank (pg_signal (run i)) < rank (pg_signal (run j)))%nat \/ (i <= j)%nat /\ pg_done (run j) = true)
      as (j & [[Hij Hlt]|Hj]).
    { destruct (fr_fair _ Hrun Signal i (told_due _ Ht Hd)) as (j & Hij & Hj). destruct (run_told i j Hij Ht) as [Htj Hle].
      destruct Hj as [Hn|Hs].
      - exists j. right. split; [done|]. destruct (pg_done (run j)) eqn:Hdj; [done|]. by destruct Hn; apply told_due.
      - exists (S j). left. destruct (signal_moves _ _ Hs). split; lia. }
    + destruct (IH j) as (k & Hk & Hdk); [by apply (run_told i)|lia|]. exists k. split; [lia|done].
    + by exists j.
Qed.

(** ** After [done] *)

Lemma step_left_run i : pg_done (run i) = true -> pg_done (run (S i)) = true
  /\ ((steps_left pgrep_out (run (S i)) < steps_left pgrep_out (run i))%nat
      \/ run (S i) = write_done_pipe (run i)).
Proof.
  intros Hd. pose proof (reachable_inv _ _ _ (run_reachable i)) as Hi. destruct (fr_step _ Hrun i) as [s' Hs|].
  - destruct (step_left num_workers pgrep_out _ _ Hi Hd Hs). auto.
  - split; [|by right]. unfold write_done_pipe. by case_match.
Qed.

Lemma write_done_pipe_left s : steps_left pgrep_out (write_done_pipe s) = steps_left pgrep_out s.
Proof. unfold write_done_pipe. by case_match. Qed.

(** A signal takes no thread's turn away. *)
Lemma write_done_pipe_due t s : due t s -> due t (write_done_pipe s).
Proof.
  unfold due, write_done_pipe. destruct (pg_pipe s) as [n|] eqn:Hp; [|done]. intros [(s' & Hs') Hm]. split; [|by destruct t].
  destruct t as [|i|]; cbn in *.
  - destruct s. unfold step_producer, lock, is_already_attached, finished_workers in *. cbn in *.
    repeat case_match; simplify_eq; by eexists.
  - destruct Hs' as [limit Hs']. destruct s. unfold step_worker, lock in *. cbn in *.
    repeat case_match; simplify_eq; by eexists _, true.
  - destruct s. unfold step_signal, lock in *. cbn in *. repeat case_match; simplify_eq; by eexists.
Qed.


(** Until the number of steps left goes down, whoever was due stays due. *)
Lemma due_until i j : (i <= j)%nat -> pg_done (run i) = true -> pg_done (run j) = true
  /\ ((steps_left pgrep_out (run j) < steps_left pgrep_out (run i))%nat
      \/ steps_left pgrep_out (run j) = steps_left pgrep_out (run i) /\ forall t, due t (run i) -> due t (run j)).
Proof.
  induction 1 as [|j Hij IH]; intros Hd; [split; auto|]. destruct (IH Hd) as [Hdj Hj].
  destruct (step_left_run j Hdj) as [Hd' [Hlt|He]]; (split; [done|]).
  - left. destruct Hj as [?|[Heq _]]; lia.
  - rewrite He, write_done_pipe_left. destruct Hj as [?|[Heq Hdue]]; [by left|right]. split; [done|].
    intros t Ht. by apply write_done_pipe_due, Hdue.
Qed.

Lemma thread_step_taken s s' : thread_step num_workers pgrep_out s s' -> exists t, taken t s s'.
Proof. intros [? H|i l ? H|? H]; [by exists Producer|by exists (Worker i), l|by exists Signal]. Qed.

Lemma taken_thread_step t s s' : taken t s s' -> thread_step num_workers pgrep_out s s'.
Proof. destruct t; cbn; [by apply ts_producer|intros [l H]; by eapply ts_worker|by apply ts_signal]. Qed.

Lemma fewer_left i : pg_done (run i) = true -> pg_producer (run i) <> PFinished ->
  exists j, (i <= j)%nat /\ (steps_left pgrep_out (run j) < steps_left pgrep_out (run i))%nat.
Proof.
  intros Hd Hnf. pose proof (reachable_inv _ _ _ (run_reachable i)) as Hi.
  destruct (progress num_workers pgrep_out _ Hi Hd Hnf) as [s' (t & Ht)%thread_step_taken].
  assert (due t (run i)) as Hdue by (split; [by exists s'|by left]).
  destruct (fr_fair _ Hrun t i Hdue) as (j & Hij & Hj). destruct (due_until i j Hij Hd) as [Hdj [Hlt|[Heq Hkeep]]]; [by exists j|].
  destruct Hj as [Hn|Hs]; [by destruct Hn; apply Hkeep|]. exists (S j). split; [lia|].
  destruct (step_left num_workers pgrep_out _ _ (reachable_inv _ _ _ (run_reachable j)) Hdj (taken_thread_step _ _ _ Hs)). lia.
Qed.

Lemma ends_after_done m i : pg_done (run i) = true -> (steps_left pgrep_out (run i) <= m)%nat ->
  exists j, (i <= j)%nat /\ pg_producer (run j) = PFinished.
Proof.
  revert i. induction m as [|m IH]; intros i Hd Hm;
    (assert (Decision (pg_producer (run i) = PFinished)) as [|Hne] by (destruct (pg_producer (run i)); (by left) || (by right)); [by exists i|]);
    destruct (fewer_left i Hd Hne) as (j & Hij & Hlt); [lia|].
  destruct (IH j) as (k & Hjk & Hk); [by apply (due_until i)|lia|]. exists k. split; [lia|done].
Qed.

End fair.

(** ** Theorem *)

(** C28. The mode ends when it is told to.  [main_pgrep] with at least one worker
    arms an alarm of at least a second when there is a time limit and starts the
    threads; in every fair run of them, once something has been written to the
    done pipe (for a signal, the alarm, or by a worker that reached the trace
    limit), all workers and the signal thread return, and [main_pgrep] joins them
    and finishes. *)
Theorem pgrep_signal_ends opt_num_workers opt_time_limit_ms alarm pgrep_out run i k :
  main_pgrep opt_num_workers opt_time_limit_ms = PgrepRuns alarm (run 0%nat) -> opt_time_limit_ms < 2 ^ 32 * 1000 ->
  fair_run (Z.to_nat opt_num_workers) pgrep_out run -> pg_pipe (run i) = Some (S k) ->
  1 <= opt_num_workers /\ (0 < opt_time_limit_ms -> exists secs, alarm = Some secs /\ 1 <= secs)
  /\ exists j, (i <= j)%nat /\ pg_producer (run j) = PFinished
    /\ Forall (fun pc => pc = WExit) (pg_workers (run j)) /\ pg_signal (run j) = SExit.
Proof.
  unfold main_pgrep. destruct (Z.ltb_spec opt_num_workers 1) as [|Hw]; [done|]. intros [= <- _] Hl Hrun Hp.
  split; [done|]. split; [intros; by apply alarm_after_pos|].
  destruct (sets_done _ pgrep_out run Hrun 4 i) as (j & Hij & Hd); [by eapply reachable_told; [eapply run_reachable|]|lia|].
  destruct (ends_after_done _ pgrep_out run Hrun _ j Hd (le_n _)) as (l & Hjl & Hf).
  destruct (v_finished _ _ (reachable_inv _ _ _ (run_reachable _ _ _ Hrun l)) Hf) as [Hws Hs].
  exists l. split_and!; [lia|done|by apply all_exited|done].
Qed.

(** ** Witness *)

(** The run that a schedule gives; where it has nothing to say, a signal. *)
Fixpoint run_of (n : nat) (out : nat -> option (list bytes)) (cs : list choice) (i : nat) : pg :=
  match i with
  | O => start_pgrep n
  | S i => let s := run_of n out cs i in default (write_done_pipe s) (c ← cs !! i; follow n out s c)
  end.

Definition over (s : pg) : Prop :=
  pg_producer s = PFinished /\ Forall (fun pc => pc = WExit) (pg_workers s) /\ pg_signal s = SExit.

Lemma over_not_due n out t s : over s -> ~ due n out t s.
Proof.
  intros (Hp & Hw & Hs) [(s' & Ht) _]. destruct t as [|i|]; cbn in Ht.
  - unfold step_producer in Ht. by rewrite Hp in Ht.
  - destruct Ht as [l Ht]. unfold step_worker in Ht. destruct (pg_workers s !! i) as [pc|] eqn:Hi; [|done].
    rewrite Forall_lookup in Hw. by rewrite (Hw i pc Hi) in Ht.
  - unfold step_signal in Ht. by rewrite Hs in Ht.
Qed.

Lemma run_of_step n out cs i : step n out (run_of n out cs i) (run_of n out cs (S i)).
Proof.
  cbn [run_of]. destruct (cs !! i) as [c|]; cbn; [|apply step_handle_signal].
  destruct (follow n out (run_of n out cs i) c) as [s|] eqn:Hf; cbn; [|apply step_handle_signal].
  by eapply follow_step.
Qed.

Lemma run_of_over n out cs i : over (run_of n out cs (length cs)) -> (length cs <= i)%nat -> over (run_of n out cs i).
Proof.
  intros Ho. induction 1 as [|i Hi IH]; [done|]. cbn [run_of]. rewrite (lookup_ge_None_2 cs i Hi). cbn.
  unfold write_done_pipe. by case_match.
Qed.

(** A schedule that gets to the end is fair. *)
Lemma run_of_fair n out cs : over (run_of n out cs (length cs)) -> fair_run n out (run_of n out cs).
Proof.
  intros Ho. split; [done|apply run_of_step|]. intros t i _. exists (i `max` length cs)%nat. split; [lia|]. left.
  apply over_not_due, run_of_over; [done|lia].
Qed.

(** The schedule of [stopping_state], to the end. *)
Definition demo_ending : list choice :=
  demo_stopping ++ replicate 3 (GoWorker 0) ++ [GoWorker 1; GoSignal; GoSignal; GoProducer; GoProducer].
Definition ending_run : nat -> pg := run_of 2 demo_out demo_ending.

Lemma pgrep_signal_ends_witness : pg_workers (ending_run 17) !! 0%nat = Some (WMain 41)
  /\ exists j, (17 <= j)%nat /\ pg_producer (ending_run j) = PFinished.
Proof.
  split; [vm_compute; reflexivity|].
  destruct (pgrep_signal_ends 2 1500 (Some 1) demo_out ending_run 17 0) as (_ & _ & j & Hj & Hp & _).
  - vm_compute. reflexivity.
  - lia.
  - apply run_of_fair. vm_compute. split_and!; [reflexivity|repeat constructor|reflexivity].
  - vm_compute. reflexivity.
  - exists j. split; [exact Hj|exact Hp].
Defined.
