(* ===== verification/PgrepLimit.v ===== *)
(** * PgrepLimit: the trace limit in multi-process mode (phpspy.c, pgrep.c)

    With [-l] the workers count their traces in one counter.  Here the workers of
    Pgrep.v that are in [main_pid] take its turns: a trace, the increment of
    [trace_count], the test of the limit, and on the way out the message to the
    signal thread.  The rest of a step is a step of Pgrep.v, so what is proved
    there holds. *)
From S2P Require Import Prelude CLib Context Pgrep PgrepTheorems PgrepFair.

(** ** State *)

(** Where a worker is in [main_pid]. *)
Inductive phase :=
| Outside
| Setup        (* before the loop *)
| Loop         (* while (!done) *)
| Tracing      (* [done] was not set *)
| Counted      (* after [__atomic_add_fetch] *)
| After.       (* behind the loop *)

Record lim := {
  lm_pg : pg;
  lm_count : Z;             (* trace_count *)
  lm_phase : list phase;
  lm_late : nat;            (* calls of [main_pid] since the limit was reached *)
}.

(** A turn of the loop: the process is gone, or the trace counts or not. *)
Inductive turn := TurnDead | TurnCounted | TurnFailed.

Inductive lchoice := LProducer | LSignal | LHandler | LWorker (i : nat) (found : bool) (t : turn).

Section limit.
Context (num_workers : nat) (pgrep_out : nat -> option (list bytes)) (opt_trace_limit : Z).

Definition reached (s : lim) : bool := (0 <? opt_trace_limit) && (opt_trace_limit <=? lm_count s).

Definition put_pg (p : pg) (s : lim) : lim := {| lm_pg := p; lm_count := lm_count s; lm_phase := lm_phase s; lm_late := lm_late s |}.
Definition put_phase (i : nat) (ph : phase) (s : lim) : lim :=
  {| lm_pg := lm_pg s; lm_count := lm_count s; lm_phase := <[i := ph]> (lm_phase s); lm_late := lm_late s |}.
Definition add_count (s : lim) : lim :=
  {| lm_pg := lm_pg s; lm_count := u64 (lm_count s + 1); lm_phase := lm_phase s; lm_late := lm_late s |}.
Definition add_late (s : lim) : lim :=
  {| lm_pg := lm_pg s; lm_count := lm_count s; lm_phase := lm_phase s; lm_late := S (lm_late s) |}.

(** ** Steps *)

(** [main_pid] returns; [stop] is the condition of [write_done_pipe]. *)
Definition leave (i : nat) (stop : bool) (s : lim) : option lim :=
  p ← step_worker num_workers i stop (lm_pg s); Some (put_phase i Outside (put_pg p s)).

(** A step of a worker that is in [main_pid]; [found] is whether the addresses,
    the event handler and the version of PHP were. *)
Definition step_main (i : nat) (found : bool) (t : turn) (s : lim) : option lim :=
  match lm_phase s !! i with
  | Some Setup => if found then Some (put_phase i Loop s) else leave i false s
  | Some Loop => Some (put_phase i (if pg_done (lm_pg s) then After else Tracing) s)
  | Some Tracing =>
    match t with
    | TurnDead => Some (put_phase i After s)
    | TurnFailed => Some (put_phase i Loop s)
    | TurnCounted => Some (if 0 <? opt_trace_limit then put_phase i Counted (add_count s) else put_phase i Loop s)
    end
  | Some Counted => Some (put_phase i (if opt_trace_limit <=? lm_count s then After else Loop) s)
  | Some After => leave i (reached s) s
  | _ => None
  end.

Definition enter (i : nat) (s : lim) : lim := put_phase i Setup (if reached s then add_late s else s).

Definition lfollow (s : lim) (c : lchoice) : option lim :=
  match c with
  | LProducer => p ← step_producer num_workers pgrep_out (lm_pg s); Some (put_pg p s)
  | LSignal => p ← step_signal (lm_pg s); Some (put_pg p s)
  | LHandler => Some (put_pg (write_done_pipe (lm_pg s)) s)
  | LWorker i found t =>
    match pg_workers (lm_pg s) !! i with
    | Some (WMain _) => step_main i found t s
    | Some WCall => p ← step_worker num_workers i false (lm_pg s); Some (enter i (put_pg p s))
    | _ => p ← step_worker num_workers i false (lm_pg s); Some (put_pg p s)
    end
  end.

Fixpoint lfollow_all (s : lim) (cs : list lchoice) : option lim :=
  match cs with
  | [] => Some s
  | c :: cs => s ← lfollow s c; lfollow_all s cs
  end.

Definition lstep (s s' : lim) : Prop := exists c, lfollow s c = Some s'.

Definition lstart : lim := {| lm_pg := start_pgrep num_workers; lm_count := 0; lm_phase := replicate num_workers Outside; lm_late := 0 |}.

Lemma lfollow_all_rtc s cs s' : lfollow_all s cs = Some s' -> rtc lstep s s'.
Proof.
  revert s. induction cs as [|c cs IH]; intros s; cbn; [by intros [= ->]|]. destruct (lfollow s c) as [s1|] eqn:Hs; [|done]. cbn. intros Hr.
  eapply rtc_l; [by exists c|by apply IH].
Qed.

(** ** The workers' steps are those of Pgrep.v *)

Lemma leave_step i stop s s' : leave i stop s = Some s' ->
  exists p, step_worker num_workers i stop (lm_pg s) = Some p /\ s' = put_phase i Outside (put_pg p s).
Proof. unfold leave. destruct (step_worker _ _ _ _) as [p|]; [|done]. intros [= <-]. by exists p. Qed.

Lemma lstep_pg s s' : lstep s s' -> step num_workers pgrep_out (lm_pg s) (lm_pg s') \/ lm_pg s' = lm_pg s.
Proof.
  intros [c Hc]. destruct c as [| | |i found t]; cbn in Hc.
  - destruct (step_producer _ _ _) as [p|] eqn:Hp; [|done]. injection Hc as <-. left. by apply step_thread, ts_producer.
  - destruct (step_signal _) as [p|] eqn:Hp; [|done]. injection Hc as <-. left. by apply step_thread, ts_signal.
  - injection Hc as <-. left. apply step_handle_signal.
  - assert (forall b p, step_worker num_workers i b (lm_pg s) = Some p -> step num_workers pgrep_out (lm_pg s) p) as Hw
      by (intros b p Hp; by eapply step_thread, ts_worker).
    assert (forall b, leave i b s = Some s' -> step num_workers pgrep_out (lm_pg s) (lm_pg s')) as Hl
      by (intros b (p & Hp & ->)%leave_step; by eapply Hw).
    destruct (pg_workers (lm_pg s) !! i) as [pc|]; [destruct pc|];
      try (destruct (step_worker num_workers i false (lm_pg s)) as [p|] eqn:Hp; [|done]; injection Hc as <-; left; unfold enter; try case_match; by eapply Hw).
    unfold step_main in Hc. repeat case_match; simplify_eq; eauto.
Qed.

Lemma lreach_reachable s : rtc lstep lstart s -> reachable num_workers pgrep_out (lm_pg s).
Proof.
  intros Hr. unfold reachable. change (start_pgrep num_workers) with (lm_pg lstart).
  induction Hr as [|s1 s2 s3 Hs _ IH]; [done|]. destruct (lstep_pg _ _ Hs) as [H|<-]; [by eapply rtc_l|done].
Qed.

(** ** What a step does to the counters *)

(** Calls of [main_pid] that may still count a trace. *)
Definition may_count (ph : phase) : nat := match ph with Setup | Loop | Tracing => 1 | _ => 0 end.
Definition open_calls (s : lim) : nat := sum_list_with may_count (lm_phase s).

Lemma sum_list_insert {A} (f : A -> nat) l i x y : l !! i = Some x -> (sum_list_with f (<[i := y]> l) + f x = sum_list_with f l + f y)%nat.
Proof.
  revert i. induction l as [|z l IH]; intros [|i] Hi; try done; cbn in Hi.
  - injection Hi as ->. cbn. lia.
  - specialize (IH i Hi). change (<[S i := y]> (z :: l)) with (z :: <[i := y]> l). cbn [sum_list_with]. lia.
Qed.

Lemma open_calls_put i ph0 ph s : lm_phase s !! i = Some ph0 -> (open_calls (put_phase i ph s) + may_count ph0 = open_calls s + may_count ph)%nat.
Proof. apply sum_list_insert. Qed.

Lemma open_calls_le s : (open_calls s <= length (lm_phase s))%nat.
Proof. unfold open_calls. induction (lm_phase s) as [|ph l IH]; [done|]. cbn [sum_list_with length]. assert (may_count ph <= 1)%nat by (destruct ph; cbn; lia). lia. Qed.

(** A step of the counters and phases. *)
Inductive moved (s : lim) : lim -> Prop :=
| mv_none p : moved s (put_pg p s)
| mv_phase p i ph0 ph : lm_phase s !! i = Some ph0 -> (may_count ph <= may_count ph0)%nat -> moved s (put_phase i ph (put_pg p s))
| mv_again i : lm_phase s !! i = Some Counted -> lm_count s < opt_trace_limit -> moved s (put_phase i Loop s)
| mv_count i : lm_phase s !! i = Some Tracing -> 0 < opt_trace_limit -> moved s (put_phase i Counted (add_count s))
| mv_enter p i : moved s (enter i (put_pg p s)).

Lemma put_pg_id s : put_pg (lm_pg s) s = s.
Proof. by destruct s. Qed.

Lemma lstep_moved s s' : lstep s s' -> moved s s'.
Proof.
  intros [c Hc]. destruct c as [| | |i found t]; cbn in Hc.
  - destruct (step_producer _ _ _); [|done]. injection Hc as <-. constructor.
  - destruct (step_signal _); [|done]. injection Hc as <-. constructor.
  - injection Hc as <-. constructor.
  - assert (forall ph0 ph, lm_phase s !! i = Some ph0 -> (may_count ph <= may_count ph0)%nat -> moved s (put_phase i ph s)) as Hph.
    { intros ph0 ph. rewrite <-(put_pg_id s) at 3. apply mv_phase. }
    destruct (pg_workers (lm_pg s) !! i) as [pc|]; [destruct pc|];
      try (destruct (step_worker num_workers i false (lm_pg s)) as [p|] eqn:Hp; [|done]; injection Hc as <-; constructor).
    unfold step_main in Hc. destruct (lm_phase s !! i) as [ph|] eqn:Hi; [|done]. destruct ph; [done|..].
    + destruct found; [injection Hc as <-; by eapply Hph|]. apply leave_step in Hc as (p & _ & ->). eapply mv_phase; [exact Hi|cbn; lia].
    + injection Hc as <-. eapply Hph; [done|]. destruct (pg_done (lm_pg s)); cbn; lia.
    + destruct t; injection Hc as <-.
      * eapply Hph; [done|cbn; lia].
      * destruct (Z.ltb_spec 0 opt_trace_limit); [by apply mv_count|]. apply (Hph Tracing Loop); [done|cbn; lia].
      * apply (Hph Tracing Loop); [done|cbn; lia].
    + destruct (Z.leb_spec opt_trace_limit (lm_count s)); injection Hc as <-; [by eapply Hph|by apply mv_again].
    + apply leave_step in Hc as (p & _ & ->). by eapply mv_phase.
Qed.

(** ** The bound *)

Record bounded (s : lim) : Prop := {
  bd_length : length (lm_phase s) = num_workers;
  bd_count : 0 <= lm_count s;
  bd_limit : 0 < opt_trace_limit -> opt_trace_limit + Z.of_nat num_workers + Z.of_nat (lm_late s) < 2 ^ 64 ->
    (lm_count s < opt_trace_limit /\ lm_late s = 0%nat)
    \/ (opt_trace_limit <= lm_count s
        /\ lm_count s + Z.of_nat (open_calls s) <= opt_trace_limit - 1 + Z.of_nat num_workers + Z.of_nat (lm_late s));
}.

Lemma bounded_start : bounded lstart.
Proof. split; cbn; [by rewrite length_replicate|done|]. intros H _. by left. Qed.

Lemma bounded_step s s' : bounded s -> moved s s' -> bounded s'.
Proof.
  intros [Hl Hc Hb] Hm. pose proof (open_calls_le s) as Ho. destruct Hm as [p|p i ph0 ph Hi Hle|i Hi Hlt|i Hi H0|p i].
  - by split.
  - pose proof (open_calls_put i ph0 ph (put_pg p s) Hi) as Hp. change (open_calls (put_pg p s)) with (open_calls s) in Hp.
    split; cbn [lm_phase lm_count lm_late put_phase put_pg] in *; [by rewrite length_insert|done|]. intros H0 Hlt. specialize (Hb H0 Hlt). lia.
  - split; cbn [lm_phase lm_count lm_late put_phase] in *; [by rewrite length_insert|done|]. intros H0 Hb'. specialize (Hb H0 Hb'). left. lia.
  - pose proof (open_calls_put i Tracing Counted (add_count s) Hi) as Hp. change (open_calls (add_count s)) with (open_calls s) in Hp. cbn [may_count] in Hp.
    split; cbn [lm_phase lm_count lm_late put_phase add_count] in *; [by rewrite length_insert|apply wrap_range; lia|].
    intros _ Hb'. specialize (Hb H0 Hb'). rewrite wrap_small by lia. lia.
  - unfold enter, reached. destruct (Z.ltb_spec 0 opt_trace_limit) as [H0|]; cbn [andb];
      [destruct (Z.leb_spec opt_trace_limit (lm_count (put_pg p s))) as [Hr|Hr]|]; cbn [lm_count put_pg] in *.
    1: assert (open_calls (put_phase i Setup (add_late (put_pg p s))) <= S (open_calls s))%nat as Hp.
    { destruct (lm_phase s !! i) as [ph|] eqn:Hi; [pose proof (open_calls_put i ph Setup (add_late (put_pg p s)) Hi) as Hp; cbn [may_count] in Hp;
        change (open_calls (add_late (put_pg p s))) with (open_calls s) in Hp; lia|].
      unfold open_calls. cbn. rewrite list_insert_ge by (by apply lookup_ge_None). lia. }
    all: split; cbn [lm_phase lm_count lm_late put_phase add_late put_pg] in *; [by rewrite length_insert|done|]; intros H1 Hb'; try lia;
      specialize (Hb H1 ltac:(lia)); lia.
Qed.

Lemma lreach_bounded s : rtc lstep lstart s -> bounded s.
Proof.
  intros Hr. assert (bounded lstart) as Hb by apply bounded_start. revert Hb.
  induction Hr as [|s1 s2 s3 Hs _ IH]; [done|]. intros Hb. by eapply IH, bounded_step, lstep_moved.
Qed.

(** ** The message to the signal thread *)

Lemma worker_others i b p p' j : step_worker num_workers i b p = Some p' -> j <> i -> pg_workers p' !! j = pg_workers p !! j.
Proof.
  intros Hs Hne. unfold step_worker, lock, unlock, write_done_pipe in Hs. repeat case_match; simplify_eq; cbn; by rewrite ?list_lookup_insert_ne by done.
Qed.

Lemma producer_workers p p' : step_producer num_workers pgrep_out p = Some p' -> pg_workers p' = pg_workers p.
Proof. unfold step_producer, lock, unlock. intros Hs. repeat case_match; by simplify_eq. Qed.

Lemma signal_workers p p' : step_signal p = Some p' -> pg_workers p' = pg_workers p.
Proof. unfold step_signal, lock, unlock. intros Hs. repeat case_match; by simplify_eq. Qed.

(** A worker with a phase is in [main_pid]. *)
Definition phases_ok (s : lim) : Prop :=
  forall i ph, lm_phase s !! i = Some ph -> ph <> Outside -> exists pid, pg_workers (lm_pg s) !! i = Some (WMain pid).

Lemma phases_put i ph p s : phases_ok s -> (forall j, j <> i -> pg_workers p !! j = pg_workers (lm_pg s) !! j) ->
  (ph <> Outside -> exists pid, pg_workers p !! i = Some (WMain pid)) -> phases_ok (put_phase i ph (put_pg p s)).
Proof.
  intros Hs Hp Hi j ph' Hj Hne. cbn in *. destruct (decide (j = i)) as [->|Hji].
  - apply Hi. intros ->. apply list_lookup_insert_Some in Hj as [(_ & <- & _)|[? _]]; done.
  - rewrite list_lookup_insert_ne in Hj by done. rewrite Hp by done. by eapply Hs.
Qed.

Lemma phases_pg p s : phases_ok s -> pg_workers p = pg_workers (lm_pg s) -> phases_ok (put_pg p s).
Proof. intros Hs Hp i ph Hi Hne. cbn in *. rewrite Hp. by eapply Hs. Qed.

Lemma call_main i p p' : step_worker num_workers i false p = Some p' -> pg_workers p !! i = Some WCall -> pg_fault p' = false ->
  exists pid, pg_workers p' !! i = Some (WMain pid).
Proof.
  intros Hs Hi Hf. unfold step_worker in Hs. rewrite Hi in Hs. destruct (pg_attached p !! i) as [pid|]; injection Hs as <-; [|done].
  exists pid. cbn. apply list_lookup_insert_eq. by eapply lookup_lt_Some.
Qed.

Lemma phases_step s s' : reachable num_workers pgrep_out (lm_pg s') -> lstep s s' -> phases_ok s -> phases_ok s'.
Proof.
  intros Hr [c Hc] Hs. destruct c as [| | |i found t]; cbn in Hc.
  - destruct (step_producer _ _ _) as [p|] eqn:Hp; [|done]. injection Hc as <-. apply phases_pg; [done|by apply producer_workers].
  - destruct (step_signal _) as [p|] eqn:Hp; [|done]. injection Hc as <-. apply phases_pg; [done|by apply signal_workers].
  - injection Hc as <-. apply phases_pg; [done|]. unfold write_done_pipe. by case_match.
  - assert (forall pc p, pg_workers (lm_pg s) !! i = Some pc -> (forall pid, pc <> WMain pid) -> step_worker num_workers i false (lm_pg s) = Some p ->
      phases_ok (put_pg p s)) as Hout.
    { intros pc p Hpc Hne Hp j ph Hj Hph. cbn in *. destruct (Hs j ph Hj Hph) as [pid Hw]. exists pid. rewrite (worker_others _ _ _ _ _ Hp); [done|].
      intros ->. rewrite Hpc in Hw. injection Hw as ->. by apply (Hne pid). }
    destruct (pg_workers (lm_pg s) !! i) as [pc|] eqn:Hpc; [destruct pc|];
      try (destruct (step_worker num_workers i false (lm_pg s)) as [p|] eqn:Hp; [|done]; injection Hc as <-; by eapply Hout).
    + destruct (step_worker num_workers i false (lm_pg s)) as [p|] eqn:Hp; [|done]. injection Hc as <-.
      assert (lm_pg (enter i (put_pg p s)) = p) as Hpg by (unfold enter; by case_match). rewrite Hpg in Hr. unfold enter.
      assert (phases_ok (put_phase i Setup (put_pg p s))) as Hok; [|by case_match].
      apply phases_put; [done|intros j Hj; by eapply worker_others|]. intros _.
      eapply call_main; [exact Hp|done|]. by apply (pgrep_safe num_workers pgrep_out).
    + assert (forall ph, phases_ok (put_phase i ph s)) as Hin by (intros ph; rewrite <-(put_pg_id s); apply phases_put; [done|done|by eexists]).
      assert (forall b, leave i b s = Some s' -> phases_ok s') as Hout2.
      { intros b (p & Hp & ->)%leave_step. apply phases_put; [done|intros j Hj; by eapply worker_others|done]. }
      unfold step_main in Hc. repeat case_match; simplify_eq; eauto. apply (Hin Counted).
    + destruct (step_worker num_workers i false (lm_pg s)) as [p|] eqn:Hp; [|done]. unfold step_worker in Hp. by rewrite Hpc in Hp.
Qed.

(** Someone will write to the done pipe, or has. *)
Definition to_tell (ph : phase) : Prop := ph = Counted \/ ph = After.
Definition announcing (s : lim) : Prop := (exists i ph, lm_phase s !! i = Some ph /\ to_tell ph) \/ told (lm_pg s).

Lemma told_lstep s s' : lstep s s' -> told (lm_pg s) -> told (lm_pg s').
Proof. intros [Hs| ->]%lstep_pg Ht; [|done]. by eapply step_told. Qed.

Lemma announcing_put i ph0 ph p s : announcing s -> (told (lm_pg s) -> told p) -> lm_phase s !! i = Some ph0 -> (to_tell ph0 -> to_tell ph) ->
  announcing (put_phase i ph (put_pg p s)).
Proof.
  intros [(j & phj & Hj & Ht)|Ht] Hp Hi Hph; [left|right; by apply Hp]. cbn. destruct (decide (j = i)) as [->|Hne].
  - simplify_eq. exists i, ph. split; [|by apply Hph]. apply list_lookup_insert_eq. by eapply lookup_lt_Some.
  - exists j, phj. by rewrite list_lookup_insert_ne.
Qed.

(** The last step of a call with the limit reached: the message is in the pipe. *)
Lemma leave_tells i s p : reachable num_workers pgrep_out p -> pg_pipe (lm_pg s) <> None -> (exists pid, pg_workers (lm_pg s) !! i = Some (WMain pid)) ->
  step_worker num_workers i true (lm_pg s) = Some p -> told p.
Proof.
  intros Hr Hpipe [pid Hi] Hp. unfold step_worker in Hp. rewrite Hi in Hp. injection Hp as <-. unfold write_done_pipe in *.
  destruct (pg_pipe (lm_pg s)) as [k|]; [|done]. by apply (reachable_told num_workers pgrep_out _ k Hr).
Qed.

Lemma announced_step s s' : reachable num_workers pgrep_out (lm_pg s) -> phases_ok s -> pg_pipe (lm_pg s) <> None ->
  lstep s s' -> (reached s = true -> announcing s) -> reached s' = true -> announcing s'.
Proof.
  intros Hr Hok Hpipe Hstep Ha Hr'. pose proof (told_lstep _ _ Hstep) as Htold.
  assert (reachable num_workers pgrep_out (lm_pg s')) as Hreach by (destruct (lstep_pg _ _ Hstep) as [H| ->]; [by eapply rtc_r|done]).
  destruct Hstep as [c Hc]. destruct c as [| | |i found t]; cbn in Hc.
  - destruct (step_producer _ _ _); [|done]. injection Hc as <-. destruct (Ha Hr') as [H|H]; [by left|right; by apply Htold].
  - destruct (step_signal _); [|done]. injection Hc as <-. destruct (Ha Hr') as [H|H]; [by left|right; by apply Htold].
  - injection Hc as <-. destruct (Ha Hr') as [H|H]; [by left|right; by apply Htold].
  - destruct (pg_workers (lm_pg s) !! i) as [pc|] eqn:Hpc; [destruct pc|];
      try (destruct (step_worker num_workers i false (lm_pg s)) as [p|] eqn:Hp; [|done]; injection Hc as <-;
           destruct (Ha Hr') as [H|H]; [by left|right; by apply Htold]).
    + destruct (step_worker num_workers i false (lm_pg s)) as [p|] eqn:Hp; [|done]. injection Hc as <-.
      assert (reached s = true) as Hrs by (unfold enter in Hr'; destruct (reached (put_pg p s)) eqn:E; [exact E|]; unfold reached in Hr', E; cbn in Hr', E; congruence).
      specialize (Ha Hrs). assert (lm_pg (enter i (put_pg p s)) = p) as Hpg by (unfold enter; by case_match). rewrite Hpg in Htold.
      destruct Ha as [(j & ph & Hj & Ht)|Ht]; [|right; rewrite Hpg; by apply Htold]. left. exists j, ph. split; [|done].
      assert (lm_phase (enter i (put_pg p s)) = <[i := Setup]> (lm_phase s)) as -> by (unfold enter; by case_match).
      rewrite list_lookup_insert_ne; [done|]. intros <-. destruct (Hok i ph Hj) as [pid Hw]; [intros ->; by destruct Ht|congruence].
    + assert (forall ph0 ph, lm_phase s !! i = Some ph0 -> (to_tell ph0 -> to_tell ph) -> reached s = true -> announcing (put_phase i ph s)) as Hput.
      { intros ph0 ph Hi Hph Hrs. rewrite <-(put_pg_id s). by eapply announcing_put; [apply Ha|..]. }
      unfold step_main in Hc. destruct (lm_phase s !! i) as [ph|] eqn:Hi; [|done]. destruct ph; [done|..].
      * destruct found; [injection Hc as <-; eapply Hput; [done| |done]; by intros []|]. apply leave_step in Hc as (p & Hp & ->).
        eapply announcing_put; [by apply Ha|exact Htold|exact Hi|by intros []].
      * injection Hc as <-. eapply Hput; [done|by intros []|done].
      * destruct t; injection Hc as <-.
        -- eapply Hput; [done|by right|done].
        -- destruct (0 <? opt_trace_limit) eqn:H0; [|eapply Hput; [done|by intros []|done]]. left. exists i, Counted. split; [|by left]. cbn.
           apply list_lookup_insert_eq. by eapply lookup_lt_Some.
        -- eapply Hput; [done|by intros []|done].
      * injection Hc as <-. eapply Hput; [done| |done]. intros _. unfold reached in Hr'. cbn in Hr'. apply andb_prop in Hr' as [_ ->]. by right.
      * apply leave_step in Hc as (p & Hp & ->). change (reached s = true) in Hr'. rewrite Hr' in Hp. right. eapply leave_tells; [exact Hreach|done|by eexists|done].
Qed.

Lemma pipe_stays s s' : lstep s s' -> pg_pipe (lm_pg s) <> None -> pg_pipe (lm_pg s') <> None.
Proof.
  intros [Hs| ->]%lstep_pg Hp; [|done]. destruct Hs as [p [p' H|i l p' H|p' H]|]; [..|by unfold write_done_pipe; case_match].
  - destruct (producer_keeps _ _ _ _ H) as (_ & _ & [->|[->|(n & _ & ->)]]); [done| |discriminate]. unfold write_done_pipe. by case_match.
  - destruct (worker_keeps _ _ _ _ _ H) as (_ & _ & [->|[->|(n & _ & ->)]]); [done| |discriminate]. unfold write_done_pipe. by case_match.
  - unfold step_signal, lock in H. repeat case_match; simplify_eq; cbn in *; congruence.
Qed.

Lemma lreach_phases s : rtc lstep lstart s -> phases_ok s.
Proof.
  intros Hr. revert s Hr. apply (rtc_ind_r phases_ok lstart).
  - intros i ph [-> _]%lookup_replicate. done.
  - intros y z Hy Hz Hp. eapply phases_step; [|exact Hz|exact Hp]. apply lreach_reachable. by eapply rtc_r.
Qed.

Lemma lreach_announced s s' : rtc lstep lstart s -> pg_pipe (lm_pg s) <> None -> reached s = false -> rtc lstep s s' ->
  reached s' = true -> announcing s'.
Proof.
  intros Hs Hp Hr Hs'. enough (rtc lstep lstart s' /\ pg_pipe (lm_pg s') <> None /\ (reached s' = true -> announcing s')) as (_ & _ & H) by exact H.
  revert s' Hs'. apply (rtc_ind_r _ s).
  - split_and!; [done|done|congruence].
  - intros y z _ Hz (H1 & H2 & H3). split_and!; [by eapply rtc_r|by eapply pipe_stays|].
    eapply announced_step; [by apply lreach_reachable|by apply lreach_phases|done|done|done].
Qed.

End limit.

(** ** Theorem *)

(** C29. The trace limit of multi-process mode, with the counter that all
    workers share: however they interleave, they write fewer than
    [opt_trace_limit] traces, plus one for each worker, plus one for each call of
    [main_pid] that began after the limit was reached (a call ends after the
    first trace that finds it reached).  And the limit is not missed: if the done
    pipe exists before it is reached, then from that moment a worker is on its
    way to write to the pipe, or the signal thread has been told, which ends the
    mode. *)
Theorem trace_limit num_workers pgrep_out opt_trace_limit s :
  0 < opt_trace_limit -> rtc (lstep num_workers pgrep_out opt_trace_limit) (lstart num_workers) s ->
  (opt_trace_limit + Z.of_nat num_workers + Z.of_nat (lm_late s) < 2 ^ 64 ->
     lm_count s <= opt_trace_limit - 1 + Z.of_nat num_workers + Z.of_nat (lm_late s)
     /\ (lm_count s < opt_trace_limit -> lm_late s = 0%nat))
  /\ (pg_pipe (lm_pg s) <> None -> lm_count s < opt_trace_limit -> forall s', rtc (lstep num_workers pgrep_out opt_trace_limit) s s' ->
        opt_trace_limit <= lm_count s' -> announcing s').
Proof.
  intros H0 Hr. split.
  - intros Hlt. destruct (bd_limit _ _ _ (lreach_bounded _ _ _ _ Hr) H0 Hlt) as [[H1 H2]|[H1 H2]]; split; lia.
  - intros Hp Hlt s' Hs' Hge. eapply lreach_announced; [exact Hr|exact Hp| |exact Hs'|]; unfold reached; lia.
Qed.

(** ** Witness *)

(** The signal thread makes the pipe; [pgrep] finds process 41; the one worker
    takes it and traces it once. *)
Definition work (k : nat) : list lchoice := replicate k (LWorker 0 true TurnCounted).
Definition one_call : list lchoice := replicate 9 LProducer ++ work 12.
Definition before_limit : list lchoice := LSignal :: replicate 9 LProducer ++ work 8.

Lemma trace_limit_witness : exists s s',
  lfollow_all 1 demo_out 1 (lstart 1) before_limit = Some s /\ lfollow_all 1 demo_out 1 s (work 1) = Some s'
  /\ lm_count s = 0 /\ lm_count s' = 1 /\ announcing s'.
Proof.
  destruct (lfollow_all 1 demo_out 1 (lstart 1) before_limit) as [s|] eqn:Hs; [|vm_compute in Hs; discriminate].
  destruct (lfollow_all 1 demo_out 1 s (work 1)) as [s'|] eqn:Hs'; [|exfalso; vm_compute in Hs; injection Hs as <-; vm_compute in Hs'; discriminate].
  destruct (trace_limit 1 demo_out 1 s) as [_ Ha]; [reflexivity|by eapply lfollow_all_rtc|].
  assert (lm_count s = 0 /\ lm_count s' = 1 /\ pg_pipe (lm_pg s) = Some 0%nat) as (H0 & H1 & Hp).
  { vm_compute in Hs. injection Hs as <-. vm_compute in Hs'. injection Hs' as <-. vm_compute. by split. }
  exists s, s'. split_and!; [done|done|done|done|].
  apply Ha; [by rewrite Hp|rewrite H0; reflexivity|by eapply lfollow_all_rtc|rewrite H1; discriminate].
Defined.

(** One worker can exceed the limit by more than one trace: until the signal
    thread has run, it takes another process each time. *)
Lemma late_calls : exists s, lfollow_all 1 demo_out 1 (lstart 1) (LSignal :: one_call ++ one_call ++ one_call) = Some s
  /\ lm_count s = 3 /\ lm_late s = 2%nat.
Proof. eexists. split; [vm_compute; reflexivity|]. done. Qed.

(** And the message is lost if the signal thread has not made the pipe. *)
Lemma lost_message : exists s, lfollow_all 1 demo_out 1 (lstart 1) (one_call ++ [LSignal]) = Some s
  /\ lm_count s = 1 /\ ~ announcing s.
Proof.
  eexists. split; [vm_compute; reflexivity|]. split; [done|]. intros [(i & ph & Hi & Ht)|[k Hk]]; [|done].
  destruct i as [|[]]; [|done..]. cbn in Hi. injection Hi as <-. by destruct Ht.
Qed.
