(* ===== verification/Memory.v ===== *)
(** * Memory: the C heap, and uthash in it

    The tables of the program are uthash tables: structs from [calloc] that are
    linked twice, in the order of insertion and in the chains of the buckets,
    and that point to a block with the table, which points to the array of the
    buckets.  Elsewhere a table is the list of its entries (Uthash.v); here are
    the macros themselves, on a memory of blocks with named fields, in which
    access to a field of a block that is not allocated, or no longer, is a
    fault.  What the pointers implement is proved in UthashHeap.v. *)
From S2P Require Import Prelude.

(** ** Blocks and fields *)

Abbreviation ptr := positive.

Inductive kind := KElem | KTable | KBuckets.

(** The fields of a struct with a hash handle: its key, its data, and of the
    handle the links of the two lists and the rest; a table and an array of
    buckets are one field each. *)
Inductive field := FKey | FVal | FHh | FApp | FBkt | FTbl | FBuckets.
#[export] Instance field_eq_dec : EqDecision field.
Proof. solve_decision. Defined.
#[export] Instance field_countable : Countable field.
Proof.
  refine (inj_countable' (fun f => match f with FKey => 0 | FVal => 1 | FHh => 2 | FApp => 3 | FBkt => 4 | FTbl => 5 | FBuckets => 6 end)%nat
    (fun n => match n with 0 => FKey | 1 => FVal | 2 => FHh | 3 => FApp | 4 => FBkt | 5 => FTbl | _ => FBuckets end%nat) _).
  by intros [].
Defined.

Definition fields_of (k : kind) : list field :=
  match k with KElem => [FKey; FVal; FHh; FApp; FBkt] | KTable => [FTbl] | KBuckets => [FBuckets] end.

(** [prev] and [next], or [hh_prev] and [hh_next]. *)
Record links := { l_prev : option ptr; l_next : option ptr }.
Definition set_prev (p : option ptr) (l : links) : links := {| l_prev := p; l_next := l_next l |}.
Definition set_next (p : option ptr) (l : links) : links := {| l_prev := l_prev l; l_next := p |}.

(** The rest of a [UT_hash_handle]; the key is the string in the struct. *)
Record UT_hash_handle := { h_tbl : option ptr; h_key : option ptr; h_keylen : Z; h_hashv : Z }.
Definition set_tbl (t : option ptr) (h : UT_hash_handle) : UT_hash_handle :=
  {| h_tbl := t; h_key := h_key h; h_keylen := h_keylen h; h_hashv := h_hashv h |}.

Record UT_hash_bucket := { hh_head : option ptr; b_count : Z; expand_mult : Z }.

(** The number of buckets is not wrapped: the array would need 64 GiB first. *)
Record UT_hash_table := {
  tb_buckets : ptr; num_buckets : Z; log2_num_buckets : Z; num_items : Z; tb_tail : ptr;
  ideal_chain_maxlen : Z; nonideal_items : Z; ineff_expands : Z; noexpand : bool;
}.

Definition set_num_items (n : Z) (tb : UT_hash_table) : UT_hash_table :=
  {| tb_buckets := tb_buckets tb; num_buckets := num_buckets tb; log2_num_buckets := log2_num_buckets tb; num_items := n;
     tb_tail := tb_tail tb; ideal_chain_maxlen := ideal_chain_maxlen tb; nonideal_items := nonideal_items tb;
     ineff_expands := ineff_expands tb; noexpand := noexpand tb |}.
Definition set_tail (p : ptr) (tb : UT_hash_table) : UT_hash_table :=
  {| tb_buckets := tb_buckets tb; num_buckets := num_buckets tb; log2_num_buckets := log2_num_buckets tb; num_items := num_items tb;
     tb_tail := p; ideal_chain_maxlen := ideal_chain_maxlen tb; nonideal_items := nonideal_items tb;
     ineff_expands := ineff_expands tb; noexpand := noexpand tb |}.
Definition set_ideal (maxlen nonideal : Z) (tb : UT_hash_table) : UT_hash_table :=
  {| tb_buckets := tb_buckets tb; num_buckets := num_buckets tb; log2_num_buckets := log2_num_buckets tb; num_items := num_items tb;
     tb_tail := tb_tail tb; ideal_chain_maxlen := maxlen; nonideal_items := nonideal;
     ineff_expands := ineff_expands tb; noexpand := noexpand tb |}.

Section memory.
(** The data of the structs, beside key and handle. *)
Context {V : Type}.

Inductive cell :=
| CKey (k : bytes) | CVal (v : V) | CHh (h : UT_hash_handle) | CLinks (l : links)
| CTbl (tb : UT_hash_table) | CBuckets (bs : list UT_hash_bucket).

Record mem := { m_next : ptr; m_blocks : gmap ptr kind; m_cells : gmap (ptr * field) cell }.

Definition mem0 : mem := {| m_next := 1%positive; m_blocks := ∅; m_cells := ∅ |}.

Abbreviation HM := (M mem).

(** ** Access *)

(** A field, as what it holds. *)
Definition load {A} (f : field) (as_ : cell -> option A) (p : ptr) : HM A := fun m =>
  match m_cells m !! (p, f) ≫= as_ with
  | Some a => Done (a, m)
  | None => Fault UseAfterFree
  end.

Definition set_cell (f : field) (p : ptr) (c : cell) : HM unit := fun m =>
  match m_cells m !! (p, f) with
  | Some _ => Done (tt, {| m_next := m_next m; m_blocks := m_blocks m; m_cells := <[(p, f) := c]> (m_cells m) |})
  | None => Fault UseAfterFree
  end.

Definition as_key (c : cell) : option bytes := match c with CKey k => Some k | _ => None end.
Definition as_val (c : cell) : option V := match c with CVal v => Some v | _ => None end.
Definition as_hh (c : cell) : option UT_hash_handle := match c with CHh h => Some h | _ => None end.
Definition as_links (c : cell) : option links := match c with CLinks l => Some l | _ => None end.
Definition as_tbl (c : cell) : option UT_hash_table := match c with CTbl tb => Some tb | _ => None end.
Definition as_buckets (c : cell) : option (list UT_hash_bucket) := match c with CBuckets bs => Some bs | _ => None end.

Definition load_hh : ptr -> HM UT_hash_handle := load FHh as_hh.
Definition load_tbl : ptr -> HM UT_hash_table := load FTbl as_tbl.
Definition load_val : ptr -> HM V := load FVal as_val.

Definition update_links (f : field) (p : ptr) (g : links -> links) : HM unit := l ← load f as_links p; set_cell f p (CLinks (g l)).
Definition update_hh (p : ptr) (g : UT_hash_handle -> UT_hash_handle) : HM unit := h ← load_hh p; set_cell FHh p (CHh (g h)).
Definition update_tbl (t : ptr) (g : UT_hash_table -> UT_hash_table) : HM unit := tb ← load_tbl t; set_cell FTbl t (CTbl (g tb)).
Definition update_val (p : ptr) (g : V -> V) : HM unit := v ← load_val p; set_cell FVal p (CVal (g v)).

(** An element of an array of buckets. *)
Definition load_bucket (a : ptr) (i : Z) : HM UT_hash_bucket :=
  bs ← load FBuckets as_buckets a;
  match bs !! Z.to_nat i with Some b => mret b | None => raise OutOfBounds end.
Definition update_bucket (a : ptr) (i : Z) (g : UT_hash_bucket -> UT_hash_bucket) : HM unit :=
  bs ← load FBuckets as_buckets a;
  match bs !! Z.to_nat i with Some b => set_cell FBuckets a (CBuckets (<[Z.to_nat i := g b]> bs)) | None => raise OutOfBounds end.

(** A null pointer is followed. *)
Definition deref {A} (p : option A) : HM A := match p with Some a => mret a | None => raise UseAfterFree end.

(** ** Allocation *)

Definition init_cells (p : ptr) (k : kind) (init : field -> cell) (c : gmap (ptr * field) cell) : gmap (ptr * field) cell :=
  foldr (fun f c => <[(p, f) := init f]> c) c (fields_of k).
Definition drop_cells (p : ptr) (k : kind) (c : gmap (ptr * field) cell) : gmap (ptr * field) cell :=
  foldr (fun f c => delete (p, f) c) c (fields_of k).

Definition alloc (k : kind) (init : field -> cell) : HM ptr := fun m =>
  let p := m_next m in
  Done (p, {| m_next := Pos.succ p; m_blocks := <[p := k]> (m_blocks m); m_cells := init_cells p k init (m_cells m) |}).

Definition free (p : ptr) : HM unit := fun m =>
  match m_blocks m !! p with
  | Some k => Done (tt, {| m_next := m_next m; m_blocks := delete p (m_blocks m); m_cells := drop_cells p k (m_cells m) |})
  | None => Fault UseAfterFree
  end.

Definition no_links : links := {| l_prev := None; l_next := None |}.
Definition no_handle : UT_hash_handle := {| h_tbl := None; h_key := None; h_keylen := 0; h_hashv := 0 |}.
Definition no_bucket : UT_hash_bucket := {| hh_head := None; b_count := 0; expand_mult := 0 |}.

(** [calloc] of a struct; [v] is its data, zeroed. *)
Definition elem_cells (v : V) (f : field) : cell :=
  match f with FKey => CKey [] | FVal => CVal v | FHh => CHh no_handle | _ => CLinks no_links end.
Definition calloc (v : V) : HM ptr := alloc KElem (elem_cells v).

(** ** The macros *)

(** [HASH_FUNCTION]: any function. *)
Context (hash : bytes -> Z).

Definition HASH_TO_BKT (hashv num_bkts : Z) : Z := Z.land hashv (num_bkts - 1).

Definition hh_tbl (p : ptr) : HM ptr := h ← load_hh p; deref (h_tbl h).

(** A chain and a list visit every block at most once. *)
Definition fuel : HM nat := fun m => Done (size (m_blocks m), m).

Definition same_key (q : ptr) (key : bytes) : HM bool :=
  h ← load_hh q;
  if (h_hashv h =? hash key) && (h_keylen h =? Z.of_nat (length key)) then
    p ← deref (h_key h);
    k ← load FKey as_key p;
    mret (bool_decide (take (Z.to_nat (h_keylen h)) k = key))
  else mret false.

Fixpoint HASH_FIND_IN_BKT (n : nat) (out : option ptr) (key : bytes) : HM (option ptr) :=
  match out with
  | None => mret None
  | Some q =>
    match n with
    | O => diverge
    | S n =>
      same ← same_key q key;
      if (same : bool) then mret (Some q) else
      l ← load FBkt as_links q;
      HASH_FIND_IN_BKT n (l_next l) key
    end
  end.

Definition HASH_FIND_STR (head : option ptr) (key : bytes) : HM (option ptr) :=
  match head with
  | None => mret None
  | Some hd =>
    t ← hh_tbl hd;
    tb ← load_tbl t;
    b ← load_bucket (tb_buckets tb) (HASH_TO_BKT (hash key) (num_buckets tb));
    n ← fuel;
    HASH_FIND_IN_BKT n (hh_head b) key
  end.

(** [uthash_malloc] and [uthash_bzero]. *)
Definition new_table (tl : ptr) (b : ptr) : UT_hash_table :=
  {| tb_buckets := b; num_buckets := 0; log2_num_buckets := 0; num_items := 0; tb_tail := tl;
     ideal_chain_maxlen := 0; nonideal_items := 0; ineff_expands := 0; noexpand := false |}.
Definition new_buckets (n : Z) : HM ptr := alloc KBuckets (fun _ => CBuckets (replicate (Z.to_nat n) no_bucket)).

Definition HASH_MAKE_TABLE (add : ptr) : HM unit :=
  t ← alloc KTable (fun _ => CTbl (new_table add add));
  update_hh add (set_tbl (Some t));;
  b ← new_buckets 32;
  update_tbl t (fun tb =>
    {| tb_buckets := b; num_buckets := 32; log2_num_buckets := 5; num_items := num_items tb; tb_tail := tb_tail tb;
       ideal_chain_maxlen := ideal_chain_maxlen tb; nonideal_items := nonideal_items tb;
       ineff_expands := ineff_expands tb; noexpand := noexpand tb |}).

Definition HASH_APPEND_LIST (head add : ptr) : HM unit :=
  t ← hh_tbl head;
  tb ← load_tbl t;
  set_cell FApp add (CLinks {| l_prev := Some (tb_tail tb); l_next := None |});;
  update_links FApp (tb_tail tb) (set_next (Some add));;
  update_tbl t (set_tail add).

(** The items of a bucket move to the new array. *)
Fixpoint expand_chain (n : nat) (t news : ptr) (thh : option ptr) : HM unit :=
  match thh with
  | None => mret tt
  | Some q =>
    match n with
    | O => diverge
    | S n =>
      l ← load FBkt as_links q;
      h ← load_hh q;
      tb ← load_tbl t;
      let i := HASH_TO_BKT (h_hashv h) (num_buckets tb * 2) in
      b ← load_bucket news i;
      let count := u32 (b_count b + 1) in
      let above := ideal_chain_maxlen tb <? count in
      (if above then update_tbl t (set_ideal (ideal_chain_maxlen tb) (u32 (nonideal_items tb + 1))) else mret tt);;
      let mult := if above && (u32 (expand_mult b * ideal_chain_maxlen tb) <? count) then u32 (expand_mult b + 1) else expand_mult b in
      set_cell FBkt q (CLinks {| l_prev := None; l_next := hh_head b |});;
      (match hh_head b with Some r => update_links FBkt r (set_prev (Some q)) | None => mret tt end);;
      update_bucket news i (fun _ => {| hh_head := Some q; b_count := count; expand_mult := mult |});;
      expand_chain n t news (l_next l)
    end
  end.

(** [for (_he_bkt_i = 0; ...)], with [n] turns to go. *)
Fixpoint expand_loop (n : nat) (t news : ptr) (i : Z) : HM unit :=
  match n with
  | O => mret tt
  | S n =>
    tb ← load_tbl t;
    b ← load_bucket (tb_buckets tb) i;
    fu ← fuel;
    expand_chain fu t news (hh_head b);;
    expand_loop n t news (i + 1)
  end.

Definition HASH_EXPAND_BUCKETS (t : ptr) : HM unit :=
  tb ← load_tbl t;
  news ← new_buckets (num_buckets tb * 2);
  update_tbl t (fun tb => set_ideal (Z.shiftr (num_items tb) (log2_num_buckets tb + 1)
    + (if bool_decide (Z.land (num_items tb) (num_buckets tb * 2 - 1) <> 0) then 1 else 0)) 0 tb);;
  expand_loop (Z.to_nat (num_buckets tb)) t news 0;;
  tb ← load_tbl t;
  free (tb_buckets tb);;
  update_tbl t (fun tb =>
    let ineff := if Z.shiftr (num_items tb) 1 <? nonideal_items tb then u32 (ineff_expands tb + 1) else 0 in
    {| tb_buckets := news; num_buckets := num_buckets tb * 2; log2_num_buckets := log2_num_buckets tb + 1; num_items := num_items tb;
       tb_tail := tb_tail tb; ideal_chain_maxlen := ideal_chain_maxlen tb; nonideal_items := nonideal_items tb;
       ineff_expands := ineff; noexpand := (1 <? ineff) || noexpand tb |}).

Definition HASH_ADD_TO_BKT (t : ptr) (i : Z) (add : ptr) : HM unit :=
  tb ← load_tbl t;
  let a := tb_buckets tb in
  update_bucket a i (fun b => {| hh_head := hh_head b; b_count := u32 (b_count b + 1); expand_mult := expand_mult b |});;
  b ← load_bucket a i;
  set_cell FBkt add (CLinks {| l_prev := None; l_next := hh_head b |});;
  (match hh_head b with Some r => update_links FBkt r (set_prev (Some add)) | None => mret tt end);;
  update_bucket a i (fun b => {| hh_head := Some add; b_count := b_count b; expand_mult := expand_mult b |});;
  if (u32 ((expand_mult b + 1) * 10) <=? b_count b) && negb (noexpand tb) then HASH_EXPAND_BUCKETS t else mret tt.

Definition HASH_ADD_TO_TABLE (head : ptr) (hashval : Z) (add : ptr) : HM unit :=
  t ← hh_tbl head;
  update_tbl t (fun tb => set_num_items (u32 (num_items tb + 1)) tb);;
  tb ← load_tbl t;
  HASH_ADD_TO_BKT t (HASH_TO_BKT hashval (num_buckets tb)) add.

(** The new value of the variable [head] is returned. *)
Definition HASH_ADD_STR (head : option ptr) (add : ptr) : HM (option ptr) :=
  k ← load FKey as_key add;
  update_hh add (fun h => {| h_tbl := h_tbl h; h_key := Some add; h_keylen := Z.of_nat (length k); h_hashv := hash k |});;
  match head with
  | None =>
    set_cell FApp add (CLinks no_links);;
    HASH_MAKE_TABLE add;;
    HASH_ADD_TO_TABLE add (hash k) add;;
    mret (Some add)
  | Some hd =>
    t ← hh_tbl hd;
    update_hh add (set_tbl (Some t));;
    HASH_APPEND_LIST hd add;;
    HASH_ADD_TO_TABLE hd (hash k) add;;
    mret (Some hd)
  end.

Definition HASH_DEL_IN_BKT (a : ptr) (i : Z) (del : ptr) : HM unit :=
  update_bucket a i (fun b => {| hh_head := hh_head b; b_count := u32 (b_count b - 1); expand_mult := expand_mult b |});;
  b ← load_bucket a i;
  l ← load FBkt as_links del;
  (if bool_decide (hh_head b = Some del)
   then update_bucket a i (fun b => {| hh_head := l_next l; b_count := b_count b; expand_mult := expand_mult b |}) else mret tt);;
  (match l_prev l with Some p => update_links FBkt p (set_next (l_next l)) | None => mret tt end);;
  (match l_next l with Some n => update_links FBkt n (set_prev (l_prev l)) | None => mret tt end).

Definition HASH_DEL (head : option ptr) (del : ptr) : HM (option ptr) :=
  l ← load FApp as_links del;
  hd ← deref head;
  t ← hh_tbl hd;
  tb ← load_tbl t;
  match l_prev l, l_next l with
  | None, None => free (tb_buckets tb);; free t;; mret None
  | _, _ =>
    (if bool_decide (tb_tail tb = del) then p ← deref (l_prev l); update_tbl t (set_tail p) else mret tt);;
    head ← (match l_prev l with Some p => update_links FApp p (set_next (l_next l));; mret (Some hd) | None => mret (l_next l) end);
    (match l_next l with Some n => update_links FApp n (set_prev (l_prev l)) | None => mret tt end);;
    h ← load_hh del;
    hd ← deref head;
    t ← hh_tbl hd;
    tb ← load_tbl t;
    HASH_DEL_IN_BKT (tb_buckets tb) (HASH_TO_BKT (h_hashv h) (num_buckets tb)) del;;
    update_tbl t (fun tb => set_num_items (u32 (num_items tb - 1)) tb);;
    mret head
  end.

Definition next_of (p : option ptr) : HM (option ptr) :=
  match p with Some q => l ← load FApp as_links q; mret (l_next l) | None => mret None end.

(** The loop of [HASH_ITER]; the body works on variables [S], and may delete
    the element it is at. *)
Fixpoint HASH_ITER {S} (n : nat) (body : S -> ptr -> HM S) (s : S) (el tmp : option ptr) : HM S :=
  match el with
  | None => mret s
  | Some e =>
    match n with
    | O => diverge
    | Datatypes.S n => s ← body s e; tmp' ← next_of tmp; HASH_ITER n body s tmp tmp'
    end
  end.

Definition for_each {S} (body : S -> ptr -> HM S) (s : S) (head : option ptr) : HM S :=
  tmp ← next_of head;
  n ← fuel;
  HASH_ITER n body s head tmp.

(** [HASH_ITER(hh, head, el, tmp) { HASH_DEL(head, el); free(el); }] *)
Definition free_table (head : option ptr) : HM (option ptr) :=
  for_each (fun head el => head ← HASH_DEL head el; free el;; mret head) head head.

(** The same where [head] is a field of the struct at [p]; [sub] and [with_sub]
    read and write that field. *)
Definition free_sub (sub : V -> option ptr) (with_sub : option ptr -> V -> V) (p : ptr) : HM unit :=
  v ← load_val p;
  for_each (fun _ el => v ← load_val p; head ← HASH_DEL (sub v) el; update_val p (with_sub head);; free el) tt (sub v).

(** A table of structs with tables of their own: [free_sub] for each struct,
    then [HASH_DEL(head, el); free(el)]. *)
Definition free_nested (sub : V -> option ptr) (with_sub : option ptr -> V -> V) (head : option ptr) : HM (option ptr) :=
  for_each (fun head el => free_sub sub with_sub el;; head ← HASH_DEL head el; free el;; mret head) head head.

(** *** [HASH_SRT]

    A merge sort of the list in place: runs of [_hs_insize] elements are merged
    in pairs, until one merge is all there is.  [cmp] is [cmpfcn]. *)
Section sort.
Context (cmp : ptr -> ptr -> HM Z).

Definition after (p : ptr) : HM (option ptr) := l ← load FApp as_links p; mret (l_next l).

(** The run at [_hs_p]: its length and where the next one starts. *)
Fixpoint skip_run (i : nat) (psize : nat) (q : option ptr) : HM (nat * option ptr) :=
  match i, q with
  | O, _ | _, None => mret (psize, q)
  | S i, Some r => q ← after r; skip_run i (S psize) q
  end.

(** Which of the two runs gives the next element, and the pointers after it. *)
Definition pick (p : option ptr) (psize : nat) (q : option ptr) (qsize : nat) : HM (ptr * option ptr * nat * option ptr * nat) :=
  match psize, qsize, q with
  | O, _, _ => e ← deref q; q ← after e; mret (e, p, psize, q, (qsize - 1)%nat)
  | _, O, _ | _, _, None => e ← deref p; p ← after e; mret (e, p, (psize - 1)%nat, q, qsize)
  | _, _, Some r =>
    a ← deref p;
    c ← cmp a r;
    if c <=? 0 then p ← after a; mret (a, p, (psize - 1)%nat, q, qsize) else q ← after r; mret (r, p, psize, q, (qsize - 1)%nat)
  end.

Fixpoint merge_loop (n : nat) (p : option ptr) (psize : nat) (q : option ptr) (qsize : nat) (lst tl : option ptr)
    : HM (option ptr * option ptr * option ptr) :=
  if bool_decide (psize = 0%nat) && (bool_decide (qsize = 0%nat) || bool_decide (q = None)) then mret (q, lst, tl) else
  match n with
  | O => diverge
  | S n =>
    r ← pick p psize q qsize;
    let '(e, p, psize, q, qsize) := r in
    lst ← (match tl with Some t => update_links FApp t (set_next (Some e));; mret lst | None => mret (Some e) end);
    update_links FApp e (set_prev tl);;
    merge_loop n p psize q qsize lst (Some e)
  end.

(** One pass over the list; [fu] bounds the merges and each of them. *)
Fixpoint merge_pass (n fu insize : nat) (p lst tl : option ptr) (nmerges : nat) : HM (option ptr * option ptr * nat) :=
  match p with
  | None => mret (lst, tl, nmerges)
  | Some _ =>
    match n with
    | O => diverge
    | S n =>
      r ← skip_run insize 0 p;
      r ← merge_loop fu p r.1 r.2 insize lst tl;
      let '(q, lst, tl) := r in
      merge_pass n fu insize q lst tl (S nmerges)
    end
  end.

Fixpoint sort_loop (n fu insize : nat) (lst : option ptr) : HM (option ptr * option ptr) :=
  match n with
  | O => diverge
  | S n =>
    r ← merge_pass fu fu insize lst None None 0;
    let '(lst, tl, nmerges) := r in
    (match tl with Some t => update_links FApp t (set_next None) | None => mret tt end);;
    if bool_decide (nmerges <= 1)%nat then mret (lst, tl) else sort_loop n fu (2 * insize) lst
  end.

Definition HASH_SORT (head : option ptr) : HM (option ptr) :=
  match head with
  | None => mret None
  | Some hd =>
    t ← hh_tbl hd;
    fu ← fuel;
    r ← sort_loop fu fu 1 head;
    tl ← deref r.2;
    update_tbl t (set_tail tl);;
    mret r.1
  end.

End sort.

Definition HASH_CNT (head : option ptr) : HM Z :=
  match head with Some hd => t ← hh_tbl hd; tb ← load_tbl t; mret (num_items tb) | None => mret 0 end.

End memory.
Arguments cell : clear implicits.
Arguments mem : clear implicits.
