(* ===== verification/HeapLogic.v ===== *)
(** * HeapLogic: a separation logic for the heap

    Ownership of a field [(p, f) ↦ c], of a block [p ↦B k], and the number of
    blocks that are allocated, [live n].  [hwp] is total: the computation does
    not fault and returns.  [heap_adequate] turns a proof in the logic into a
    statement about the memory. *)
From iris.proofmode Require Export proofmode.
From iris.base_logic.lib Require Export own.
From iris.base_logic.lib Require Import ghost_map ghost_var.
From S2P Require Import Prelude Memory.

(** ** Ghost state *)

Class heapGpreS (V : Type) (Σ : gFunctors) := {
  heap_pre_cells : ghost_mapG Σ (ptr * field) (cell V);
  heap_pre_blocks : ghost_mapG Σ ptr kind;
  heap_pre_live : ghost_varG Σ nat;
}.
#[local] Existing Instances heap_pre_cells heap_pre_blocks heap_pre_live.

Class heapGS (V : Type) (Σ : gFunctors) := {
  heap_pre :: heapGpreS V Σ;
  heap_cells_name : gname;
  heap_blocks_name : gname;
  heap_live_name : gname;
}.

Definition heapΣ (V : Type) : gFunctors := #[ghost_mapΣ (ptr * field) (cell V); ghost_mapΣ ptr kind; ghost_varΣ nat].
#[export] Instance heapΣ_pre V Σ : subG (heapΣ V) Σ -> heapGpreS V Σ.
Proof. solve_inG. Qed.

Section logic.
Context {V : Type} `{HG : !heapGS V Σ}.
Abbreviation mem := (mem V).
Abbreviation cell := (cell V).

Definition field_at (p : ptr) (f : field) (c : cell) : iProp Σ := ghost_map_elem heap_cells_name (p, f) (DfracOwn 1) c.
Definition block (p : ptr) (k : kind) : iProp Σ := ghost_map_elem heap_blocks_name p (DfracOwn 1) k.
Definition live (n : nat) : iProp Σ := ghost_var heap_live_name (1/2) n.

(** Blocks are numbered in the order they are allocated. *)
Definition bounded (m : mem) : Prop :=
  (forall p, (m_next m <= p)%positive -> m_blocks m !! p = None) /\ (forall p f, (m_next m <= p)%positive -> m_cells m !! (p, f) = None).

Definition interp (m : mem) : iProp Σ :=
  ghost_map_auth heap_cells_name 1 (m_cells m) ∗ ghost_map_auth heap_blocks_name 1 (m_blocks m)
  ∗ ghost_var heap_live_name (1/2) (size (m_blocks m)) ∗ ⌜bounded m⌝.

Definition hwp {A} (c : M mem A) (Φ : A -> iProp Σ) : iProp Σ :=
  ∀ m, interp m ==∗ ∃ a m', ⌜c m = Done (a, m')⌝ ∗ interp m' ∗ Φ a.

(** ** Rules *)

Lemma hwp_ret {A} (a : A) Φ : Φ a ⊢ hwp (mret a) Φ.
Proof. iIntros "H %m Hm !>". iExists a, m. by iFrame. Qed.

Lemma hwp_bind {A B} (c : M mem A) (k : A -> M mem B) Φ : hwp c (fun a => hwp (k a) Φ) ⊢ hwp (c ≫= k) Φ.
Proof.
  iIntros "H %m Hm". iMod ("H" with "Hm") as (a m1 Hc) "[Hm H]". iMod ("H" with "Hm") as (b m2 Hk) "[Hm H]".
  iModIntro. iExists b, m2. iFrame. iPureIntro. by rewrite -> (bind_done _ _ _ _ _ Hc).
Qed.

Lemma hwp_mono {A} (c : M mem A) Φ Ψ : hwp c Φ -∗ (∀ a, Φ a -∗ Ψ a) -∗ hwp c Ψ.
Proof.
  iIntros "H HΦ %m Hm". iMod ("H" with "Hm") as (a m' Hc) "[Hm H]". iModIntro. iExists a, m'. iFrame. iSplit; [done|].
  by iApply "HΦ".
Qed.

Lemma hwp_load {A} f (as_ : cell -> option A) p c a Φ :
  as_ c = Some a -> field_at p f c -∗ (field_at p f c -∗ Φ a) -∗ hwp (load f as_ p) Φ.
Proof.
  iIntros (Ha) "Hp HΦ %m (Hc & Hb & Hl & %Hm)". iDestruct (ghost_map_lookup with "Hc Hp") as %Hp. iModIntro. iExists a, m.
  iFrame "Hc Hb Hl". iSplit; [|iSplit; [done|by iApply "HΦ"]]. iPureIntro. unfold load. rewrite -> Hp. cbn. by rewrite -> Ha.
Qed.

Lemma hwp_set f p c c' Φ : field_at p f c -∗ (field_at p f c' -∗ Φ tt) -∗ hwp (set_cell f p c') Φ.
Proof.
  iIntros "Hp HΦ %m (Hc & Hb & Hl & %Hm)". iDestruct (ghost_map_lookup with "Hc Hp") as %Hp.
  iMod (ghost_map_update c' with "Hc Hp") as "[Hc Hp]". iModIntro. iExists tt, _. iSplit; [iPureIntro; unfold set_cell; by rewrite -> Hp|].
  iFrame. iSplit; [|by iApply "HΦ"]. iPureIntro. destruct Hm as [Hm1 Hm2]. split; cbn; [done|]. intros q f' Hq.
  rewrite -> lookup_insert_ne; [by apply Hm2|]. intros [= <- <-]. rewrite -> Hm2 in Hp; done.
Qed.

(** The fields of a new block. *)
Definition fields (p : ptr) (k : kind) (init : field -> cell) : iProp Σ := [∗ list] f ∈ fields_of k, field_at p f (init f).

Lemma init_cells_other p k (init : field -> cell) c q f : q <> p -> init_cells p k init c !! (q, f) = c !! (q, f).
Proof.
  intros Hq. unfold init_cells. generalize (fields_of k). intros fs. induction fs as [|g fs IH]; cbn; [done|].
  rewrite -> lookup_insert_ne by congruence. done.
Qed.

Lemma drop_cells_other (p : ptr) (k : kind) (c : gmap (ptr * field) cell) (q : ptr) (f : field) : q <> p -> drop_cells p k c !! (q, f) = c !! (q, f).
Proof.
  intros Hq. unfold drop_cells. generalize (fields_of k). intros fs. induction fs as [|g fs IH]; cbn; [done|].
  rewrite -> lookup_delete_ne by congruence. done.
Qed.

Lemma cells_alloc p fs init c : NoDup fs -> (forall f, c !! (p, f) = None) ->
  ghost_map_auth heap_cells_name 1 c ==∗
  ghost_map_auth heap_cells_name 1 (foldr (fun f c => <[(p, f) := init f]> c) c fs) ∗ [∗ list] f ∈ fs, field_at p f (init f).
Proof.
  intros Hn Hc. iIntros "H". iInduction Hn as [|g fs Hg Hn] "IH"; cbn; [by iFrame|].
  iMod ("IH" with "H") as "[H Hf]". iMod (ghost_map_insert (p, g) (init g) with "H") as "[$ $]"; [|by iFrame].
  assert (forall fs', g ∉ fs' -> foldr (fun f c => <[(p, f) := init f]> c) c fs' !! (p, g) = None) as Hfs; [|by apply Hfs].
  induction fs' as [|h fs' IH]; cbn; [done|]. rewrite -> not_elem_of_cons. intros [Hh Hfs]. rewrite -> lookup_insert_ne by congruence. by apply IH.
Qed.

Lemma cells_free p fs init c :
  ghost_map_auth heap_cells_name 1 c -∗ ([∗ list] f ∈ fs, field_at p f (init f)) ==∗
  ghost_map_auth heap_cells_name 1 (foldr (fun f c => delete (p, f) c) c fs).
Proof.
  iIntros "H Hf". iInduction fs as [|g fs] "IH"; cbn; [by iFrame|]. iDestruct "Hf" as "[Hg Hf]".
  iMod ("IH" with "H Hf") as "H". by iMod (ghost_map_delete with "H Hg") as "$".
Qed.

Lemma fields_of_NoDup k : NoDup (fields_of k).
Proof. apply (bool_decide_unpack _). by destruct k. Qed.

Lemma hwp_alloc k init n Φ : live n -∗ (∀ p, live (S n) -∗ block p k -∗ fields p k init -∗ Φ p) -∗ hwp (alloc k init) Φ.
Proof.
  iIntros "Hn HΦ %m (Hc & Hb & Hl & [%Hm1 %Hm2])". set (p := m_next m).
  iDestruct (ghost_var_agree with "Hn Hl") as %->.
  iMod (cells_alloc p (fields_of k) init with "Hc") as "[Hc Hf]"; [apply fields_of_NoDup|intros f; apply Hm2; lia|].
  iMod (ghost_map_insert p k with "Hb") as "[Hb Hp]"; [apply Hm1; lia|].
  iMod (ghost_var_update_halves (S (size (m_blocks m))) with "Hn Hl") as "[Hn Hl]".
  iModIntro. iExists p, _. iSplit; [done|]. iFrame "Hc Hb". cbn. rewrite -> map_size_insert_None by (apply Hm1; lia). iFrame "Hl".
  iSplit; [|by iApply ("HΦ" with "Hn Hp Hf")]. iPureIntro. split; cbn; intros q; [|intros f]; intros Hq.
  - rewrite -> lookup_insert_ne by lia. apply Hm1. lia.
  - rewrite -> init_cells_other by lia. apply Hm2. lia.
Qed.

Lemma hwp_free p k init n Φ : live (S n) -∗ block p k -∗ fields p k init -∗ (live n -∗ Φ tt) -∗ hwp (free p) Φ.
Proof.
  iIntros "Hn Hp Hf HΦ %m (Hc & Hb & Hl & [%Hm1 %Hm2])". iDestruct (ghost_var_agree with "Hn Hl") as %Hn.
  iDestruct (ghost_map_lookup with "Hb Hp") as %Hp. iMod (cells_free with "Hc Hf") as "Hc".
  iMod (ghost_map_delete with "Hb Hp") as "Hb". iMod (ghost_var_update_halves n with "Hn Hl") as "[Hn Hl]".
  iModIntro. iExists tt, _. iSplit; [iPureIntro; unfold free; by rewrite -> Hp|]. iFrame "Hc Hb". cbn.
  rewrite -> map_size_delete, -> Hp. replace (Nat.pred (size (m_blocks m))) with n by lia. iFrame "Hl". iSplit; [|by iApply "HΦ"].
  assert (p < m_next m)%positive as Hlt by (apply Pos.lt_nle; intros Hle; by rewrite -> (Hm1 p Hle) in Hp).
  iPureIntro. split; cbn; intros q; [|intros f]; intros Hq.
  - rewrite -> lookup_delete_ne by lia. by apply Hm1.
  - rewrite -> drop_cells_other by lia. by apply Hm2.
Qed.

Lemma block_ne p q k k' : block p k -∗ block q k' -∗ ⌜p <> q⌝.
Proof. apply ghost_map_elem_ne. Qed.

Lemma blocks_NoDup l k : ([∗ list] p ∈ l, block p k) -∗ ⌜NoDup l⌝.
Proof.
  induction l as [|p l IH]; cbn; [iIntros "_"; iPureIntro; constructor|]. iIntros "[Hp Hl]".
  iAssert (⌜p ∉ l⌝)%I as %Hp.
  { iIntros (Hin). apply list_elem_of_lookup in Hin as [i Hi]. iDestruct (big_sepL_lookup _ _ _ _ Hi with "Hl") as "Hq".
    by iDestruct (block_ne with "Hp Hq") as %?. }
  iDestruct (IH with "Hl") as %Hn. iPureIntro. by constructor.
Qed.

(** There is fuel for every list of blocks. *)
Lemma hwp_fuel l k Φ : ([∗ list] p ∈ l, block p k) -∗ (∀ n, ⌜(length l <= n)%nat⌝ -∗ ([∗ list] p ∈ l, block p k) -∗ Φ n) -∗ hwp fuel Φ.
Proof.
  iIntros "Hl HΦ %m (Hc & Hb & Hlv & %Hm)". iDestruct (blocks_NoDup with "Hl") as %Hn.
  iAssert (⌜forall p, p ∈ l -> p ∈ dom (m_blocks m)⌝)%I as %Hsub.
  { iIntros (p Hp). apply list_elem_of_lookup in Hp as [i Hi]. iDestruct (big_sepL_lookup _ _ _ _ Hi with "Hl") as "Hq".
    iDestruct (ghost_map_lookup with "Hb Hq") as %Hq. iPureIntro. by eapply elem_of_dom_2. }
  iModIntro. iExists _, m. iSplit; [done|]. iFrame "Hc Hb Hlv". iSplit; [done|]. iApply ("HΦ" with "[%] Hl").
  rewrite <- size_dom, <- (size_list_to_set (C := gset ptr) l Hn). apply subseteq_size. intros p. rewrite -> elem_of_list_to_set. apply Hsub.
Qed.

End logic.

(** ** Adequacy *)

Lemma heap_init {V} `{!heapGpreS V Σ} : ⊢ |==> ∃ HG : heapGS V Σ, interp mem0 ∗ live 0.
Proof.
  iMod (ghost_map_alloc_empty (K := ptr * field) (V := cell V)) as (γc) "Hc".
  iMod (ghost_map_alloc_empty (K := ptr) (V := kind)) as (γb) "Hb".
  iMod (ghost_var_alloc 0%nat) as (γl) "[Hl1 Hl2]".
  iModIntro. iExists {| heap_cells_name := γc; heap_blocks_name := γb; heap_live_name := γl |}.
  unfold interp, live. cbn. rewrite -> map_size_empty. by iFrame.
Qed.

(** What is proved with no block to start with and none in the end. *)
Lemma heap_adequate {V A} (c : M (mem V) A) (φ : A -> Prop) :
  (forall Σ `{!heapGS V Σ}, live 0 ⊢ hwp c (fun a => live 0 ∗ ⌜φ a⌝)) ->
  exists a m, c mem0 = Done (a, m) /\ m_blocks m = ∅ /\ φ a.
Proof.
  intros H. apply (pure_soundness (PROP := iProp (heapΣ V))). iApply bupd_elim.
  iMod (heap_init (V := V)) as (HG) "[Hm Hl]".
  iMod (H (heapΣ V) HG with "Hl Hm") as (a m Hrun) "((_ & _ & Hl2 & _) & Hl & %Ha)".
  iDestruct (ghost_var_agree with "Hl Hl2") as %Hs.
  iPureIntro. exists a, m. split_and!; [done| |done]. by apply map_size_empty_inv.
Qed.
