(* ===== verification/UthashHeap.v ===== *)
(** * UthashHeap: what the uthash macros implement

    [table hash head es] owns a table whose elements are, in the order of
    insertion, the structs [es] with their keys.  Finding, adding, deleting and
    iterating, on the pointers, do what the lists of Uthash.v do; adding may
    double the number of buckets, and deleting the last element frees the
    table. *)
From S2P Require Import Prelude Memory HeapLogic.
Open Scope Z_scope.

Ltac hbind := iApply hwp_bind.

(** ** Doubly linked lists *)

Definition first (l : list ptr) (b : option ptr) : option ptr := match l with [] => b | q :: _ => Some q end.
Fixpoint lastp (a : option ptr) (l : list ptr) : option ptr := match l with [] => a | q :: l => lastp (Some q) l end.

Lemma first_app l1 l2 b : first (l1 ++ l2) b = first l1 (first l2 b).
Proof. by destruct l1. Qed.

Lemma lastp_snoc a l q : lastp a (l ++ [q]) = Some q.
Proof. revert a. by induction l; cbn. Qed.

Lemma lastp_app a l1 l2 : lastp a (l1 ++ l2) = lastp (lastp a l1) l2.
Proof. revert a. by induction l1; cbn. Qed.

Section heap.
Context {V : Type} `{HG : !heapGS V Σ}.
Abbreviation links_at p f a b := (field_at p f (CLinks {| l_prev := a; l_next := b |})).

(** A stretch of a list, with what is before it and behind it. *)
Fixpoint seg (f : field) (a : option ptr) (l : list ptr) (b : option ptr) : iProp Σ :=
  match l with
  | [] => emp
  | q :: l => links_at q f a (first l b) ∗ seg f (Some q) l b
  end.

Lemma seg_app f a l1 l2 b : seg f a (l1 ++ l2) b ⊣⊢ seg f a l1 (first l2 b) ∗ seg f (lastp a l1) l2 b.
Proof.
  revert a. induction l1 as [|q l1 IH]; intros a; cbn; [by rewrite -> left_id by apply _|]. rewrite -> IH, -> first_app.
  by rewrite -> assoc by apply _.
Qed.

Lemma seg_acc f a l l1 q l2 b : l = l1 ++ q :: l2 ->
  seg f a l b -∗ links_at q f (lastp a l1) (first l2 b) ∗ (links_at q f (lastp a l1) (first l2 b) -∗ seg f a l b).
Proof. iIntros (->) "H". rewrite -> seg_app. iDestruct "H" as "($ & $ & $)". by iIntros "$". Qed.

Lemma hwp_update_links f p a b g Φ :
  links_at p f a b -∗ (field_at p f (CLinks (g {| l_prev := a; l_next := b |})) -∗ Φ tt) -∗ hwp (V := V) (update_links f p g) Φ.
Proof. iIntros "Hp HΦ". hbind. iApply (hwp_load with "Hp"); [done|]. iIntros "Hp". by iApply (hwp_set with "Hp"). Qed.

(** The head of a stretch gets another predecessor, its end another successor. *)
Lemma hwp_seg_first f a a' l b' Φ :
  seg f a l b' -∗ (seg f a' l b' -∗ Φ tt) -∗
  hwp (V := V) (match first l None with Some n => update_links f n (set_prev a') | None => mret tt end) Φ.
Proof.
  destruct l as [|q l]; cbn; iIntros "Hl HΦ"; [iApply hwp_ret; by iApply "HΦ"|]. iDestruct "Hl" as "[Hq Hl]".
  iApply (hwp_update_links with "Hq"). iIntros "Hq". iApply "HΦ". iFrame.
Qed.

Lemma hwp_seg_last f l b b' Φ :
  seg f None l b -∗ (seg f None l b' -∗ Φ tt) -∗
  hwp (V := V) (match lastp None l with Some p => update_links f p (set_next b') | None => mret tt end) Φ.
Proof.
  destruct l as [|q l _] using rev_ind; iIntros "Hl HΦ"; [iApply hwp_ret; by iApply "HΦ"|]. rewrite -> lastp_snoc, -> !seg_app.
  iDestruct "Hl" as "(Hl & Hq & _)". iApply (hwp_update_links with "Hq"). iIntros "Hq". iApply "HΦ". by iFrame.
Qed.

(** ** Tables *)

Context (hash : bytes -> Z).

Definition handle (t : ptr) (e : ptr * bytes) : UT_hash_handle :=
  {| h_tbl := Some t; h_key := Some e.1; h_keylen := Z.of_nat (length e.2); h_hashv := hash e.2 |}.

Definition handles (t : ptr) (es : list (ptr * bytes)) : iProp Σ :=
  [∗ list] e ∈ es, field_at e.1 FKey (CKey e.2) ∗ field_at e.1 FHh (CHh (handle t e)) ∗ block e.1 KElem.

(** Chains [cs] in an array of buckets [bs]. *)
Definition chain (b : UT_hash_bucket) (c : list ptr) : iProp Σ := ⌜hh_head b = first c None⌝ ∗ seg FBkt None c None.
Definition chains (bs : list UT_hash_bucket) (cs : list (list ptr)) : iProp Σ := [∗ list] b;c ∈ bs;cs, chain b c.

(** Every struct is in the chain of its hash value. *)
Definition bucket_of (n : Z) (k : bytes) : nat := Z.to_nat (HASH_TO_BKT (hash k) n).
Definition hashed (n : Z) (es : list (ptr * bytes)) (cs : list (list ptr)) : Prop :=
  forall i c q, cs !! i = Some c -> q ∈ c -> exists k, (q, k) ∈ es /\ bucket_of n k = i.

Definition power2 (n : Z) : Prop := exists k, 0 <= k /\ n = 2 ^ k.

(** The table at [t] of the elements [es], those in [l] are in the buckets. *)
Definition table_at (t : ptr) (es : list (ptr * bytes)) (l : list ptr) : iProp Σ :=
  ∃ tb bs cs, field_at t FTbl (CTbl tb) ∗ block t KTable ∗ field_at (tb_buckets tb) FBuckets (CBuckets bs) ∗ block (tb_buckets tb) KBuckets
    ∗ handles t es ∗ seg FApp None es.*1 None ∗ chains bs cs
    ∗ ⌜power2 (num_buckets tb) /\ Z.of_nat (length bs) = num_buckets tb /\ lastp None es.*1 = Some (tb_tail tb) /\ concat cs ≡ₚ l
       /\ hashed (num_buckets tb) es cs⌝.

(** The variable [head] of a table. *)
Definition table (head : option ptr) (es : list (ptr * bytes)) : iProp Σ :=
  ⌜head = first es.*1 None⌝ ∗ match es with [] => emp | _ => ∃ t, table_at t es es.*1 end.

(** The blocks a table has of its own. *)
Definition overhead (es : list (ptr * bytes)) : nat := match es with [] => 0 | _ => 2 end.

(** ** Arithmetic and lists *)

Lemma power2_pos n : power2 n -> 0 < n.
Proof. intros (k & Hk & ->). lia. Qed.

Lemma power2_double n : power2 n -> power2 (n * 2).
Proof. intros (k & Hk & ->). exists (k + 1). split; [lia|]. rewrite -> Z.pow_add_r by lia. lia. Qed.

Lemma to_bkt_range n h : power2 n -> 0 <= HASH_TO_BKT h n < n.
Proof.
  intros (k & Hk & ->). unfold HASH_TO_BKT.
  replace (2 ^ k - 1) with (Z.ones k) by (rewrite -> Z.ones_equiv; lia). rewrite -> Z.land_ones by done. apply Z.mod_pos_bound. lia.
Qed.

Lemma drop_S_nil {A} (l : list A) i : drop i l = [] -> drop (S i) l = [].
Proof. rewrite <- !length_zero_iff_nil, -> !length_drop. lia. Qed.

Lemma concat_insert (cs : list (list ptr)) i c c' : cs !! i = Some c -> exists r, concat cs ≡ₚ c ++ r /\ concat (<[i := c']> cs) ≡ₚ c' ++ r.
Proof.
  intros Hi. exists (concat (take i cs) ++ concat (drop (S i) cs)). pose proof (lookup_lt_Some _ _ _ Hi). split.
  - rewrite <- (take_drop_middle cs i c Hi) at 1. rewrite -> concat_app. cbn. rewrite -> !app_assoc. f_equiv. apply Permutation_app_comm.
  - rewrite -> insert_take_drop by done. rewrite -> concat_app. cbn. rewrite -> !app_assoc. f_equiv. apply Permutation_app_comm.
Qed.

Lemma key_unique (es : list (ptr * bytes)) q a b : NoDup es.*1 -> (q, a) ∈ es -> (q, b) ∈ es -> a = b.
Proof.
  intros Hn [i Hi]%list_elem_of_lookup [j Hj]%list_elem_of_lookup. assert (i = j) as ->; [|congruence].
  eapply NoDup_lookup; [exact Hn|rewrite -> list_lookup_fmap, -> Hi; done|rewrite -> list_lookup_fmap, -> Hj; done].
Qed.

Lemma hashed_insert n es cs i q c k : hashed n es cs -> cs !! i = Some c -> (q, k) ∈ es -> bucket_of n k = i -> hashed n es (<[i := q :: c]> cs).
Proof.
  intros Hh Hi Hq Hk j c' q' Hj Hq'. destruct (decide (i = j)) as [<-|Hne].
  - rewrite -> list_lookup_insert_eq in Hj by by eapply lookup_lt_Some. injection Hj as <-. apply elem_of_cons in Hq' as [->|Hq']; [by exists k|].
    by eapply Hh.
  - rewrite -> list_lookup_insert_ne in Hj by done. by eapply Hh.
Qed.

Lemma hashed_mono n es es' cs : (forall e, e ∈ es -> e ∈ es') -> hashed n es cs -> hashed n es' cs.
Proof. intros Hsub Hh i c q Hi Hq. destruct (Hh i c q Hi Hq) as (k & Hk & Hb). exists k. auto. Qed.

(** ** Buckets *)

Lemma hwp_load_bucket a i bs b Φ : bs !! Z.to_nat i = Some b ->
  field_at a FBuckets (CBuckets bs) -∗ (field_at a FBuckets (CBuckets bs) -∗ Φ b) -∗ hwp (V := V) (load_bucket a i) Φ.
Proof.
  iIntros (Hb) "Ha HΦ". hbind. iApply (hwp_load with "Ha"); [done|]. iIntros "Ha". cbn. rewrite -> Hb. iApply hwp_ret. by iApply "HΦ".
Qed.

Lemma hwp_update_bucket a i g bs b Φ : bs !! Z.to_nat i = Some b ->
  field_at a FBuckets (CBuckets bs) -∗ (field_at a FBuckets (CBuckets (<[Z.to_nat i := g b]> bs)) -∗ Φ tt) -∗
  hwp (V := V) (update_bucket a i g) Φ.
Proof.
  iIntros (Hb) "Ha HΦ". hbind. iApply (hwp_load with "Ha"); [done|]. iIntros "Ha". cbn. rewrite -> Hb. by iApply (hwp_set with "Ha").
Qed.

Lemma hwp_update_tbl t g tb Φ :
  field_at t FTbl (CTbl tb) -∗ (field_at t FTbl (CTbl (g tb)) -∗ Φ tt) -∗ hwp (V := V) (update_tbl t g) Φ.
Proof. iIntros "Ht HΦ". hbind. iApply (hwp_load with "Ht"); [done|]. iIntros "Ht". by iApply (hwp_set with "Ht"). Qed.

Lemma hwp_update_hh p g h Φ :
  field_at p FHh (CHh h) -∗ (field_at p FHh (CHh (g h)) -∗ Φ tt) -∗ hwp (V := V) (update_hh p g) Φ.
Proof. iIntros "Hp HΦ". hbind. iApply (hwp_load with "Hp"); [done|]. iIntros "Hp". by iApply (hwp_set with "Hp"). Qed.

Lemma hwp_hh_tbl t es hd Φ : hd ∈ es.*1 -> handles t es -∗ (handles t es -∗ Φ t) -∗ hwp (V := V) (hh_tbl hd) Φ.
Proof.
  iIntros ([[q k] [-> [i Hi]%list_elem_of_lookup]]%list_elem_of_fmap) "Hh HΦ". hbind.
  iDestruct (big_sepL_lookup_acc _ _ _ _ Hi with "Hh") as "[(Hk & Hq & Hb) Hh]".
  iApply (hwp_load with "Hq"); [done|]. iIntros "Hq". cbn. iApply hwp_ret. iApply "HΦ". iApply "Hh". iFrame.
Qed.

Lemma handles_blocks t es : handles t es -∗ ([∗ list] p ∈ es.*1, block p KElem) ∗ (([∗ list] p ∈ es.*1, block p KElem) -∗ handles t es).
Proof.
  unfold handles. rewrite -> big_sepL_fmap, -> !big_sepL_sep. iIntros "($ & $ & $)". by iIntros "$".
Qed.

Lemma handles_NoDup t es : handles t es -∗ ⌜NoDup es.*1⌝.
Proof. iIntros "H". iDestruct (handles_blocks with "H") as "[H _]". by iApply blocks_NoDup. Qed.

(** There is fuel for the structs of a table. *)
Lemma hwp_fuel_handles t es Φ : handles t es -∗ (∀ n, ⌜(length es <= n)%nat⌝ -∗ handles t es -∗ Φ n) -∗ hwp (V := V) fuel Φ.
Proof.
  iIntros "Hh HΦ". iDestruct (handles_blocks with "Hh") as "[Hb Hh]". iApply (hwp_fuel with "Hb"). iIntros (n Hn) "Hb".
  rewrite -> length_fmap in Hn. iApply ("HΦ" with "[//]"). by iApply "Hh".
Qed.

(** ** Finding *)

Lemma hwp_same_key t es q k key Φ : (q, k) ∈ es ->
  handles t es -∗ (handles t es -∗ Φ (bool_decide (k = key))) -∗ hwp (V := V) (same_key hash q key) Φ.
Proof.
  iIntros ([i Hi]%list_elem_of_lookup) "Hh HΦ". iDestruct (big_sepL_lookup_acc _ _ _ _ Hi with "Hh") as "[(Hk & Hq & Hb) Hh]". cbn.
  hbind. iApply (hwp_load with "Hq"); [done|]. iIntros "Hq". cbn. destruct (Z.eqb_spec (hash k) (hash key)) as [Hhash|Hne]; cbn.
  - destruct (Z.eqb_spec (Z.of_nat (length k)) (Z.of_nat (length key))) as [Hlen|Hne].
    + iApply hwp_bind. iApply hwp_ret. iApply hwp_bind. iApply (hwp_load with "Hk"); [done|]. iIntros "Hk". iApply hwp_ret.
      rewrite -> Nat2Z.id, -> firstn_all. iApply "HΦ". iApply "Hh". iFrame.
    + iApply hwp_ret. rewrite -> bool_decide_false by congruence. iApply "HΦ". iApply "Hh". iFrame.
  - iApply hwp_ret. rewrite -> bool_decide_false by congruence. iApply "HΦ". iApply "Hh". iFrame.
Qed.

Lemma hwp_find_in_bkt t es c n a key Φ : (length c <= n)%nat -> (forall q, q ∈ c -> exists k, (q, k) ∈ es) ->
  handles t es -∗ seg FBkt a c None -∗
  (∀ r, ⌜match r with Some q => q ∈ c /\ (q, key) ∈ es | None => forall q, q ∈ c -> (q, key) ∉ es end⌝ -∗
    handles t es -∗ seg FBkt a c None -∗ Φ r) -∗
  hwp (V := V) (HASH_FIND_IN_BKT hash n (first c None) key) Φ.
Proof.
  iIntros (Hn Hc) "Hh Hs HΦ". iInduction c as [|q c] "IH" forall (n a Hn Hc); destruct n as [|n]; cbn in Hn; try lia; cbn.
  - iApply hwp_ret. iApply ("HΦ" with "[%] Hh Hs"). by intros q ?%elem_of_nil.
  - iApply hwp_ret. iApply ("HΦ" with "[%] Hh Hs"). by intros q ?%elem_of_nil.
  - destruct (Hc q ltac:(left)) as [k Hk]. hbind. iApply (hwp_same_key with "Hh"); [done|]. iIntros "Hh". case_bool_decide as Hkey.
    + subst key. iApply hwp_ret. iApply ("HΦ" with "[%] Hh Hs"). split; [left|done].
    + iDestruct "Hs" as "[Hq Hs]". hbind. iApply (hwp_load with "Hq"); [done|]. iIntros "Hq". cbn.
      iDestruct (handles_NoDup with "Hh") as %Hnd.
      iApply ("IH" with "[%] [%] Hh Hs"); [lia|intros q' Hq'; apply Hc; by right|]. iIntros (r Hr) "Hh Hs".
      iApply ("HΦ" with "[%] Hh [$Hq $Hs]"). destruct r as [r|]; [destruct Hr; split; [by right|done]|].
      intros q' [->|Hq']%elem_of_cons; [|by apply Hr]. intros Hin. apply Hkey. by eapply key_unique.
Qed.

(** A struct with the key is in the chain of the key. *)
Lemma hashed_complete n es cs q key : hashed n es cs -> concat cs ≡ₚ es.*1 -> NoDup es.*1 -> (q, key) ∈ es ->
  exists c, cs !! bucket_of n key = Some c /\ q ∈ c.
Proof.
  intros Hh Hp Hn Hq. assert (q ∈ concat cs) as Hin by (rewrite -> Hp; apply list_elem_of_fmap; by exists (q, key)).
  rewrite -> list_elem_of_In, -> in_concat in Hin. destruct Hin as (c & [i Hi]%list_elem_of_In%list_elem_of_lookup & Hqc%list_elem_of_In). destruct (Hh i c q Hi Hqc) as (k & Hk & <-).
  rewrite -> (key_unique es q key k) by done. by exists c.
Qed.

Lemma chains_lookup bs cs i : (i < length bs)%nat -> chains bs cs -∗ ∃ b c, ⌜bs !! i = Some b /\ cs !! i = Some c⌝ ∗ chains bs cs.
Proof.
  iIntros (Hi) "H". iDestruct (big_sepL2_length with "H") as %Hl. destruct (lookup_lt_is_Some_2 bs i Hi) as [b Hb].
  destruct (lookup_lt_is_Some_2 cs i ltac:(lia)) as [c Hc]. iExists b, c. by iFrame.
Qed.

Lemma bucket_lt n k m : power2 n -> Z.of_nat m = n -> (bucket_of n k < m)%nat.
Proof. intros Hp Hm. unfold bucket_of. pose proof (to_bkt_range n (hash k) Hp). lia. Qed.

Lemma hashed_sub n es cs i c : hashed n es cs -> cs !! i = Some c -> forall q, q ∈ c -> exists k, (q, k) ∈ es.
Proof. intros Hh Hi q Hq. destruct (Hh i c q Hi Hq) as (k & Hk & _). by exists k. Qed.

Lemma length_chain cs i c (l : list ptr) : concat cs ≡ₚ l -> cs !! i = Some c -> (length c <= length l)%nat.
Proof. intros Hp Hi. destruct (concat_insert cs i c [] Hi) as (r & Hr & _). rewrite <- Hp, -> Hr, -> length_app. lia. Qed.

Lemma table_open head es : es <> [] -> table head es -∗ ∃ hd t tb bs cs, ⌜head = Some hd /\ first es.*1 None = Some hd /\ hd ∈ es.*1⌝
  ∗ field_at t FTbl (CTbl tb) ∗ block t KTable ∗ field_at (tb_buckets tb) FBuckets (CBuckets bs) ∗ block (tb_buckets tb) KBuckets
  ∗ handles t es ∗ seg FApp None es.*1 None ∗ chains bs cs
  ∗ ⌜power2 (num_buckets tb) /\ Z.of_nat (length bs) = num_buckets tb /\ lastp None es.*1 = Some (tb_tail tb) /\ concat cs ≡ₚ es.*1
     /\ hashed (num_buckets tb) es cs⌝.
Proof.
  destruct es as [|e es]; [done|]. iIntros (_) "[-> (%t & %tb & %bs & %cs & H)]". iExists e.1, t, tb, bs, cs. iFrame.
  iPureIntro. split_and!; [done..|left].
Qed.

Lemma table_close head es t : es <> [] -> head = first es.*1 None -> table_at t es es.*1 ⊢ table head es.
Proof. iIntros (Hes ->) "H". iSplit; [done|]. destruct es; [done|]. by iExists t. Qed.

Lemma hwp_find head es key Φ :
  table head es -∗
  (∀ r, ⌜match r with Some q => (q, key) ∈ es | None => key ∉ es.*2 end⌝ -∗ table head es -∗ Φ r) -∗
  hwp (V := V) (HASH_FIND_STR hash head key) Φ.
Proof.
  iIntros "H HΦ". destruct (decide (es = [])) as [->|Hes].
  { iDestruct "H" as "[-> H]". iApply hwp_ret. iApply ("HΦ" with "[%] [$H //]"). apply not_elem_of_nil. }
  iDestruct (table_open with "H") as (hd t tb bs cs) "(%Hhd & Ht & HT & Hb & HB & Hh & Ha & Hc & %Hok)"; [done|].
  destruct Hhd as (-> & Hfirst & Hin), Hok as (Hpow & Hlen & Htail & Hperm & Hhash).
  hbind. iApply (hwp_hh_tbl with "Hh"); [done|]. iIntros "Hh".
  hbind. iApply (hwp_load with "Ht"); [done|]. iIntros "Ht".
  iDestruct (chains_lookup _ _ (bucket_of (num_buckets tb) key) with "Hc") as (b c [Hbi Hci]) "Hc"; [by apply bucket_lt|].
  hbind. iApply (hwp_load_bucket with "Hb"); [exact Hbi|]. iIntros "Hb". hbind. iApply (hwp_fuel_handles with "Hh"). iIntros (n Hn) "Hh".
  iDestruct (handles_NoDup with "Hh") as %Hnd.
  iDestruct (big_sepL2_lookup_acc _ _ _ _ _ _ Hbi Hci with "Hc") as "[[%Hhd Hs] Hc]". rewrite -> Hhd.
  iApply (hwp_find_in_bkt with "Hh Hs"); [etrans; [by eapply length_chain|rewrite -> length_fmap; done]|by eapply hashed_sub|].
  iIntros (r Hr) "Hh Hs". iApply ("HΦ" with "[%]").
  - destruct r as [q|]; [by destruct Hr|]. intros ([q k] & -> & Hq)%list_elem_of_fmap.
    destruct (hashed_complete _ _ _ _ _ Hhash Hperm Hnd Hq) as (c' & Hc' & Hqc). cbn in Hc', Hci. rewrite -> Hci in Hc'. injection Hc' as <-.
    by apply (Hr q).
  - iApply (table_close _ _ t); [done|done|]. iExists tb, bs, cs. iFrame. iSplit; [|done]. iApply "Hc". by iFrame.
Qed.

(** ** Adding *)

(** The struct [q] becomes the first of chain [i]. *)
Lemma hwp_push {A} a i bs cs b c q l g (rest : M (mem V) A) Φ :
  bs !! Z.to_nat i = Some b -> cs !! Z.to_nat i = Some c -> (forall b', hh_head (g b') = Some q) ->
  field_at a FBuckets (CBuckets bs) -∗ chains bs cs -∗ field_at q FBkt (CLinks l) -∗
  (field_at a FBuckets (CBuckets (<[Z.to_nat i := g b]> bs)) -∗ chains (<[Z.to_nat i := g b]> bs) (<[Z.to_nat i := q :: c]> cs) -∗ hwp rest Φ) -∗
  hwp (set_cell FBkt q (CLinks {| l_prev := None; l_next := hh_head b |});;
       (match hh_head b with Some r => update_links FBkt r (set_prev (Some q)) | None => mret tt end);;
       update_bucket a i g;; rest) Φ.
Proof.
  iIntros (Hb Hc Hg) "Ha Hcs Hq HΦ". iDestruct (big_sepL2_insert_acc _ _ _ _ _ _ Hb Hc with "Hcs") as "[[%Hhd Hs] Hcs]". rewrite -> Hhd.
  hbind. iApply (hwp_set with "Hq"). iIntros "Hq". hbind. iApply (hwp_seg_first with "Hs"). iIntros "Hs".
  hbind. iApply (hwp_update_bucket with "Ha"); [exact Hb|]. iIntros "Ha". iApply ("HΦ" with "Ha"). iApply "Hcs". iSplit; [iPureIntro; apply Hg|]. iFrame.
Qed.

(** What an expansion leaves alone. *)
Definition same_table (tb tb' : UT_hash_table) : Prop :=
  tb_buckets tb' = tb_buckets tb /\ num_buckets tb' = num_buckets tb /\ tb_tail tb' = tb_tail tb.

Lemma hwp_expand_chain t news es c n a tb bs cs Φ :
  (length c <= n)%nat -> (forall q, q ∈ c -> exists k, (q, k) ∈ es) -> power2 (num_buckets tb) -> Z.of_nat (length bs) = num_buckets tb * 2 ->
  hashed (num_buckets tb * 2) es cs ->
  field_at t FTbl (CTbl tb) -∗ handles t es -∗ seg FBkt a c None -∗ field_at news FBuckets (CBuckets bs) -∗ chains bs cs -∗
  (∀ tb' bs' cs', ⌜same_table tb tb' /\ length bs' = length bs /\ concat cs' ≡ₚ c ++ concat cs /\ hashed (num_buckets tb * 2) es cs'⌝ -∗
     field_at t FTbl (CTbl tb') -∗ handles t es -∗ field_at news FBuckets (CBuckets bs') -∗ chains bs' cs' -∗ Φ tt) -∗
  hwp (V := V) (expand_chain n t news (first c None)) Φ.
Proof.
  iIntros (Hn Hc Hp Hl Hh) "Ht Hh Hs Ha Hcs HΦ".
  iInduction c as [|q c] "IH" forall (n a tb bs cs Hn Hc Hp Hl Hh); destruct n as [|n]; cbn in Hn; try lia; cbn [expand_chain first].
  1, 2: iApply hwp_ret; by iApply ("HΦ" with "[%] Ht Hh Ha Hcs").
  destruct (Hc q ltac:(left)) as [k Hk]. cbn. iDestruct "Hs" as "[Hq Hs]". hbind. iApply (hwp_load with "Hq"); [done|]. iIntros "Hq".
  pose proof Hk as [j Hj]%list_elem_of_lookup. iDestruct (big_sepL_lookup_acc _ _ _ _ Hj with "Hh") as "[(Hkey & Hhh & Hblk) Hh]".
  hbind. iApply (hwp_load with "Hhh"); [done|]. iIntros "Hhh". iDestruct ("Hh" with "[$Hkey $Hhh $Hblk]") as "Hh".
  hbind. iApply (hwp_load with "Ht"); [done|]. iIntros "Ht". cbn.
  assert (bucket_of (num_buckets tb * 2) k < length bs)%nat as Hi by (by apply bucket_lt; [apply power2_double|]).
  iDestruct (chains_lookup _ _ _ Hi with "Hcs") as (b c0 [Hb Hc0]) "Hcs".
  hbind. iApply (hwp_load_bucket with "Ha"); [exact Hb|]. iIntros "Ha".
  set (above := ideal_chain_maxlen tb <? u32 (b_count b + 1)).
  iAssert (∀ Ψ, (∀ tb', ⌜same_table tb tb'⌝ -∗ field_at t FTbl (CTbl tb') -∗ Ψ tt) -∗
    hwp (V := V) (if above then update_tbl t (set_ideal (ideal_chain_maxlen tb) (u32 (nonideal_items tb + 1))) else mret tt) Ψ)%I
    with "[Ht]" as "Hcount".
  { iIntros (Ψ) "HΨ". destruct above; [iApply (hwp_update_tbl with "Ht"); iIntros "Ht"|iApply hwp_ret]; by iApply ("HΨ" with "[%] Ht"). }
  hbind. iApply "Hcount". iIntros (tb' (Hsame1 & Hsame2 & Hsame3)) "Ht". iApply (hwp_push with "Ha Hcs Hq"); [exact Hb|exact Hc0|done|].
  iIntros "Ha Hcs". rewrite <- Hsame2 in *.
  iApply ("IH" with "[%] [%] [%] [%] [%] Ht Hh Hs Ha Hcs"); [lia|intros q' Hq'; apply Hc; by right|done|by rewrite -> length_insert|by eapply hashed_insert|].
  iIntros (tb2 bs' cs' ((Hs1 & Hs2 & Hs3) & Hl' & Hp' & Hh')) "Ht Hh Ha Hcs". iApply ("HΦ" with "[%] Ht Hh Ha Hcs").
  rewrite -> length_insert in Hl'. split_and!; [split_and!; congruence|done| |done].
  destruct (concat_insert cs _ c0 (q :: c0) Hc0) as (r & Hr1 & Hr2). rewrite -> Hp', -> Hr2, -> Hr1. cbn. symmetry. apply Permutation_middle.
Qed.

Lemma hwp_expand_loop t news es l n i tb obs ocs bs cs Φ :
  (n + i)%nat = length obs -> (length l <= length es)%nat -> power2 (num_buckets tb) -> hashed (num_buckets tb) es ocs ->
  Z.of_nat (length bs) = num_buckets tb * 2 -> hashed (num_buckets tb * 2) es cs -> concat (drop i ocs) ++ concat cs ≡ₚ l ->
  field_at t FTbl (CTbl tb) -∗ handles t es -∗ field_at (tb_buckets tb) FBuckets (CBuckets obs) -∗ chains (drop i obs) (drop i ocs) -∗
  field_at news FBuckets (CBuckets bs) -∗ chains bs cs -∗
  (∀ tb' bs' cs', ⌜same_table tb tb' /\ length bs' = length bs /\ concat cs' ≡ₚ l /\ hashed (num_buckets tb * 2) es cs'⌝ -∗
     field_at t FTbl (CTbl tb') -∗ handles t es -∗ field_at (tb_buckets tb) FBuckets (CBuckets obs) -∗
     field_at news FBuckets (CBuckets bs') -∗ chains bs' cs' -∗ Φ tt) -∗
  hwp (V := V) (expand_loop n t news (Z.of_nat i)) Φ.
Proof.
  iIntros (Hn Hle Hp Ho Hl Hh Hperm) "Ht Hh Hob Hoc Ha Hcs HΦ".
  iInduction n as [|n] "IH" forall (i tb bs cs Hn Hp Ho Hl Hh Hperm); cbn [expand_loop].
  { iDestruct (big_sepL2_length with "Hoc") as %Hol. rewrite -> !length_drop in Hol. rewrite -> (drop_ge ocs) in Hperm by lia.
    iApply hwp_ret. by iApply ("HΦ" with "[%] Ht Hh Hob Ha Hcs"). }
  hbind. iApply (hwp_load with "Ht"); [done|]. iIntros "Ht".
  destruct (lookup_lt_is_Some_2 obs i ltac:(lia)) as [b Hb]. rewrite -> (drop_S obs b i Hb).
  iDestruct (big_sepL2_cons_inv_l with "Hoc") as (c ocs' Hocs) "[[%Hhd Hs] Hoc]".
  assert (ocs !! i = Some c) as Hc by (rewrite <- (Nat.add_0_r i), <- lookup_drop, -> Hocs; done).
  rewrite -> (drop_S ocs c i Hc) in Hocs, Hperm. injection Hocs as <-. cbn in Hperm.
  hbind. iApply (hwp_load_bucket with "Hob"); [by rewrite -> Nat2Z.id|]. iIntros "Hob". hbind. iApply (hwp_fuel_handles with "Hh").
  iIntros (fu Hfu) "Hh". hbind. rewrite -> Hhd.
  iApply (hwp_expand_chain with "Ht Hh Hs Ha Hcs"); [|by apply (hashed_sub _ es ocs i c Ho)|done..|].
  { rewrite <- Hperm, -> !length_app in Hle. lia. }
  iIntros (tb' bs' cs' ((Hs1 & Hs2 & Hs3) & Hl' & Hp' & Hh')) "Ht Hh Ha Hcs".
  replace (Z.of_nat i + 1) with (Z.of_nat (S i)) by lia. rewrite <- Hs1, <- Hs2 in *.
  iApply ("IH" with "[%] [%] [%] [%] [%] [%] Ht Hh Hob Hoc Ha Hcs"); [lia|done|done|congruence|done| |].
  { rewrite <- Hperm, -> Hp'. rewrite -> !app_assoc. f_equiv. apply Permutation_app_comm. }
  iIntros (tb2 bs2 cs2 ((Hs4 & Hs5 & Hs6) & Hl2 & Hp2 & Hh2)) "Ht Hh Hob Ha Hcs". iApply ("HΦ" with "[%] Ht Hh Hob Ha Hcs").
  split_and!; [split_and!; congruence|congruence|done|done].
Qed.

(** New arrays are empty. *)
Lemma chains_empty n : ⊢ chains (replicate n no_bucket) (replicate n []).
Proof. iInduction n as [|n] "IH"; cbn; [done|]. iFrame "IH". by iSplit. Qed.

Lemma hashed_empty m es n : hashed m es (replicate n []).
Proof. intros i c q [-> _]%lookup_replicate Hq. by apply elem_of_nil in Hq. Qed.

Lemma concat_empty n : concat (replicate n ([] : list ptr)) = [].
Proof. by induction n. Qed.

Lemma fields_one p k f (c : cell V) : fields_of k = [f] -> fields p k (fun _ => c) ⊣⊢ field_at p f c.
Proof. intros Hf. unfold fields. rewrite -> Hf. apply big_sepL_singleton. Qed.

Lemma hwp_expand t es l n Φ : (length l <= length es)%nat ->
  live n -∗ table_at t es l -∗ (live n -∗ table_at t es l -∗ Φ tt) -∗ hwp (V := V) (HASH_EXPAND_BUCKETS t) Φ.
Proof.
  iIntros (Hle) "Hn (%tb & %bs & %cs & Ht & HT & Hb & HB & Hh & Ha & Hc & %Hok) HΦ". destruct Hok as (Hpow & Hlen & Htail & Hperm & Hhash).
  pose proof (power2_pos _ Hpow). unfold HASH_EXPAND_BUCKETS. hbind. iApply (hwp_load with "Ht"); [done|]. iIntros "Ht".
  hbind. iApply (hwp_alloc with "Hn"). iIntros (news) "Hn HN Hf". rewrite -> (fields_one _ _ FBuckets) by done.
  hbind. iApply (hwp_update_tbl with "Ht"). iIntros "Ht". hbind.
  replace 0 with (Z.of_nat 0) by done.
  iApply (hwp_expand_loop t news es l _ 0 _ bs cs _ (replicate (Z.to_nat (num_buckets tb * 2)) [])
    with "Ht Hh Hb Hc Hf []"); cbn [num_buckets set_ideal]; [lia|done..|rewrite -> length_replicate; lia|apply hashed_empty| |iApply chains_empty|].
  { by rewrite -> drop_0, -> concat_empty, -> app_nil_r. }
  iIntros (tb' bs' cs' ((Hs1 & Hs2 & Hs3) & Hl' & Hp' & Hh')) "Ht Hh Hb Hf Hc". cbn in Hs1, Hs2, Hs3. rewrite -> length_replicate in Hl'.
  hbind. iApply (hwp_load with "Ht"); [done|]. iIntros "Ht". rewrite -> Hs1. hbind.
  iApply (hwp_free _ _ (fun _ => CBuckets bs) with "Hn HB [Hb]"); [by rewrite -> (fields_one _ _ FBuckets)|]. iIntros "Hn".
  iApply (hwp_update_tbl with "Ht"). iIntros "Ht". iApply ("HΦ" with "Hn"). iExists _, bs', cs'. iFrame "Ht". cbn. iFrame. iPureIntro.
  rewrite -> Hs2, -> Hs3. split_and!; [by apply power2_double|lia|done..].
Qed.

Lemma table_at_perm t es l l' : l ≡ₚ l' -> table_at t es l ⊢ table_at t es l'.
Proof. iIntros (Hl) "(%tb & %bs & %cs & H)". iExists tb, bs, cs. rewrite -> Hl. iFrame. Qed.

(** The count of a bucket is no part of its chain. *)
Lemma chains_count bs cs i b b' : bs !! i = Some b -> hh_head b' = hh_head b -> chains bs cs -∗ chains (<[i := b']> bs) cs.
Proof.
  iIntros (Hb Hb') "H". iDestruct (big_sepL2_length with "H") as %Hl. pose proof (lookup_lt_Some _ _ _ Hb).
  destruct (lookup_lt_is_Some_2 cs i ltac:(lia)) as [c Hc]. iDestruct (big_sepL2_insert_acc _ _ _ _ _ _ Hb Hc with "H") as "[[%Hh Hs] H]".
  iSpecialize ("H" $! b' c). rewrite -> (list_insert_id cs i c Hc). iApply "H". iSplit; [by rewrite -> Hb'|done].
Qed.

Lemma hwp_add_to_table t es l hd q k lk n Φ : hd ∈ es.*1 -> (q, k) ∈ es -> (length l < length es)%nat ->
  live n -∗ table_at t es l -∗ field_at q FBkt (CLinks lk) -∗ (live n -∗ table_at t es (q :: l) -∗ Φ tt) -∗
  hwp (V := V) (HASH_ADD_TO_TABLE hd (hash k) q) Φ.
Proof.
  iIntros (Hhd Hq Hle) "Hn (%tb & %bs & %cs & Ht & HT & Hb & HB & Hh & Ha & Hc & %Hok) Hlk HΦ".
  destruct Hok as (Hpow & Hlen & Htail & Hperm & Hhash). unfold HASH_ADD_TO_TABLE, HASH_ADD_TO_BKT.
  hbind. iApply (hwp_hh_tbl with "Hh"); [done|]. iIntros "Hh". hbind. iApply (hwp_update_tbl with "Ht"). iIntros "Ht".
  hbind. iApply (hwp_load with "Ht"); [done|]. iIntros "Ht". hbind. iApply (hwp_load with "Ht"); [done|]. iIntros "Ht". cbn [tb_buckets num_buckets set_num_items].
  iDestruct (chains_lookup _ _ (bucket_of (num_buckets tb) k) with "Hc") as (b c [Hbi Hci]) "Hc"; [by apply bucket_lt|].
  pose proof (lookup_lt_Some _ _ _ Hbi) as Hi.
  hbind. iApply (hwp_update_bucket with "Hb"); [exact Hbi|]. iIntros "Hb". iDestruct (chains_count with "Hc") as "Hc"; [exact Hbi|shelve|].
  hbind. iApply (hwp_load_bucket with "Hb"); [by apply list_lookup_insert_eq|]. iIntros "Hb".
  iApply (hwp_push with "Hb Hc Hlk"); [by apply list_lookup_insert_eq|exact Hci|done|]. iIntros "Hb Hc".
  destruct (concat_insert cs _ c (q :: c) Hci) as (r & Hr1 & Hr2).
  iAssert (table_at t es (q :: l)) with "[Ht HT Hb HB Hh Ha Hc]" as "H".
  { iExists _, _, _. iFrame "Ht". iFrame. iPureIntro. cbn. rewrite -> !length_insert.
    split_and!; [done..| |by eapply hashed_insert]. by rewrite -> Hr2, <- Hperm, -> Hr1. }
  case_match; [iApply (hwp_expand with "Hn H [HΦ]"); [cbn; lia|iIntros "Hn H"]|iApply hwp_ret]; iApply ("HΦ" with "Hn H").
  Unshelve. done.
Qed.

Lemma handles_snoc t es e : handles t (es ++ [e]) ⊣⊢ handles t es ∗ field_at e.1 FKey (CKey e.2) ∗ field_at e.1 FHh (CHh (handle t e)) ∗ block e.1 KElem.
Proof. unfold handles. rewrite -> big_sepL_app, -> big_sepL_singleton. done. Qed.

(** A struct from [calloc] whose key is set. *)
Definition loose (q : ptr) (k : bytes) : iProp Σ :=
  field_at q FKey (CKey k) ∗ (∃ h, field_at q FHh (CHh h)) ∗ (∃ l, field_at q FApp (CLinks l)) ∗ (∃ l, field_at q FBkt (CLinks l)) ∗ block q KElem.

Lemma hwp_make_table q h Φ n :
  live n -∗ field_at q FHh (CHh h) -∗
  (∀ t b tb, ⌜tb_buckets tb = b /\ num_buckets tb = 32 /\ tb_tail tb = q⌝ -∗ live (S (S n)) -∗ field_at q FHh (CHh (set_tbl (Some t) h)) -∗
    field_at t FTbl (CTbl tb) -∗ block t KTable -∗ field_at b FBuckets (CBuckets (replicate 32 no_bucket)) -∗ block b KBuckets -∗ Φ tt) -∗
  hwp (V := V) (HASH_MAKE_TABLE q) Φ.
Proof.
  iIntros "Hn Hh HΦ". hbind. iApply (hwp_alloc with "Hn"). iIntros (t) "Hn HT Ht". rewrite -> (fields_one _ _ FTbl) by done.
  hbind. iApply (hwp_update_hh with "Hh"). iIntros "Hh". hbind. iApply (hwp_alloc with "Hn"). iIntros (b) "Hn HB Hb".
  rewrite -> (fields_one _ _ FBuckets) by done. iApply (hwp_update_tbl with "Ht"). iIntros "Ht".
  by iApply ("HΦ" $! t b _ with "[%] Hn Hh Ht HT Hb HB").
Qed.

Lemma hwp_append_list t es hd q lk tb Φ : hd ∈ es.*1 -> lastp None es.*1 = Some (tb_tail tb) ->
  handles t es -∗ field_at t FTbl (CTbl tb) -∗ seg FApp None es.*1 None -∗ field_at q FApp (CLinks lk) -∗
  (handles t es -∗ field_at t FTbl (CTbl (set_tail q tb)) -∗ seg FApp None (es.*1 ++ [q]) None -∗ Φ tt) -∗
  hwp (V := V) (HASH_APPEND_LIST hd q) Φ.
Proof.
  iIntros (Hhd Htail) "Hh Ht Ha Hq HΦ". hbind. iApply (hwp_hh_tbl with "Hh"); [done|]. iIntros "Hh".
  hbind. iApply (hwp_load with "Ht"); [done|]. iIntros "Ht". hbind. iApply (hwp_set with "Hq"). iIntros "Hq". hbind.
  iPoseProof (hwp_seg_last FApp es.*1 None (Some q) with "Ha") as "Ha". rewrite -> Htail. iApply "Ha". iIntros "Ha".
  iApply (hwp_update_tbl with "Ht"). iIntros "Ht". iApply ("HΦ" with "Hh Ht"). rewrite -> seg_app, -> Htail. cbn. iFrame.
Qed.

Lemma handles_mono_hashed m es e cs : hashed m es cs -> hashed m (es ++ [e]) cs.
Proof. apply hashed_mono. intros e' He. apply elem_of_app. by left. Qed.

Lemma hwp_add head es q k n Φ :
  live (n + overhead es) -∗ table head es -∗ loose q k -∗
  (∀ head', live (n + overhead (es ++ [(q, k)])) -∗ table head' (es ++ [(q, k)]) -∗ Φ head') -∗
  hwp (V := V) (HASH_ADD_STR hash head q) Φ.
Proof.
  iIntros "Hn H (Hk & (%h & Hh) & (%la & Hqa) & (%lb & Hqb) & HQ) HΦ". hbind. iApply (hwp_load with "Hk"); [done|]. iIntros "Hk".
  hbind. iApply (hwp_update_hh with "Hh"). iIntros "Hhq". destruct (decide (es = [])) as [->|Hes].
  - iDestruct "H" as "[-> _]". cbn [first fmap list_fmap overhead app]. rewrite -> Nat.add_0_r. hbind. iApply (hwp_set with "Hqa"). iIntros "Hqa".
    hbind. iApply (hwp_make_table with "Hn Hhq"). iIntros (t b tb (Hb & Hnb & Htl)) "Hn Hhq Ht HT Hbs HB". subst b.
    hbind. iApply (hwp_add_to_table t [(q, k)] [] with "Hn [- HΦ Hqb] Hqb"); [left|left|cbn; lia| |].
    { iExists tb, _, (replicate 32 []). iFrame "Ht HT Hbs HB". cbn. iFrame. iSplit; [iApply (chains_empty 32)|].
      iPureIntro. rewrite -> Hnb, -> Htl. split_and!; [by exists 5|done..|apply (hashed_empty _ _ 32)]. }
    iIntros "Hn H". iApply hwp_ret. rewrite -> (Nat.add_comm n 2). iApply ("HΦ" with "Hn"). by iApply (table_close _ _ t).
  - iDestruct (table_open with "H") as (hd t tb bs cs) "(%Hhd & Ht & HT & Hb & HB & Hh & Ha & Hc & %Hok)"; [done|].
    destruct Hhd as (-> & Hfirst & Hin), Hok as (Hpow & Hlen & Htail & Hperm & Hhash).
    hbind. iApply (hwp_hh_tbl with "Hh"); [done|]. iIntros "Hh". hbind. iApply (hwp_update_hh with "Hhq"). iIntros "Hhq".
    hbind. iApply (hwp_append_list with "Hh Ht Ha Hqa"); [done..|]. iIntros "Hh Ht Ha".
    hbind. iApply (hwp_add_to_table t (es ++ [(q, k)]) es.*1 with "Hn [- HΦ Hqb] Hqb").
    { rewrite -> fmap_app. apply elem_of_app. by left. }
    { apply elem_of_app. right. left. }
    { rewrite -> length_app, -> length_fmap. cbn. lia. }
    { iExists _, bs, cs. iFrame "Ht". cbn. rewrite -> handles_snoc, -> fmap_app. iFrame. iPureIntro.
      change ([(q, k)].*1) with [q]. rewrite -> lastp_snoc.
      split_and!; [done..|by apply handles_mono_hashed]. }
    iIntros "Hn H". iApply hwp_ret. iApply ("HΦ" with "[Hn]"); [by destruct es|].
    iApply (table_close _ _ t); [by destruct es|rewrite -> fmap_app, -> first_app; by destruct es|].
    iApply (table_at_perm with "H"). rewrite -> fmap_app. apply Permutation_cons_append.
Qed.

(** ** Deleting *)

Lemma first_notin q c1 c2 : q ∉ c1 -> first (c1 ++ q :: c2) None = Some q <-> c1 = [].
Proof. destruct c1 as [|r c1]; cbn; [done|]. rewrite -> not_elem_of_cons. intros [Hr _]. split; [|done]. congruence. Qed.

Lemma hwp_del_in_bkt a i bs cs b q c1 c2 Φ :
  bs !! Z.to_nat i = Some b -> cs !! Z.to_nat i = Some (c1 ++ q :: c2) -> q ∉ c1 ->
  field_at a FBuckets (CBuckets bs) -∗ chains bs cs -∗
  (∀ bs' l, ⌜length bs' = length bs⌝ -∗ field_at a FBuckets (CBuckets bs') -∗ chains bs' (<[Z.to_nat i := c1 ++ c2]> cs) -∗
    field_at q FBkt (CLinks l) -∗ Φ tt) -∗
  hwp (V := V) (HASH_DEL_IN_BKT a i q) Φ.
Proof.
  iIntros (Hb Hc Hq) "Ha Hcs HΦ". pose proof (lookup_lt_Some _ _ _ Hb) as Hi. unfold HASH_DEL_IN_BKT.
  hbind. iApply (hwp_update_bucket with "Ha"); [exact Hb|]. iIntros "Ha". hbind.
  iApply (hwp_load_bucket with "Ha"); [by apply list_lookup_insert_eq|]. iIntros "Ha". cbn.
  iDestruct (big_sepL2_insert_acc _ _ _ _ _ _ Hb Hc with "Hcs") as "[[%Hhd Hs] Hcs]". rewrite -> seg_app, -> Hhd. cbn [seg first].
  iDestruct "Hs" as "(Hs1 & Hq & Hs2)". hbind. iApply (hwp_load with "Hq"); [done|]. iIntros "Hq". cbn [l_prev l_next].
  hbind. iAssert (∀ Ψ, (∀ bs', ⌜length bs' = length bs /\ exists b', bs' = <[Z.to_nat i := b']> bs /\ hh_head b' = first (c1 ++ c2) None⌝ -∗
      field_at a FBuckets (CBuckets bs') -∗ Ψ tt) -∗
    hwp (V := V) (if bool_decide (first (c1 ++ q :: c2) None = Some q)
      then update_bucket a i (fun b => {| hh_head := first c2 None; b_count := b_count b; expand_mult := expand_mult b |}) else mret tt) Ψ)%I
    with "[Ha]" as "Hhead".
  { iIntros (Ψ) "HΨ". case_bool_decide as Hf.
    - apply first_notin in Hf as ->; [|done]. iApply (hwp_update_bucket with "Ha"); [by apply list_lookup_insert_eq|]. iIntros "Ha".
      iApply ("HΨ" with "[%] Ha"). rewrite -> list_insert_insert_eq, -> length_insert. split; [done|by eexists].
    - iApply hwp_ret. iApply ("HΨ" with "[%] Ha"). rewrite -> length_insert. split; [done|]. eexists. split; [done|].
      destruct c1; [by destruct Hf|done]. }
  iApply "Hhead". iIntros (bs' (Hl & b' & -> & Hb')) "Ha". hbind. iApply (hwp_seg_last with "Hs1"). iIntros "Hs1".
  iApply (hwp_seg_first with "Hs2"). iIntros "Hs2". iApply ("HΦ" with "[//] Ha [-Hq] Hq"). iApply "Hcs". iSplit; [done|].
  rewrite -> seg_app. iFrame.
Qed.

Lemma handles_middle t es1 e es2 : handles t (es1 ++ e :: es2) ⊣⊢
  (field_at e.1 FKey (CKey e.2) ∗ field_at e.1 FHh (CHh (handle t e)) ∗ block e.1 KElem) ∗ handles t (es1 ++ es2).
Proof. unfold handles. rewrite -> !big_sepL_app. cbn. iSplit; iIntros "H"; iDestruct "H" as "(? & ? & ?)"; iFrame. Qed.

Lemma hashed_delete n es1 q k es2 cs i c1 c2 : NoDup (es1 ++ (q, k) :: es2).*1 -> concat cs ≡ₚ (es1 ++ (q, k) :: es2).*1 ->
  hashed n (es1 ++ (q, k) :: es2) cs -> cs !! i = Some (c1 ++ q :: c2) ->
  concat (<[i := c1 ++ c2]> cs) ≡ₚ (es1 ++ es2).*1 /\ hashed n (es1 ++ es2) (<[i := c1 ++ c2]> cs) /\ q ∉ c1.
Proof.
  intros Hn Hp Hh Hi. destruct (concat_insert cs i _ (c1 ++ c2) Hi) as (r & Hr1 & Hr2).
  assert (concat (<[i := c1 ++ c2]> cs) ≡ₚ (es1 ++ es2).*1) as Hperm.
  { apply (Permutation_cons_inv (a := q)). trans (concat cs).
    - rewrite -> Hr1, -> Hr2. rewrite -> app_comm_cons. f_equiv. apply Permutation_middle.
    - rewrite -> Hp, -> !fmap_app. symmetry. apply Permutation_middle. }
  assert (q ∉ (es1 ++ es2).*1) as Hq.
  { rewrite -> fmap_app in *. cbn in Hn. rewrite <- Permutation_middle in Hn. by apply NoDup_cons in Hn as [? _]. }
  split; [done|]. split.
  - intros j c q' Hj Hq'. assert (q' ∈ concat (<[i := c1 ++ c2]> cs)) as Hin.
    { rewrite -> list_elem_of_In, -> in_concat. exists c. rewrite <- !list_elem_of_In. split; [by eapply list_elem_of_lookup_2|done]. }
    rewrite -> Hperm in Hin. assert (exists c', cs !! j = Some c' /\ q' ∈ c') as (c' & Hj' & Hq2).
    { destruct (decide (i = j)) as [<-|Hne]; [|rewrite -> list_lookup_insert_ne in Hj by done; by exists c].
      rewrite -> list_lookup_insert_eq in Hj by by eapply lookup_lt_Some. injection Hj as <-. eexists. split; [done|].
      rewrite -> elem_of_app, -> elem_of_cons in *. naive_solver. }
    destruct (Hh j c' q' Hj' Hq2) as (k' & Hk' & Hb). exists k'. split; [|done].
    rewrite -> elem_of_app, -> elem_of_cons in *. destruct Hk' as [?|[[= -> ->]|?]]; [by left|done|by right].
  - intros Hin. apply Hq. rewrite <- Hperm, -> Hr2. rewrite -> !elem_of_app. by left; left.
Qed.

Lemma match_links {A} (x y : option ptr) (a b : A) : x <> None \/ y <> None ->
  match x, y with None, None => a | _, _ => b end = b.
Proof. by destruct x, y; intros []. Qed.

Lemma lastp_elem a l q : lastp None l = Some q -> lastp a l = Some q /\ q ∈ l.
Proof.
  destruct l as [|r l _] using rev_ind; [done|]. rewrite -> !lastp_snoc. intros [= ->]. split; [done|]. apply elem_of_app. right. left.
Qed.

(** The struct that was the last is not any more. *)
Lemma hwp_del_tail t tb l1 q l2 Φ :
  NoDup (l1 ++ q :: l2) -> lastp None (l1 ++ q :: l2) = Some (tb_tail tb) -> l1 <> [] \/ l2 <> [] ->
  field_at t FTbl (CTbl tb) -∗
  (∀ tb', ⌜tb_buckets tb' = tb_buckets tb /\ num_buckets tb' = num_buckets tb /\ lastp None (l1 ++ l2) = Some (tb_tail tb')⌝ -∗
    field_at t FTbl (CTbl tb') -∗ Φ tt) -∗
  hwp (V := V) (if bool_decide (tb_tail tb = q) then p ← deref (lastp None l1); update_tbl t (set_tail p) else mret tt) Φ.
Proof.
  iIntros (Hn Hl Hne) "Ht HΦ". rewrite -> lastp_app in Hl. cbn in Hl. case_bool_decide as Hq.
  - assert (l2 = []) as ->.
    { destruct l2 as [|r l2 _] using rev_ind; [done|]. rewrite -> lastp_snoc in Hl. exfalso.
      apply NoDup_app in Hn as (_ & _ & Hn). apply NoDup_cons in Hn as [Hn _]. apply Hn, elem_of_app. right. injection Hl as ->. rewrite -> Hq. left. }
    rewrite -> app_nil_r. destruct l1 as [|p l1 _] using rev_ind; [by destruct Hne|]. rewrite -> lastp_snoc. cbn [deref].
    hbind. iApply hwp_ret. iApply (hwp_update_tbl with "Ht"). iIntros "Ht". by iApply ("HΦ" with "[%] Ht").
  - iApply hwp_ret. iApply ("HΦ" with "[%] Ht"). split_and!; [done..|]. rewrite -> lastp_app.
    destruct l2 as [|r l2]; [cbn in Hl; congruence|]. done.
Qed.

Lemma first_elem l q : first l None = Some q -> q ∈ l.
Proof. destruct l; [done|]. intros [= ->]. left. Qed.

Lemma app_ne (es1 es2 : list (ptr * bytes)) : es1 ++ es2 <> [] -> es1.*1 <> [] \/ es2.*1 <> [].
Proof. destruct es1; [|by left]. destruct es2; [done|by right]. Qed.

(** The struct is taken out of both lists. *)
Lemma hwp_del_some head es1 q k es2 n Φ : es1 ++ es2 <> [] ->
  live n -∗ table head (es1 ++ (q, k) :: es2) -∗
  (∀ head', live n -∗ table head' (es1 ++ es2) -∗ loose q k -∗ Φ head') -∗
  hwp (V := V) (HASH_DEL head q) Φ.
Proof.
  iIntros (Hne) "Hn H HΦ".
  iDestruct (table_open with "H") as (hd t tb bs cs) "(%Hhd & Ht & HT & Hb & HB & Hh & Ha & Hc & %Hok)"; [by destruct es1|].
  destruct Hhd as (-> & Hfirst & Hin), Hok as (Hpow & Hlen & Htail & Hperm & Hhash). iDestruct (handles_NoDup with "Hh") as %Hnd.
  assert ((q, k) ∈ es1 ++ (q, k) :: es2) as Hq by (apply elem_of_app; right; left).
  destruct (hashed_complete _ _ _ _ _ Hhash Hperm Hnd Hq) as (c & Hci & (c1 & c2 & ->)%list_elem_of_split).
  destruct (hashed_delete _ _ _ _ _ _ _ _ _ Hnd Hperm Hhash Hci) as (Hperm' & Hhash' & Hq1). apply app_ne in Hne as Hne'.
  rewrite -> fmap_app in *. cbn [fmap list_fmap fst] in *. rewrite -> seg_app. cbn [seg first]. iDestruct "Ha" as "(Ha1 & Hqa & Ha2)".
  unfold HASH_DEL. hbind. iApply (hwp_load with "Hqa"); [done|]. iIntros "Hqa". hbind. iApply hwp_ret.
  hbind. iApply (hwp_hh_tbl with "Hh"); [by rewrite -> fmap_app|]. iIntros "Hh". hbind. iApply (hwp_load with "Ht"); [done|]. iIntros "Ht". cbn [l_prev l_next].
  rewrite -> match_links by (destruct Hne'; [left; destruct es1.*1 as [|? ? _] using rev_ind; [done|by rewrite -> lastp_snoc]|right; by destruct es2.*1]).
  hbind. iApply (hwp_del_tail with "Ht"); [done..|]. iIntros (tb' (Hb1 & Hb2 & Htl)) "Ht". rewrite <- Hb1, <- Hb2 in *.
  iAssert (∀ Ψ, (∀ head', ⌜head' = first (es1.*1 ++ es2.*1) None⌝ -∗ seg FApp None es1.*1 (first es2.*1 None) -∗ Ψ head') -∗
    hwp (V := V) (match lastp None es1.*1 with Some p => update_links FApp p (set_next (first es2.*1 None));; mret (Some hd)
      | None => mret (first es2.*1 None) end) Ψ)%I with "[Ha1]" as "Hhead".
  { iIntros (Ψ) "HΨ". iPoseProof (hwp_seg_last _ _ _ (first es2.*1 None) with "Ha1") as "Ha1". rewrite -> first_app in *.
    destruct es1.*1 as [|p l1 _] using rev_ind; [iApply hwp_ret; by iApply "HΨ"|]. rewrite -> lastp_snoc. hbind. iApply "Ha1". iIntros "Ha1".
    iApply hwp_ret. iApply ("HΨ" with "[%] Ha1"). destruct l1; done. }
  hbind. iApply "Hhead". iIntros (head' Hhead') "Ha1". hbind. iApply (hwp_seg_first with "Ha2"). iIntros "Ha2".
  rewrite -> handles_middle. iDestruct "Hh" as "[(Hk & Hhq & HQ) Hh]". hbind. iApply (hwp_load with "Hhq"); [done|]. iIntros "Hhq".
  destruct head' as [hd'|]; [|by destruct es1, es2]. hbind. iApply hwp_ret.
  hbind. iApply (hwp_hh_tbl with "Hh"); [rewrite -> fmap_app; by apply first_elem|]. iIntros "Hh".
  hbind. iApply (hwp_load with "Ht"); [done|]. iIntros "Ht". cbn [h_hashv handle snd].
  destruct (lookup_lt_is_Some_2 bs (bucket_of (num_buckets tb') k) ltac:(by apply bucket_lt)) as [b Hbi].
  hbind. iApply (hwp_del_in_bkt with "Hb Hc"); [exact Hbi|exact Hci|done|]. iIntros (bs' lb Hl) "Hb Hc Hqb".
  hbind. iApply (hwp_update_tbl with "Ht"). iIntros "Ht". iApply hwp_ret.
  iApply ("HΦ" with "Hn [- Hk Hhq HQ Hqa Hqb]"); [|iFrame].
  iApply (table_close _ _ t); [done|by rewrite -> fmap_app|]. iExists _, bs', _. iFrame "Ht". cbn. rewrite -> fmap_app, -> seg_app. iFrame.
  iPureIntro. rewrite -> Hl. by split_and!.
Qed.

(** With the last struct goes the table. *)
Lemma hwp_del_one head q k n Φ :
  live (S (S n)) -∗ table head [(q, k)] -∗ (live n -∗ loose q k -∗ Φ None) -∗ hwp (V := V) (HASH_DEL head q) Φ.
Proof.
  iIntros "Hn H HΦ".
  iDestruct (table_open with "H") as (hd t tb bs cs) "(%Hhd & Ht & HT & Hb & HB & Hh & Ha & Hc & %Hok)"; [done|].
  destruct Hhd as (-> & Hfirst & Hin), Hok as (Hpow & Hlen & Htail & Hperm & Hhash). iDestruct (handles_NoDup with "Hh") as %Hnd.
  destruct (hashed_complete _ _ _ q k Hhash Hperm Hnd ltac:(left)) as (c & Hci & (c1 & c2 & ->)%list_elem_of_split).
  iDestruct "Ha" as "[Hqa _]". unfold HASH_DEL. hbind. iApply (hwp_load with "Hqa"); [done|]. iIntros "Hqa". hbind. iApply hwp_ret.
  hbind. iApply (hwp_hh_tbl with "Hh"); [done|]. iIntros "Hh". hbind. iApply (hwp_load with "Ht"); [done|]. iIntros "Ht". cbn.
  hbind. iApply (hwp_free _ _ (fun _ => CBuckets bs) with "Hn HB [Hb]"); [by rewrite -> (fields_one _ _ FBuckets)|]. iIntros "Hn".
  hbind. iApply (hwp_free _ _ (fun _ => CTbl tb) with "Hn HT [Ht]"); [by rewrite -> (fields_one _ _ FTbl)|]. iIntros "Hn". iApply hwp_ret.
  destruct (lookup_lt_is_Some_2 bs (bucket_of (num_buckets tb) k) ltac:(by apply bucket_lt)) as [b Hbi].
  iDestruct (big_sepL2_lookup _ _ _ _ _ _ Hbi Hci with "Hc") as "[_ Hs]". rewrite -> seg_app. iDestruct "Hs" as "(_ & Hqb & _)".
  iDestruct "Hh" as "[(Hk & Hhq & HQ) _]". iApply ("HΦ" with "Hn"). iFrame.
Qed.

Lemma hwp_del head es1 q k es2 n Φ :
  live (n + overhead (es1 ++ (q, k) :: es2)) -∗ table head (es1 ++ (q, k) :: es2) -∗
  (∀ head', live (n + overhead (es1 ++ es2)) -∗ table head' (es1 ++ es2) -∗ loose q k -∗ Φ head') -∗
  hwp (V := V) (HASH_DEL head q) Φ.
Proof.
  destruct (decide (es1 ++ es2 = [])) as [Hes|Hes].
  - apply app_eq_nil in Hes as [-> ->]. cbn. rewrite -> Nat.add_0_r, -> (Nat.add_comm n 2). iIntros "Hn H HΦ".
    iApply (hwp_del_one with "Hn H"). iIntros "Hn Hq". iApply ("HΦ" with "Hn [//] Hq").
  - replace (overhead (es1 ++ (q, k) :: es2)) with (overhead (es1 ++ es2)) by (by destruct es1, es2).
    iIntros "Hn H HΦ". by iApply (hwp_del_some with "Hn H HΦ").
Qed.

(** ** Iterating *)

Lemma hwp_next_at head es i Φ :
  table head es -∗ (table head es -∗ Φ (first (drop (S i) es).*1 None)) -∗ hwp (V := V) (next_of (first (drop i es).*1 None)) Φ.
Proof.
  destruct (drop i es) as [|e r] eqn:Hr; iIntros "H HΦ".
  - iApply hwp_ret. rewrite -> (drop_S_nil es i Hr). by iApply "HΦ".
  - assert (es !! i = Some e) as Hi by (rewrite <- (Nat.add_0_r i), <- lookup_drop, -> Hr; done).
    rewrite -> (drop_S es e i Hi) in Hr. injection Hr as Hr. rewrite -> Hr.
    iDestruct (table_open with "H") as (hd t tb bs cs) "(%Hhd & Ht & HT & Hb & HB & Hh & Ha & Hc & %Hok)"; [by destruct es|].
    assert (es.*1 = (take i es).*1 ++ e.1 :: r.*1) as Hes by (rewrite <- (take_drop_middle es i e Hi) at 1; by rewrite -> Hr, -> fmap_app).
    iDestruct (seg_acc with "Ha") as "[Ha Has]"; [exact Hes|]. hbind. iApply (hwp_load with "Ha"); [done|]. iIntros "Ha".
    iDestruct ("Has" with "Ha") as "Ha". iApply hwp_ret. iApply "HΦ".
    iApply (table_close _ _ t); [by destruct es|destruct Hhd as (-> & -> & _); done|]. iExists tb, bs, cs. by iFrame.
Qed.

Lemma hwp_next_of head es Φ :
  table head es -∗ (table head es -∗ Φ (first (tl es).*1 None)) -∗ hwp (V := V) (next_of (first es.*1 None)) Φ.
Proof. iIntros "H HΦ". iPoseProof (hwp_next_at head es 0 Φ with "H") as "H". destruct es; by iApply "H". Qed.

(** A loop whose body deletes the element it is at: [I s es] owns the table of
    the elements that are left. *)
Lemma hwp_iter {S} (body : S -> ptr -> M (mem V) S) (I : S -> list (ptr * bytes) -> iProp Σ) n s es Φ :
  (forall s es, I s es ⊢ ∃ head, table head es ∗ (table head es -∗ I s es)) ->
  (forall s q k es Ψ, I s ((q, k) :: es) -∗ (∀ s', I s' es -∗ Ψ s') -∗ hwp (body s q) Ψ) ->
  (length es <= n)%nat ->
  I s es -∗ (∀ s', I s' [] -∗ Φ s') -∗ hwp (HASH_ITER n body s (first es.*1 None) (first (tl es).*1 None)) Φ.
Proof.
  intros HI Hbody. revert n s. induction es as [|[q k] es IH]; iIntros (n s Hn) "H HΦ"; destruct n as [|n]; cbn in Hn; try lia;
    cbn [HASH_ITER first fmap list_fmap fst tl].
  1, 2: iApply hwp_ret; by iApply "HΦ".
  hbind. iApply (Hbody with "H"). iIntros (s') "H". iDestruct (HI with "H") as (head) "[Ht H]". hbind.
  iApply (hwp_next_of with "Ht"). iIntros "Ht". iDestruct ("H" with "Ht") as "H". iApply (IH with "H HΦ"). lia.
Qed.

Lemma hwp_fuel_table head es Φ : table head es -∗ (∀ n, ⌜(length es <= n)%nat⌝ -∗ table head es -∗ Φ n) -∗ hwp (V := V) fuel Φ.
Proof.
  destruct es as [|e es]; iIntros "[%Hh H] HΦ".
  - iApply (hwp_fuel [] KElem); [done|]. iIntros (n _) "_". by iApply ("HΦ" with "[%] [$H //]"); cbn; lia.
  - iDestruct "H" as (t tb bs cs) "(Ht & HT & Hb & HB & Hh & H)". iApply (hwp_fuel_handles with "Hh"). iIntros (n Hn) "Hh".
    iApply ("HΦ" with "[//]"). iSplit; [done|]. iExists t, tb, bs, cs. iFrame.
Qed.

Lemma hwp_for_each {S} (body : S -> ptr -> M (mem V) S) (I : S -> list (ptr * bytes) -> iProp Σ) head s es Φ :
  (forall s es, I s es ⊢ ∃ head, table head es ∗ (table head es -∗ I s es)) ->
  (forall s q k es Ψ, I s ((q, k) :: es) -∗ (∀ s', I s' es -∗ Ψ s') -∗ hwp (body s q) Ψ) ->
  head = first es.*1 None ->
  I s es -∗ (∀ s', I s' [] -∗ Φ s') -∗ hwp (for_each body s head) Φ.
Proof.
  iIntros (HI Hbody ->) "H HΦ". iDestruct (HI with "H") as (head) "[Ht H]". hbind. iApply (hwp_next_of with "Ht"). iIntros "Ht".
  hbind. iApply (hwp_fuel_table with "Ht"). iIntros (n Hn) "Ht". iDestruct ("H" with "Ht") as "H". by iApply (hwp_iter _ I with "H HΦ").
Qed.

(** A loop that leaves the table as it is; [I s i] holds before element [i]. *)
Lemma hwp_iter_all {S} (body : S -> ptr -> M (mem V) S) (I : S -> nat -> iProp Σ) n s i head es Φ :
  (forall s i q k Ψ, es !! i = Some (q, k) -> table head es -∗ I s i -∗ (∀ s', table head es -∗ I s' (Datatypes.S i) -∗ Ψ s') -∗ hwp (body s q) Ψ) ->
  (length es <= n + i)%nat -> (i <= length es)%nat ->
  table head es -∗ I s i -∗ (∀ s', table head es -∗ I s' (length es) -∗ Φ s') -∗
  hwp (HASH_ITER n body s (first (drop i es).*1 None) (first (drop (Datatypes.S i) es).*1 None)) Φ.
Proof.
  intros Hbody. revert s i. induction n as [|n IH]; iIntros (s i Hn Hi) "Ht H HΦ".
  - rewrite -> (drop_ge es i) by lia. iApply hwp_ret. replace (length es) with i by lia. iApply ("HΦ" with "Ht H").
  - destruct (es !! i) as [[q k]|] eqn:He.
    + pose proof (lookup_lt_Some _ _ _ He). rewrite -> (drop_S es (q, k) i He). cbn [HASH_ITER first fmap list_fmap fst].
      hbind. iApply (Hbody with "Ht H"); [exact He|]. iIntros (s') "Ht H". hbind. iApply (hwp_next_at with "Ht"). iIntros "Ht".
      iApply (IH with "Ht H HΦ"); lia.
    + apply lookup_ge_None in He. rewrite -> (drop_ge es i) by lia. iApply hwp_ret. replace (length es) with i by lia. iApply ("HΦ" with "Ht H").
Qed.

Lemma hwp_for_all {S} (body : S -> ptr -> M (mem V) S) (I : S -> nat -> iProp Σ) head s es Φ :
  (forall s i q k Ψ, es !! i = Some (q, k) -> table head es -∗ I s i -∗ (∀ s', table head es -∗ I s' (Datatypes.S i) -∗ Ψ s') -∗ hwp (body s q) Ψ) ->
  table head es -∗ I s 0%nat -∗ (∀ s', table head es -∗ I s' (length es) -∗ Φ s') -∗ hwp (for_each body s head) Φ.
Proof.
  iIntros (Hbody) "Ht H HΦ". iAssert (⌜head = first es.*1 None⌝)%I as %Hh; [by iDestruct "Ht" as "[$ _]"|].
  iAssert (hwp (for_each body s (first (drop 0 es).*1 None)) Φ) with "[Ht H HΦ]" as "Hgoal"; [|by rewrite -> drop_0, <- Hh].
  hbind. iApply (hwp_next_at with "Ht"). iIntros "Ht". hbind. iApply (hwp_fuel_table with "Ht"). iIntros (n Hn) "Ht".
  iApply (hwp_iter_all body I with "Ht H HΦ"); [done|lia..].
Qed.

Lemma hwp_load_key head es q k Φ : (q, k) ∈ es ->
  table head es -∗ (table head es -∗ Φ k) -∗ hwp (V := V) (load FKey as_key q) Φ.
Proof.
  iIntros ([i Hi]%list_elem_of_lookup) "H HΦ".
  iDestruct (table_open with "H") as (hd t tb bs cs) "(%Hhd & Ht & HT & Hb & HB & Hh & H)"; [by destruct es|].
  iDestruct (big_sepL_lookup_acc _ _ _ _ Hi with "Hh") as "[(Hk & Hq & HQ) Hh]". iApply (hwp_load with "Hk"); [done|]. iIntros "Hk".
  iApply "HΦ". iApply (table_close _ _ t); [by destruct es|destruct Hhd as (-> & -> & _); done|]. iExists tb, bs, cs. iFrame. iApply "Hh". iFrame.
Qed.

(** ** Structs *)

Lemma hwp_calloc v n Φ : live n -∗ (∀ q, live (S n) -∗ loose q [] -∗ field_at q FVal (CVal v) -∗ Φ q) -∗ hwp (V := V) (calloc v) Φ.
Proof.
  iIntros "Hn HΦ". iApply (hwp_alloc with "Hn"). iIntros (q) "Hn HQ (Hk & Hv & Hh & Ha & Hb & _)". iApply ("HΦ" with "Hn [- Hv] Hv"). iFrame.
Qed.

Lemma hwp_set_key q k k' Φ : loose q k -∗ (loose q k' -∗ Φ tt) -∗ hwp (V := V) (set_cell FKey q (CKey k')) Φ.
Proof. iIntros "[Hk H] HΦ". iApply (hwp_set with "Hk"). iIntros "Hk". iApply "HΦ". iFrame. Qed.

Lemma hwp_free_loose q k v n Φ : live (S n) -∗ loose q k -∗ field_at q FVal (CVal v) -∗ (live n -∗ Φ tt) -∗ hwp (V := V) (free q) Φ.
Proof.
  iIntros "Hn (Hk & (%h & Hh) & (%la & Ha) & (%lb & Hb) & HQ) Hv HΦ".
  iApply (hwp_free _ _ (fun f => match f with FKey => CKey k | FVal => CVal v | FHh => CHh h | FApp => CLinks la | _ => CLinks lb end)
    with "Hn HQ [- HΦ] HΦ"). unfold fields. cbn. iFrame.
Qed.

Lemma hwp_update_val p g v Φ :
  field_at p FVal (CVal v) -∗ (field_at p FVal (CVal (g v)) -∗ Φ tt) -∗ hwp (V := V) (update_val p g) Φ.
Proof. iIntros "Hp HΦ". hbind. iApply (hwp_load with "Hp"); [done|]. iIntros "Hp". by iApply (hwp_set with "Hp"). Qed.

End heap.
