(* ===== verification/TableHeap.v ===== *)
(** * TableHeap: tables of structs, and of structs with tables

    [rows] is a table whose structs hold, in this order, the entries of a list:
    the link between a table of Uthash.v and the memory.  [nested] is a table of
    structs each of which has a table of its own, as [varpeek_map] and the
    callers of a callgrind profile. *)
From S2P Require Import Prelude Memory HeapLogic UthashHeap.
Open Scope Z_scope.

Section rows.
Context {V : Type} `{HG : !heapGS V Σ} (hash : bytes -> Z).
Abbreviation table := (table hash).

(** An entry [c] is a struct with the key [key c] and the data [val c]. *)
Context {C : Type} (key : C -> bytes) (val : C -> V).

Definition row (e : ptr * bytes) (c : C) : iProp Σ := ⌜e.2 = key c⌝ ∗ field_at e.1 FVal (CVal (val c)).
Definition rows (head : option ptr) (es : list (ptr * bytes)) (cs : list C) : iProp Σ := table head es ∗ [∗ list] e;c ∈ es;cs, row e c.

(** The blocks of a table and its structs. *)
Definition rows_cost (cs : list C) : nat := match cs with [] => 0 | _ => 2 + length cs end.

Lemma rows_nil : ⊢ rows None [] [].
Proof. by iSplit; [iSplit|]. Qed.

Lemma rows_keys head es cs : rows head es cs -∗ ⌜es.*2 = key <$> cs⌝.
Proof.
  iIntros "[_ H]". iInduction es as [|e es] "IH" forall (cs); destruct cs as [|c cs]; try done. cbn. iDestruct "H" as "[[%He _] H]".
  iDestruct ("IH" with "H") as %IH. iPureIntro. by rewrite -> He, -> IH.
Qed.

Lemma rows_length head es cs : rows head es cs -∗ ⌜length es = length cs⌝.
Proof. iIntros "[_ H]". iApply (big_sepL2_length with "H"). Qed.

Lemma rows_cost_eq head es cs : rows head es cs -∗ ⌜rows_cost cs = (length cs + overhead es)%nat⌝.
Proof. iIntros "H". iDestruct (rows_length with "H") as %Hl. iPureIntro. destruct cs, es; cbn in *; lia. Qed.

Lemma rows_access head es cs i q k c : es !! i = Some (q, k) -> cs !! i = Some c ->
  rows head es cs -∗ field_at q FVal (CVal (val c)) ∗ (∀ c', ⌜key c' = key c⌝ -∗ field_at q FVal (CVal (val c')) -∗ rows head es (<[i := c']> cs)).
Proof.
  iIntros (He Hc) "[Ht H]". iDestruct (big_sepL2_insert_acc _ _ _ _ _ _ He Hc with "H") as "[[%Hk Hv] H]". iFrame "Hv".
  iIntros (c') "%Hk' Hv". iFrame "Ht". iSpecialize ("H" $! (q, k) c'). rewrite -> (list_insert_id es i (q, k) He). iApply "H". iFrame.
  iPureIntro. congruence.
Qed.

Lemma hwp_rows_find head es cs k Φ :
  rows head es cs -∗
  (∀ r, ⌜match r with Some q => exists i c, es !! i = Some (q, k) /\ cs !! i = Some c /\ key c = k | None => k ∉ key <$> cs end⌝ -∗
    rows head es cs -∗ Φ r) -∗
  hwp (V := V) (HASH_FIND_STR hash head k) Φ.
Proof.
  iIntros "H HΦ". iDestruct (rows_keys with "H") as %Hk. iDestruct (rows_length with "H") as %Hl. iDestruct "H" as "[Ht H]".
  iApply (hwp_find with "Ht"). iIntros (r Hr) "Ht". iApply ("HΦ" with "[%] [$Ht $H]"). destruct r as [q|]; [|by rewrite <- Hk].
  apply list_elem_of_lookup in Hr as [i Hi]. pose proof (lookup_lt_Some _ _ _ Hi). destruct (lookup_lt_is_Some_2 cs i ltac:(lia)) as [c Hc].
  exists i, c. split_and!; [done..|]. apply (f_equal (.!! i)) in Hk. rewrite -> !list_lookup_fmap, -> Hi, -> Hc in Hk. by injection Hk.
Qed.

Lemma hwp_rows_add head es cs q c n Φ :
  live (S (n + rows_cost cs)) -∗ rows head es cs -∗ loose q (key c) -∗ field_at q FVal (CVal (val c)) -∗
  (∀ head', live (n + rows_cost (cs ++ [c])) -∗ rows head' (es ++ [(q, key c)]) (cs ++ [c]) -∗ Φ head') -∗
  hwp (V := V) (HASH_ADD_STR hash head q) Φ.
Proof.
  iIntros "Hn H Hq Hv HΦ". iDestruct (rows_cost_eq with "H") as %Hcost. iDestruct (rows_length with "H") as %Hl. iDestruct "H" as "[Ht H]".
  rewrite -> Hcost. replace (S (n + (length cs + overhead es))) with (S (n + length cs) + overhead es)%nat by lia.
  iApply (hwp_add with "Hn Ht Hq"). iIntros (head') "Hn Ht". iAssert (rows head' (es ++ [(q, key c)]) (cs ++ [c])) with "[Ht H Hv]" as "H".
  { iFrame "Ht". iApply (big_sepL2_app with "H"). cbn. by iFrame. }
  iDestruct (rows_cost_eq with "H") as %Hcost'. rewrite -> length_app in Hcost'. cbn [length] in Hcost'. iApply ("HΦ" with "[Hn] H").
  rewrite -> Hcost'. by replace (n + (length cs + 1 + overhead (es ++ [(q, key c)])))%nat with (S (n + length cs) + overhead (es ++ [(q, key c)]))%nat by lia.
Qed.

(** The first struct is deleted and freed. *)
Lemma hwp_rows_del {A} head q k es c cs n (rest : option ptr -> M (mem V) A) Φ :
  live (n + rows_cost (c :: cs)) -∗ rows head ((q, k) :: es) (c :: cs) -∗
  (∀ head', live (S (n + rows_cost cs)) -∗ rows head' es cs -∗ loose q k -∗ field_at q FVal (CVal (val c)) -∗ hwp (rest head') Φ) -∗
  hwp (head ← HASH_DEL head q; rest head) Φ.
Proof.
  iIntros "Hn H HΦ". iDestruct (rows_cost_eq with "H") as %Hcost. iDestruct "H" as "(Ht & [_ Hv] & H)". cbn [length] in Hcost.
  rewrite -> Hcost. replace (n + (S (length cs) + overhead ((q, k) :: es)))%nat with (S (n + length cs) + overhead ((q, k) :: es))%nat by lia.
  hbind. iApply (hwp_del _ _ [] with "Hn Ht"). iIntros (head') "Hn Ht Hq". iAssert (rows head' es cs) with "[$Ht $H]" as "H".
  iDestruct (rows_cost_eq with "H") as %Hcost'. iApply ("HΦ" with "[Hn] H Hq Hv").
  rewrite -> Hcost'. by replace (S (n + (length cs + overhead es)))%nat with (S (n + length cs) + overhead es)%nat by lia.
Qed.

Lemma rows_first head es cs : rows head es cs -∗ ⌜head = first es.*1 None⌝.
Proof. by iIntros "[[$ _] _]". Qed.

Lemma rows_table head es cs : rows head es cs ⊢ table head es ∗ (table head es -∗ rows head es cs).
Proof. iIntros "[$ H] Ht". iFrame. Qed.

Lemma rows_uncons head e es cs : rows head (e :: es) cs -∗ ∃ c cs', ⌜cs = c :: cs'⌝.
Proof. iIntros "H". iDestruct (rows_length with "H") as %Hl. destruct cs as [|c cs]; [done|]. by iExists c, cs. Qed.

Lemma hwp_free_table head es cs n Φ :
  live (n + rows_cost cs) -∗ rows head es cs -∗ (live n -∗ Φ None) -∗ hwp (V := V) (free_table head) Φ.
Proof.
  iIntros "Hn H HΦ". iDestruct (rows_first with "H") as %Hf.
  iApply (hwp_for_each hash _ (fun head es => ∃ cs, live (n + rows_cost cs) ∗ rows head es cs)%I with "[Hn H]"); [| |exact Hf|iExists cs; iFrame|].
  - iIntros (hd es') "(%cs' & Hn & H)". iDestruct (rows_table with "H") as "[Ht H]". iExists hd. iFrame "Ht". iIntros "Ht". iExists cs'.
    iFrame "Hn". by iApply "H".
  - iIntros (hd q k es' Ψ) "(%cs' & Hn & H) HΨ". iDestruct (rows_uncons with "H") as (c cs'') "->". iApply (hwp_rows_del with "Hn H").
    iIntros (hd') "Hn H Hq Hv". hbind. iApply (hwp_free_loose with "Hn Hq Hv"). iIntros "Hn". iApply hwp_ret. iApply "HΨ". iExists cs''. iFrame.
  - iIntros (hd) "(%cs' & Hn & H)". iDestruct (rows_length with "H") as %Hl. destruct cs'; [|done]. iDestruct (rows_first with "H") as %->.
    rewrite -> Nat.add_0_r. by iApply "HΦ".
Qed.

(** The same where the head is a field of the struct at [p]. *)
Lemma hwp_free_sub (sub : V -> option ptr) with_sub (at_head : option ptr -> V) p head es cs n Φ :
  (forall h, sub (at_head h) = h) -> (forall h h', with_sub h' (at_head h) = at_head h') ->
  live (n + rows_cost cs) -∗ field_at p FVal (CVal (at_head head)) -∗ rows head es cs -∗
  (live n -∗ field_at p FVal (CVal (at_head None)) -∗ Φ tt) -∗ hwp (V := V) (free_sub sub with_sub p) Φ.
Proof.
  iIntros (Hsub Hwith) "Hn Hp H HΦ". iDestruct (rows_first with "H") as %Hf. hbind. iApply (hwp_load with "Hp"); [done|]. iIntros "Hp".
  rewrite -> Hsub.
  iApply (hwp_for_each hash _ (fun _ es => ∃ head cs, live (n + rows_cost cs) ∗ field_at p FVal (CVal (at_head head)) ∗ rows head es cs)%I
    with "[Hn Hp H]"); [| |exact Hf|iExists head, cs; iFrame|].
  - iIntros (_ es') "(%hd & %cs' & Hn & Hp & H)". iDestruct (rows_table with "H") as "[Ht H]". iExists hd. iFrame "Ht". iIntros "Ht".
    iExists hd, cs'. iFrame "Hn Hp". by iApply "H".
  - iIntros (_ q k es' Ψ) "(%hd & %cs' & Hn & Hp & H) HΨ". iDestruct (rows_uncons with "H") as (c cs'') "->".
    hbind. iApply (hwp_load with "Hp"); [done|]. iIntros "Hp". rewrite -> Hsub. iApply (hwp_rows_del with "Hn H").
    iIntros (hd') "Hn H Hq Hv". hbind. iApply (hwp_update_val with "Hp"). iIntros "Hp". rewrite -> Hwith.
    iApply (hwp_free_loose with "Hn Hq Hv"). iIntros "Hn". iApply "HΨ". iExists hd', cs''. iFrame.
  - iIntros ([]) "(%hd & %cs' & Hn & Hp & H)". iDestruct (rows_length with "H") as %Hl. destruct cs'; [|done].
    iDestruct (rows_first with "H") as %->. rewrite -> Nat.add_0_r. iApply ("HΦ" with "Hn Hp").
Qed.

End rows.

Lemma rows_cost_length {A B} (a : list A) (b : list B) : length a = length b -> rows_cost a = rows_cost b.
Proof. destruct a, b; cbn; lia. Qed.

(** ** Structs with a table each *)

Section nested.
Context {V : Type} `{HG : !heapGS V Σ} (hash : bytes -> Z).
Context {B C : Type} (keyB : B -> bytes) (keyC : C -> bytes) (subs : B -> list C).

(** The data of the outer structs, given the head of their table. *)
Context (valB : B -> option ptr -> V) (valC : C -> V).

Definition outer_key (p : B * option ptr) : bytes := keyB p.1.
Definition outer_val (p : B * option ptr) : V := valB p.1 p.2.
Definition inner (p : B * option ptr) : iProp Σ := ∃ vs, rows hash keyC valC p.2 vs (subs p.1).

Definition nested (head : option ptr) (es : list (ptr * bytes)) (bs : list B) : iProp Σ :=
  ∃ ps, ⌜ps.*1 = bs⌝ ∗ rows hash outer_key outer_val head es ps ∗ [∗ list] p ∈ ps, inner p.

Definition nested_cost (bs : list B) : nat := rows_cost bs + sum_list_with (fun b => rows_cost (subs b)) bs.

Lemma nested_nil : ⊢ nested None [] [].
Proof. iExists []. iSplit; [done|]. iSplit; [iApply rows_nil|done]. Qed.

Lemma nested_keys head es bs : nested head es bs -∗ ⌜es.*2 = keyB <$> bs⌝.
Proof.
  iIntros "(%ps & <- & H & _)". iDestruct (rows_keys with "H") as %->. iPureIntro. rewrite <- list_fmap_compose. done.
Qed.

Lemma hwp_nested_find head es bs k Φ :
  nested head es bs -∗
  (∀ r, ⌜match r with Some q => exists i b, es !! i = Some (q, k) /\ bs !! i = Some b /\ keyB b = k | None => k ∉ keyB <$> bs end⌝ -∗
    nested head es bs -∗ Φ r) -∗
  hwp (V := V) (HASH_FIND_STR hash head k) Φ.
Proof.
  iIntros "(%ps & <- & H & Hs) HΦ". iApply (hwp_rows_find with "H"). iIntros (r Hr) "H". iApply ("HΦ" with "[%]"); [|iExists ps; by iFrame].
  destruct r as [q|]; [|by rewrite <- list_fmap_compose]. destruct Hr as (i & [b h] & Hi & Hb & Hk). exists i, b.
  by rewrite -> list_lookup_fmap, -> Hb.
Qed.

(** Access to a struct and its table. *)
Lemma nested_access head es bs i q k b : es !! i = Some (q, k) -> bs !! i = Some b ->
  nested head es bs -∗ ∃ h vs, field_at q FVal (CVal (valB b h)) ∗ rows hash keyC valC h vs (subs b)
    ∗ (∀ b' h' vs', ⌜keyB b' = keyB b⌝ -∗ field_at q FVal (CVal (valB b' h')) -∗ rows hash keyC valC h' vs' (subs b') -∗
       nested head es (<[i := b']> bs)).
Proof.
  iIntros (He Hb) "(%ps & <- & H & Hs)". rewrite -> list_lookup_fmap in Hb. destruct (ps !! i) as [[b0 h]|] eqn:Hp; [|done]. injection Hb as ->.
  iDestruct (rows_access _ _ _ _ _ _ _ _ _ _ He Hp with "H") as "[Hq H]".
  iDestruct (big_sepL_insert_acc _ _ _ _ Hp with "Hs") as "[(%vs & Hv) Hs]".
  iExists h, vs. iFrame "Hq Hv". iIntros (b' h' vs') "%Hk Hq Hv". iExists (<[i := (b', h')]> ps). iSplit; [by rewrite -> list_fmap_insert|].
  iSplitL "H Hq"; [by iApply ("H" $! (b', h') with "[%] Hq")|]. iApply "Hs". by iExists vs'.
Qed.

Lemma nested_cost_insert bs i b b' : bs !! i = Some b ->
  (nested_cost (<[i := b']> bs) + rows_cost (subs b) = nested_cost bs + rows_cost (subs b'))%nat.
Proof.
  intros Hi. unfold nested_cost. rewrite -> (rows_cost_length (<[i := b']> bs) bs) by apply length_insert.
  enough (sum_list_with (fun b => rows_cost (subs b)) (<[i := b']> bs) + rows_cost (subs b)
    = sum_list_with (fun b => rows_cost (subs b)) bs + rows_cost (subs b'))%nat by lia.
  revert i Hi. induction bs as [|x bs IH]; intros [|i] Hi; try done; [injection Hi as ->; cbn; lia|].
  specialize (IH i Hi). change (<[S i := b']> (x :: bs)) with (x :: <[i := b']> bs). cbn [sum_list_with]. lia.
Qed.

Lemma hwp_nested_add head es bs q b n Φ : subs b = [] ->
  live (S (n + nested_cost bs)) -∗ nested head es bs -∗ loose q (keyB b) -∗ field_at q FVal (CVal (valB b None)) -∗
  (∀ head', live (n + nested_cost (bs ++ [b])) -∗ nested head' (es ++ [(q, keyB b)]) (bs ++ [b]) -∗ Φ head') -∗
  hwp (V := V) (HASH_ADD_STR hash head q) Φ.
Proof.
  iIntros (Hb) "Hn (%ps & <- & H & Hs) Hq Hv HΦ".
  assert (forall ps : list (B * option ptr), rows_cost ps.*1 = rows_cost ps) as Hcost by (intros ps'; apply rows_cost_length, length_fmap).
  unfold nested_cost. rewrite -> Hcost. set (m := sum_list_with (fun b => rows_cost (subs b)) ps.*1).
  replace (S (n + (rows_cost ps + m)))%nat with (S ((n + m) + rows_cost ps))%nat by lia.
  iApply (hwp_rows_add _ _ _ _ _ _ _ (b, None) with "Hn H Hq Hv"). iIntros (head') "Hn H". iApply ("HΦ" with "[Hn]").
  - rewrite -> (rows_cost_length (ps.*1 ++ [b]) (ps ++ [(b, None)])) by (rewrite -> !length_app, -> length_fmap; done).
    rewrite -> sum_list_with_app. cbn [sum_list_with]. rewrite -> Hb. fold m.
    by replace (n + (rows_cost (ps ++ [(b, None)]) + (m + (rows_cost (@nil C) + 0))))%nat
      with (n + m + rows_cost (ps ++ [(b, None)]))%nat by (cbn; lia).
  - iExists (ps ++ [(b, None)]). iSplit; [by rewrite -> fmap_app|]. iFrame. cbn. iSplit; [|done]. iExists []. cbn. rewrite -> Hb. iApply rows_nil.
Qed.

(** ** Freeing all of it *)

Context (sub : V -> option ptr) (with_sub : option ptr -> V -> V).
Context (Hsub : forall b h, sub (valB b h) = h) (Hwith : forall b h h', with_sub h' (valB b h) = valB b h').

Lemma hwp_free_nested head es bs n Φ :
  live (n + nested_cost bs) -∗ nested head es bs -∗ (live n -∗ Φ None) -∗ hwp (V := V) (free_nested sub with_sub head) Φ.
Proof.
  iIntros "Hn (%ps & <- & H & Hs) HΦ". iDestruct (rows_first with "H") as %Hf.
  iApply (hwp_for_each hash _ (fun head es => ∃ ps, live (n + nested_cost ps.*1) ∗ rows hash outer_key outer_val head es ps ∗ [∗ list] p ∈ ps, inner p)%I
    with "[Hn H Hs]"); [| |exact Hf|iExists ps; iFrame|].
  - iIntros (hd es') "(%ps' & Hn & H & Hs)". iDestruct (rows_table with "H") as "[Ht H]". iExists hd. iFrame "Ht". iIntros "Ht". iExists ps'.
    iFrame "Hn Hs". by iApply "H".
  - iIntros (hd q k es' Ψ) "(%ps' & Hn & H & Hs) HΨ". iDestruct (rows_uncons with "H") as ([b h] ps'') "->".
    iDestruct "Hs" as "[(%vs & Hv) Hs]". iDestruct (rows_access _ _ _ _ ((q, k) :: es') ((b, h) :: ps'') 0 q k (b, h) eq_refl eq_refl with "H") as "[Hq H]".
    replace (n + nested_cost ((b, h) :: ps'').*1)%nat
      with ((n + sum_list_with (fun b => rows_cost (subs b)) ps''.*1) + rows_cost ((b, h) :: ps'') + rows_cost (subs b))%nat
      by (unfold nested_cost; cbn; rewrite -> length_fmap; lia).
    hbind. iApply (hwp_free_sub _ _ _ sub with_sub (valB b) with "Hn Hq Hv"); [done..|]. iIntros "Hn Hq".
    iDestruct ("H" $! (b, None) with "[//] Hq") as "H".
    iApply (hwp_rows_del _ _ _ _ _ _ _ (b, None) with "Hn H"). iIntros (hd') "Hn H Hq Hv".
    hbind. iApply (hwp_free_loose with "Hn Hq Hv"). iIntros "Hn". iApply hwp_ret. iApply "HΨ". iExists ps''. iFrame.
    unfold nested_cost. rewrite -> (rows_cost_length ps''.*1 ps'') by apply length_fmap.
    by rewrite -> (Nat.add_comm (rows_cost ps'')), -> Nat.add_assoc.
  - iIntros (hd) "(%ps' & Hn & H & _)". iDestruct (rows_length with "H") as %Hl. destruct ps'; [|done]. iDestruct (rows_first with "H") as %->.
    unfold nested_cost. cbn. rewrite -> Nat.add_0_r. by iApply "HΦ".
Qed.

End nested.
