(* ===== verification/SortHeap.v ===== *)
(** * SortHeap: [HASH_SORT] sorts the list in place

    The merge sort of uthash on the pointers of the list, against a merge sort
    of lists: [merge_runs] is one pass.  The table is the same afterwards, its
    elements in the order of their keys. *)
From stdpp Require Import sorting.
From S2P Require Import Prelude Memory HeapLogic UthashHeap TableHeap.
Open Scope Z_scope.

(** ** One pass, on lists *)

Section lists.
Context {A : Type} (R : relation A) `{!RelDecision R}.

Fixpoint merge_runs (n k : nat) (l : list A) : list A :=
  match n, l with
  | O, _ | _, [] => l
  | S n, _ => list_merge R (take k l) (take k (drop k l)) ++ merge_runs n k (drop (k + k) l)
  end.

(** Sorted runs of [k] elements, the last may be shorter. *)
Inductive runs (k : nat) : list A -> Prop :=
| runs_last a : Sorted R a -> (length a <= k)%nat -> runs k a
| runs_cons a l : Sorted R a -> length a = k -> runs k l -> runs k (a ++ l).

Lemma runs_take k l : runs k l -> Sorted R (take k l).
Proof.
  destruct 1 as [a Hs Hl|a l Hs Hl Hr]; [by rewrite -> take_ge|]. rewrite -> take_app_le, -> take_ge by lia. done.
Qed.

Lemma runs_drop k l : runs k l -> runs k (drop k l).
Proof.
  destruct 1 as [a Hs Hl|a l Hs Hl Hr]; [rewrite -> drop_ge by done; apply runs_last; [constructor|cbn; lia]|].
  rewrite -> drop_app_ge by lia. by replace (k - length a)%nat with 0%nat by lia.
Qed.

Lemma merge_runs_perm n k l : merge_runs n k l ≡ₚ l.
Proof.
  revert l. induction n as [|n IH]; intros l; cbn; [done|]. destruct l as [|x l]; [done|]. rewrite -> IH, -> merge_Permutation.
  rewrite <- app_assoc. rewrite <- drop_drop. by rewrite -> !take_drop.
Qed.

Context `{!Total R}.

Lemma merge_runs_runs n k l : (0 < k)%nat -> (length l <= n)%nat -> runs k l -> runs (k + k) (merge_runs n k l).
Proof.
  intros Hk. revert l. induction n as [|n IH]; intros l Hn Hr; cbn.
  { destruct l; [|cbn in Hn; lia]. apply runs_last; [constructor|cbn; lia]. }
  destruct l as [|x l]; [apply runs_last; [constructor|cbn; lia]|]. set (l0 := x :: l) in *.
  assert (Sorted R (list_merge R (take k l0) (take k (drop k l0)))) as Hs
    by (apply Sorted_list_merge; [done|by apply runs_take|by apply runs_take, runs_drop]).
  pose proof (Permutation_length (merge_Permutation R (take k l0) (take k (drop k l0)))) as Hlen.
  rewrite -> length_app, -> !length_take, -> length_drop in Hlen.
  destruct (decide (k + k <= length l0)%nat) as [Hge|Hlt].
  - apply runs_cons; [done|lia|]. apply IH; [rewrite -> length_drop; cbn in *; lia|]. rewrite <- drop_drop. by apply runs_drop, runs_drop.
  - rewrite -> (drop_ge l0 (k + k)) by lia. replace (merge_runs n k []) with (@nil A) by (by destruct n). rewrite -> app_nil_r.
    apply runs_last; [done|lia].
Qed.

Lemma runs_sorted k l : (length l <= k)%nat -> runs k l -> Sorted R l.
Proof. intros Hl Hr. apply runs_take in Hr. by rewrite -> take_ge in Hr. Qed.

Lemma runs_one l : runs 1 l.
Proof.
  induction l as [|x l IH]; [apply runs_last; [constructor|cbn; lia]|]. apply (runs_cons 1 [x]); [by repeat constructor|done|done].
Qed.

End lists.

(** ** On the pointers *)

Section sort.
Context {V : Type} `{HG : !heapGS V Σ} (hash : bytes -> Z).
Context (le : relation bytes) `{!RelDecision le, !Total le}.
Abbreviation elem := (ptr * bytes)%type.
Definition R (a b : elem) : Prop := le a.2 b.2.
#[local] Instance R_dec : RelDecision R.
Proof. intros a b. unfold R. apply _. Defined.
#[local] Instance R_total : Total R.
Proof. intros a b. unfold R. apply total, _. Qed.

(** Elements whose [next] are in order, whatever their [prev]. *)
Fixpoint nexts (l : list ptr) (b : option ptr) : iProp Σ :=
  match l with
  | [] => emp
  | q :: l => (∃ a, field_at q FApp (CLinks {| l_prev := a; l_next := first l b |})) ∗ nexts l b
  end.

Lemma seg_nexts a l b : seg FApp a l b ⊢ nexts l b.
Proof. revert a. induction l as [|q l IH]; intros a; cbn; [done|]. rewrite -> IH. iIntros "[H $]". by iExists a. Qed.

Lemma nexts_app l1 l2 b : nexts (l1 ++ l2) b ⊣⊢ nexts l1 (first l2 b) ∗ nexts l2 b.
Proof. induction l1 as [|q l1 IH]; cbn; [by rewrite -> left_id by apply _|]. rewrite -> IH, -> first_app. by rewrite -> assoc by apply _. Qed.

Context (t : ptr) (es : list elem) (cmp : ptr -> ptr -> M (mem V) Z).
Abbreviation Keys := (handles hash t es).

(** [cmpfcn] compares the keys. *)
Definition compares : Prop := forall a b Ψ, a ∈ es -> b ∈ es ->
  Keys -∗ (∀ c, ⌜c <= 0 <-> R a b⌝ -∗ Keys -∗ Ψ c) -∗ hwp (cmp a.1 b.1) Ψ.
Context (Hcmp : compares).

Lemma hwp_after q a b Φ : field_at q FApp (CLinks {| l_prev := a; l_next := b |}) -∗
  (field_at q FApp (CLinks {| l_prev := a; l_next := b |}) -∗ Φ b) -∗ hwp (V := V) (after q) Φ.
Proof. iIntros "Hq HΦ". hbind. iApply (hwp_load with "Hq"); [done|]. iIntros "Hq". iApply hwp_ret. by iApply "HΦ". Qed.

Lemma hwp_skip_run i n l Φ :
  nexts l None -∗ (nexts l None -∗ Φ ((n + length (take i l))%nat, first (drop i l) None)) -∗ hwp (V := V) (skip_run i n (first l None)) Φ.
Proof.
  iIntros "H HΦ". iInduction i as [|i] "IH" forall (n l); destruct l as [|q l]; cbn.
  1, 2, 3: iApply hwp_ret; rewrite -> Nat.add_0_r; by iApply "HΦ".
  iDestruct "H" as "[(%a & Hq) H]". hbind. iApply (hwp_after with "Hq"). iIntros "Hq". iApply ("IH" with "H"). iIntros "H".
  rewrite <- Nat.add_succ_comm. iApply "HΦ". iFrame.
Qed.

(** The element that a merge takes next. *)
Lemma hwp_pick P L qs Φ : (forall e, e ∈ P ++ L -> e ∈ es) -> (P <> [] \/ (qs <> 0%nat /\ L <> [])) ->
  ∀ x b, Keys -∗ nexts P.*1 b -∗ nexts L.*1 None -∗
  (∀ e p' P' L' qs' b', ⌜list_merge R P (take qs L) = e :: list_merge R P' (take qs' L') /\ drop qs L = drop qs' L'
      /\ (length P' + length L' < length P + length L)%nat /\ (forall e', e' ∈ e :: P' ++ L' -> e' ∈ es) /\ p' = first P'.*1 b'⌝ -∗
    Keys -∗ (∃ c, field_at e.1 FApp (CLinks c)) -∗ nexts P'.*1 b' -∗ nexts L'.*1 None -∗ Φ (e.1, p', length P', first L'.*1 None, qs')) -∗
  hwp (pick cmp (first P.*1 x) (length P) (first L.*1 None) qs) Φ.
Proof.
  iIntros (Hin Hne x b) "HK HP HL HΦ". destruct P as [|a P].
  - destruct Hne as [|[Hq HL]]; [done|]. destruct qs as [|qs]; [done|]. destruct L as [|e L]; [done|]. cbn. iDestruct "HL" as "[(%a & He) HL]".
    hbind. iApply hwp_ret. hbind. iApply (hwp_after with "He"). iIntros "He". iApply hwp_ret. rewrite -> Nat.sub_0_r.
    iApply ("HΦ" $! e _ [] L qs x with "[%] HK [He] HP HL"); [|by iExists _]. rewrite -> list_merge_nil_l. split_and!; [done|done|cbn; lia|done|done].
  - cbn [fmap list_fmap fst first length nexts]. iDestruct "HP" as "[(%pa & Ha) HP]". destruct qs as [|qs].
    + cbn. hbind. iApply hwp_ret. hbind. iApply (hwp_after with "Ha"). iIntros "Ha". iApply hwp_ret. rewrite -> Nat.sub_0_r.
      iApply ("HΦ" $! a _ P L 0%nat b with "[%] HK [Ha] HP HL"); [|by iExists _]. rewrite -> !take_0, -> !list_merge_nil_r. split_and!; [done|done|cbn; lia|done|done].
    + destruct L as [|e L].
      * cbn. hbind. iApply hwp_ret. hbind. iApply (hwp_after with "Ha"). iIntros "Ha". iApply hwp_ret. rewrite -> Nat.sub_0_r.
        iApply ("HΦ" $! a _ P [] (S qs) b with "[%] HK [Ha] HP HL"); [|by iExists _]. rewrite -> !take_nil, -> !list_merge_nil_r.
        split_and!; [done|done|cbn; lia|done|done].
      * cbn [pick fmap list_fmap fst first nexts take]. iDestruct "HL" as "[(%pe & He) HL]". hbind. iApply hwp_ret.
        hbind. iApply (Hcmp a e with "HK"); [apply Hin; left|apply Hin; right; apply elem_of_app; right; left|].
        iIntros (c Hc) "HK". rewrite -> list_merge_cons. destruct (Z.leb_spec c 0) as [Hle|Hgt]; case_decide as Hd;
          [|by apply Hc in Hle|apply Hc in Hd; lia|].
        -- hbind. iApply (hwp_after with "Ha"). iIntros "Ha". iApply hwp_ret. cbn [Nat.sub]. rewrite -> Nat.sub_0_r.
           iApply ("HΦ" $! a _ P (e :: L) (S qs) b with "[%] HK [Ha] HP [He HL]"); [|by iExists _|cbn; iFrame].
           split_and!; [done|done|cbn; lia|done|done].
        -- hbind. iApply (hwp_after with "He"). iIntros "He". iApply hwp_ret. rewrite -> Nat.sub_succ, -> Nat.sub_0_r.
           iApply ("HΦ" $! e _ (a :: P) L qs b with "[%] HK [He] [Ha HP] HL"); [|by iExists _|cbn; iFrame].
           split_and!; [done|done|cbn; lia| |done]. intros e' He'. apply Hin. revert He'. rewrite -> !elem_of_cons, -> !elem_of_app, -> !elem_of_cons. tauto.
Qed.

Lemma hwp_append {A} out b e (k : option ptr -> M (mem V) A) Φ c :
  seg FApp None out b -∗ field_at e FApp (CLinks c) -∗
  (∀ b', seg FApp None (out ++ [e]) b' -∗ hwp (k (first (out ++ [e]) None)) Φ) -∗
  hwp (lst ← (match lastp None out with Some t => update_links FApp t (set_next (Some e));; mret (first out None) | None => mret (Some e) end);
       update_links FApp e (set_prev (lastp None out));; k lst) Φ.
Proof.
  iIntros "H He HΦ". destruct c as [ca cb].
  iAssert (∀ Ψ, (seg FApp None out (Some e) -∗ Ψ (first (out ++ [e]) None)) -∗
    hwp (V := V) (match lastp None out with Some t => update_links FApp t (set_next (Some e));; mret (first out None) | None => mret (Some e) end) Ψ)%I
    with "[H]" as "Hlink".
  { iIntros (Ψ) "HΨ". destruct out as [|o out _] using rev_ind; [iApply hwp_ret; by iApply "HΨ"|]. rewrite -> lastp_snoc, -> !seg_app.
    iDestruct "H" as "(H & Ho & _)". hbind. iApply (hwp_update_links with "Ho"). iIntros "Ho". iApply hwp_ret. rewrite -> (first_app _ [e]).
    destruct out; iApply "HΨ"; cbn; iFrame. }
  hbind. iApply "Hlink". iIntros "H". hbind. iApply (hwp_update_links with "He"). iIntros "He". iApply ("HΦ" $! cb). rewrite -> seg_app. cbn. iFrame.
Qed.

Lemma hwp_merge_loop n P L qs out x b b' Φ : (forall e, e ∈ P ++ L -> e ∈ es) -> (length P + length L <= n)%nat ->
  Keys -∗ nexts P.*1 b -∗ nexts L.*1 None -∗ seg FApp None out b' -∗
  (∀ b'', Keys -∗ nexts (drop qs L).*1 None -∗ seg FApp None (out ++ (list_merge R P (take qs L)).*1) b'' -∗
    Φ (first (drop qs L).*1 None, first (out ++ (list_merge R P (take qs L)).*1) None, lastp None (out ++ (list_merge R P (take qs L)).*1))) -∗
  hwp (merge_loop cmp n (first P.*1 x) (length P) (first L.*1 None) qs (first out None) (lastp None out)) Φ.
Proof.
  iIntros (Hin Hn) "HK HP HL Ho HΦ". iInduction n as [|n] "IH" forall (P L qs out x b b' Hin Hn).
  - destruct P; [|cbn in Hn; lia]. destruct L; [|cbn in Hn; lia]. cbn [merge_loop]. rewrite -> bool_decide_true by done.
    rewrite -> orb_true_r. rewrite -> !take_nil, -> !drop_nil, -> list_merge_nil_l, -> app_nil_r. iApply hwp_ret. by iApply ("HΦ" with "HK HL Ho").
  - cbn [merge_loop]. destruct (bool_decide _ && _) eqn:Hend.
    + apply andb_true_iff in Hend as [HP%bool_decide_eq_true HQ]. apply length_zero_iff_nil in HP as ->. rewrite -> list_merge_nil_l.
      assert (take qs L = []) as Htake.
      { apply orb_true_iff in HQ as [->%bool_decide_eq_true|HL%bool_decide_eq_true]; [done|]. destruct L; [by destruct qs|done]. }
      assert (drop qs L = L) as Hdrop by (rewrite <- (take_drop qs L) at 2; by rewrite -> Htake).
      rewrite -> Htake, -> Hdrop, -> app_nil_r. iApply hwp_ret. by iApply ("HΦ" with "HK HL Ho").
    + hbind. iApply (hwp_pick with "HK HP HL"); [done| |].
      { apply andb_false_iff in Hend as [HP%bool_decide_eq_false|[Hq%bool_decide_eq_false HL%bool_decide_eq_false]%orb_false_iff].
        - left. by intros ->.
        - right. split; [done|]. by intros ->. }
      iIntros (e p' P' L' qs' b0 (Hm & Hd & Hlt & Hin' & ->)) "HK (%c & He) HP HL". rewrite -> Hm, -> Hd.
      iApply (hwp_append with "Ho He"). iIntros (b1) "Ho".
      rewrite <- (lastp_snoc None out e.1). iApply ("IH" with "[%] [%] HK HP HL Ho"); [intros e' He'; apply Hin'; by right|lia|].
      cbn [fmap list_fmap fst]. rewrite <- (assoc_L (++)). cbn. iApply "HΦ".
Qed.

(** ** A pass *)

(** The number of merges, of which there is one when a run covers the list. *)
Definition merged (k c : nat) (l : list elem) : Prop := (c = 0%nat <-> l = []) /\ ((c <= 1)%nat <-> (length l <= k + k)%nat).

Lemma merged_nil k : merged k 0 [].
Proof. split; [done|]. cbn. lia. Qed.

Lemma merged_cons k c e l : (0 < k)%nat -> merged k c (drop (k + k) (e :: l)) -> merged k (S c) (e :: l).
Proof.
  intros Hk [H0 _]. split; [done|]. rewrite <- length_zero_iff_nil, -> length_drop in H0. lia.
Qed.

Lemma hwp_merge_pass n fu k L out b m Φ : (0 < k)%nat -> (forall e, e ∈ L -> e ∈ es) -> (length L <= n)%nat -> (length L <= fu)%nat ->
  Keys -∗ nexts L.*1 None -∗ seg FApp None out b -∗
  (∀ b' c, ⌜merged k c L⌝ -∗ Keys -∗ seg FApp None (out ++ (merge_runs R n k L).*1) b' -∗
    Φ (first (out ++ (merge_runs R n k L).*1) None, lastp None (out ++ (merge_runs R n k L).*1), (m + c)%nat)) -∗
  hwp (merge_pass cmp n fu k (first L.*1 None) (first out None) (lastp None out) m) Φ.
Proof.
  iIntros (Hk Hin Hn Hfu) "HK HL Ho HΦ". iInduction n as [|n] "IH" forall (L out b m Hin Hn Hfu); (destruct L as [|e L]; [|cbn in Hn; try lia]).
  1, 2: cbn; rewrite -> app_nil_r; iApply hwp_ret; iSpecialize ("HΦ" $! b 0%nat with "[%] HK Ho"); [apply merged_nil|by rewrite -> Nat.add_0_r].
  set (L0 := e :: L) in *. cbn [merge_pass merge_runs L0 fmap list_fmap first]. fold L0.
  change (Some e.1) with (first L0.*1 None). hbind. iApply (hwp_skip_run with "HL"). iIntros "HL". cbn [fst snd].
  assert (L0.*1 = (take k L0).*1 ++ (drop k L0).*1) as Hsplit by (rewrite <- fmap_app; by rewrite -> take_drop).
  change (e.1 :: L.*1) with L0.*1. rewrite -> Hsplit, -> nexts_app. iDestruct "HL" as "[HP HL]".
  assert ((0 + length (take k ((take k L0).*1 ++ (drop k L0).*1)))%nat = length (take k L0)) as ->
    by (rewrite <- Hsplit, <- fmap_take; apply length_fmap).
  replace (first (drop k ((take k L0).*1 ++ (drop k L0).*1)) None) with (first (drop k L0).*1 None) by (by rewrite <- Hsplit, <- fmap_drop).
  rewrite -> (first_app (take k L0).*1). hbind. iApply (hwp_merge_loop with "HK HP HL Ho"); [by rewrite -> take_drop|by rewrite <- length_app, -> take_drop|].
  iIntros (b1) "HK HL Ho". rewrite -> drop_drop, -> fmap_app, -> (assoc_L (++)).
  iApply ("IH" with "[%] [%] [%] HK HL Ho").
  - intros e' He'. apply Hin. rewrite <- (take_drop (k + k) L0). apply elem_of_app. by right.
  - rewrite -> length_drop. cbn. lia.
  - rewrite -> length_drop. lia.
  - iIntros (b2 c Hc) "HK Ho". iSpecialize ("HΦ" $! b2 (S c) with "[%] HK Ho"); [by apply merged_cons|].
    by rewrite -> Nat.add_succ_r.
Qed.

Lemma hwp_sort_loop n fu k L Φ : (0 < k)%nat -> L ≡ₚ es -> runs R k L -> (length L + 1 <= n + (k + k))%nat -> (0 < n)%nat -> (length L <= fu)%nat ->
  Keys -∗ nexts L.*1 None -∗
  (∀ L', ⌜L' ≡ₚ es /\ Sorted R L'⌝ -∗ Keys -∗ seg FApp None L'.*1 None -∗ Φ (first L'.*1 None, lastp None L'.*1)) -∗
  hwp (sort_loop cmp n fu k (first L.*1 None)) Φ.
Proof.
  iIntros (Hk Hp Hr Hn Hpos Hfu) "HK HL HΦ". iInduction n as [|n] "IH" forall (k L Hk Hp Hr Hn Hpos Hfu); [lia|]. cbn [sort_loop].
  hbind. iApply (hwp_merge_pass fu fu k L [] None 0 with "HK HL []"); [done|intros e; by rewrite -> Hp|done..|].
  iIntros (b c [_ Hc]) "HK Ho". cbn [app]. set (L' := merge_runs R fu k L). pose proof (merge_runs_perm R fu k L) as Hp'. fold L' in Hp'.
  hbind. iApply (hwp_seg_last with "Ho"). iIntros "Ho". pose proof (Permutation_length Hp') as Hlen.
  assert (runs R (k + k) L') as Hr' by (apply merge_runs_runs; [apply _|done..]).
  rewrite -> Nat.add_0_l. case_bool_decide as Hm.
  - iApply hwp_ret. iApply ("HΦ" with "[%] HK Ho"). split; [by rewrite -> Hp'|]. eapply runs_sorted; [|exact Hr']. rewrite -> Hlen. by apply Hc.
  - rewrite -> seg_nexts. assert (~ length L <= k + k)%nat as Hgt by (by intros ?%Hc).
    replace (2 * k)%nat with (k + k)%nat by lia. iApply ("IH" with "[%] [%] [%] [%] [%] [%] HK Ho HΦ"); [lia|by rewrite -> Hp'|done|lia..].
Qed.

End sort.

(** ** The macro *)

Section table.
Context {V : Type} `{HG : !heapGS V Σ} (hash : bytes -> Z).
Context (le : relation bytes) `{!RelDecision le, !Total le} (cmp : ptr -> ptr -> M (mem V) Z).

Lemma lastp_Some a l : exists q, lastp (Some a) l = Some q.
Proof. revert a. induction l as [|q l IH]; intros a; cbn; [by exists a|apply IH]. Qed.

Lemma handles_perm t es es' : es ≡ₚ es' -> handles hash t es ⊢ handles hash t es'.
Proof. intros Hp. unfold handles. by rewrite -> Hp. Qed.

Lemma hwp_sort head es Φ : (forall t, compares hash le t es cmp) ->
  table hash head es -∗
  (∀ head' es', ⌜es' ≡ₚ es /\ Sorted (R le) es'⌝ -∗ table hash head' es' -∗ Φ head') -∗
  hwp (HASH_SORT cmp head) Φ.
Proof.
  iIntros (Hcmp) "H HΦ". destruct (decide (es = [])) as [->|Hes].
  { iDestruct "H" as "[-> H]". iApply hwp_ret. iApply ("HΦ" $! None [] with "[%] [$H //]"). split; [done|constructor]. }
  iDestruct (table_open with "H") as (hd t tb bs cs) "(%Hhd & Ht & HT & Hb & HB & Hh & Ha & Hc & %Hok)"; [done|].
  destruct Hhd as (-> & Hfirst & Hin), Hok as (Hpow & Hlen & Htail & Hperm & Hhash). unfold HASH_SORT.
  hbind. iApply (hwp_hh_tbl with "Hh"); [done|]. iIntros "Hh". hbind. iApply (hwp_fuel_handles with "Hh"). iIntros (n Hn) "Hh".
  rewrite -> seg_nexts, <- Hfirst. hbind.
  iApply (hwp_sort_loop hash le t es cmp (Hcmp t) n n 1 es with "Hh Ha"); [lia|done|apply runs_one|lia|destruct es; [done|cbn in Hn; lia]|done|].
  iIntros (es' [Hp Hs]) "Hh Ha". cbn [fst snd]. assert (es' <> []) as Hne by (intros ->; by apply Permutation_nil in Hp).
  destruct (lastp None es'.*1) as [tl|] eqn:Htl; [|destruct es' as [|e es']; [done|by destruct (lastp_Some e.1 es'.*1); simplify_eq/=]].
  hbind. iApply hwp_ret. hbind. iApply (hwp_update_tbl with "Ht"). iIntros "Ht". iApply hwp_ret. iApply ("HΦ" with "[//]").
  iApply (table_close _ _ _ t); [done|done|]. iExists _, bs, cs. iFrame "Ht". iFrame. rewrite -> (handles_perm t es es') by done. iFrame.
  iPureIntro. cbn. split_and!; [done..|by rewrite -> Hp|]. eapply hashed_mono; [|exact Hhash]. intros e. by rewrite -> Hp.
Qed.

(** Tables of structs. *)
Lemma zip_perm {A B} (l l' : list A) (m : list B) : l' ≡ₚ l -> length l = length m ->
  exists m', m' ≡ₚ m /\ length l' = length m' /\ zip l' m' ≡ₚ zip l m.
Proof.
  intros Hp Hlen. assert (l' ≡ₚ map fst (zip l m)) as Hz by (change (map fst (zip l m)) with (zip l m).*1; by rewrite -> fst_zip by lia).
  apply Permutation_map_inv in Hz as (z & -> & Hz). exists z.*2. change (map fst z) with z.*1. rewrite -> zip_fst_snd, -> !length_fmap.
  split_and!; [|done|done]. rewrite <- Hz. by rewrite -> snd_zip by lia.
Qed.

Lemma big_sepL2_perm {A B} (Ψ : A -> B -> iProp Σ) l l' m : l' ≡ₚ l ->
  ([∗ list] a;b ∈ l;m, Ψ a b) -∗ ∃ m', ⌜m' ≡ₚ m⌝ ∗ [∗ list] a;b ∈ l';m', Ψ a b.
Proof.
  iIntros (Hp) "H". iDestruct (big_sepL2_length with "H") as %Hlen. destruct (zip_perm l l' m Hp Hlen) as (m' & Hm & Hlen' & Hz).
  iExists m'. iSplit; [done|]. rewrite -> !big_sepL2_alt, -> Hz. iDestruct "H" as "[_ $]". done.
Qed.

Context {C : Type} (key : C -> bytes) (val : C -> V).

Lemma sorted_keys (es : list (ptr * bytes)) (cs : list C) : es.*2 = key <$> cs -> Sorted (R le) es -> Sorted (fun a b => le (key a) (key b)) cs.
Proof.
  intros Hk Hs. revert cs Hk. induction Hs as [|e es Hs IH Hh]; intros [|c cs] [=]; constructor; [by apply IH|].
  destruct Hh as [|e' es Hr]; destruct cs as [|c' cs]; simplify_eq/=; constructor. unfold R in Hr. congruence.
Qed.

Lemma hwp_rows_sort head es cs Φ : (forall t es, compares hash le t es cmp) ->
  rows hash key val head es cs -∗
  (∀ head' es' cs', ⌜cs' ≡ₚ cs /\ Sorted (fun a b => le (key a) (key b)) cs'⌝ -∗ rows hash key val head' es' cs' -∗ Φ head') -∗
  hwp (HASH_SORT cmp head) Φ.
Proof.
  iIntros (Hcmp) "[Ht H] HΦ". iApply (hwp_sort with "Ht"); [done|]. iIntros (head' es' [Hp Hs]) "Ht".
  iDestruct (big_sepL2_perm _ _ _ _ Hp with "H") as (cs' Hcs) "H". iAssert (rows hash key val head' es' cs') with "[$Ht $H]" as "H".
  iDestruct (rows_keys with "H") as %Hk. iApply ("HΦ" with "[%] H"). split; [done|]. by eapply sorted_keys.
Qed.

End table.

Section nested.
Context {V : Type} `{HG : !heapGS V Σ} (hash : bytes -> Z).
Context (le : relation bytes) `{!RelDecision le, !Total le} (cmp : ptr -> ptr -> M (mem V) Z).
Context {B C : Type} (keyB : B -> bytes) (keyC : C -> bytes) (subs : B -> list C) (valB : B -> option ptr -> V) (valC : C -> V).
Abbreviation nested := (nested hash keyB keyC subs valB valC).

Lemma sorted_fst (ps : list (B * option ptr)) :
  Sorted (fun a b => le (outer_key keyB a) (outer_key keyB b)) ps -> Sorted (fun a b => le (keyB a) (keyB b)) ps.*1.
Proof. induction 1 as [|p ps Hs IH Hh]; cbn; constructor; [done|]. by destruct Hh; constructor. Qed.

Lemma hwp_nested_sort head es bs Φ : (forall t es, compares hash le t es cmp) ->
  nested head es bs -∗
  (∀ head' es' bs', ⌜bs' ≡ₚ bs /\ Sorted (fun a b => le (keyB a) (keyB b)) bs'⌝ -∗ nested head' es' bs' -∗ Φ head') -∗
  hwp (HASH_SORT cmp head) Φ.
Proof.
  iIntros (Hcmp) "(%ps & <- & H & Hs) HΦ". iApply (hwp_rows_sort hash le with "H"); [done|]. iIntros (head' es' ps' [Hp Hso]) "H".
  iApply ("HΦ" $! head' es' ps'.*1 with "[%]"); [split; [by rewrite -> Hp|by apply sorted_fst]|]. iExists ps'. iSplit; [done|]. iFrame "H". by rewrite -> (big_opL_permutation _ _ _ Hp).
Qed.

Lemma nested_cost_perm bs bs' : bs' ≡ₚ bs -> nested_cost subs bs' = nested_cost subs bs.
Proof.
  intros Hp. unfold nested_cost. rewrite -> (rows_cost_length bs' bs) by (by rewrite -> Hp). f_equal.
  induction Hp; cbn; lia.
Qed.

End nested.
