(* ===== verification/PeekTables.v ===== *)
(** * PeekTables: the tables of [-e] and [-g] in memory, and [cleanup]

    [varpeek_add] and [glopeek_add] with their [calloc]s and their uthash
    tables, as pointers: a table of entries with a table of variables each, and
    a table of globals.  They hold what the lists of Options.v hold, and
    [cleanup], which also runs when an argument is rejected, gives every block
    back. *)
From S2P Require Import Prelude CLib Context OptionFields Usage Options Memory HeapLogic UthashHeap TableHeap.
Open Scope Z_scope.

(** ** The structs *)

(** [varpeek_entry], [varpeek_var] and [glopeek_entry], beside their keys. *)
Inductive peek_struct := VarpeekEntry (varmap : option ptr) | VarpeekVar | GlopeekEntry (gloname varname : bytes).

Definition varmap_of (v : peek_struct) : option ptr := match v with VarpeekEntry h => h | _ => None end.
Definition with_varmap (h : option ptr) (v : peek_struct) : peek_struct := match v with VarpeekEntry _ => VarpeekEntry h | _ => v end.

(** The statics [varpeek_map] and [glopeek_map]. *)
Record peek_maps := { p_varpeek : option ptr; p_glopeek : option ptr }.

Abbreviation PHM := (M (mem peek_struct)).

Section peeks.
Context (hash : bytes -> Z).

(** ** Adding *)

(** The body of the loop of [varpeek_add]. *)
Definition find_or_add_entry (map : option ptr) (key : bytes) : PHM (ptr * option ptr) :=
  found ← HASH_FIND_STR hash map key;
  match found with
  | Some varpeek => mret (varpeek, map)
  | None =>
    varpeek ← calloc (VarpeekEntry None);
    set_cell FKey varpeek (CKey key);;
    map ← HASH_ADD_STR hash map varpeek;
    mret (varpeek, map)
  end.

Definition varpeek_body (map : option ptr) (key name : bytes) : PHM (option ptr) :=
  r ← find_or_add_entry map key;
  var ← calloc VarpeekVar;
  set_cell FKey var (CKey name);;
  v ← load_val r.1;
  varmap ← HASH_ADD_STR hash (varmap_of v) var;
  update_val r.1 (with_varmap varmap);;
  mret r.2.

Fixpoint varpeek_heap_loop (n : nat) (file name : bytes) (lineno line_end : Z) (map : option ptr) : PHM (option ptr) :=
  if line_end <? lineno then mret map else
  match n with
  | O => diverge
  | S n => map ← varpeek_body map (varpeek_key file lineno) name; varpeek_heap_loop n file name (u32 (lineno + 1)) line_end map
  end.

(** [None] where [usage] is called. *)
Definition varpeek_heap_add (varspec : bytes) (m : peek_maps) : PHM (option peek_maps) :=
  match varpeek_spec varspec with
  | Some (file, name, line_start, line_end) =>
    map ← varpeek_heap_loop (Z.to_nat (line_end - line_start + 1)) file name line_start line_end (p_varpeek m);
    mret (Some {| p_varpeek := map; p_glopeek := p_glopeek m |})
  | None => mret None
  end.

Definition glopeek_heap_add (glospec : bytes) (m : peek_maps) : PHM (option peek_maps) :=
  match strchr glospec "."%char with
  | None => mret None
  | Some dot =>
    found ← HASH_FIND_STR hash (p_glopeek m) glospec;
    match found with
    | Some _ => mret (Some m)
    | None =>
      match gloname_of glospec dot with
      | None => mret None
      | Some gloname =>
        gentry ← calloc (GlopeekEntry [] []);
        set_cell FKey gentry (CKey (snprintf_cstr PHPSPY_STR_SIZE glospec));;
        set_cell FVal gentry (CVal (GlopeekEntry gloname (snprintf_cstr PHPSPY_STR_SIZE (drop (dot + 1) glospec))));;
        map ← HASH_ADD_STR hash (p_glopeek m) gentry;
        mret (Some {| p_varpeek := p_varpeek m; p_glopeek := map |})
      end
    end
  end.

(** ** Reading and freeing *)

(** Iteration over the tables, as in [trace_globals]. *)
Definition read_vars (head : option ptr) : PHM (list bytes) :=
  for_each (fun l var => name ← load FKey as_key var; mret (l ++ [name])) [] head.
Definition read_varpeeks (head : option ptr) : PHM (list varpeek_entry) :=
  for_each (fun l e => key ← load FKey as_key e; v ← load_val e; vars ← read_vars (varmap_of v);
                       mret (l ++ [{| ve_filename_lineno := key; ve_varmap := vars |}])) [] head.
Definition read_glopeeks (head : option ptr) : PHM (list glopeek_entry) :=
  for_each (fun l e => key ← load FKey as_key e; v ← load_val e;
                       match v with
                       | GlopeekEntry gloname varname => mret (l ++ [{| ge_key := key; ge_gloname := gloname; ge_varname := varname |}])
                       | _ => raise UseAfterFree
                       end) [] head.

(** [cleanup], after the [regfree] of the filter. *)
Definition cleanup (m : peek_maps) : PHM unit :=
  _ ← free_nested varmap_of with_varmap (p_varpeek m);
  _ ← free_table (p_glopeek m);
  mret tt.

(** ** A run *)

Inductive peek_arg := ArgVar (varspec : bytes) | ArgGlo (glospec : bytes).

Definition peek_heap_add (a : peek_arg) : peek_maps -> PHM (option peek_maps) :=
  match a with ArgVar s => varpeek_heap_add s | ArgGlo s => glopeek_heap_add s end.

(** The arguments of [-e] and [-g] in turn; at the end the tables are read and
    freed, and where an argument is rejected, [usage] frees them. *)
Fixpoint peek_session (args : list peek_arg) (m : peek_maps) : PHM (option (list varpeek_entry * list glopeek_entry)) :=
  match args with
  | [] => vars ← read_varpeeks (p_varpeek m); globals ← read_glopeeks (p_glopeek m); cleanup m;; mret (Some (vars, globals))
  | a :: args =>
    r ← peek_heap_add a m;
    match r with
    | Some m => peek_session args m
    | None => cleanup m;; mret None
    end
  end.

End peeks.

(** The same arguments as the option parser handles them. *)
Definition peek_add (a : peek_arg) : PM unit := match a with ArgVar s => varpeek_add s | ArgGlo s => glopeek_add s end.
Fixpoint peek_adds (args : list peek_arg) : PM unit := match args with [] => mret tt | a :: args => peek_add a;; peek_adds args end.

(** ** The lists of Options.v *)

Definition entry_keys (vs : list varpeek_entry) : list bytes := ve_filename_lineno <$> vs.
Definition add_name (name : bytes) (e : varpeek_entry) : varpeek_entry :=
  {| ve_filename_lineno := ve_filename_lineno e; ve_varmap := ve_varmap e ++ [name] |}.

Lemma add_var_found key name vs i e : NoDup (entry_keys vs) -> vs !! i = Some e -> ve_filename_lineno e = key ->
  add_var key name vs = <[i := add_name name e]> vs.
Proof.
  revert i. induction vs as [|x vs IH]; intros i Hn Hi He; [done|]. cbn in Hn. apply NoDup_cons in Hn as [Hx Hn]. destruct i as [|i].
  - injection Hi as ->. cbn. by rewrite -> bool_decide_true.
  - cbn in Hi. change (<[S i := add_name name e]> (x :: vs)) with (x :: <[i := add_name name e]> vs). cbn. rewrite -> bool_decide_false.
    + by rewrite -> (IH i).
    + intros Hk. apply Hx. rewrite -> Hk, <- He. apply list_elem_of_fmap. exists e. split; [done|]. by eapply list_elem_of_lookup_2.
Qed.

Lemma add_var_fresh key name vs : key ∉ entry_keys vs -> add_var key name vs = vs ++ [{| ve_filename_lineno := key; ve_varmap := [name] |}].
Proof.
  induction vs as [|x vs IH]; [done|]. cbn. rewrite -> not_elem_of_cons. intros [Hx Hvs]. rewrite -> bool_decide_false by congruence.
  by rewrite -> IH.
Qed.

Lemma entry_keys_insert (vs : list varpeek_entry) (i : nat) e name : vs !! i = Some e -> entry_keys (<[i := add_name name e]> vs) = entry_keys vs.
Proof. intros Hi. unfold entry_keys. rewrite -> list_fmap_insert. apply list_insert_id. by rewrite -> list_lookup_fmap, -> Hi. Qed.

(** ** Proofs *)

Section proofs.
Context `{HG : !heapGS peek_struct Σ} (hash : bytes -> Z).

Definition entries : option ptr -> list (ptr * bytes) -> list varpeek_entry -> iProp Σ :=
  nested hash ve_filename_lineno id ve_varmap (fun _ h => VarpeekEntry h) (fun _ => VarpeekVar).
Definition globals : option ptr -> list (ptr * bytes) -> list glopeek_entry -> iProp Σ :=
  rows hash ge_key (fun g => GlopeekEntry (ge_gloname g) (ge_varname g)).

Abbreviation entries_cost := (nested_cost ve_varmap).

Lemma hwp_find_or_add map es vs key n Φ : NoDup (entry_keys vs) ->
  live (n + entries_cost vs) -∗ entries map es vs -∗
  (∀ q map' es' vs' i e, ⌜es' !! i = Some (q, key) /\ vs' !! i = Some e /\ NoDup (entry_keys vs')
      /\ forall name, add_var key name vs = <[i := add_name name e]> vs'⌝ -∗
    live (n + entries_cost vs') -∗ entries map' es' vs' -∗ Φ (q, map')) -∗
  hwp (find_or_add_entry hash map key) Φ.
Proof.
  iIntros (Hnd) "Hn H HΦ". hbind. iApply (hwp_nested_find with "H"). iIntros (r Hr) "H". destruct r as [q|].
  - destruct Hr as (i & e & Hi & He & Hk). iApply hwp_ret. iApply ("HΦ" with "[%] Hn H"). split_and!; [exact Hi|exact He|done|].
    intros name. by apply add_var_found.
  - hbind. iApply (hwp_calloc with "Hn"). iIntros (q) "Hn Hq Hv". hbind. iApply (hwp_set_key with "Hq"). iIntros "Hq".
    iDestruct (nested_keys with "H") as %Hkeys. set (e := {| ve_filename_lineno := key; ve_varmap := [] |}).
    hbind. iApply (hwp_nested_add _ _ _ _ _ _ _ _ _ _ e with "Hn H Hq Hv"); [done|]. iIntros (map') "Hn H". iApply hwp_ret.
    assert (length es = length vs) as Hl by (by apply (f_equal length) in Hkeys; rewrite -> !length_fmap in Hkeys).
    iApply ("HΦ" $! q map' _ _ (length vs) e with "[%] Hn H"). split_and!.
    + rewrite -> lookup_app_r, -> Hl, -> Nat.sub_diag by lia. done.
    + rewrite -> lookup_app_r, -> Nat.sub_diag by lia. done.
    + unfold entry_keys. rewrite -> fmap_app. apply NoDup_app. split_and!; [done| |apply NoDup_singleton]. by intros k Hk ->%list_elem_of_singleton.
    + intros name. rewrite -> add_var_fresh by done. rewrite -> insert_app_r_alt, -> Nat.sub_diag by lia. done.
Qed.

Lemma hwp_varpeek_body map es vs key name n Φ : NoDup (entry_keys vs) ->
  live (n + entries_cost vs) -∗ entries map es vs -∗
  (∀ map' es', ⌜NoDup (entry_keys (add_var key name vs))⌝ -∗ live (n + entries_cost (add_var key name vs)) -∗
    entries map' es' (add_var key name vs) -∗ Φ map') -∗
  hwp (varpeek_body hash map key name) Φ.
Proof.
  iIntros (Hnd) "Hn H HΦ". hbind. iApply (hwp_find_or_add with "Hn H"); [done|].
  iIntros (q map' es' vs' i e (Hq & He & Hnd' & Hadd)) "Hn H". rewrite -> Hadd. cbn [fst snd].
  hbind. iApply (hwp_calloc with "Hn"). iIntros (u) "Hn Hu Hv". hbind. iApply (hwp_set_key with "Hu"). iIntros "Hu".
  iDestruct (nested_access _ _ _ _ _ _ _ _ _ _ _ _ _ Hq He with "H") as (h us) "(Hqv & Hs & H)".
  hbind. iApply (hwp_load with "Hqv"); [done|]. iIntros "Hqv". cbn [varmap_of].
  pose proof (nested_cost_insert ve_varmap vs' i e (add_name name e) He) as Hcost. set (m := (entries_cost vs' - rows_cost (ve_varmap e))%nat).
  assert (rows_cost (ve_varmap e) <= entries_cost vs')%nat as Hle.
  { pose proof (nested_cost_insert ve_varmap vs' i e {| ve_filename_lineno := []; ve_varmap := [] |} He). cbn in *. lia. }
  replace (S (n + entries_cost vs')) with (S ((n + m) + rows_cost (ve_varmap e))) by lia.
  hbind. iApply (hwp_rows_add _ _ _ _ _ _ _ name with "Hn Hs Hu Hv"). iIntros (h') "Hn Hs".
  hbind. iApply (hwp_update_val with "Hqv"). iIntros "Hqv". iApply hwp_ret. iApply ("HΦ" with "[%] [Hn]").
  - by rewrite -> (entry_keys_insert _ _ _ _ He).
  - cbn in Hcost. by replace (n + entries_cost (<[i := add_name name e]> vs'))%nat with (n + m + rows_cost (ve_varmap e ++ [name]))%nat by lia.
  - by iApply ("H" $! (add_name name e) with "[//] Hqv Hs").
Qed.

Lemma hwp_varpeek_loop k file name a b map es vs vs' n Φ : NoDup (entry_keys vs) -> varpeek_loop k file name a b vs = Some vs' ->
  live (n + entries_cost vs) -∗ entries map es vs -∗
  (∀ map' es', ⌜NoDup (entry_keys vs')⌝ -∗ live (n + entries_cost vs') -∗ entries map' es' vs' -∗ Φ map') -∗
  hwp (varpeek_heap_loop hash k file name a b map) Φ.
Proof.
  revert a map es vs. induction k as [|k IH]; iIntros (a map es vs Hnd Hrun) "Hn H HΦ"; cbn in *; destruct (b <? a); try done.
  1, 2: injection Hrun as <-; iApply hwp_ret; by iApply ("HΦ" with "[//] Hn H").
  hbind. iApply (hwp_varpeek_body with "Hn H"); [done|]. iIntros (map' es' Hnd') "Hn H". by iApply (IH with "Hn H HΦ").
Qed.

(** ** All the tables *)

Definition peeks (m : peek_maps) (o : options) : iProp Σ :=
  ∃ es gs, entries (p_varpeek m) es (varpeek_map o) ∗ globals (p_glopeek m) gs (glopeek_map o) ∗ ⌜NoDup (entry_keys (varpeek_map o))⌝.
Definition peeks_cost (o : options) : nat := entries_cost (varpeek_map o) + rows_cost (glopeek_map o).

Lemma hwp_cleanup m o n Φ : live (n + peeks_cost o) -∗ peeks m o -∗ (live n -∗ Φ tt) -∗ hwp (cleanup m) Φ.
Proof.
  iIntros "Hn (%es & %gs & H & Hg & _) HΦ". unfold peeks_cost. rewrite -> (Nat.add_comm (entries_cost _)), -> Nat.add_assoc.
  hbind. iApply (hwp_free_nested with "Hn H"); [done..|]. iIntros "Hn". hbind. iApply (hwp_free_table with "Hn Hg"). iIntros "Hn".
  iApply hwp_ret. by iApply "HΦ".
Qed.

Definition stops {A} (r : ended A) : Prop := match r with Go _ | Hang => False | _ => True end.

Lemma usage_stops {A} e n o : stops (usage (A := A) e n o).
Proof. unfold usage. by repeat case_match. Qed.

(** What one argument does to the tables and to the options. *)
Definition peek_added (a : peek_arg) (m : peek_maps) (o : options) (n : nat) (r : option peek_maps) : iProp Σ :=
  match r with
  | Some m' => ∃ o', ⌜peek_add a o = Go (tt, o')⌝ ∗ live (n + peeks_cost o') ∗ peeks m' o'
  | None => ⌜stops (peek_add a o)⌝ ∗ live (n + peeks_cost o) ∗ peeks m o
  end.

Lemma hwp_varpeek_add s m o n : varpeek_add s o <> Hang ->
  live (n + peeks_cost o) -∗ peeks m o -∗ hwp (varpeek_heap_add hash s m) (peek_added (ArgVar s) m o n).
Proof.
  iIntros (Hh) "Hn H". unfold varpeek_heap_add, peek_added. cbn [peek_add]. unfold varpeek_add in *.
  destruct (varpeek_spec s) as [[[[file name] a] b]|]; [|iApply hwp_ret; iFrame; iPureIntro; apply usage_stops].
  destruct (varpeek_loop _ file name a b (varpeek_map o)) as [vs|] eqn:Hloop; [|done].
  iDestruct "H" as (es gs) "(H & Hg & %Hnd)". unfold peeks_cost. rewrite -> (Nat.add_comm (entries_cost (varpeek_map o))), -> Nat.add_assoc.
  hbind. iApply (hwp_varpeek_loop with "Hn H"); [done|exact Hloop|]. iIntros (map' es' Hnd') "Hn H". iApply hwp_ret.
  iExists _. iSplit; [done|]. cbn. iSplitL "Hn"; [by rewrite -> (Nat.add_comm (entries_cost _)), -> Nat.add_assoc|]. iExists es', gs. by iFrame.
Qed.

Lemma existsb_keys s (gs : list glopeek_entry) : existsb (fun g => bool_decide (ge_key g = s)) gs = bool_decide (s ∈ ge_key <$> gs).
Proof.
  induction gs as [|g gs IH]; cbn; [by rewrite -> bool_decide_false by apply not_elem_of_nil|]. rewrite -> IH.
  destruct (decide (ge_key g = s)) as [<-|Hne]; [rewrite -> bool_decide_true by done; symmetry; apply bool_decide_true; left|].
  rewrite -> bool_decide_false by done. apply bool_decide_ext. rewrite -> elem_of_cons. naive_solver.
Qed.

Lemma hwp_glopeek_add s m o n :
  live (n + peeks_cost o) -∗ peeks m o -∗ hwp (glopeek_heap_add hash s m) (peek_added (ArgGlo s) m o n).
Proof.
  iIntros "Hn H". unfold glopeek_heap_add, peek_added. cbn [peek_add]. unfold glopeek_add.
  destruct (strchr s ".") as [dot|]; [|iApply hwp_ret; iFrame; iPureIntro; apply usage_stops].
  iDestruct "H" as (es gs) "(H & Hg & %Hnd)". hbind. iApply (hwp_rows_find with "Hg"). iIntros (r Hr) "Hg". rewrite -> existsb_keys.
  destruct r as [q|].
  { destruct Hr as (i & g & _ & Hg & <-). rewrite -> bool_decide_true by (apply list_elem_of_fmap; exists g; split; [done|by eapply list_elem_of_lookup_2]).
    iApply hwp_ret. iExists o. iFrame. by iSplit. }
  rewrite -> bool_decide_false by done. destruct (gloname_of s dot) as [g|].
  - hbind. iApply (hwp_calloc with "Hn"). iIntros (q) "Hn Hq Hv". hbind. iApply (hwp_set_key with "Hq"). iIntros "Hq".
    hbind. iApply (hwp_set with "Hv"). iIntros "Hv". unfold peeks_cost. rewrite -> Nat.add_assoc. hbind.
    iApply (hwp_rows_add _ _ _ _ _ _ _ (new_glopeek s dot g) with "Hn Hg Hq Hv"). iIntros (map') "Hn Hg". iApply hwp_ret.
    iExists _. iSplit; [done|]. cbn. rewrite -> Nat.add_assoc. iFrame "Hn". iExists es, _. by iFrame.
  - iApply hwp_ret. iFrame. iSplit; [iPureIntro; apply usage_stops|done].
Qed.

(** ** Reading the tables *)

Lemma hwp_read_vars h us names Φ :
  rows hash id (fun _ => VarpeekVar) h us names -∗ (rows hash id (fun _ => VarpeekVar) h us names -∗ Φ names) -∗ hwp (read_vars h) Φ.
Proof.
  iIntros "H HΦ". iDestruct (rows_keys with "H") as %Hk. rewrite -> list_fmap_id in Hk. iDestruct "H" as "[Ht H]".
  iApply (hwp_for_all hash _ (fun l i => ⌜l = take i names⌝)%I with "Ht [//]").
  - iIntros (l i q k Ψ Hi) "Ht %Hl HΨ". hbind. iApply (hwp_load_key with "Ht"); [by eapply list_elem_of_lookup_2|]. iIntros "Ht".
    iApply hwp_ret. iApply ("HΨ" with "Ht"). iPureIntro. subst l. symmetry. apply take_S_r. by rewrite <- Hk, -> list_lookup_fmap, -> Hi.
  - iIntros (l) "Ht %Hl". apply (f_equal length) in Hk as Hlen. rewrite -> length_fmap in Hlen. rewrite -> Hl, -> Hlen, -> firstn_all.
    iApply "HΦ". iFrame.
Qed.

Lemma take_next {A} (l : list A) i x : l !! i = Some x -> take i l ++ [x] = take (S i) l.
Proof. intros Hi. symmetry. by apply take_S_r. Qed.

Lemma hwp_read_glopeeks h es gs Φ : globals h es gs -∗ (globals h es gs -∗ Φ gs) -∗ hwp (read_glopeeks h) Φ.
Proof.
  iIntros "H HΦ". iDestruct (rows_length with "H") as %Hlen. iDestruct "H" as "[Ht H]".
  iApply (hwp_for_all hash _ (fun l i => ⌜l = take i gs⌝ ∗ [∗ list] e;c ∈ es;gs, row ge_key _ e c)%I with "Ht [$H //]").
  - iIntros (l i q k Ψ Hi) "Ht [-> H] HΨ". destruct (lookup_lt_is_Some_2 gs i ltac:(apply lookup_lt_Some in Hi; lia)) as [g Hg].
    iDestruct (big_sepL2_lookup_acc _ _ _ _ _ _ Hi Hg with "H") as "[[%Hk Hv] H]". cbn in Hk. subst k.
    hbind. iApply (hwp_load_key with "Ht"); [by eapply list_elem_of_lookup_2|]. iIntros "Ht". hbind. iApply (hwp_load with "Hv"); [done|].
    iIntros "Hv". iApply hwp_ret. iApply ("HΨ" with "Ht"). iSplit; [iPureIntro; rewrite <- (take_next gs i g Hg); by destruct g|].
    iApply "H". by iFrame.
  - iIntros (l) "Ht [-> H]". rewrite -> Hlen, -> firstn_all. iApply "HΦ". iFrame.
Qed.

Lemma hwp_read_varpeeks h es vs Φ : entries h es vs -∗ (entries h es vs -∗ Φ vs) -∗ hwp (read_varpeeks h) Φ.
Proof.
  iIntros "(%ps & <- & H & Hs) HΦ". iDestruct (rows_length with "H") as %Hlen. iDestruct "H" as "[Ht H]".
  iApply (hwp_for_all hash _ (fun l i => ⌜l = take i ps.*1⌝ ∗ ([∗ list] e;c ∈ es;ps, row (outer_key ve_filename_lineno) _ e c)
    ∗ [∗ list] p ∈ ps, inner hash id ve_varmap _ p)%I with "Ht [$H $Hs //]").
  - iIntros (l i q k Ψ Hi) "Ht (-> & H & Hs) HΨ". destruct (lookup_lt_is_Some_2 ps i ltac:(apply lookup_lt_Some in Hi; lia)) as [[e h'] Hp].
    iDestruct (big_sepL2_lookup_acc _ _ _ _ _ _ Hi Hp with "H") as "[[%Hk Hv] H]". cbn in Hk. subst k.
    iDestruct (big_sepL_lookup_acc _ _ _ _ Hp with "Hs") as "[(%us & Hu) Hs]".
    hbind. iApply (hwp_load_key with "Ht"); [by eapply list_elem_of_lookup_2|]. iIntros "Ht". hbind. iApply (hwp_load with "Hv"); [done|].
    iIntros "Hv". hbind. iApply (hwp_read_vars with "Hu"). iIntros "Hu". iApply hwp_ret. iApply ("HΨ" with "Ht").
    iSplit; [iPureIntro; rewrite <- (take_next ps.*1 i e) by (by rewrite -> list_lookup_fmap, -> Hp); by destruct e|].
    iSplitL "Hv H"; [iApply "H"; by iFrame|]. iApply "Hs". by iExists us.
  - iIntros (l) "Ht (-> & H & Hs)". replace (length es) with (length ps.*1) by (rewrite -> length_fmap; done). rewrite -> firstn_all.
    iApply "HΦ". iExists ps. iSplit; [done|]. iFrame.
Qed.

(** ** Runs *)

Lemma hwp_peek_add a m o n : peek_add a o <> Hang ->
  live (n + peeks_cost o) -∗ peeks m o -∗ hwp (peek_heap_add hash a m) (peek_added a m o n).
Proof. destruct a; cbn; iIntros (Hh) "Hn H"; [by iApply (hwp_varpeek_add with "Hn H")|iApply (hwp_glopeek_add with "Hn H")]. Qed.

(** What the run returns, as the option parser has it. *)
Definition peeks_agree (r : ended (unit * options)) (a : option (list varpeek_entry * list glopeek_entry)) : Prop :=
  match r with
  | Go (_, o) => a = Some (varpeek_map o, glopeek_map o)
  | Hang => False
  | _ => a = None
  end.

Lemma hwp_peek_session args m o : peek_adds args o <> Hang ->
  live (peeks_cost o) -∗ peeks m o -∗ hwp (peek_session hash args m) (fun a => live 0 ∗ ⌜peeks_agree (peek_adds args o) a⌝).
Proof.
  revert m o. induction args as [|a args IH]; iIntros (m o Hh) "Hn H"; cbn [peek_session peek_adds] in *.
  - iDestruct "H" as (es gs) "(H & Hg & %Hnd)". hbind. iApply (hwp_read_varpeeks with "H"). iIntros "H".
    hbind. iApply (hwp_read_glopeeks with "Hg"). iIntros "Hg". hbind. iApply (hwp_cleanup _ o 0 with "Hn [H Hg]"); [iExists es, gs; by iFrame|].
    iIntros "Hn". iApply hwp_ret. by iFrame.
  - unfold mbind, PM_bind in *. hbind. iApply (hwp_mono with "[Hn H]"); [iApply (hwp_peek_add a m o 0 with "Hn H"); by intros Heq; rewrite -> Heq in Hh|].
    iIntros (r) "Hr". destruct r as [m'|]; cbn.
    + iDestruct "Hr" as (o' Hadd) "[Hn H]". rewrite -> Hadd in *. by iApply (IH with "Hn H").
    + iDestruct "Hr" as (Hs) "[Hn H]". hbind. iApply (hwp_cleanup _ o 0 with "Hn H"). iIntros "Hn". iApply hwp_ret. iFrame. iPureIntro.
      by destruct (peek_add a o).
Qed.

End proofs.

(** ** Theorem *)

(** C35. The tables of [-e] and [-g] in memory: whatever the hash function and
    the arguments (unless [varpeek_add] never returns from one), the pointer
    code neither follows a null or freed pointer nor runs on; the structs it
    links into the uthash tables, iterated over, are the entries that the option
    parser's lists hold; and [cleanup], run at the end or by [usage] when an
    argument is rejected, frees every block that was allocated, each once. *)
Theorem peeks_freed hash args :
  peek_adds args default_options <> Hang ->
  exists a m, peek_session hash args {| p_varpeek := None; p_glopeek := None |} mem0 = Done (a, m) /\ m_blocks m = ∅
    /\ peeks_agree (peek_adds args default_options) a.
Proof.
  intros Hh. apply (heap_adequate _ (peeks_agree (peek_adds args default_options))). iIntros (Σ HG) "Hn".
  iApply (hwp_peek_session _ _ _ default_options with "[Hn]"); [done|done|]. iExists [], []. iSplit; [iApply nested_nil|]. iSplit; [iApply rows_nil|]. iPureIntro. constructor.
Qed.

(** ** Witness *)

(** A hash function with many collisions. *)
Definition length_hash (k : bytes) : Z := Z.of_nat (length k).
Definition demo_peeks : list peek_arg := [ArgVar (cs "x@/a.php:10-12"); ArgGlo (cs "server.REQUEST_TIME"); ArgVar (cs "y@/a.php:11")].

Lemma peeks_freed_witness : exists a m, peek_session length_hash demo_peeks {| p_varpeek := None; p_glopeek := None |} mem0 = Done (a, m)
  /\ m_blocks m = ∅ /\ (length <$> (fst <$> a)) = Some 3%nat.
Proof.
  destruct (peeks_freed length_hash demo_peeks) as (a & m & Hrun & Hm & Ha); [vm_compute; discriminate|].
  exists a, m. split; [exact Hrun|]. split; [exact Hm|].
  vm_compute in Ha. rewrite -> Ha. reflexivity.
Defined.
