(* ===== verification/CallgrindHeap.v ===== *)
(** * CallgrindHeap: the tables of the callgrind handler in memory

    [callgrind_digest_stack], [callgrind_dump] and [callgrind_free] with their
    [calloc]s and uthash tables, as pointers: a table of callers with a table of
    callees each.  They print what the lists of Callgrind.v print, and
    [callgrind_free] gives every block back. *)
From stdpp Require Import sorting.
From S2P Require Import Prelude CLib Layout Context Uthash Callgrind CallgrindSpec CallgrindTheorems.
From S2P Require Import Memory HeapLogic UthashHeap TableHeap SortHeap.
Open Scope Z_scope.

(** ** The structs *)

(** [callgrind_caller_t] and [callgrind_callee_t], beside their keys [loc_str]. *)
Inductive cg_struct := CallerStruct (loc : trace_loc) (exclusive : Z) (callees : option ptr) | CalleeStruct (loc : trace_loc) (inclusive count : Z).

Definition callees_of (v : cg_struct) : option ptr := match v with CallerStruct _ _ h => h | _ => None end.
Definition with_callees (h : option ptr) (v : cg_struct) : cg_struct := match v with CallerStruct l x _ => CallerStruct l x h | _ => v end.

(** [memcpy] of the location, and the increments. *)
Definition copy_loc (l : trace_loc) (v : cg_struct) : cg_struct :=
  match v with CallerStruct _ x h => CallerStruct l x h | CalleeStruct _ i c => CalleeStruct l i c end.
Definition inc_exclusive (v : cg_struct) : cg_struct := match v with CallerStruct l x h => CallerStruct l (u64 (x + 1)) h | _ => v end.
Definition inc_call (is_new : bool) (v : cg_struct) : cg_struct :=
  match v with CalleeStruct l i c => CalleeStruct l (u64 (i + 1)) (if is_new then u64 (c + 1) else c) | _ => v end.

Abbreviation CHM := (M (mem cg_struct)).

Section heap.
Context (hash : bytes -> Z).

(** ** Counting *)

(** "Find or add caller". *)
Definition find_or_add_caller (callers : option ptr) (s : slot) : CHM (ptr * option ptr) :=
  found ← HASH_FIND_STR hash callers (snd s);
  match found with
  | Some caller => mret (caller, callers)
  | None =>
    caller ← calloc (CallerStruct zero_loc 0 None);
    set_cell FKey caller (CKey (snd s));;
    update_val caller (copy_loc (fst s));;
    callers ← HASH_ADD_STR hash callers caller;
    mret (caller, callers)
  end.

(** "Find or add callee in previous caller". *)
Definition find_or_add_callee (prev_caller : ptr) (s : slot) : CHM ptr :=
  v ← load_val prev_caller;
  found ← HASH_FIND_STR hash (callees_of v) (snd s);
  match found with
  | Some callee => mret callee
  | None =>
    callee ← calloc (CalleeStruct zero_loc 0 0);
    set_cell FKey callee (CKey (snd s));;
    update_val callee (copy_loc (fst s));;
    v ← load_val prev_caller;
    callees ← HASH_ADD_STR hash (callees_of v) callee;
    update_val prev_caller (with_callees callees);;
    mret callee
  end.

Definition digest_call (u : callgrind_udata) (i : nat) (s : slot) (prev_caller : ptr) : CHM unit :=
  callee ← find_or_add_callee prev_caller s;
  is_new ← looks_new u i s;
  update_val callee (inc_call is_new).

Fixpoint digest_heap_loop (u : callgrind_udata) (n : nat) (prev_caller : option ptr) (callers : option ptr) : CHM (option ptr) :=
  match n with
  | O => mret callers
  | S i =>
    match cu_self u !! i with
    | None => raise OverRead
    | Some s =>
      r ← find_or_add_caller callers s;
      (if bool_decide (i = 0%nat) then update_val r.1 inc_exclusive else mret tt);;
      (match prev_caller with Some p => digest_call u i s p | None => mret tt end);;
      digest_heap_loop u i (Some r.1) r.2
    end
  end.

(** ** Printing and freeing *)

(** [callgrind_sort_callers] and [callgrind_sort_callees]. *)
Definition compare_loc_str (a b : ptr) : CHM Z := x ← load FKey as_key a; y ← load FKey as_key b; mret (strcmp x y).

(** The lines of a caller, and of a callee below it; the texts do not depend on
    the keys. *)
Definition caller_of (v : cg_struct) : CHM callgrind_caller :=
  match v with
  | CallerStruct l x _ => mret {| cr_loc_str := []; cr_loc := l; cr_exclusive := x; cr_callees := [] |}
  | _ => raise UseAfterFree
  end.
Definition callee_of (v : cg_struct) : CHM callgrind_callee :=
  match v with
  | CalleeStruct l i c => mret {| ce_loc_str := []; ce_loc := l; ce_inclusive := i; ce_count := c |}
  | _ => raise UseAfterFree
  end.

Definition dump_callees (c : callgrind_caller) (text : bytes) (callees : option ptr) : CHM bytes :=
  for_each (fun text p => v ← load_val p; e ← callee_of v; mret (text ++ callee_text c e)) text callees.

Definition dump_caller (text : bytes) (p : ptr) : CHM bytes :=
  v ← load_val p;
  c ← caller_of v;
  callees ← HASH_SORT compare_loc_str (callees_of v);
  update_val p (with_callees callees);;
  dump_callees c (text ++ caller_text c) callees.

Definition callgrind_heap_dump (callers : option ptr) : CHM (bytes * option ptr) :=
  callers ← HASH_SORT compare_loc_str callers;
  text ← for_each dump_caller dump_header callers;
  mret (text, callers).

Definition callgrind_free (callers : option ptr) : CHM (option ptr) := free_nested callees_of with_callees callers.

(** ** The handler, from [INIT] to [DEINIT] *)

(** The arrays of the user data are those of Callgrind.v; [callers] is the head
    of the table. *)
Definition callgrind_heap_event (ev : event) (u : callgrind_udata) (callers : option ptr) : CHM (callgrind_udata * option ptr) :=
  match ev with
  | EvStackBegin => mret (set_self (cu_self u) 0 u, callers)
  | EvFrame f => u ← callgrind_ingest_frame f u; mret (u, callers)
  | EvStackEnd _ => callers ← digest_heap_loop u (cu_self_len u) None callers; mret (remember_stack u, callers)
  | _ => mret (u, callers)
  end.

Fixpoint callgrind_heap_events (evs : list event) (u : callgrind_udata) (callers : option ptr) : CHM (option ptr) :=
  match evs with
  | [] => mret callers
  | ev :: evs => r ← callgrind_heap_event ev u callers; callgrind_heap_events evs r.1 r.2
  end.

Definition callgrind_heap_run (evs : list event) : CHM bytes :=
  callers ← callgrind_heap_events evs new_udata None;
  r ← callgrind_heap_dump callers;
  _ ← callgrind_free r.2;
  mret r.1.

End heap.

(** ** Tables with distinct keys *)

Record tables_ok (t : list callgrind_caller) : Prop := {
  to_callers : NoDup (keys cr_loc_str t);
  to_callees : Forall (fun c => NoDup (keys ce_loc_str (cr_callees c))) t;
}.

Lemma alter_insert {A} (f : A -> A) (i : nat) (l : list A) x : l !! i = Some x -> alter f i l = <[i := f x]> l.
Proof.
  revert i. induction l as [|y l IH]; intros [|i] Hi; try done; [by injection Hi as ->|].
  change (y :: alter f i l = y :: <[i := f x]> l). by rewrite -> IH.
Qed.

Lemma tables_ok_insert t i c c' : tables_ok t -> t !! i = Some c -> cr_loc_str c' = cr_loc_str c ->
  NoDup (keys ce_loc_str (cr_callees c')) -> tables_ok (<[i := c']> t).
Proof.
  intros [H1 H2] Hi Hk Hn. split; [|by apply Forall_insert]. unfold keys in *. rewrite -> list_fmap_insert, -> list_insert_id; [done|].
  by rewrite -> list_lookup_fmap, -> Hi, -> Hk.
Qed.

Lemma tables_ok_caller s t i t' : tables_ok t -> get_caller s t = (i, t') -> tables_ok t'.
Proof.
  intros [H1 H2] Hg. destruct (hash_get_spec _ _ _ _ _ H1 Hg) as (Hn & [r ->] & _ & _). split; [done|]. unfold get_caller, hash_get in Hg.
  destruct (hash_find _ _ t); injection Hg as _ Hr; [rewrite <- Hr; done|]. apply app_inv_head in Hr as <-. apply Forall_app. split; [done|].
  constructor; [apply NoDup_nil_2|done].
Qed.

Lemma count_call_NoDup s b c : NoDup (keys ce_loc_str (cr_callees c)) -> NoDup (keys ce_loc_str (cr_callees (count_call s b c))).
Proof.
  intros Hn. unfold count_call. destruct (get_callee s (cr_callees c)) as [i t] eqn:Hg. cbn [cr_callees]. rewrite -> keys_alter by done.
  by apply (hash_get_spec _ _ _ _ _ Hn) in Hg as [? _].
Qed.

Lemma tallied_tables t lvs calls seen : tallied t lvs calls seen -> tables_ok t.
Proof.
  intros [Hn Hc _ _]. split; [done|]. apply Forall_forall. intros c Hc0. specialize (Hc (cr_loc_str c)).
  rewrite -> (look_elem cr_loc_str _ c t Hn Hc0 eq_refl) in Hc. by destruct Hc as (_ & _ & ? & _).
Qed.

(** ** Proofs *)

Section proofs.
Context `{HG : !heapGS cg_struct Σ} (hash : bytes -> Z).

Definition caller_val (c : callgrind_caller) (h : option ptr) : cg_struct := CallerStruct (cr_loc c) (cr_exclusive c) h.
Definition callee_val (e : callgrind_callee) : cg_struct := CalleeStruct (ce_loc e) (ce_inclusive e) (ce_count e).
Definition callers_at : option ptr -> list (ptr * bytes) -> list callgrind_caller -> iProp Σ :=
  nested hash cr_loc_str ce_loc_str cr_callees caller_val callee_val.
Abbreviation cost := (nested_cost cr_callees).
Abbreviation callees_at := (rows hash ce_loc_str callee_val).

Lemma hwp_find_or_add_caller head es t s n Φ : tables_ok t ->
  live (n + cost t) -∗ callers_at head es t -∗
  (∀ q head' es' i t', ⌜get_caller s t = (i, t') /\ es' !! i = Some (q, snd s) /\ es `prefix_of` es'⌝ -∗
    live (n + cost t') -∗ callers_at head' es' t' -∗ Φ (q, head')) -∗
  hwp (find_or_add_caller hash head s) Φ.
Proof.
  iIntros (Hok) "Hn H HΦ". iDestruct (nested_keys with "H") as %Hkeys.
  assert (length es = length t) as Hl by (by apply (f_equal length) in Hkeys; rewrite -> !length_fmap in Hkeys).
  hbind. iApply (hwp_nested_find with "H"). iIntros (r Hr) "H". destruct r as [q|].
  - destruct Hr as (i & c & Hi & Hc & Hk). iApply hwp_ret. iApply ("HΦ" $! q head es i t with "[%] Hn H"). split_and!; [|done|done].
    eapply hash_get_found; [apply Hok|exact Hc|done].
  - hbind. iApply (hwp_calloc with "Hn"). iIntros (q) "Hn Hq Hv". hbind. iApply (hwp_set_key with "Hq"). iIntros "Hq".
    hbind. iApply (hwp_update_val with "Hv"). iIntros "Hv".
    set (c := {| cr_loc_str := snd s; cr_loc := fst s; cr_exclusive := 0; cr_callees := [] |}).
    hbind. iApply (hwp_nested_add _ _ _ _ _ _ _ _ _ _ c with "Hn H Hq Hv"); [done|]. iIntros (head') "Hn H". iApply hwp_ret.
    iApply ("HΦ" $! q head' _ (length t) (t ++ [c]) with "[%] Hn H"). split_and!; [by apply hash_get_new| |by eexists].
    rewrite -> lookup_app_r, -> Hl, -> Nat.sub_diag by lia. done.
Qed.

(** An update of a struct of the outer table. *)
Lemma hwp_update_caller head es t i q k c g f n Φ : es !! i = Some (q, k) -> t !! i = Some c ->
  (forall h, g (caller_val c h) = caller_val (f c) h) -> cr_loc_str (f c) = cr_loc_str c -> cr_callees (f c) = cr_callees c ->
  live (n + cost t) -∗ callers_at head es t -∗ (live (n + cost (alter f i t)) -∗ callers_at head es (alter f i t) -∗ Φ tt) -∗
  hwp (update_val q g) Φ.
Proof.
  iIntros (Hi Hc Hg Hk Hs) "Hn H HΦ". iDestruct (nested_access _ _ _ _ _ _ _ _ _ _ _ _ _ Hi Hc with "H") as (h vs) "(Hq & Hv & H)".
  iApply (hwp_update_val with "Hq"). iIntros "Hq". rewrite -> Hg, -> (alter_insert f i t c Hc).
  pose proof (nested_cost_insert cr_callees t i c (f c) Hc) as Hcost. rewrite -> Hs in Hcost.
  replace (cost (<[i := f c]> t)) with (cost t) by lia. iApply ("HΦ" with "Hn"). iApply ("H" $! (f c) h vs with "[//] Hq"). by rewrite -> Hs.
Qed.

Lemma rows_cost_le t i c : t !! i = Some c -> (rows_cost (cr_callees c) <= cost t)%nat.
Proof.
  intros Hc. pose proof (nested_cost_insert cr_callees t i c {| cr_loc_str := []; cr_loc := zero_loc; cr_exclusive := 0; cr_callees := [] |} Hc).
  cbn in *. lia.
Qed.

(** A call is counted at the previous caller. *)
Lemma hwp_find_or_add_callee p h vs c s n Φ : NoDup (keys ce_loc_str (cr_callees c)) ->
  live (n + rows_cost (cr_callees c)) -∗ field_at p FVal (CVal (caller_val c h)) -∗ callees_at h vs (cr_callees c) -∗
  (∀ q h' vs' i cs', ⌜get_callee s (cr_callees c) = (i, cs') /\ vs' !! i = Some (q, snd s)⌝ -∗
    live (n + rows_cost cs') -∗ field_at p FVal (CVal (caller_val c h')) -∗ callees_at h' vs' cs' -∗ Φ q) -∗
  hwp (find_or_add_callee hash p s) Φ.
Proof.
  iIntros (Hnd) "Hn Hp H HΦ". iDestruct (rows_length with "H") as %Hl. hbind. iApply (hwp_load with "Hp"); [done|]. iIntros "Hp".
  hbind. iApply (hwp_rows_find with "H"). iIntros (r Hr) "H". destruct r as [q|].
  - destruct Hr as (i & e & Hi & He & Hk). iApply hwp_ret. iApply ("HΦ" $! q h vs i with "[%] Hn Hp H"). split; [|done].
    by eapply hash_get_found.
  - hbind. iApply (hwp_calloc with "Hn"). iIntros (q) "Hn Hq Hv". hbind. iApply (hwp_set_key with "Hq"). iIntros "Hq".
    hbind. iApply (hwp_update_val with "Hv"). iIntros "Hv". hbind. iApply (hwp_load with "Hp"); [done|]. iIntros "Hp". cbn [callees_of].
    set (e := {| ce_loc_str := snd s; ce_loc := fst s; ce_inclusive := 0; ce_count := 0 |}).
    hbind. iApply (hwp_rows_add _ _ _ _ _ _ _ e with "Hn H Hq Hv"). iIntros (h') "Hn H". hbind. iApply (hwp_update_val with "Hp"). iIntros "Hp".
    iApply hwp_ret. iApply ("HΦ" $! q h' _ (length (cr_callees c)) (cr_callees c ++ [e]) with "[%] Hn Hp H").
    split; [by apply hash_get_new|]. rewrite -> lookup_app_r, -> Hl, -> Nat.sub_diag by lia. done.
Qed.

Lemma hwp_looks_new u i s b Φ : looks_new u i s mem0 = Done (b, mem0 (V := cg_struct)) -> Φ b ⊢ hwp (V := cg_struct) (looks_new u i s) Φ.
Proof.
  intros Hb. iIntros "H". unfold looks_new in *. case_bool_decide; [injection Hb as <-; by iApply hwp_ret|].
  destruct (cu_prev u !! i); [|done]. injection Hb as <-. by iApply hwp_ret.
Qed.

Lemma hwp_digest_call u i s head es t j p k c b n Φ : tables_ok t -> es !! j = Some (p, k) -> t !! j = Some c ->
  looks_new u i s mem0 = Done (b, mem0 (V := cg_struct)) ->
  live (n + cost t) -∗ callers_at head es t -∗
  (live (n + cost (alter (count_call s b) j t)) -∗ callers_at head es (alter (count_call s b) j t) -∗ Φ tt) -∗
  hwp (digest_call hash u i s p) Φ.
Proof.
  iIntros (Hok Hj Hc Hb) "Hn H HΦ". iDestruct (nested_access _ _ _ _ _ _ _ _ _ _ _ _ _ Hj Hc with "H") as (h vs) "(Hp & Hv & H)".
  pose proof (to_callees t Hok) as Hnd. rewrite -> Forall_lookup in Hnd. pose proof (rows_cost_le t j c Hc) as Hle.
  replace (n + cost t)%nat with ((n + (cost t - rows_cost (cr_callees c))) + rows_cost (cr_callees c))%nat by lia.
  hbind. iApply (hwp_find_or_add_callee with "Hn Hp Hv"); [by eapply Hnd|]. iIntros (q h' vs' i' cs' [Hg Hq]) "Hn Hp Hv".
  hbind. iApply hwp_looks_new; [done|]. iDestruct (rows_length with "Hv") as %Hl.
  destruct (lookup_lt_is_Some_2 cs' i' ltac:(apply lookup_lt_Some in Hq; lia)) as [e He].
  iDestruct (rows_access _ _ _ _ _ _ _ _ _ _ Hq He with "Hv") as "[Hqv Hv]". iApply (hwp_update_val with "Hqv"). iIntros "Hqv".
  iDestruct ("Hv" $! (add_call b e) with "[//] Hqv") as "Hv".
  rewrite -> (alter_insert _ j t c Hc). pose proof (nested_cost_insert cr_callees t j c (count_call s b c) Hc) as Hcost.
  assert (cr_callees (count_call s b c) = <[i' := add_call b e]> cs') as Hsubs
    by (unfold count_call; rewrite -> Hg; cbn; by apply alter_insert).
  iApply ("HΦ" with "[Hn]").
  - rewrite -> Hsubs, -> (rows_cost_length (<[i' := _]> cs') cs') in Hcost by apply length_insert.
    by replace (n + cost (<[j := count_call s b c]> t))%nat with (n + (cost t - rows_cost (cr_callees c)) + rows_cost cs')%nat by lia.
  - iApply ("H" $! (count_call s b c) h' vs' with "[%] [Hp]"); [unfold count_call; by rewrite -> Hg| |by rewrite -> Hsubs].
    unfold caller_val, count_call. by rewrite -> Hg.
Qed.

(** The state does not matter for the comparison with the previous stack. *)
Lemma looks_new_any {W} u i s (w : W) r : looks_new u i s w = Done r -> looks_new u i s mem0 = Done (r.1, mem0 (V := cg_struct)) /\ r.2 = w.
Proof. unfold looks_new. repeat case_match; try done; by intros [= <-]. Qed.

Lemma callers_length head es t : callers_at head es t -∗ ⌜length es = length t⌝.
Proof. iIntros "H". iDestruct (nested_keys with "H") as %Hk. iPureIntro. apply (f_equal length) in Hk. by rewrite -> !length_fmap in Hk. Qed.

(** A previous caller: its position in the list and its pointer. *)
Definition points (es : list (ptr * bytes)) (prev : option nat) (p : option ptr) : Prop :=
  match prev, p with
  | Some j, Some q => exists k, es !! j = Some (q, k)
  | None, None => True
  | _, _ => False
  end.

Lemma hwp_digest_loop u t0 m prev p head es t t' g g' n Φ :
  digest_loop u m prev t g = Done (t', g') -> tables_ok t -> points es prev p ->
  live (n + cost t) -∗ callers_at head es t -∗
  (∀ head' es', ⌜tables_ok t'⌝ -∗ live (n + cost t') -∗ callers_at head' es' t' -∗ Φ head') -∗
  hwp (digest_heap_loop hash (set_callers t0 u) m p head) Φ.
Proof.
  iIntros (Hrun Hok Hp) "Hn H HΦ". iInduction m as [|i] "IH" forall (prev p head es t Hrun Hok Hp); cbn [digest_loop digest_heap_loop] in *.
  { injection Hrun as <- <-. iApply hwp_ret. by iApply ("HΦ" with "[//] Hn H"). }
  change (cu_self (set_callers t0 u)) with (cu_self u). destruct (cu_self u !! i) as [s|]; [|done]. hbind. iApply (hwp_find_or_add_caller _ _ _ s with "Hn H"); [done|].
  iIntros (q head' es' c t1 (Hg & Hc & Hpre)) "Hn H". rewrite -> Hg in Hrun. cbn [fst snd]. pose proof (tables_ok_caller _ _ _ _ Hok Hg) as Hok1.
  iDestruct (callers_length with "H") as %Hl. destruct (lookup_lt_is_Some_2 t1 c ltac:(apply lookup_lt_Some in Hc; lia)) as [b Hb].
  set (t2 := if bool_decide (i = 0%nat) then alter add_exclusive c t1 else t1) in Hrun.
  assert (tables_ok t2) as Hok2.
  { unfold t2. case_bool_decide; [|done]. rewrite -> (alter_insert _ _ _ _ Hb). eapply tables_ok_insert; [done|exact Hb|done|].
    pose proof (to_callees _ Hok1) as Hf. rewrite -> Forall_lookup in Hf. exact (Hf _ _ Hb). }
  iAssert (∀ Ψ, (live (n + cost t2) -∗ callers_at head' es' t2 -∗ Ψ tt) -∗
    hwp (V := cg_struct) (if bool_decide (i = 0%nat) then update_val q inc_exclusive else mret tt) Ψ)%I with "[Hn H]" as "Hexcl".
  { iIntros (Ψ) "HΨ". unfold t2. case_bool_decide; [by iApply (hwp_update_caller with "Hn H HΨ")|iApply hwp_ret; iApply ("HΨ" with "Hn H")]. }
  hbind. iApply "Hexcl". iIntros "Hn H". iDestruct (callers_length with "H") as %Hl2. hbind.
  destruct prev as [j|], p as [pp|]; try done; cbn in Hp.
  - destruct Hp as [k Hj]. assert (es' !! j = Some (pp, k)) as Hj' by (by eapply prefix_lookup_Some).
    destruct (lookup_lt_is_Some_2 t2 j ltac:(apply lookup_lt_Some in Hj'; lia)) as [d Hd].
    unfold mbind, M_bind in Hrun. destruct (looks_new u i s g) as [[is_new g1]| |] eqn:Hln; [|done..].
    destruct (looks_new_any _ _ _ _ _ Hln) as [Hln0 Hg1]. cbn in Hln0, Hg1. subst g1.
    iApply (hwp_digest_call with "Hn H"); [done|exact Hj'|exact Hd|exact Hln0|]. iIntros "Hn H".
    iApply ("IH" with "[%] [%] [%] Hn H HΦ"); [exact Hrun| |by exists (snd s)].
    rewrite -> (alter_insert _ _ _ _ Hd). eapply tables_ok_insert; [done|exact Hd|unfold count_call; by destruct (get_callee _ _)|].
    apply count_call_NoDup. pose proof (to_callees _ Hok2) as Hf. rewrite -> Forall_lookup in Hf. by eapply Hf.
  - iApply hwp_ret. iApply ("IH" with "[%] [%] [%] Hn H HΦ"); [exact Hrun|done|by exists (snd s)].
Qed.

(** ** Events *)

Lemma digest_loop_any u m prev t g r : digest_loop u m prev t g = Done r -> forall g', digest_loop u m prev t g' = Done (r.1, g').
Proof.
  revert prev t g. induction m as [|i IH]; intros prev t g Hrun g'; cbn [digest_loop] in *; [by injection Hrun as <-|].
  destruct (cu_self u !! i) as [s|]; [|done]. destruct (get_caller s t) as [c t1]. unfold mbind, M_bind in *. destruct prev as [p|].
  - destruct (looks_new u i s g) as [[b g1]| |] eqn:Hln; [|done..]. cbn in Hrun.
    replace (looks_new u i s g') with (Done (b, g')) by (revert Hln; unfold looks_new; repeat case_match; try done; by intros [= <- _]).
    cbn. by eapply IH.
  - unfold mret, M_ret in *. by eapply IH.
Qed.

(** The abstract handler takes an event. *)
Definition takes_event (o : options) (env : cg_env) (ev : event) (u u' : callgrind_udata) : Prop :=
  forall g, cg_udata g = CLive u -> event_handler_callgrind o env ev g = Done (0, put_ptr (CLive u') g).

Lemma takes_event_intro o env ev u u' : (forall opts, ev <> EvInit opts) ->
  (forall g, callgrind_event ev u g = Done (CLive u', g)) -> takes_event o env ev u u'.
Proof. intros Hi Hev g Hg. unfold event_handler_callgrind. destruct ev as [opts| | | | | | | | |];
  [by destruct (Hi opts)|..]; unfold mbind, M_bind, get; by rewrite -> Hg, -> Hev. Qed.

Lemma takes_event_ok o env ev u u' ss cur : wf_event ev -> live_ok u ss cur -> takes_event o env ev u u' ->
  exists ss' cur', live_ok u' ss' cur'.
Proof.
  intros Hev Hu Ht. set (g := {| cg_udata := CLive u; cg_text := []; cg_closed := [] |}).
  destruct (event_run o env ev u ss cur g Hev eq_refl Hu) as (u1 & cur1 & Hrun & Hok). rewrite -> (Ht g eq_refl) in Hrun. injection Hrun as <-.
  destruct (Hok []) as (ss' & _ & Hok'). by exists (ss ++ ss'), cur1.
Qed.

Lemma hwp_event o env ev u ss cur head es n Φ : wf_event ev -> live_ok u ss cur ->
  live (n + cost (cu_callers u)) -∗ callers_at head es (cu_callers u) -∗
  (∀ u' head' es', ⌜takes_event o env ev u u'⌝ -∗ live (n + cost (cu_callers u')) -∗ callers_at head' es' (cu_callers u') -∗
    Φ (set_callers [] u', head')) -∗
  hwp (callgrind_heap_event hash ev (set_callers [] u) head) Φ.
Proof.
  iIntros (Hev Hu) "Hn H HΦ". destruct ev as [opts| |f| | | | |pid| |]; try done.
  all: try (iApply hwp_ret; iApply ("HΦ" $! u with "[%] Hn H"); by apply takes_event_intro).
  - iApply hwp_ret. iApply ("HΦ" $! (set_self (cu_self u) 0 u) with "[%] Hn H"). by apply takes_event_intro.
  - pose proof (lo_ok _ _ _ Hu) as [H1 _ _ _ _ _]. unfold callgrind_heap_event, callgrind_ingest_frame. cbn [cu_self_len cu_self set_callers].
    destruct (bool_decide (MAX_STACK_DEPTH <= cu_self_len u)%nat) eqn:Hb1.
    + hbind. iApply hwp_ret. iApply hwp_ret. iApply ("HΦ" $! u with "[%] Hn H"). apply takes_event_intro; [done|]. intros g. cbn.
      unfold callgrind_ingest_frame. by rewrite -> Hb1.
    + rewrite -> (bool_decide_false (length (cu_self u) <= cu_self_len u)%nat) by (apply bool_decide_eq_false in Hb1; lia).
      hbind. iApply hwp_ret. iApply hwp_ret. iApply ("HΦ" $! (set_self _ _ u) with "[%] Hn H"). apply takes_event_intro; [done|]. intros g. cbn.
      unfold callgrind_ingest_frame. rewrite -> Hb1, -> bool_decide_false by (apply bool_decide_eq_false in Hb1; lia). done.
  - set (g0 := {| cg_udata := CNull; cg_text := []; cg_closed := [] |}).
    destruct (digest_loop_run u (cu_self_len u) None (cu_callers u) _ _ _ g0 (lo_ok _ _ _ Hu) (le_n _) (lo_tally _ _ _ Hu)
      (or_introl (conj eq_refl eq_refl))) as (t' & Hrun & _).
    cbn [callgrind_heap_event]. hbind. iApply (hwp_digest_loop with "Hn H"); [exact Hrun|by eapply tallied_tables, Hu|done|].
    iIntros (head' es' _) "Hn H". iApply hwp_ret. iApply ("HΦ" $! (remember_stack (set_callers t' u)) with "[%] Hn H").
    apply takes_event_intro; [done|]. intros g. cbn [callgrind_event]. unfold callgrind_digest_stack, mbind, M_bind.
    by rewrite -> (digest_loop_any _ _ _ _ _ _ Hrun g).
Qed.

Lemma hwp_events o env evs u ss cur head es n Φ : Forall wf_event evs -> live_ok u ss cur ->
  live (n + cost (cu_callers u)) -∗ callers_at head es (cu_callers u) -∗
  (∀ u' head' es', ⌜(exists ss' cur', live_ok u' ss' cur')
      /\ forall g, cg_udata g = CLive u -> exists rvs, deliver o env evs g = Done (rvs, put_ptr (CLive u') g)⌝ -∗
    live (n + cost (cu_callers u')) -∗ callers_at head' es' (cu_callers u') -∗ Φ head') -∗
  hwp (callgrind_heap_events hash evs (set_callers [] u) head) Φ.
Proof.
  iIntros (Hevs Hu) "Hn H HΦ". iInduction Hevs as [|ev evs Hev Hevs] "IH" forall (u ss cur head es Hu).
  { iApply hwp_ret. iApply ("HΦ" with "[%] Hn H"). split; [by exists ss, cur|]. intros g Hg. exists []. by destruct g; cbn in *; subst. }
  hbind. iApply (hwp_event o env with "Hn H"); [done|exact Hu|]. iIntros (u1 head1 es1 Ht) "Hn H".
  destruct (takes_event_ok _ _ _ _ _ _ _ Hev Hu Ht) as (ss1 & cur1 & Hu1). iApply ("IH" with "[%] Hn H"); [exact Hu1|].
  iIntros (u' head' es' [Hok Hdel]) "Hn H". iApply ("HΦ" with "[%] Hn H"). split; [done|]. intros g Hg.
  destruct (Hdel (put_ptr (CLive u1) g) eq_refl) as [rvs Hrvs]. exists (0 :: rvs). cbn [deliver]. unfold mbind, M_bind. by rewrite -> (Ht g Hg), -> Hrvs.
Qed.

End proofs.
