(* ===== verification/CallgrindDump.v ===== *)
(** * CallgrindDump: the profile printed from memory, and its tables freed

    The sorts and loops of [callgrind_dump] over the tables of CallgrindHeap.v,
    and the handler from [INIT] to [DEINIT]. *)
From stdpp Require Import sorting.
From S2P Require Import Prelude CLib Layout Context Uthash Callgrind CallgrindSpec CallgrindTheorems.
From S2P Require Import Memory HeapLogic UthashHeap TableHeap SortHeap CallgrindHeap.
Open Scope Z_scope.

(** ** Order *)

Definition key_le (a b : bytes) : Prop := strcmp a b <= 0.
#[export] Instance key_le_dec : RelDecision key_le.
Proof. intros a b. unfold key_le. apply _. Defined.
#[export] Instance key_le_total : Total key_le.
Proof. intros a b. unfold key_le. pose proof (strcmp_opp a b). lia. Qed.
#[export] Instance key_le_trans : Transitive key_le.
Proof. intros a b c. apply strcmp_trans. Qed.

(** Sorting a table by its keys, which are distinct, gives the list that
    [merge_sort] gives. *)
Lemma sorted_rows {A} (key : A -> bytes) (R : relation A) `{!RelDecision R} (t t' : list A) :
  (forall a b, R a b <-> strcmp (key a) (key b) <= 0) -> NoDup (keys key t) -> t' ≡ₚ t -> Sorted R t' -> t' = merge_sort R t.
Proof.
  intros HR Hn Hp Hs. assert (Total R) by (intros a b; rewrite -> !HR; pose proof (strcmp_opp (key a) (key b)); lia).
  assert (Transitive R) by (intros a b c; rewrite -> !HR; apply strcmp_trans).
  apply (Sorted_unique_strong R); [|done|by apply Sorted_merge_sort, _|by rewrite -> Hp, -> merge_sort_Permutation].
  intros a b Ha Hb Hab%HR Hba%HR. pose proof (strcmp_opp (key a) (key b)) as Ho. assert (key a = key b) as Hk by (apply strcmp_0; lia).
  rewrite -> Hp in Ha. rewrite -> merge_sort_Permutation in Hb. apply list_elem_of_lookup in Ha as [i Hi]. apply list_elem_of_lookup in Hb as [j Hj].
  assert (i = j) as ->; [|congruence]. eapply NoDup_lookup; [exact Hn|unfold keys; by rewrite -> list_lookup_fmap, -> Hi|].
  unfold keys. rewrite -> list_lookup_fmap, -> Hj. cbn. by rewrite -> Hk.
Qed.

(** ** Printing *)

Section dump.
Context `{HG : !heapGS cg_struct Σ} (hash : bytes -> Z).
Abbreviation callees_at := (rows hash ce_loc_str callee_val).
Abbreviation callers_at := (callers_at hash).
Abbreviation cost := (nested_cost cr_callees).

Lemma compare_keys t es : compares hash key_le t es compare_loc_str.
Proof.
  intros a b Ψ [i Hi]%list_elem_of_lookup [j Hj]%list_elem_of_lookup. iIntros "H HΨ".
  iDestruct (big_sepL_lookup_acc _ _ _ _ Hi with "H") as "[(Hk & Hh & HB) H]". hbind. iApply (hwp_load with "Hk"); [done|]. iIntros "Hk".
  iDestruct ("H" with "[$Hk $Hh $HB]") as "H".
  iDestruct (big_sepL_lookup_acc _ _ _ _ Hj with "H") as "[(Hk & Hh & HB) H]". hbind. iApply (hwp_load with "Hk"); [done|]. iIntros "Hk".
  iDestruct ("H" with "[$Hk $Hh $HB]") as "H". iApply hwp_ret. by iApply ("HΨ" with "[%] H").
Qed.

(** One callee after the other. *)
Lemma hwp_dump_callees c text h vs cs Φ :
  callees_at h vs cs -∗ (callees_at h vs cs -∗ Φ (text ++ concat (map (callee_text c) cs))) -∗ hwp (dump_callees c text h) Φ.
Proof.
  iIntros "H HΦ". iDestruct (rows_length with "H") as %Hl. iDestruct "H" as "[Ht H]".
  iApply (hwp_for_all hash _ (fun s i => ⌜s = text ++ concat (map (callee_text c) (take i cs))⌝ ∗ [∗ list] e;c ∈ vs;cs, row ce_loc_str callee_val e c)%I
    with "Ht [H]"); [|by iFrame; rewrite -> app_nil_r|].
  - iIntros (s i q k Ψ Hi) "Ht [-> H] HΨ". pose proof (lookup_lt_Some _ _ _ Hi). destruct (lookup_lt_is_Some_2 cs i ltac:(lia)) as [e He].
    iDestruct (big_sepL2_lookup_acc _ _ _ _ _ _ Hi He with "H") as "[[%Hk Hv] H]". hbind. iApply (hwp_load with "Hv"); [done|]. iIntros "Hv".
    hbind. iApply hwp_ret. iApply hwp_ret. iApply ("HΨ" with "Ht"). iSplit; [|by iApply "H"; iFrame].
    iPureIntro. rewrite -> (take_S_r _ _ _ He), -> map_app, -> concat_app, -> app_assoc. cbn. by rewrite -> app_nil_r.
  - iIntros (s) "Ht [-> H]". rewrite -> Hl, -> firstn_all. iApply "HΦ". iFrame.
Qed.

Lemma nested_table head es t : callers_at head es t ⊢ table hash head es ∗ (table hash head es -∗ callers_at head es t).
Proof. iIntros "(%ps & <- & [$ H] & Hs) Ht". iExists ps. by iFrame. Qed.

Lemma caller_text_split k l x cs :
  caller_text {| cr_loc_str := []; cr_loc := l; cr_exclusive := x; cr_callees := [] |}
    ++ concat (map (callee_text {| cr_loc_str := []; cr_loc := l; cr_exclusive := x; cr_callees := [] |}) cs)
  = caller_text {| cr_loc_str := k; cr_loc := l; cr_exclusive := x; cr_callees := cs |}.
Proof. unfold caller_text. cbn [cr_loc cr_exclusive cr_callees map concat]. rewrite -> app_nil_r. repeat (rewrite <- app_assoc; cbn [app]). done. Qed.

Lemma hwp_dump_caller text p h vs b Φ : NoDup (keys ce_loc_str (cr_callees b)) ->
  field_at p FVal (CVal (caller_val b h)) -∗ callees_at h vs (cr_callees b) -∗
  (∀ h' vs', field_at p FVal (CVal (caller_val b h')) -∗ callees_at h' vs' (cr_callees (with_sorted_callees b)) -∗
    Φ (text ++ caller_text (with_sorted_callees b))) -∗
  hwp (dump_caller text p) Φ.
Proof.
  iIntros (Hn) "Hp H HΦ". hbind. iApply (hwp_load with "Hp"); [done|]. iIntros "Hp". hbind. iApply hwp_ret. cbn [callees_of caller_val].
  hbind. iApply (hwp_rows_sort hash key_le with "H"); [apply compare_keys|]. iIntros (h' vs' cs' [Hp Hs]) "H".
  assert (cs' = merge_sort callee_le (cr_callees b)) as -> by (by apply (sorted_rows ce_loc_str)).
  hbind. iApply (hwp_update_val with "Hp"). iIntros "Hp". iApply (hwp_dump_callees with "H"). iIntros "H".
  rewrite <- app_assoc, -> (caller_text_split (cr_loc_str b)). iApply ("HΦ" with "Hp H").
Qed.

(** The callers below [i] have their callees sorted. *)
Definition sorted_below (i : nat) (t : list callgrind_caller) : list callgrind_caller := map with_sorted_callees (take i t) ++ drop i t.

Lemma sorted_below_lookup i t b : t !! i = Some b -> sorted_below i t !! i = Some b.
Proof.
  intros Hb. pose proof (lookup_lt_Some _ _ _ Hb). unfold sorted_below.
  rewrite -> lookup_app_r; rewrite -> length_map, -> length_take_le by lia; [|lia]. by rewrite -> lookup_drop, -> Nat.sub_diag, -> Nat.add_0_r.
Qed.

Lemma sorted_below_S i t b : t !! i = Some b -> <[i := with_sorted_callees b]> (sorted_below i t) = sorted_below (S i) t.
Proof.
  intros Hb. pose proof (lookup_lt_Some _ _ _ Hb). unfold sorted_below. rewrite -> (drop_S _ _ _ Hb), -> (take_S_r _ _ _ Hb), -> map_app, <- app_assoc.
  replace i with (length (map with_sorted_callees (take i t)) + 0)%nat at 1 by (rewrite -> length_map, -> length_take_le; lia).
  by rewrite -> insert_app_r.
Qed.

Lemma hwp_dump_loop head es t Φ : tables_ok t ->
  callers_at head es t -∗
  (callers_at head es (map with_sorted_callees t) -∗ Φ (dump_header ++ concat (map caller_text (map with_sorted_callees t)))) -∗
  hwp (for_each dump_caller dump_header head) Φ.
Proof.
  iIntros ([_ Hn]) "H HΦ". iDestruct (callers_length with "H") as %Hl. iDestruct (nested_table with "H") as "[Ht H]".
  iApply (hwp_for_all hash _ (fun s i => ⌜s = dump_header ++ concat (map caller_text (map with_sorted_callees (take i t)))⌝
    ∗ (table hash head es -∗ callers_at head es (sorted_below i t)))%I with "Ht [H]"); [|iFrame; by rewrite -> app_nil_r|].
  - iIntros (s i q k Ψ Hi) "Ht [-> H] HΨ". pose proof (lookup_lt_Some _ _ _ Hi). destruct (lookup_lt_is_Some_2 t i ltac:(lia)) as [b Hb].
    iDestruct ("H" with "Ht") as "H".
    iDestruct (nested_access _ _ _ _ _ _ _ _ _ _ _ _ _ Hi (sorted_below_lookup _ _ _ Hb) with "H") as (h vs) "(Hq & Hv & H)".
    rewrite -> Forall_lookup in Hn. iApply (hwp_dump_caller with "Hq Hv"); [exact (Hn _ _ Hb)|]. iIntros (h' vs') "Hq Hv".
    iDestruct ("H" $! (with_sorted_callees b) with "[//] Hq Hv") as "H". rewrite -> (sorted_below_S _ _ _ Hb).
    iDestruct (nested_table with "H") as "[Ht H]". iApply ("HΨ" with "Ht"). iFrame "H". iPureIntro.
    rewrite -> (take_S_r _ _ _ Hb), -> !map_app, -> concat_app, -> app_assoc. cbn. by rewrite -> app_nil_r.
  - iIntros (s) "Ht [-> H]". iDestruct ("H" with "Ht") as "H". unfold sorted_below.
    rewrite -> Hl, -> firstn_all, -> drop_all, -> app_nil_r. by iApply "HΦ".
Qed.

Lemma tables_ok_perm t t' : t' ≡ₚ t -> tables_ok t -> tables_ok t'.
Proof. intros Hp [H1 H2]. split; unfold keys in *; by rewrite -> Hp. Qed.

Lemma cost_sorted t : cost (map with_sorted_callees t) = cost t.
Proof.
  unfold nested_cost. rewrite -> (rows_cost_length (map with_sorted_callees t) t) by apply length_map. f_equal.
  induction t as [|c t IH]; [done|]. cbn [map sum_list_with]. f_equal; [|exact IH]. apply rows_cost_length.
  cbn. by rewrite -> merge_sort_Permutation.
Qed.

Lemma hwp_heap_dump head es t n Φ : tables_ok t ->
  live (n + cost t) -∗ callers_at head es t -∗
  (∀ head' es', let t' := map with_sorted_callees (merge_sort caller_le t) in
    live (n + cost t') -∗ callers_at head' es' t' -∗ Φ (dump_header ++ concat (map caller_text t'), head')) -∗
  hwp (callgrind_heap_dump head) Φ.
Proof.
  iIntros (Hok) "Hn H HΦ". hbind. iApply (hwp_nested_sort hash key_le with "H"); [apply compare_keys|]. iIntros (head' es' t' [Hp Hs]) "H".
  assert (t' = merge_sort caller_le t) as -> by (apply (sorted_rows cr_loc_str); by try apply Hok).
  hbind. iApply (hwp_dump_loop with "H"); [by eapply tables_ok_perm|]. iIntros "H". iApply hwp_ret. iApply ("HΦ" with "[Hn] H").
  by rewrite -> cost_sorted, -> (nested_cost_perm _ _ _ Hp).
Qed.

End dump.

(** ** From [INIT] to [DEINIT] *)

(** What the events do to the abstract handler, up to the profile. *)
Definition profile_text (u : callgrind_udata) : bytes :=
  dump_header ++ concat (map caller_text (map with_sorted_callees (merge_sort caller_le (cu_callers u)))).

Definition profiles (o : options) (env : cg_env) (evs : list event) (text : bytes) : Prop :=
  forall g, cg_udata g = CLive new_udata -> exists rvs g', deliver o env (evs ++ [EvDeinit]) g = Done (rvs, g') /\ cg_text g' = cg_text g ++ text.

Lemma deliver_profile o env evs u' g :
  (exists rvs, deliver o env evs g = Done (rvs, put_ptr (CLive u') g)) ->
  exists rvs g', deliver o env (evs ++ [EvDeinit]) g = Done (rvs, g') /\ cg_text g' = cg_text g ++ profile_text u'.
Proof.
  intros [rvs Hrun]. rewrite -> deliver_app. unfold mbind, M_bind. rewrite -> Hrun. cbn [deliver]. eexists _, _. split; [reflexivity|]. done.
Qed.

Lemma hwp_heap_run `{!heapGS cg_struct Σ} hash o env evs : Forall wf_event evs ->
  live 0 ⊢ hwp (callgrind_heap_run hash evs) (fun text => live 0 ∗ ⌜profiles o env evs text⌝).
Proof.
  iIntros (Hevs) "Hn". hbind. iApply (hwp_events hash o env evs new_udata [] [] None [] 0 with "[Hn] []"); [done|apply new_udata_ok|done|iApply nested_nil|].
  iIntros (u head es [(ss & cur & Hu) Hdel]) "Hn H". hbind.
  iApply (hwp_heap_dump with "Hn H"); [by eapply tallied_tables, Hu|]. iIntros (head' es') "Hn H". cbn [fst snd].
  hbind. iApply (hwp_free_nested with "Hn H"); [done..|]. iIntros "Hn". iApply hwp_ret. iFrame "Hn". iPureIntro.
  intros g Hg. by apply deliver_profile, Hdel.
Qed.

(** C25. The callgrind tables in memory: whatever the hash function and
    whatever well-formed events come between [INIT] and [DEINIT], the code that
    allocates callers and callees, finds and links them in the uthash tables,
    sorts the tables, prints them and frees them never follows a null or freed
    pointer and always ends; it prints exactly what the handler on lists
    prints; and when it is done every block is freed. *)
Theorem callgrind_freed hash o env opts evs g :
  opens o env = true -> Forall wf_event evs ->
  exists text m rvs g', callgrind_heap_run hash evs mem0 = Done (text, m) /\ m_blocks m = ∅
    /\ deliver o env (EvInit opts :: evs ++ [EvDeinit]) g = Done (rvs, g') /\ cg_text g' = cg_text g ++ text.
Proof.
  intros Ho Hevs. destruct (heap_adequate (callgrind_heap_run hash evs) (profiles o env evs)) as (text & m & Hrun & Hm & Hprof).
  { intros Σ HG. by apply hwp_heap_run. }
  destruct (init_run o env opts g) as (rv & g1 & Hinit & Htext & Hrv & Hp). rewrite -> Ho in Hp.
  destruct (Hprof g1 Hp) as (rvs & g' & Hde & Ht). exists text, m, (rv :: rvs), g'. split_and!; [done..| |congruence].
  cbn [deliver]. unfold mbind, M_bind. by rewrite -> Hinit, -> Hde.
Qed.

(** ** Witness *)

(** All keys in one bucket. *)
Lemma callgrind_freed_witness :
  exists m rvs g', callgrind_heap_run (fun _ => 0) (sample_events 7 cg_stack) mem0 = Done (cs cg_profile_text, m) /\ m_blocks m = ∅
    /\ deliver default_options cg_ok (EvInit None :: sample_events 7 cg_stack ++ [EvDeinit]) fresh_cg = Done (rvs, g')
    /\ cg_text g' = cs cg_profile_text.
Proof.
  destruct (callgrind_freed (fun _ => 0) default_options cg_ok None (sample_events 7 cg_stack) fresh_cg) as (text & m & rvs & g' & Hrun & Hm & Hde & Ht).
  - reflexivity.
  - apply sample_events_ok; [apply (proj1 (Forall_cons _ _ _) cg_frames_ok)|done].
  - cbn [fresh_cg cg_text app] in Ht. assert (text = cs cg_profile_text) as Htext.
    { clear Hde Ht Hm. vm_compute in Hrun. injection Hrun as <- _. vm_compute. reflexivity. }
    exists m, rvs, g'. split_and!; [by rewrite <- Htext|exact Hm|exact Hde|by rewrite <- Htext].
Defined.
