(* ===== verification/Runs.v ===== *)
(** * Runs: whole runs of main_pid with the two event handlers

    The components composed: the sampling loop, the tracer and an event
    handler.  A run on a target with a stable stack writes exactly as many
    samples as were asked for; a run with the callgrind handler, on any target,
    prints the profile of the stacks that were sent. *)
From S2P Require Import Prelude CLib Layout StructsX86 Context Versions Zval ZvalSpec ZvalTheorems Trace TraceSafe.
From S2P Require Import Fout FoutSpec FoutWrite FoutHandler FoutTheorems TraceStable TraceTheorems AddrObjdump Clock OptionFields Session SessionTheorems.
From S2P Require Import Uthash Callgrind CallgrindSpec CallgrindTheorems.

(** ** The user data of a run is the fold of its events *)

Section replay.
Context {U : Type} {EH : EventHandler U} {HS : HandlerSafe U} {HL : HandlerLife U}.

Definition history_life (u0 : U) : @HandlerLife U EH (history HS u0).
Proof.
  refine {| eh_start := fun u => eh_start u /\ u = u0 |}.
  - intros opts u [Hu ->]. destruct (eh_init opts u0 Hu) as (rv & u' & Hrun & Hi). exists rv, u'. split; [exact Hrun|].
    intros Hrv. split; [by apply Hi|]. cbn. by rewrite Hrun.
  - intros evs u [Hi _]. by apply (eh_deinit evs).
Defined.

Lemma main_pid_replay E V ar o fuel in_pgrep_mode turns k pid (u : U) :
  run_ok o pid -> eh_start u -> (k < turns)%nat -> sys_done V k = true ->
  exists rv s, main_pid E V ar o fuel in_pgrep_mode turns pid (start_session o pid u) = Done (rv, s)
    /\ (rv = PHPSPY_OK -> replay (w_events (s_world s)) u = Done (w_udata (s_world s))
        /\ exists evs, samples pid evs /\ w_events (s_world s) = EvInit (opt_event_handler_opts o) :: evs ++ [EvDeinit]).
Proof.
  intros Ho Hu Hk Hd.
  destruct (twp_done _ _ _ (main_pid_wp (HS := history HS u) (HL := history_life u) E V ar o fuel in_pgrep_mode pid Ho False turns u
    (or_intror (ex_intro _ k (conj Hk Hd))) (conj Hu eq_refl))) as (rv & s & Hrun & Hpost).
  exists rv, s. split; [exact Hrun|]. intros ->. split.
  - destruct (rp_final _ _ _ _ _ Hpost eq_refl) as (evs & u1 & rv' & -> & [_ Hr] & Hc). by eapply replay_snoc.
  - by destruct (rp_events _ _ _ _ _ Hpost) as [[_ ?]|[? _]].
Qed.

End replay.

Lemma samples_wf pid evs : - 2 ^ 31 <= pid < 2 ^ 31 -> samples pid evs -> Forall wf_event evs.
Proof.
  intros Hpid. induction 1 as [|evs recs tail Hs IH Hr _ Ht]; [constructor|]. apply Forall_app. split; [done|].
  constructor; [done|]. apply Forall_app. split; [eapply Forall_impl; [exact Hr|by intros ? []]|].
  destruct Ht as [->| ->]; [constructor|]. by constructor.
Qed.

(** ** Callgrind *)

Lemma deliver_replay o env evs g rvs g' :
  deliver o env evs g = Done (rvs, g') -> replay (H := callgrind_handler o env) evs g = Done g'.
Proof.
  revert g rvs. induction evs as [|ev evs IH]; intros g rvs; cbn; [by intros [= _ ->]|]. unfold mbind, M_bind.
  change (eh_call ev g) with (event_handler_callgrind o env ev g).
  destruct (event_handler_callgrind o env ev g) as [[rv g1]| |]; [|done..].
  destruct (deliver o env evs g1) as [[rvs1 g2]| |] eqn:Hd; [|done..]. intros [= <- <-]. by eapply IH.
Qed.

(** ** A stable target and the trace writer *)

Section stable.
Context (E : target_env) (V : sys_env) (ar : arch) (o : options) (os : os_env) (fuel : nat) (pid : Z).
Context (L : zlayout) (eg : bytes) (fs : list (Z * php_frame)) (Ho : std_delims o).
Abbreviation lines := (stack_lines o (map snd fs)).
Abbreviation text := (join (opt_frame_delim o) (map (strip_delims o) lines) ++ [opt_trace_delim o]).

(** What phpspy is run with, and what the system does. *)
Record plain_run : Prop := {
  pr_only : stack_only o;
  pr_limits : limits_ok o;
  pr_patt : NUL ∉ opt_libname_awk_patt o;
  pr_pid : - 2 ^ 31 <= pid < 2 ^ 31;
  pr_buffer : 1 <= opt_fout_buffer_size o <= PHPSPY_FOUT_MAX_BUFFER;
  pr_limit : 0 < opt_trace_limit o < 2 ^ 64;
  pr_time : opt_time_limit_ms o <= 0;
  pr_addr : opt_executor_globals_addr o <> 0;
  pr_version : exists v, dispatch (opt_phpv o) = Some v /\ layout_for ar v = Some L;
  pr_not_auto : strcmp_eq (opt_phpv o) (cs "auto") = false;
  pr_realloc : forall c, os_realloc os c = true;
  pr_writev : forall k fd d, os_writev os k fd d = Z.of_nat (length d);
  pr_ptrace : opt_pause o = true -> (forall k, sys_ptrace V k = 0) /\ forall k, sys_waitpid V k = true;
  pr_path : path_ok o;
}.

(** The target: a stack of PHP frames that does not change. *)
Record stable_target : Prop := {
  st_globals : reads_as E (opt_executor_globals_addr o) (sz_eg L) eg;
  st_stack : stack_at E L (rd64 eg (o_eg_current L)) fs;
  st_depth : Z.of_nat (length fs) <= PHPSPY_MAX_STACK_WALK;
  st_lines : lines <> [];
  st_fits : fits_whole o lines false;
}.

Context (Hrun : plain_run) (Hst : stable_target).
Abbreviation fout_world := (world_ok (EH := fout_handler o os) (HS := fout_safe o os (std_delims_ok o Ho))).

(** After [n] samples; [w0] was written before. *)
Record sampled (w0 : list write_call) (fd : Z) (n : nat) (s : session fout) : Prop := {
  sd_world : fout_world (s_world s);
  sd_addr : t_executor_globals_addr (tgt s) = opt_executor_globals_addr o;
  sd_fd : exists u, fo_udata (w_udata (s_world s)) = ULive u /\ u_fd u = fd;
  sd_writes : exists ws, fo_writes (w_udata (s_world s)) = w0 ++ ws /\ length ws = n
    /\ Forall (fun wr => wr_fd wr = fd /\ wr_data wr = text /\ full wr) ws;
  sd_codes : s_codes s = replicate n PHPSPY_OK;
  sd_count : s_trace_count s = Z.of_nat n;
}.

Lemma sampled_same w0 fd n s s' :
  s_world s' = s_world s -> s_codes s' = s_codes s -> s_trace_count s' = s_trace_count s -> sampled w0 fd n s -> sampled w0 fd n s'.
Proof. intros Hw Hc Hn []. unfold tgt in *. split; unfold tgt; by rewrite ?Hw, ?Hc, ?Hn. Qed.

(** One sample of the loop. *)
Lemma trace_once_stable w0 fd n s (Q : Z -> session fout -> Prop) :
  sampled w0 fd n s -> Z.of_nat n < opt_trace_limit o ->
  (forall s', s_polls s' = s_polls s -> s_ticks s' = s_ticks s -> s_sleeps s' = s_sleeps s ->
     s_codes s' = s_codes s -> s_trace_count s' = s_trace_count s ->
     sampled w0 fd (S n) (count_trace (log_code PHPSPY_OK s')) -> Q PHPSPY_OK s') ->
  twp (trace_once (EH := fout_handler o os) E V o fuel L pid) Q s.
Proof.
  intros [Hw Ha (u & Hu & Hfd) (ws & Hws & Hn & Hall) Hc Hcnt] Hlt HQ. destruct Hrun as [Ho1 Ho2 _ _ Hb Hlim _ _ _ _ Hra Hwv Hpt _].
  destruct Hst as [Hg Hs Hd Hl Hf].
  assert (forall s1, s_world s1 = s_world s -> s_codes s1 = s_codes s -> s_polls s1 = s_polls s -> s_ticks s1 = s_ticks s ->
    s_sleeps s1 = s_sleeps s -> s_trace_count s1 = s_trace_count s ->
    twp (rv2 ← in_world (do_trace (EH := fout_handler o os) E L o fuel);
         rv3 ← (if opt_pause o then unpause_pid V pid else mret 0); mret (Z.lor (Z.lor 0 rv2) rv3)) Q s1) as Hrest.
  { intros s1 Hw1 Hc1 Hp1 Ht1 Hsl1 Hn1. apply wpx_bind, in_world_wp. rewrite Hw1.
    eapply wpx_mono; [apply (sample_stable_wp o os E L fuel eg fs (s_world s) Ho); first [done | apply Hb | unfold tgt in Ha; by rewrite Ha]|].
    intros rv w2 (Hi2 & Hctx2 & Ht2 & u0 & u' & wr & Hu0 & Hu' & Hfd' & Hwr & [Hwfd [k Hret]] & Hdata & Hrv).
    rewrite Hu in Hu0. injection Hu0 as <-. assert (full wr) as Hfull by (unfold full; rewrite Hret; apply Hwv).
    rewrite (Hrv Hfull). clear rv Hrv.
    assert (forall s2, s_world s2 = w2 -> s_codes s2 = s_codes s -> s_trace_count s2 = s_trace_count s ->
      sampled w0 fd (S n) (count_trace (log_code PHPSPY_OK s2))) as Hdone.
    { intros s2 Ew Ec En. split; unfold tgt; cbn [s_world s_codes s_trace_count count_trace log_code]; rewrite ?Ew, ?Ec, ?En.
      - by split.
      - rewrite Ht2. exact Ha.
      - exists u'. by rewrite Hfd'.
      - exists (ws ++ [wr]). rewrite Hwr, Hws, <-app_assoc, length_app. cbn [length]. split_and!; [done|lia|].
        apply Forall_app. split; [done|]. constructor; [|constructor]. by rewrite <-Hfd.
      - rewrite Hc. by rewrite <-replicate_S_end.
      - rewrite Hcnt, wrap_small; lia. }
    apply wpx_bind. destruct (opt_pause o).
    - destruct (Hpt eq_refl) as [Hp0 _]. unfold unpause_pid. apply wpx_bind, wpx_get, wpx_bind, wpx_modify, wpx_ret. rewrite Hp0.
      cbn [Z.eqb negb]. apply wpx_ret. apply HQ; try done. by apply Hdone.
    - apply wpx_ret, wpx_ret, HQ; try done. by apply Hdone. }
  unfold trace_once. apply wpx_bind. destruct (opt_pause o) eqn:Hpause.
  - destruct (Hpt eq_refl) as [Hp0 Hp1]. unfold pause_pid. apply wpx_bind, wpx_get, wpx_bind, wpx_modify. rewrite Hp0, Hp1.
    cbn [Z.eqb negb]. by apply wpx_ret, Hrest.
  - by apply wpx_ret, Hrest.
Qed.

(** A turn that is neither the last nor cut short. *)
Lemma sample_once_stable w0 fd n s :
  sampled w0 fd n s -> Z.of_nat n < opt_trace_limit o ->
  twp (sample_once (EH := fout_handler o os) E V o fuel false L pid None)
    (fun go s' => sampled w0 fd (S n) s' /\ s_polls s' = s_polls s
       /\ go = (Z.of_nat (S n) <? opt_trace_limit o)
       /\ length (s_sleeps s') = (length (s_sleeps s) + if go then 1 else 0)%nat) s.
Proof.
  intros Hs Hlt. unfold sample_once. apply wpx_bind. unfold wpx at 1, clock_get. set (s1 := Build_session _ _ _ _ _ _ _ _ _ _).
  change (twp (rv ← trace_once (EH := fout_handler o os) E V o fuel L pid; modify (log_code rv);;
    end_turn V o false None (default {| tv_sec := 0; tv_nsec := 0 |} (sys_clock V (s_ticks s))) rv)
    (fun go s' => sampled w0 fd (S n) s' /\ s_polls s' = s_polls s /\ go = (Z.of_nat (S n) <? opt_trace_limit o)
       /\ length (s_sleeps s') = (length (s_sleeps s) + if go then 1 else 0)%nat) s1).
  apply wpx_bind, (trace_once_stable w0 fd n); [by apply (sampled_same w0 fd n s)|done|].
  intros s2 Hp2 _ Hsl2 _ Hc2 Hs2. apply wpx_bind, wpx_modify. unfold end_turn, counted. cbn [Z.land Z.eqb negb orb].
  pose proof (pr_limit Hrun) as Hlim. rewrite (proj2 (Z.ltb_lt 0 (opt_trace_limit o))) by lia. cbn [andb].
  apply wpx_bind, wpx_modify, wpx_bind, wpx_get.
  unfold trace_count. rewrite (sd_count _ _ _ _ Hs2). destruct (Z.leb_spec (opt_trace_limit o) (Z.of_nat (S n))).
  - apply wpx_ret. split_and!; [done|done| |].
    + by rewrite (proj2 (Z.ltb_ge _ _)).
    + cbn. rewrite Hsl2. cbn. lia.
  - apply wpx_bind. unfold wpx at 1, clock_get. apply wpx_bind, wpx_modify, wpx_ret. split_and!.
    + by apply (sampled_same w0 fd (S n) (count_trace (log_code PHPSPY_OK s2))).
    + done.
    + by rewrite (proj2 (Z.ltb_lt _ _)).
    + cbn. rewrite length_app, Hsl2. done.
Qed.

Lemma sample_loop_stable w0 fd m n turns s :
  sampled w0 fd n s -> (0 < m)%nat -> Z.of_nat (n + m) = opt_trace_limit o -> (m <= turns)%nat ->
  (forall k, (k < m)%nat -> sys_done V (s_polls s + k) = false) ->
  twp (sample_loop (EH := fout_handler o os) E V o fuel false turns L pid None)
    (fun _ s' => sampled w0 fd (n + m) s' /\ length (s_sleeps s') = (length (s_sleeps s) + (m - 1))%nat) s.
Proof.
  revert n turns s. induction m as [|m IH]; intros n turns s Hs H0 Hm Ht Hd; [lia|]. destruct turns as [|turns]; [lia|].
  cbn [sample_loop]. apply wpx_bind. unfold wpx at 1, poll_done. rewrite <-(Nat.add_0_r (s_polls s)), Hd by lia.
  rewrite Nat.add_0_r. set (s1 := Build_session _ _ _ _ _ _ _ _ _ _).
  apply wpx_bind. eapply wpx_mono; [apply (sample_once_stable w0 fd n s1); [by apply (sampled_same w0 fd n s)|lia]|].
  intros go s2 (Hs2 & Hp2 & -> & Hl2). destruct (Z.ltb_spec (Z.of_nat (S n)) (opt_trace_limit o)).
  - eapply wpx_mono; [apply (IH (S n) turns s2); [done|lia|lia|lia|]|].
    + intros k Hk. rewrite Hp2. cbn. rewrite <-Nat.add_succ_r. apply Hd. lia.
    + intros _ s3 [Hs3 Hl3]. rewrite Nat.add_succ_r. split; [done|]. rewrite Hl3, Hl2. cbn. lia.
  - apply wpx_ret. assert (m = 0%nat) as -> by lia. rewrite Nat.add_1_r. split; [done|]. rewrite Hl2. cbn. lia.
Qed.

(** From the first turn to the [DEINIT]. *)
Lemma run_samples_stable w0 fd turns s :
  sampled w0 fd 0 s -> s_polls s = 0%nat -> s_sleeps s = [] -> (Z.to_nat (opt_trace_limit o) <= turns)%nat ->
  (forall k, (k < Z.to_nat (opt_trace_limit o))%nat -> sys_done V k = false) ->
  twp (run_samples (EH := fout_handler o os) E V o fuel false turns L pid)
    (fun rv s' => rv = PHPSPY_OK /\ s_codes s' = replicate (Z.to_nat (opt_trace_limit o)) PHPSPY_OK
       /\ s_trace_count s' = opt_trace_limit o /\ length (s_sleeps s') = (Z.to_nat (opt_trace_limit o) - 1)%nat
       /\ fo_udata (w_udata (s_world s')) = UFreed
       /\ exists ws, fo_writes (w_udata (s_world s')) = w0 ++ ws /\ length ws = Z.to_nat (opt_trace_limit o)
          /\ Forall (fun wr => wr_fd wr = fd /\ wr_data wr = text /\ full wr) ws) s.
Proof.
  intros Hs Hp Hsl Ht Hd. pose proof (pr_limit Hrun) as Hlim. unfold run_samples, calc_stop_time.
  rewrite (proj2 (Z.ltb_ge 0 (opt_time_limit_ms o))) by apply (pr_time Hrun). apply wpx_bind, wpx_ret, wpx_bind.
  eapply wpx_mono; [apply (sample_loop_stable w0 fd (Z.to_nat (opt_trace_limit o)) 0); [done|lia|lia|done|by rewrite Hp]|].
  intros _ s2 [[_ _ (u & Hu & _) (ws & Hw & Hl & Hf) Hc Hn] Hsl2]. cbn [Nat.add] in *. rewrite Hsl in Hsl2.
  apply wpx_bind, in_world_wp. eapply emit_wp.
  - change (eh_call EvDeinit ?f) with (event_handler_fout o os EvDeinit f). unfold event_handler_fout, mbind, M_bind, get.
    rewrite Hu. reflexivity.
  - apply wpx_bind, wpx_get. cbn [andb]. apply wpx_bind, wpx_ret, wpx_ret. cbn [s_codes s_trace_count s_sleeps s_world put_world w_udata].
    split_and!; [done|done|lia|done|done|]. exists ws. by destruct (_ =? _).
Qed.

(** A whole run: [main_pid] takes exactly the number of samples asked for. *)
Lemma main_pid_stable_wp turns (f : fout) :
  fo_mutex f = false -> 0 <= fo_trace_id f < 2 ^ 64 -> 0 <= fst (open_target o os f) ->
  (Z.to_nat (opt_trace_limit o) <= turns)%nat ->
  (forall k, (k < Z.to_nat (opt_trace_limit o))%nat -> sys_done V k = false) ->
  twp (main_pid (EH := fout_handler o os) E V ar o fuel false turns pid)
    (fun rv s' => rv = PHPSPY_OK /\ s_codes s' = replicate (Z.to_nat (opt_trace_limit o)) PHPSPY_OK
       /\ s_trace_count s' = opt_trace_limit o /\ length (s_sleeps s') = (Z.to_nat (opt_trace_limit o) - 1)%nat
       /\ fo_udata (w_udata (s_world s')) = UFreed
       /\ exists ws, fo_writes (w_udata (s_world s')) = fo_writes f ++ ws /\ length ws = Z.to_nat (opt_trace_limit o)
          /\ Forall (fun wr => wr_fd wr = fst (open_target o os f) /\ wr_data wr = text /\ full wr) ws)
    (start_session o pid f).
Proof.
  intros Hm Hid Hopen Ht Hd. pose proof Hrun as [(_ & _ & _ & Hreq & Hmem & _) _ Hpatt _ Hb _ _ Haddr (v & Hv & HL) Hauto Hra _ _ Hpath].
  unfold main_pid. set (s0 := start_session o pid f).
  apply wpx_bind, find_addresses_given_wp; [done|done|done|done|]. intros s1 K1 T1 V1.
  rewrite bool_decide_false by (intros X; by apply X). apply wpx_bind, in_world_wp.
  assert (w_udata (s_world s1) = f) as Hu1 by by rewrite (k_udata _ _ K1).
  destruct (twp_done _ _ _ (fout_init_wp o os False (opt_event_handler_opts o) f Hpath ltac:(lia) Hm)) as (rv & f' & Hinit & Hpost).
  destruct Hpost as (_ & Hm' & Hid' & Hw' & Hok & Hlive & _).
  assert (rv = PHPSPY_OK) as -> by (apply Hok; split_and!; [done|apply Hb|apply Hra]). destruct (Hlive eq_refl) as (Hu & Hl).
  eapply emit_wp; [rewrite Hu1; exact Hinit|]. rewrite bool_decide_false by (intros X; by apply X).
  apply wpx_bind, wpx_get. cbn [s_phpv put_world]. rewrite V1. cbn [s_phpv start_session s0]. rewrite Hauto.
  apply wpx_bind, wpx_ret. rewrite bool_decide_false by lia. apply wpx_bind, wpx_get. cbn [s_phpv put_world].
  rewrite V1. cbn [s_phpv start_session s0]. rewrite Hv, HL. rewrite <-Hw'. set (s2 := put_world _ s1).
  apply run_samples_stable; [|by rewrite (k_polls _ _ K1 : s_polls s2 = _)|by rewrite (k_sleeps _ _ K1 : s_sleeps s2 = _)|done|done].
  split; unfold tgt; cbn.
  - split; [|by apply (k_ctx _ _ K1)]. split; [done|]. split; [cbn; by rewrite Hid'|]. cbn. rewrite Hu. by eexists _, _.
  - exact T1.
  - by eexists.
  - exists []. by rewrite app_nil_r.
  - by rewrite (k_codes _ _ K1).
  - by rewrite (k_count _ _ K1).
Qed.

End stable.


(** ** Theorems *)

(** C1. A whole run, end to end: [phpspy -p pid -l n] on a process whose stack
    does not change, with the address and version given and a system that
    takes every write and has memory, returns success after exactly [n]
    samples; each of them is one write to the opened file with one line per
    selected frame, and it sleeps between samples; with or without [-S]. Only
    the stack is captured and nothing is filtered ([-e], [-g], PDO peeking,
    [-r], [-m], [-f], [-F] and [-d] are not given, there is no time limit), at
    least one frame is selected, the stack has no more frames than
    [PHPSPY_MAX_STACK_WALK] and no cycle, and the trace fits into one write: its
    lines and the delimiter take at most [-b] bytes (a longer one is written in
    chunks). A path for [-o] with [%d] is a format for one number. *)
Theorem main_pid_writes E V ar o os fuel pid L eg fs turns f (Ho : std_delims o) :
  plain_run V ar o os pid L -> stable_target E o L eg fs ->
  fo_mutex f = false -> 0 <= fo_trace_id f < 2 ^ 64 -> 0 <= fst (open_target o os f) ->
  let n := Z.to_nat (opt_trace_limit o) in
  let text := join (opt_frame_delim o) (map (strip_delims o) (stack_lines o (map snd fs))) ++ [opt_trace_delim o] in
  (n <= turns)%nat -> (forall k, (k < n)%nat -> sys_done V k = false) ->
  exists s ws, main_pid (EH := fout_handler o os) E V ar o fuel false turns pid (start_session o pid f) = Done (PHPSPY_OK, s)
    /\ fo_writes (w_udata (s_world s)) = fo_writes f ++ ws /\ length ws = n
    /\ Forall (fun wr => wr_fd wr = fst (open_target o os f) /\ wr_data wr = text /\ full wr) ws
    /\ s_codes s = replicate n PHPSPY_OK /\ length (s_sleeps s) = (n - 1)%nat
    /\ fo_udata (w_udata (s_world s)) = UFreed.
Proof.
  intros Hrun Hst Hm Hid Hopen n text Ht Hd.
  destruct (twp_done _ _ _ (main_pid_stable_wp E V ar o os fuel pid L eg fs Ho Hrun Hst turns f Hm Hid Hopen Ht Hd))
    as (rv & s & Hmain & -> & Hc & _ & Hs & Hu & ws & Hw & Hl & Hf). by exists s, ws.
Qed.

(** C2. A whole run with the callgrind handler, on any target and in both
    modes, without [-e], [-g] and PDO peeking (their value printers may not
    return) and with no captured request strings (they may be over-read): when
    [main_pid] succeeds, the handler has printed the profile of exactly the
    stacks of the samples that were completed, once, and freed its data. *)
Theorem main_pid_profile E V ar o env fuel in_pgrep_mode turns k pid (g : callgrind) :
  run_ok o pid -> cg_udata g = CNull -> opens o env = true -> (k < turns)%nat -> sys_done V k = true ->
  exists rv s, main_pid (EH := callgrind_handler o env) E V ar o fuel in_pgrep_mode turns pid (start_session o pid g) = Done (rv, s)
    /\ (rv = PHPSPY_OK -> exists evs callers, samples pid evs
          /\ w_events (s_world s) = EvInit (opt_event_handler_opts o) :: evs ++ [EvDeinit]
          /\ cg_udata (w_udata (s_world s)) = CFreed
          /\ cg_text (w_udata (s_world s)) = cg_text g ++ dump_header ++ concat (map caller_text callers)
          /\ profile (stacks_of [] evs) callers).
Proof.
  intros Ho Hg Hop Hk Hd.
  destruct (main_pid_replay (HL := callgrind_life o env) E V ar o fuel in_pgrep_mode turns k pid g Ho Hg Hk Hd) as (rv & s & Hrun & Hok).
  exists rv, s. split; [exact Hrun|]. intros Hrv. destruct (Hok Hrv) as (Hrep & evs & Hs & He).
  pose proof (samples_wf pid evs (ro_pid _ _ Ho) Hs) as Hwf.
  destruct (profile_run o env (opt_event_handler_opts o) evs g Hop Hwf) as (rvs & g' & callers & Hdel & _ & Hfree & Ht & Hp).
  apply deliver_replay in Hdel. rewrite He, Hdel in Hrep. injection Hrep as Hrep.
  exists evs, callers. by rewrite <-Hrep.
Qed.

(** ** Witnesses *)

Lemma run_options_plain : plain_run demo_sys X86_64 run_options good_os 7 layout_80.
Proof.
  split.
  - by split_and!.
  - by vm_compute.
  - by apply (bool_decide_unpack _).
  - done.
  - by vm_compute.
  - by vm_compute.
  - done.
  - done.
  - eexists. split; [reflexivity|]. reflexivity.
  - done.
  - done.
  - done.
  - done.
  - by apply path_ok_plain.
Qed.

(** The executor globals of the demonstration target. *)
Definition demo_eg : bytes := build (sz_eg layout_80) [(o_eg_current layout_80, enc 8 12288)].

Lemma run_options_target : stable_target stack_env run_options layout_80 demo_eg [(12288, demo_frame)].
Proof.
  split; [solve_read|exact demo_stack|done| |by vm_compute]. discriminate.
Qed.

Lemma main_pid_writes_witness : exists s ws,
  main_pid (EH := fout_handler run_options good_os) stack_env demo_sys X86_64 run_options 9 false 10 7
    (start_session run_options 7 fresh_fout) = Done (PHPSPY_OK, s)
  /\ fo_writes (w_udata (s_world s)) = [] ++ ws /\ length ws = 2%nat
  /\ Forall (fun wr => wr_fd wr = fst (open_target run_options good_os fresh_fout)
                       /\ wr_data wr = cs "0 main /a.php:7" ++ [NL; NL] /\ full wr) ws
  /\ s_codes s = [0; 0] /\ length (s_sleeps s) = 1%nat /\ fo_udata (w_udata (s_world s)) = UFreed.
Proof.
  apply (main_pid_writes stack_env demo_sys X86_64 run_options good_os 9 7 layout_80 demo_eg [(12288, demo_frame)] 10 fresh_fout
    (conj eq_refl (or_introl eq_refl)) run_options_plain run_options_target); [done|done|done|cbn; lia|].
  intros k Hk. cbn in Hk. do 2 (destruct k as [|k]; [done|]). lia.
Defined.

Lemma main_pid_profile_witness : exists rv s,
  main_pid (EH := callgrind_handler run_options cg_ok) stack_env demo_sys X86_64 run_options 9 false 10 7
    (start_session run_options 7 fresh_cg) = Done (rv, s)
  /\ exists evs callers, samples 7 evs /\ w_events (s_world s) = EvInit None :: evs ++ [EvDeinit]
     /\ cg_text (w_udata (s_world s)) = [] ++ dump_header ++ concat (map caller_text callers)
     /\ profile (stacks_of [] evs) callers.
Proof.
  destruct (main_pid_profile stack_env demo_sys X86_64 run_options cg_ok 9 false 10 5 7 fresh_cg run_options_ok)
    as (rv & s & Hrun & Hok); [done|done|lia|done|].
  exists rv, s. split; [exact Hrun|].
  destruct Hok as (evs & callers & H1 & H2 & _ & H3 & H4); [|exists evs, callers; exact (conj H1 (conj H2 (conj H3 H4)))].
  vm_compute in Hrun. injection Hrun as <- _. reflexivity.
Defined.
