(* ===== verification/Main.v ===== *)
(** * Main: the program (main, main_fork, redirect_child_stdio, phpspy.c)

    [main] parses the options and picks the mode; [main_fork] runs a command
    under the tracer and turns its end into phpspy's exit status. *)
From S2P Require Import Prelude CLib Layout Context Versions Zval ZvalTheorems Trace Fout FoutSpec FoutTheorems TraceTheorems Options Session SessionTheorems.

(** ** main *)

Inductive run_mode := RunTop | RunPid (pid : Z) | RunPgrep (args : bytes) | RunFork (cmd : list bytes).

(** What [main] runs after [parse_opts]; [usage] ends the program otherwise. *)
Definition pick_mode (g : getopt_state) : PM run_mode := fun o =>
  if opt_top_mode o then Go (RunTop, o)
  else if negb (opt_pid o =? -1) then Go (RunPid (opt_pid o), o)
  else match opt_pgrep_args o with
       | Some args => Go (RunPgrep args, o)
       | None => if bool_decide (g_optind g < length (g_argv g))%nat then Go (RunFork (drop (g_optind g) (g_argv g)), o)
                 else usage true 1 o
       end.

Definition main (re : bytes -> option (bytes -> bool)) (argv : list bytes) : PM run_mode := parse_opts re argv ≫= pick_mode.

(** ** The child's output *)

(** Where [proc_fd] is redirected ([None]: nowhere); exit 1 if the file does not
    open. *)
Inductive redirect := Inherit | RedirectTo (path : bytes) | RedirectFails (path : bytes).

Definition redirect_child_stdio (opens : bytes -> bool) (pid : Z) (opt_path : bytes) : outcome redirect :=
  if strcmp_eq opt_path (cs "-") then Done Inherit else
  let path := if bool_decide (is_Some (strstr opt_path (cs "%d"))) then fmt_path (Some pid) opt_path else Done opt_path in
  match path with
  | Done p => Done (if opens p then RedirectTo p else RedirectFails p)
  | Fault f => Fault f
  | Diverge => Diverge
  end.

(** ** main_fork *)

Inductive wstatus := Exited (status : Z) | Signaled (sig : Z) | Stopped (sig : Z).

(** [fork] in the parent, and the two [waitpid]s ([None] for failure). *)
Record fork_env := { fe_fork : Z; fe_wait : option wstatus; fe_wait_end : option wstatus }.

Section main_fork.
Context {U : Type} `{EH : !EventHandler U}.
Context (E : target_env) (V : sys_env) (ar : arch) (o : options) (fuel turns : nat).

(** The exit status, and the ptrace calls made here. *)
Definition main_fork (fe : fork_env) : M (session U) (Z * list ptrace_call) :=
  if fe_fork fe <? 0 then mret (1, []) else
  match fe_wait fe with
  | None => mret (PHPSPY_ERR, [])
  | Some (Exited n) => mret (if negb (n =? 0) then n else 1, [])
  | Some (Signaled n) => mret (128 + n, [])
  | Some (Stopped _) =>
    rv ← main_pid E V ar o fuel false turns (fe_fork fe);
    mret (match fe_wait_end fe with
          | Some (Exited n) => n
          | Some (Signaled n) => 128 + n
          | _ => rv
          end, [Detach (fe_fork fe)])
  end.

End main_fork.

(** ** Lemmas *)

(** A command stops the option parser: its own options are left to it. *)
Lemma main_command re cmd args : head cmd <> Some "-"%char -> main re (cs "phpspy" :: cmd :: args) default_options = Go (RunFork (cmd :: args), default_options).
Proof.
  intros Hc. unfold main, mbind, PM_bind, parse_opts, parse_fuel. cbn [parse_loop g_argv g_optind lookup list_lookup].
  destruct cmd as [|[[] [] [] [] [] [] [] []] r]; first [reflexivity | exfalso; by apply Hc].
Qed.

(** The exit status of [phpspy cmd]: if the command ends before it is
    executed, phpspy samples nothing and never reports success; otherwise it
    detaches the command, samples it, and, whatever the sampling returned, ends
    with the command's own exit status, or 128 plus the signal that killed it.
    Only when neither is known does the sampler's result count. *)
Theorem main_fork_status {U} {EH : EventHandler U} {HS : HandlerSafe U} {HL : HandlerLife U} E V ar o fuel turns k fe (u : U) :
  run_ok o (fe_fork fe) -> eh_start u -> (k < turns)%nat -> sys_done V k = true -> 0 <= fe_fork fe ->
  exists code calls s, main_fork E V ar o fuel turns fe (start_session o (fe_fork fe) u) = Done ((code, calls), s)
    /\ match fe_wait fe with
       | Some (Stopped _) => calls = [Detach (fe_fork fe)]
         /\ match fe_wait_end fe with
            | Some (Exited n) => code = n
            | Some (Signaled n) => code = 128 + n
            | _ => code = PHPSPY_OK \/ s_codes s = []
            end
       | Some (Exited n) => code <> 0 /\ s_codes s = [] /\ (n <> 0 -> code = n)
       | Some (Signaled n) => code = 128 + n /\ s_codes s = []
       | None => code = PHPSPY_ERR /\ s_codes s = []
       end.
Proof.
  intros Ho Hu Hk Hd Hf. unfold main_fork. rewrite (proj2 (Z.ltb_ge _ _)) by done.
  destruct (fe_wait fe) as [[n|n|n]|]; [..|by eexists _, _, _].
  - eexists _, _, _. split; [done|]. destruct (Z.eqb_spec n 0); cbn [negb]; by split_and!.
  - by eexists _, _, _.
  - destruct (twp_done _ _ _ (main_pid_wp E V ar o fuel false (fe_fork fe) Ho False turns u (or_intror (ex_intro _ k (conj Hk Hd))) Hu))
      as (rv & s & Hrun & Hpost). unfold mbind, M_bind. rewrite Hrun. eexists _, _, s. split; [done|]. split; [done|].
    assert (rv = PHPSPY_OK \/ s_codes s = []) as Hrv by (destruct (rp_events _ _ _ _ _ Hpost) as [[-> _]|(_ & -> & _)]; auto).
    by destruct (fe_wait_end fe) as [[]|].
Qed.

(** ** Witness *)

(** The demonstration target is forked, runs, and ends with status 3. *)
Definition demo_fork : fork_env := {| fe_fork := 7; fe_wait := Some (Stopped 5); fe_wait_end := Some (Exited 3) |}.

Lemma main_fork_status_witness : exists code calls s,
  main_fork (EH := fout_handler run_options good_os) stack_env demo_sys X86_64 run_options 9 10 demo_fork (start_session run_options 7 fresh_fout)
    = Done ((code, calls), s) /\ calls = [Detach 7] /\ code = 3.
Proof.
  apply (main_fork_status (HL := run_life) stack_env demo_sys X86_64 run_options 9 10 5 demo_fork fresh_fout run_options_ok); [done|lia|done|done].
Defined.
