(* ===== verification/Process.v ===== *)
(** * Process: descriptors, pipes and children (top.c, phpspy.c)

    What [fork_child] and [main_top] do with descriptors on both sides of the
    [fork], and the child side of [main_fork].  A process is its table of
    descriptors, the children it has not waited for, and a counter for the
    pipes; a new descriptor is the lowest free one.  termbox, which opens the
    terminal for itself, is not modelled. *)
From S2P Require Import Prelude CLib Layout Context Versions Zval ZvalTheorems Trace Fout FoutSpec FoutTheorems TraceTheorems.
From S2P Require Import Options Session SessionTheorems Clock Uthash Top TopTheorems Main.

(** ** Descriptors *)

Inductive file := Given (n : nat) | Tty | PipeR (n : nat) | PipeW (n : nat) | OutFile (path : bytes).

Record process := { p_fds : gmap Z file; p_children : gset Z; p_pipes : nat }.
Definition set_fds (t : gmap Z file) (p : process) : process := {| p_fds := t; p_children := p_children p; p_pipes := p_pipes p |}.
Definition set_children (c : gset Z) (p : process) : process := {| p_fds := p_fds p; p_children := c; p_pipes := p_pipes p |}.
Definition new_pipe (p : process) : process := {| p_fds := p_fds p; p_children := p_children p; p_pipes := S (p_pipes p) |}.

(** Below the size of the table there is room for one more. *)
Fixpoint lowest_from (n : nat) (i : Z) (t : gmap Z file) : Z :=
  match n with
  | O => i
  | S n => match t !! i with None => i | Some _ => lowest_from n (i + 1) t end
  end.
Definition lowest (t : gmap Z file) : Z := lowest_from (size t) 0 t.

Definition open_fd (f : file) : M process Z :=
  p ← get;
  let fd := lowest (p_fds p) in
  put (set_fds (<[fd := f]> (p_fds p)) p);;
  mret fd.
Definition close (fd : Z) : M process unit := modify (fun p => set_fds (delete fd (p_fds p)) p).
(** Nothing happens when [old] is not open. *)
Definition dup2 (old new : Z) : M process unit :=
  modify (fun p => match p_fds p !! old with Some f => set_fds (<[new := f]> (p_fds p)) p | None => p end).
Definition pipe : M process (Z * Z) :=
  p ← get;
  let n := p_pipes p in
  put (new_pipe p);;
  r ← open_fd (PipeR n);
  w ← open_fd (PipeW n);
  mret (r, w).

(** ** fork_child, main_top *)

(** [pipe] twice and [fork] (the pid in the parent). *)
Record fork_os := { os_pipe1 : bool; os_pipe2 : bool; os_fork : Z }.

(** The child up to [execvp]. *)
Definition redirect_to_pipes (pout perr : Z * Z) : M process unit :=
  close pout.1;;
  dup2 pout.2 1;;
  close pout.2;;
  close perr.1;;
  dup2 perr.2 2;;
  close perr.2.

(** The process that [fork] makes: the same descriptors, no children. *)
Definition forked (p : process) : process := set_children ∅ p.

(** What [fork_child] leaves to [main_top], and the process that [execvp]
    starts. *)
Definition fork_child_fds (os : fork_os) : M process (fork_result * option process) :=
  if negb (os_pipe1 os) then mret (PipeFailed, None) else
  pout ← pipe;
  if negb (os_pipe2 os) then mret (PipeFailed, None) else
  perr ← pipe;
  if os_fork os <? 0 then mret (ForkFailed, None) else
  p ← get;
  put (set_children ({[os_fork os]} ∪ p_children p) p);;
  close pout.2;;
  close perr.2;;
  mret (Forked (os_fork os) pout.1 perr.1,
    match redirect_to_pipes pout perr (forked p) with Done (_, c) => Some c | _ => None end).

(** After the loop. *)
Definition top_cleanup (ttyfd pid outfd errfd : Z) : M process unit :=
  close outfd;;
  close errfd;;
  close ttyfd;;
  modify (fun p => set_children (p_children p ∖ {[pid]}) p). (* kill, waitpid *)

Section top.
Context {Q : Qsort}.

(** [open_tty]: whether [/dev/tty] opens. *)
Definition main_top_fds (o : options) (optind : nat) (argv : list bytes) (open_tty : bool) (os : fork_os)
    (out err : bytes) (ticks : list tick) : M process (top_result * option process) :=
  if (opt_pid o =? -1) && bool_decide (opt_pgrep_args o = None) && bool_decide (length argv <= optind)%nat then mret (TopUsage, None) else
  ttyfd ← (if open_tty then open_fd Tty else mret (-1));
  if ttyfd <? 0 then mret (TopFailed, None) else
  '(r, child) ← fork_child_fds os;
  let res := main_top o optind argv ttyfd r out err ticks in
  (match res, r with
   | TopRan _ true _, Forked pid outfd errfd => top_cleanup ttyfd pid outfd errfd
   | _, _ => mret tt
   end);;
  mret (res, child).

End top.

(** ** The child of main_fork *)

(** The end of [redirect_child_stdio]; [false] where it exits. *)
Definition redirect_fd (opens : bytes -> bool) (pid : Z) (proc_fd : Z) (opt_path : bytes) : M process bool :=
  match redirect_child_stdio opens pid opt_path with
  | Done Inherit => mret true
  | Done (RedirectTo path) => fd ← open_fd (OutFile path); dup2 fd proc_fd;; close fd;; mret true
  | Done (RedirectFails _) => mret false
  | Fault f => raise f
  | Diverge => diverge
  end.

(** [traced]: whether [ptrace(PTRACE_TRACEME)] worked; its result is ignored. *)
Inductive child_end := Execs (traced : bool) (argv : list bytes) | Exits (status : Z).

Definition main_fork_child (opens : bytes -> bool) (traceme_ok exec_ok : bool) (pid : Z) (o : options) (cmd : list bytes) : M process child_end :=
  ok ← redirect_fd opens pid 1 (opt_path_child_out o);
  if negb ok then mret (Exits 1) else
  ok ← redirect_fd opens pid 2 (opt_path_child_err o);
  if negb ok then mret (Exits 1) else
  mret (if exec_ok then Execs traceme_ok cmd else Exits 1).

(** What the first [waitpid] of the parent sees: a traced process stops at
    [execvp], any other when it ends, with [ended]. *)
Definition SIGTRAP : Z := 5.
Definition first_wait (ended : wstatus) (c : child_end) : wstatus :=
  match c with
  | Execs true _ => Stopped SIGTRAP
  | Execs false _ => ended
  | Exits n => Exited n
  end.

(** ** Lemmas *)

Lemma lowest_from_spec n i t : i <= lowest_from n i t <= i + Z.of_nat n
  /\ (forall j, i <= j < lowest_from n i t -> is_Some (t !! j)) /\ (lowest_from n i t < i + Z.of_nat n -> t !! lowest_from n i t = None).
Proof.
  revert i. induction n as [|n IH]; intros i; cbn [lowest_from]; [split_and!; intros; lia|].
  destruct (t !! i) as [f|] eqn:Hi; [|split_and!; intros; done || lia].
  destruct (IH (i + 1)) as (H1 & H2 & H3). split_and!; [lia|lia| |intros; apply H3; lia].
  intros j Hj. destruct (decide (j = i)) as [->|]; [by exists f|]. apply H2. lia.
Qed.

Lemma lowest_bound t : 0 <= lowest t <= Z.of_nat (size t).
Proof. destruct (lowest_from_spec (size t) 0 t) as (H & _). unfold lowest. lia. Qed.

(** There is always a free descriptor: otherwise the table would have more
    entries than it has. *)
Lemma lowest_free t : t !! lowest t = None.
Proof.
  destruct (lowest_from_spec (size t) 0 t) as (H1 & H2 & H3). fold (lowest t) in *.
  destruct (decide (lowest t < 0 + Z.of_nat (size t))) as [|Hge]; [auto|]. destruct (t !! lowest t) as [f|] eqn:Hf; [|done]. exfalso.
  assert (list_to_set (seqZ 0 (Z.of_nat (S (size t)))) ⊆ dom t) as Hsub.
  { intros j Hj. rewrite elem_of_list_to_set, elem_of_seqZ in Hj. apply elem_of_dom.
    destruct (decide (j = lowest t)) as [->|]; [by exists f|]. apply H2. lia. }
  apply subseteq_size in Hsub. rewrite size_list_to_set in Hsub by apply NoDup_seqZ. rewrite length_seqZ, size_dom in Hsub. lia.
Qed.

Lemma lowest_ne t fd : is_Some (t !! fd) -> lowest t <> fd.
Proof. intros Hs <-. rewrite lowest_free in Hs. by destruct Hs. Qed.

Lemma lowest_insert t f : lowest (<[lowest t := f]> t) <> lowest t /\ lowest (<[lowest t := f]> t) <= Z.of_nat (size t) + 1.
Proof.
  split; [apply lowest_ne; rewrite lookup_insert_eq; by eexists|]. pose proof (lowest_bound (<[lowest t := f]> t)) as H.
  rewrite map_size_insert_None in H by apply lowest_free. lia.
Qed.

(** [stdin], [stdout] and [stderr] are open. *)
Definition std_open (p : process) : Prop := forall fd, 0 <= fd <= 2 -> is_Some (p_fds p !! fd).

Lemma std_open_free p : std_open p -> 3 <= lowest (p_fds p).
Proof.
  intros Hp. pose proof (lowest_bound (p_fds p)). destruct (decide (lowest (p_fds p) <= 2)); [|lia].
  by destruct (lowest_ne (p_fds p) (lowest (p_fds p)) (Hp (lowest (p_fds p)) ltac:(lia))).
Qed.

Lemma std_open_insert p fd f : std_open p -> std_open (set_fds (<[fd := f]> (p_fds p)) p).
Proof. intros Hp i Hi. cbn. apply lookup_insert_is_Some. destruct (decide (fd = i)); [by left|right; auto]. Qed.

Lemma pipe_run p : std_open p ->
  exists r w t, pipe p = Done ((r, w), {| p_fds := t; p_children := p_children p; p_pipes := S (p_pipes p) |})
    /\ t = <[w := PipeW (p_pipes p)]> (<[r := PipeR (p_pipes p)]> (p_fds p))
    /\ p_fds p !! r = None /\ p_fds p !! w = None /\ r <> w /\ 3 <= r /\ 3 <= w
    /\ r <= Z.of_nat (size (p_fds p)) /\ w <= Z.of_nat (size (p_fds p)) + 1.
Proof.
  intros Hp. set (r := lowest (p_fds p)). set (t1 := <[r := PipeR (p_pipes p)]> (p_fds p)).
  destruct (lowest_insert (p_fds p) (PipeR (p_pipes p))) as [Hne Hle]. fold r t1 in Hne, Hle.
  pose proof (std_open_free _ Hp) as Hr. pose proof (std_open_free _ (std_open_insert _ r (PipeR (p_pipes p)) Hp)) as Hw. cbn in Hw. fold t1 in Hw.
  assert (p_fds p !! lowest t1 = None) as Hf.
  { rewrite <-(lookup_insert_ne (p_fds p) r (lowest t1) (PipeR (p_pipes p))) by done. apply lowest_free. }
  pose proof (lowest_bound (p_fds p)) as Hb. fold r in Hr, Hb.
  exists r, (lowest t1), (<[lowest t1 := PipeW (p_pipes p)]> t1). split_and!; try done; try lia. apply lowest_free.
Qed.


(** Equality of tables by comparing them at each descriptor. *)
Ltac table_lookup :=
  repeat (rewrite lookup_insert || rewrite lookup_delete); repeat case_decide; subst; first [done|lia|congruence].
Ltac table_eq := apply map_eq; let i := fresh in intros i; table_lookup.

Lemma dup2_run old new f p : p_fds p !! old = Some f -> dup2 old new p = Done (tt, set_fds (<[new := f]> (p_fds p)) p).
Proof. intros Hf. unfold dup2, modify. by rewrite Hf. Qed.

(** Four new descriptors, above the standard ones. *)
Record fresh_pipes (t : gmap Z file) (r1 w1 r2 w2 : Z) : Prop := {
  fp_free : Forall (fun fd => t !! fd = None /\ 3 <= fd) [r1; w1; r2; w2];
  fp_distinct : NoDup [r1; w1; r2; w2];
}.

Ltac pipes_cases H :=
  let Hf := fresh in let Hd := fresh in destruct H as [Hf Hd];
  rewrite !Forall_cons in Hf; destruct Hf as ([? ?] & [? ?] & [? ?] & [? ?] & _);
  rewrite !NoDup_cons in Hd; rewrite !not_elem_of_cons in Hd; destruct_and! Hd.

Lemma redirect_run r1 w1 r2 w2 n t c : fresh_pipes t r1 w1 r2 w2 ->
  p_fds c = <[w2 := PipeW (S n)]> (<[r2 := PipeR (S n)]> (<[w1 := PipeW n]> (<[r1 := PipeR n]> t))) ->
  exists c', redirect_to_pipes (r1, w1) (r2, w2) c = Done (tt, c')
    /\ p_fds c' = <[1 := PipeW n]> (<[2 := PipeW (S n)]> t) /\ p_children c' = p_children c.
Proof.
  intros Hfp Hc. pipes_cases Hfp. unfold redirect_to_pipes, close, mbind, M_bind, modify. cbn [fst snd].
  rewrite (dup2_run _ _ (PipeW n)) by (cbn; rewrite Hc; table_lookup).
  rewrite (dup2_run _ _ (PipeW (S n))) by (cbn; rewrite Hc; table_lookup).
  eexists. split; [reflexivity|]. split; [|done]. cbn. rewrite Hc. table_eq.
Qed.

Lemma fork_child_run os p : std_open p -> os_pipe1 os = true -> os_pipe2 os = true -> 0 <= os_fork os ->
  exists out err p' child,
    fork_child_fds os p = Done ((Forked (os_fork os) out err, Some child), p')
    /\ p_fds p' = <[err := PipeR (S (p_pipes p))]> (<[out := PipeR (p_pipes p)]> (p_fds p))
    /\ p_children p' = {[os_fork os]} ∪ p_children p
    /\ p_fds child = <[1 := PipeW (p_pipes p)]> (<[2 := PipeW (S (p_pipes p))]> (p_fds p)) /\ p_children child = ∅
    /\ p_fds p !! out = None /\ p_fds p !! err = None /\ out <> err
    /\ 3 <= out <= Z.of_nat (size (p_fds p)) + 3 /\ 3 <= err <= Z.of_nat (size (p_fds p)) + 3.
Proof.
  intros Hp H1 H2 H3. destruct (pipe_run p Hp) as (r1 & w1 & t1 & Hrun1 & Ht1 & Hr1 & Hw1 & Hn1 & Hr1' & Hw1' & Hb1 & Hb1').
  set (p1 := {| p_fds := t1; p_children := p_children p; p_pipes := S (p_pipes p) |}) in *.
  assert (std_open p1) as Hp1. { subst p1 t1. intros i Hi. cbn. rewrite !lookup_insert_ne by lia. auto. }
  destruct (pipe_run p1 Hp1) as (r2 & w2 & t2 & Hrun2 & Ht2 & Hr2 & Hw2 & Hn2 & Hr2' & Hw2' & Hb2 & Hb2').
  cbn [p_fds p_pipes p_children p1] in *. assert (size t1 = S (S (size (p_fds p)))) as Hsize.
  { subst t1. rewrite !map_size_insert_None; [done|done|]. by rewrite lookup_insert_ne. }
  rewrite Ht1, !lookup_insert_None in Hr2, Hw2. destruct Hr2 as [[Hr2 ?] ?], Hw2 as [[Hw2 ?] ?].
  assert (fresh_pipes (p_fds p) r1 w1 r2 w2) as Hfp.
  { split; [repeat constructor; done|]. rewrite !NoDup_cons, !not_elem_of_cons. split_and!; done || apply not_elem_of_nil || by constructor. }
  unfold fork_child_fds. rewrite H1, H2. cbn [negb]. unfold mbind, M_bind. rewrite Hrun1. cbv beta iota. rewrite Hrun2.
  rewrite (proj2 (Z.ltb_ge _ _)) by done. cbv beta iota. set (p2 := {| p_fds := t2; p_children := p_children p; p_pipes := S (S (p_pipes p)) |}).
  destruct (redirect_run r1 w1 r2 w2 (p_pipes p) (p_fds p) (forked p2) Hfp) as (child & Hchild & Hfds & Hch); [cbn; by rewrite Ht2, Ht1|].
  unfold get, put. cbv beta iota. rewrite Hchild. eexists r1, r2, _, child. split; [reflexivity|]. clear Hrun1 Hrun2 Hchild.
  split_and!; try done; [|lia|lia]. cbn. rewrite Ht2, Ht1. pipes_cases Hfp. table_eq.
Qed.

(** ** Theorems *)

(** The state between [fork_child] and the end of the loop. *)
Definition top_running (p p' : process) (tty out err pid : Z) : Prop :=
  p_fds p' = <[err := PipeR (S (p_pipes p))]> (<[out := PipeR (p_pipes p)]> (<[tty := Tty]> (p_fds p)))
  /\ p_children p' = {[pid]} ∪ p_children p.

Lemma open_fd_run f p : open_fd f p = Done (lowest (p_fds p), set_fds (<[lowest (p_fds p) := f]> (p_fds p)) p).
Proof. done. Qed.

Lemma top_cleanup_run p p' tty out err pid : top_running p p' tty out err pid ->
  p_fds p !! tty = None -> p_fds p !! out = None -> p_fds p !! err = None -> pid ∉ p_children p ->
  exists p'', top_cleanup tty pid out err p' = Done (tt, p'') /\ p_fds p'' = p_fds p /\ p_children p'' = p_children p.
Proof.
  intros [Hf Hc] H1 H2 H3 Hpid. eexists. split; [reflexivity|]. cbn. rewrite Hf, Hc. split; [|set_solver]. table_eq.
Qed.

(** C30. Top mode on one process ([-p]), when the system calls succeed.  The child runs with its
    stdout and stderr at the write ends of two pipes, and of the pipes has
    nothing else.  However its output is cut into reads, whenever the screen is
    redrawn or paused and whatever is typed, the loop never leaves its buffer and
    its descriptors fit into the sets of [select]; at any moment the counts of
    each function (shown totals plus new ones) are those of a prefix of the
    child's lines, and once the output was read to the end, those of all of them.
    While the loop runs, the parent holds the terminal and the two read ends and
    no write end, so that it sees the end of the child's output; when the loop is
    over, every descriptor that was opened is closed and the child has been waited
    for.  Lines are frames, comments or blank lines of less than 512 bytes. *)
Theorem main_top_runs {Q : Qsort} o optind argv os ls err ticks p :
  std_open p -> Z.of_nat (size (p_fds p)) + 4 < 1024 -> os_pipe1 os = true -> os_pipe2 os = true -> 0 < os_fork os -> os_fork os ∉ p_children p ->
  opt_pid o <> -1 -> Forall line_ok ls ->
  exists ended s child p' k ttyfd outfd errfd,
    main_top_fds o optind argv true os (join NL ls) err ticks p = Done ((TopRan (filter_child_args argv) ended s, Some child), p')
    /\ table_counts (tp_table s) (omap parse_line (take k ls)) /\ (tp_out s = [] -> take k ls = ls)
    /\ p_fds child = <[1 := PipeW (p_pipes p)]> (<[2 := PipeW (S (p_pipes p))]> (<[ttyfd := Tty]> (p_fds p)))
    /\ p_fds p !! ttyfd = None
    /\ if ended then p_fds p' = p_fds p /\ p_children p' = p_children p else top_running p p' ttyfd outfd errfd (os_fork os).
Proof.
  intros Hp Hsize H1 H2 H3 Hpid Ho Hls. pose proof (std_open_free p Hp) as Htty. pose proof (lowest_bound (p_fds p)) as Hb.
  pose proof (lowest_free (p_fds p)) as Hfree. set (tty := lowest (p_fds p)) in *. set (p1 := set_fds (<[tty := Tty]> (p_fds p)) p).
  destruct (fork_child_run os p1 (std_open_insert p tty Tty Hp) H1 H2 ltac:(lia)) as (out & er & p2 & child & Hrun & Hf & Hc & Hchild & _ & Hout & Her & Hne & Hbo & Hbe).
  cbn [p_fds p_pipes p_children p1 set_fds] in Hf, Hc, Hchild, Hout, Her, Hbo, Hbe. rewrite map_size_insert_None in Hbo, Hbe by done.
  apply lookup_insert_None in Hout as [Hout ?], Her as [Her ?].
  destruct (main_top_counts o optind argv tty (os_fork os) out er ls err ticks Hls Ho) as (ended & s & k & Hres & Hcount & Hend).
  { cbn. unfold fd_set_ok. lia. }
  assert (top_running p p2 tty out er (os_fork os)) as Hrunning by done.
  unfold main_top_fds. rewrite (proj2 (Z.eqb_neq _ _)) by done. cbn [andb]. unfold mbind, M_bind. rewrite open_fd_run. fold tty p1.
  rewrite (proj2 (Z.ltb_ge tty 0)), Hrun, Hres by lia. destruct ended.
  - destruct (top_cleanup_run p p2 tty out er (os_fork os) Hrunning Hfree Hout Her Hpid) as (p3 & Hcl & Hfds & Hch).
    rewrite Hcl. by exists true, s, child, p3, k, tty, out, er.
  - by exists false, s, child, p2, k, tty, out, er.
Qed.

(** Where a descriptor points after its redirection. *)
Definition redirected (fd : Z) (r : redirect) (t : gmap Z file) : gmap Z file :=
  match r with RedirectTo path => <[fd := OutFile path]> t | _ => t end.
Definition redirect_ok (r : redirect) : bool := match r with RedirectFails _ => false | _ => true end.

Lemma redirect_fd_run opens pid fd path r p : redirect_child_stdio opens pid path = Done r -> is_Some (p_fds p !! fd) ->
  exists p', redirect_fd opens pid fd path p = Done (redirect_ok r, p') /\ p_fds p' = redirected fd r (p_fds p).
Proof.
  intros Hr Hfd. unfold redirect_fd. rewrite Hr. destruct r as [|q|q]; [by eexists| |by eexists].
  unfold mbind, M_bind. rewrite open_fd_run. pose proof (lowest_free (p_fds p)) as Hfree. pose proof (lowest_ne (p_fds p) fd Hfd) as Hne.
  set (new := lowest (p_fds p)) in *. rewrite (dup2_run new fd (OutFile q)) by (cbn; table_lookup).
  eexists. split; [reflexivity|]. cbn. table_eq.
Qed.

Lemma redirected_open fd r p t : std_open p -> t = redirected fd r (p_fds p) -> forall i, 0 <= i <= 2 -> is_Some (t !! i).
Proof. intros Hp -> i Hi. destruct r; [by apply Hp| |by apply Hp]. by apply (std_open_insert p fd (OutFile path) Hp i). Qed.

(** C38. A command traced by phpspy: the child of [main_fork] executes it
    with stdout and stderr at the files of [-O] and [-E] (or where phpspy's are),
    and every other descriptor as phpspy has it, and, when the ptrace call works,
    stops there for the parent; if a file does not open, or the
    command cannot be executed, the child ends with status 1, and then phpspy
    ends with that status, has sampled nothing and detached from nothing. *)
Theorem main_fork_child_runs {U} {EH : EventHandler U} E V ar o fuel turns opens traceme_ok exec_ok pid cmd r1 r2 p fe ended (s : session U) :
  std_open p -> redirect_child_stdio opens pid (opt_path_child_out o) = Done r1 -> redirect_child_stdio opens pid (opt_path_child_err o) = Done r2 ->
  0 < fe_fork fe ->
  exists c p', main_fork_child opens traceme_ok exec_ok pid o cmd p = Done (c, p')
    /\ if redirect_ok r1 && redirect_ok r2 && exec_ok
       then c = Execs traceme_ok cmd /\ p_fds p' = redirected 2 r2 (redirected 1 r1 (p_fds p))
            /\ (traceme_ok = true -> first_wait ended c = Stopped SIGTRAP)
       else c = Exits 1 /\ (fe_wait fe = Some (first_wait ended c) -> main_fork E V ar o fuel turns fe s = Done ((1, []), s)).
Proof.
  intros Hp H1 H2 Hf.
  assert (fe_wait fe = Some (first_wait ended (Exits 1)) -> main_fork E V ar o fuel turns fe s = Done ((1, []), s)) as Hexit.
  { intros Hw. unfold main_fork. by rewrite (proj2 (Z.ltb_ge _ _)), Hw by lia. }
  destruct (redirect_fd_run opens pid 1 _ r1 p H1 (Hp 1 ltac:(lia))) as (p1 & Hrun1 & Hf1).
  pose proof (redirected_open 1 r1 p _ Hp Hf1) as Hp1.
  destruct (redirect_fd_run opens pid 2 _ r2 p1 H2 (Hp1 2 ltac:(lia))) as (p2 & Hrun2 & Hf2). rewrite Hf1 in Hf2.
  unfold main_fork_child, mbind, M_bind. rewrite Hrun1. destruct (redirect_ok r1); [|by eexists _, _]. cbn [negb andb].
  rewrite Hrun2. destruct (redirect_ok r2); [|by eexists _, _]. cbn [negb andb]. destruct exec_ok; eexists _, _; split_and!; try done. by intros ->.
Qed.

(** ** Witnesses *)

Definition shell_process : process := {| p_fds := {[0 := Given 0; 1 := Given 1; 2 := Given 2]}; p_children := ∅; p_pipes := 0 |}.

Lemma shell_process_std : std_open shell_process.
Proof. intros fd Hfd. assert (fd = 0 \/ fd = 1 \/ fd = 2) as [->|[->| ->]] by lia; by eexists. Qed.

Definition top_os : fork_os := {| os_pipe1 := true; os_pipe2 := true; os_fork := 8 |}.

(** The child of top mode gets 1 and 2, the parent is as before. *)
Lemma main_top_runs_witness : exists s child p',
  @main_top_fds merge_qsort demo_options 1 [cs "phpspy"; cs "-p"; cs "7"; cs "-t"] true top_os (join NL demo_lines) [] demo_ticks shell_process
    = Done ((TopRan [cs "phpspy"; cs "-p"; cs "7"; cs "-@"] true s, Some child), p')
  /\ table_counts (tp_table s) [(0, cs "g a.php:3"); (1, cs "main a.php:9"); (0, cs "h a.php:4")]
  /\ p_fds child = {[0 := Given 0; 1 := PipeW 0; 2 := PipeW 1; 3 := Tty]} /\ p_fds p' = p_fds shell_process.
Proof.
  destruct (@main_top_runs merge_qsort demo_options 1 [cs "phpspy"; cs "-p"; cs "7"; cs "-t"] top_os demo_lines [] demo_ticks shell_process)
    as (ended & s & child & p' & k & tty & out & er & Hrun & Hc & Hend & Hchild & Htty & Hp');
    [apply shell_process_std|vm_compute; reflexivity|reflexivity|reflexivity|reflexivity|cbn; apply not_elem_of_empty|done| |].
  - apply (bool_decide_unpack _). vm_compute. reflexivity.
  - assert (ended = true /\ tp_out s = [] /\ p_fds child = {[0 := Given 0; 1 := PipeW 0; 2 := PipeW 1; 3 := Tty]}) as (-> & Hout & Hfds).
    { clear Hc Hend Hchild Hp' Htty. vm_compute in Hrun. injection Hrun as <- <- <- _. split; [|split]; vm_compute; reflexivity. }
    exists s, child, p'. split; [exact Hrun|]. rewrite (Hend Hout) in Hc. split; [exact Hc|]. split; [exact Hfds|apply Hp'].
Defined.

Definition demo_exec : fork_env := {| fe_fork := 7; fe_wait := Some (Stopped SIGTRAP); fe_wait_end := Some (Exited 0) |}.

(** With the default [-O] and [-E]. *)
Lemma main_fork_child_runs_witness : exists p',
  main_fork_child (fun _ => true) true true 7 default_options [cs "php"] shell_process = Done (Execs true [cs "php"], p')
  /\ p_fds p' = {[0 := Given 0; 1 := OutFile (cs "phpspy.7.out"); 2 := OutFile (cs "phpspy.7.err")]}.
Proof.
  destruct (main_fork_child_runs (EH := fout_handler run_options good_os) stack_env demo_sys X86_64 default_options 9 10 (fun _ => true) true true 7
    [cs "php"] (RedirectTo (cs "phpspy.7.out")) (RedirectTo (cs "phpspy.7.err")) shell_process demo_exec (Exited 0) (start_session run_options 7 fresh_fout)
    shell_process_std) as (c & p' & Hrun & Hc & Hfds & _); [reflexivity|reflexivity|reflexivity|].
  cbn in Hc. subst c. exists p'. split; [exact Hrun|]. rewrite Hfds. vm_compute. reflexivity.
Defined.
